(* ===== verification/_CoqProject ===== *)
-Q . S2P
Prelude.v
Framing.v
Words.v
Ring.v
RingSet.v
Layout.v
World.v
Upload.v
Broadcast.v
Commands.v
Download.v
CanTx.v
CanRx.v
Wire.v
Along.v
Ports.v
Init.v
Flash.v
Pps.v
BcastMachine.v
FrameQueue.v
Threads.v
System.v
Traffic.v
Sockets.v
Sched.v
Unused.v
