(* ===== verification/Prelude.v ===== *)
(** * Verification of the ZMHT ZYNQ CAN gateway

    The program (all paths are under [src/ZMHT-ZYNQ-CAN/]) runs on a ZYNQ board
    with six CAN channels.  [src/main18.c] is the gateway; it uses the ring
    buffers of [src/ringbuffer_channels.c] and the driver interface of
    [src/axican/].  Beside it stand the kernel driver of the second pulse
    ([src/zmuav_pl2ps_irq.c]) and a flash programmer ([src/flashcp.c]).

    ** The program and its parts

    A PC speaks to four TCP ports.  Port 9009 takes commands: configuration of
    a channel, start and stop, the broadcast schedule, and queries.  Port 9012
    takes downloaded data: frames to send, answers of the simulator, broadcast
    groups.  Port 9010 gives received and monitored frames to the PC, port 9011
    gives events.  One family of threads per channel moves the frames:

    - downloaded frames: 9012, [g_data_buf_set], [axican_data_send_thread], device;
    - received frames: device, [axican_data_recv_thread], [g_can_buf_set],
      [axican_data_process_thread], 9010; in the stand-alone mode
      [along_data_tid_thread] takes them instead and answers on the device;
    - monitored sent frames: device, [g_poll_buf_set],
      [axican_data_process_thread_1], 9010;
    - broadcast groups: 9012, [g_bcast_group_buf_set], and, when the second
      pulse selects the channel, [broadcast_can_send_thread].

    ** The files

    - [Prelude]: machine integers, bytes and little-endian words, bounds-checked
      memory ([mem_read], [mem_write]), the monad [M] with its weakest
      precondition [wp], and [wp_or] for a computation that may go wrong in a
      named case, what every completed run of a computation [keeps], tactics and
      hint databases.
    - [Framing]: the search of packets in a byte stream that both input ports
      share, as a class ([Framing], [Header]) that the two parsers instantiate.
    - [Words]: [reverse_2bytes], [reverse_4bytes], [calculate_xor_checksum].
    - [Ring]: the ring buffer of one channel, its heap with the oracle of
      [malloc], and its specification, a bounded queue.
    - [RingSet]: [RingBuffer32ChSet], [ringbuffer_32ch_init] with its roll-back,
      [ringbuffer_32ch_destory] and the channel operations.
    - [Layout]: the packed structures; class [Packed] gives size and round trips.
    - [World]: the global variables ([world]), the mutexes the running thread
      holds, and the trace of system calls; class [OS] is the oracle that
      answers them.
    - [Upload]: [send_event], the status frames and the replies of the commands.
    - [Broadcast]: the schedule, [select_broadcast_mask_on_pps],
      [process_broadcast_pps], the group queue and the sending of groups.
    - [Commands]: [handle_can_config], [handle_can_buf_query],
      [handle_can_info_query], [handle_can_start_stop], [parse_request_packet]
      and [tcp_client_handler_9009].
    - [Download]: [process_9012_can_payload_frames],
      [process_download_data_batch] and [tcp_client_handler_9012].
    - [CanTx]: [send_single_frame] and [axican_data_send_thread].
    - [CanRx]: [axican_read_data], [axican_read_data_t] and the threads of the
      two reporting pipelines.
    - [Wire]: the bytes of a frame from a download to the device and from the
      device to the client, at their offsets ([single_element], [report_bytes]).
    - [Along]: the stand-alone simulator, [along_data_tid_thread].
    - [Ports]: the listeners, the clients of ports 9010 and 9011, and
      [buffer_report_thread].
    - [Init]: [main], its start and its end, and [destroy_all_ring_buffers].
    - [Pps]: the pulse driver, its open files ([fops]), and [pps_irq_thread].
    - [Flash]: [flashcp_main] and its reading and writing functions.
    - [BcastMachine]: the abstract machine of the broadcast: its transitions
      ([b_step]), what any run of it promises ([machine_account]), its state in
      the state of the program ([bview]), and the transitions of the handlers.
    - [FrameQueue]: [src/can_frame_queue.c], an earlier queue of linked nodes
      that the build does not compile.
    - [Threads]: the variables of each thread ([local]), one pass of its loop
      ([turn]) with what the system gives it ([input]), and what every turn
      keeps ([turn_spec]): well-formedness, the order of the queues, and the
      transitions of the broadcast machine it makes ([turn_labels]).
    - [System]: all the threads over the shared state ([sys_step], [sys_run]),
      from the threads [main] started ([gateway]), and the theorems about every
      state they can reach together ([reaches]); a run with clients, downloads
      and a sender shows that the hypotheses can hold.
    - [Traffic]: the broadcast and the uplink over those runs: the broadcast
      machine explains every run, and the frames of a device are followed to the
      client of port 9010.
    - [Sockets]: the sockets the threads share, over those runs.  Every function
      of a thread is checked by one rule for each construct of the code.
    - [Sched]: the scheduling class, nice value and processor each thread asks
      for at its start ([thread_scheduling]).
    - [Unused]: functions that nothing calls: the earlier buffers of generic
      frames ([buffer_write_data], [can_buffer_extract]), two older status
      frames, [handle_along_mode], [diff_timespec], [can_buffer_insert_batch]
      and [axican_poll].

    ** How the code is read

    A C function is a function in the monad [M S A], which gives a result and a
    new state, or is stuck.  Being stuck is undefined behaviour or deadlock: an
    access outside an object, a null pointer, a mutex taken twice, out of
    order, or released without being held, or a variable of type [pthread_t]
    that no call has set.  Safety theorems say that no execution is stuck; where
    the code can go wrong the case is named and the theorem says exactly when:
    [goes_wrong] (a listener that cannot start its first client thread detaches
    a variable that was never set), [dequeue_arg_refused] (the memory for the
    argument of a dequeuing thread is refused), and the joins of [main_stop]
    through variables that were never set.  A failed [pthread_create] leaves its
    variable as it was, and detaching an identifier a second time is a call
    without effect on the state.  A loop over the bytes or frames at hand is a
    [Fixpoint]; a fuel counter that runs out is stuck as well, so these theorems
    cover termination.  An endless loop of a thread is modelled by its turn, and by
    the list of its turns or of the answers it gets; the properties then hold
    for every such list.

    Integers keep their width: every operation that can leave the range of its
    type is followed by [wrap], or by [s32] for the signed 32-bit types of the
    target, [int] and [time_t], which wrap around as compiled there.  Structures are unpacked from and packed into
    their bytes where the code casts pointers.

    What the operating system, the CAN driver or [malloc] answer is any
    function of the calls made before, so that failures are always included.
    Theorems that need a good answer state it as a hypothesis, and have a
    witness with a concrete oracle.

    Threads.  A transaction is what a thread does while it holds the mutex that
    protects its data; the interleavings of the threads are the inductive
    relations [bc_run], [dl_run], [uplink_run], [sim_run], [port_run] and
    [irq_run] over transactions.  The whole program is [sys_run]: any thread
    that was started takes the next turn, and a listener adds the clients it
    hands a socket to; the theorems of [System], [Traffic] and [Sockets] start
    from [main] and need no assumption on the other threads.  A frame moves
    through queues that have one producer and one consumer thread, each of which
    changes one counter of the ring; its operations are atomic steps of these relations.  (After a switch
    back from the stand-alone mode a received-frames queue has two consumers,
    one of them in its last wait; this is recorded as a finding.)

    ** What the theorems show

    - the whole program: in every state the threads can reach together, the
      state and the variables of the threads are well formed
      ([running_well_formed]), the next turn of every thread ends, but for the
      listener that goes wrong ([running_never_stuck]), every queue is in order and within its capacity
      ([queues_in_order]), a download reaches the device of its channel in
      whole messages, in order and at most once ([downlink_in_order]), and the
      queue of an open channel drains, one frame for each turn of its sender
      ([downlink_drains]); the broadcast is the abstract machine of
      [BcastMachine], so that nothing of an old schedule is taken and every group
      taken is sent once, in order ([running_broadcast]); and the frames of a
      device reach the PC in order and at most once, all of those taken when the
      client takes every packet ([uplink_running]); and the threads send only on
      sockets of running clients, and none closes the socket of another
      ([sockets_running]);
    - queues: a ring buffer behaves as a bounded first-in first-out queue
      ([ring_refines_fifo]), a channel set as independent queues
      ([channel_set_refines_queues]), and initialisation leaks nothing
      ([channel_set_init_no_leak]); the start and the end of [main] have a
      theorem for every outcome, the two that go wrong included
      ([startup_outcome], [stop_releases]);
    - input ports: no bytes a client can send make the program stuck
      ([command_port_safe], [download_port_safe], [simulator_never_stuck]), the
      cutting of the stream does not matter ([segmentation_independent],
      [download_segmentation]), packets are executed in order and once
      ([packets_dispatched_in_order]), payloads are queued whole or not at all
      ([payload_all_or_nothing], [group_enqueue_atomic]), and a replaced client
      is silent ([replaced_client_silent]);
    - commands: effect and reply on every branch ([can_config_outcome],
      [start_stop_outcome], [broadcast_config_iff_valid]; the replies in [Upload]);
    - broadcast: nothing of an old schedule is taken ([no_stale_broadcast]),
      polling is fair ([polling_round_robin]), a group is sent in order
      ([send_group_in_order]), no pulse is lost between the driver and its
      thread ([no_pulse_lost], [pps_thread_serves]);
    - channels: sending ([send_thread_refines], [written_messages_complete],
      [whole_message_written]), receiving and reporting ([device_frames_queued],
      [report_turn_in_order], [uplink_in_order]), the bytes of both directions
      ([wire_bytes]), the simulator ([along_turn_refines], [command_answered]);
    - sockets: [sockets_running], [socket_lifecycle], [listener_hands_over], [periodic_report];
    - resources and flash: [probe_balanced], [flash_programmed], [flashcp_ends],
      [frame_queue_fifo], and [flash_verified]: reads may fail, but a result of 0
      without a short-read message means the data are there;
    - data: [rounddown_pow_of_two_largest];
    - scheduling: [thread_scheduling_outcome], [normal_everywhere] and
      [monitors_spread];
    - unused code: [can_buffer_refines_queue], [diff_timespec_wraps],
      [insert_batch_outcome], [received_frame_overread], [status_overread],
      [along_mode_outcome].

    ** Fuel and bounds

    The command and download loops get one more than the number of bytes they
    look at; every turn that goes on consumes a byte ([frame_loop]).  Loops
    over frames or channels have the bound of the [for] statement they model.
    [full_write] and [full_read] get the number of bytes to transfer, and every
    turn that goes on transfers one; the interruption counter of [safe_read]
    and [safe_write] is the constant of the code; a pass over the flash gets
    one turn per 64 KiB and one more.  In all these cases a theorem shows that
    the counter does not run out.

    ** Not modelled

    - Messages on the console, but for the short read of [xread], which is
      counted, the value of [errno] other than [EINTR], pauses and signals; which thread the scheduler picks is left open;
    - data races on the counters that several threads change without a mutex
      ([data_counter], the event counter): a step reads and writes them at once;
    - [CAN_byte_thread] and [print_can_frame_detail], which nothing calls and
      which only print;
    - [src/upgrade_flash.h] and [src/zhenghe/], which only declare, and the
      generated build files. *)
From Stdlib Require Export ZArith Lia.
From Stdlib Require Export Init.Byte.
From stdpp Require Export base list gmap numbers.
From Stdlib Require Strings.Byte.
From coqutil Require Word.LittleEndianList Byte.

#[export] Set Default Goal Selector "!".
#[export] Set Warnings "-clear-no-such-hyp".
#[global] Open Scope Z_scope.
#[global] Open Scope list_scope.

(** The hint databases of the development: [zmht] holds the resolution hints
    (preservation lemmas and frame facts), [zmht_bytes] the rewriting rules of
    the byte codecs, [zmht_st] the rewriting rules of the record setters. *)
Create HintDb zmht.
Create Rewrite HintDb zmht_bytes.
Create Rewrite HintDb zmht_st.

(** ** Relations *)

#[export] Instance both_preorder {A} (R1 R2 : A -> A -> Prop) :
  PreOrder R1 -> PreOrder R2 -> PreOrder (fun x y => R1 x y /\ R2 x y).
Proof.
  intros [] []. split; [by intros x; split|]. intros x y z [] []. split; by etransitivity.
Qed.

(** ** Machine integers

    A C integer of width [w] is a [Z]; every operation that can leave its range
    is followed by the wrap-around of its type. *)
Definition wrap (w z : Z) : Z := z mod 2 ^ w.
Abbreviation u8 := (wrap 8).
Abbreviation u16 := (wrap 16).
Abbreviation u32 := (wrap 32).
Abbreviation u64 := (wrap 64).

Definition in_range (w z : Z) : Prop := 0 <= z < 2 ^ w.
Abbreviation is_u8 := (in_range 8).
Abbreviation is_u16 := (in_range 16).
Abbreviation is_u32 := (in_range 32).
Abbreviation is_u64 := (in_range 64).

Lemma wrap_range w z : 0 <= w -> in_range w (wrap w z).
Proof. intros Hw. apply Z.mod_pos_bound, Z.pow_pos_nonneg; lia. Qed.

Lemma wrap_small w z : in_range w z -> wrap w z = z.
Proof. apply Z.mod_small. Qed.

Lemma wrap_wrap w z : wrap w (wrap w z) = wrap w z.
Proof. apply Zmod_mod. Qed.

Lemma wrap_mask w z : 0 <= w -> Z.land z (Z.ones w) = wrap w z.
Proof. apply Z.land_ones. Qed.

#[export] Hint Resolve wrap_range : zmht.

(** ** Bytes and little-endian words

    The target is a little-endian ARM: the bytes of a packed structure are the
    concatenation of the little-endian bytes of its fields. *)
Abbreviation byte := Init.Byte.byte.
Abbreviation bytes := (list Init.Byte.byte).

#[export] Instance byte_eq_dec : EqDecision Init.Byte.byte := Stdlib.Strings.Byte.byte_eq_dec.

Abbreviation le_enc := Word.LittleEndianList.le_split.
Abbreviation le_dec := Word.LittleEndianList.le_combine.

Definition zlen {A} (l : list A) : Z := Z.of_nat (length l).

(** [fld off n bs]: the [n]-byte little-endian integer at byte offset [off]. *)
Definition fld (off n : nat) (bs : bytes) : Z := le_dec (take n (drop off bs)).

(** [slice off n bs]: the [n] bytes at byte offset [off]. *)
Definition slice (off n : nat) (bs : bytes) : bytes := take n (drop off bs).

Lemma length_le_enc n z : length (le_enc n z) = n.
Proof. apply Word.LittleEndianList.length_le_split. Qed.

Lemma le_dec_enc n z : le_dec (le_enc n z) = wrap (Z.of_nat n * 8) z.
Proof. apply Word.LittleEndianList.le_combine_split. Qed.

Lemma le_enc_dec bs : le_enc (length bs) (le_dec bs) = bs.
Proof. apply Word.LittleEndianList.split_le_combine. Qed.

Lemma le_dec_bound bs : in_range (8 * zlen bs) (le_dec bs).
Proof. apply Word.LittleEndianList.le_combine_bound. Qed.

Lemma le_dec_inj bs1 bs2 :
  length bs1 = length bs2 -> le_dec bs1 = le_dec bs2 -> bs1 = bs2.
Proof. apply Word.LittleEndianList.le_combine_inj. Qed.

Lemma fld_range off n bs w :
  8 * Z.of_nat n = w -> in_range w (fld off n bs).
Proof.
  intros <-. unfold fld, in_range.
  pose proof (le_dec_bound (take n (drop off bs))) as [H0 H1].
  split; [done |]. eapply Z.lt_le_trans; [exact H1 |].
  apply Z.pow_le_mono_r; [lia |].
  unfold zlen. rewrite length_take, length_drop. lia.
Qed.

Lemma fld_here n z bs : fld 0 n (le_enc n z ++ bs) = wrap (Z.of_nat n * 8) z.
Proof.
  unfold fld. rewrite drop_0, take_app_le by (rewrite length_le_enc; lia).
  rewrite take_ge by (rewrite length_le_enc; lia). apply le_dec_enc.
Qed.

Lemma fld_here' n z : fld 0 n (le_enc n z) = wrap (Z.of_nat n * 8) z.
Proof. rewrite <- (app_nil_r (le_enc n z)). apply fld_here. Qed.

Lemma fld_skip off n l bs :
  (length l <= off)%nat -> fld off n (l ++ bs) = fld (off - length l) n bs.
Proof. intros H. unfold fld. rewrite drop_app_ge by done. done. Qed.

Lemma fld_skip_enc off n m z bs :
  (m <= off)%nat -> fld off n (le_enc m z ++ bs) = fld (off - m) n bs.
Proof. intros H. rewrite fld_skip; rewrite length_le_enc; done. Qed.

Lemma fld_take off n m bs :
  (off + n <= m)%nat -> fld off n (take m bs) = fld off n bs.
Proof.
  intros H. unfold fld. rewrite skipn_firstn_comm, take_take.
  f_equal. f_equal. lia.
Qed.

Lemma fld_drop off n k bs : fld off n (drop k bs) = fld (k + off) n bs.
Proof. unfold fld. by rewrite drop_drop. Qed.

Lemma le_enc_fld off n bs :
  (off + n <= length bs)%nat -> le_enc n (fld off n bs) = slice off n bs.
Proof.
  intros H. unfold fld, slice.
  rewrite <- (le_enc_dec (take n (drop off bs))) at 2.
  rewrite length_take, length_drop. by replace (min n (length bs - off))%nat with n by lia.
Qed.

Lemma take_add_split {A} n m (l : list A) :
  take (n + m) l = take n l ++ take m (drop n l).
Proof.
  rewrite <- (take_drop n (take (n + m) l)), take_take, skipn_firstn_comm.
  f_equal; f_equal; lia.
Qed.

Lemma slice_app off n m bs :
  slice off n bs ++ slice (off + n) m bs = slice off (n + m) bs.
Proof. unfold slice. by rewrite take_add_split, drop_drop. Qed.

Lemma slice_app_assoc off n m bs l :
  slice off n bs ++ slice (off + n) m bs ++ l = slice off (n + m) bs ++ l.
Proof. by rewrite app_assoc, slice_app. Qed.

Lemma slice_all n bs : length bs = n -> slice 0 n bs = bs.
Proof. intros <-. unfold slice. rewrite drop_0. by apply take_ge. Qed.

Lemma length_slice off n bs :
  (off + n <= length bs)%nat -> length (slice off n bs) = n.
Proof. intros H. unfold slice. rewrite length_take, length_drop. lia. Qed.

(** Overwriting a part of a byte string and reading it back. *)
Lemma slice_update_same a x d :
  (a + length x <= length d)%nat ->
  slice a (length x) (take a d ++ x ++ drop (a + length x) d) = x.
Proof.
  intros H. unfold slice. rewrite drop_app_ge by (rewrite length_take; lia).
  rewrite length_take, Nat.min_l by lia. rewrite Nat.sub_diag, drop_0.
  by rewrite take_app_le, firstn_all by lia.
Qed.

Lemma slice_update_before a n b x d :
  (a + n <= b)%nat -> (b + length x <= length d)%nat ->
  slice a n (take b d ++ x ++ drop (b + length x) d) = slice a n d.
Proof.
  intros H1 H2. unfold slice.
  rewrite drop_app_le by (rewrite length_take; lia).
  rewrite take_app_le by (rewrite length_drop, length_take; lia).
  rewrite skipn_firstn_comm, take_take. f_equal. lia.
Qed.

Lemma slice_update_after a n b x d :
  (b + length x <= a)%nat -> (b + length x <= length d)%nat ->
  slice a n (take b d ++ x ++ drop (b + length x) d) = slice a n d.
Proof.
  intros H1 H2. unfold slice. rewrite app_assoc.
  rewrite drop_app_ge by (rewrite length_app, length_take; lia).
  rewrite drop_drop, length_app, length_take. f_equal. f_equal. lia.
Qed.

#[export] Hint Rewrite @length_app length_le_enc @length_take @length_drop
  @length_replicate @length_insert @length_fmap : zmht_bytes.

(** [zlen_simpl] turns the lengths of the byte expressions of the goal and the
    context into integer arithmetic. *)
Ltac zlen_simpl :=
  unfold zlen in *; autorewrite with zmht_bytes in *; simpl length in *.

Ltac zlia := zlen_simpl; lia.

Lemma zlen_app {A} (l1 l2 : list A) : zlen (l1 ++ l2) = zlen l1 + zlen l2.
Proof. zlia. Qed.

(** [bool_prop] turns the boolean tests of the context into propositions. *)
Ltac bool_prop :=
  repeat match goal with
  | H : (_ || _)%bool = true |- _ => apply orb_true_iff in H as [H|H]
  | H : (_ || _)%bool = false |- _ => apply orb_false_iff in H as [? H]
  | H : (_ && _)%bool = true |- _ => apply andb_true_iff in H as [? H]
  | H : (_ && _)%bool = false |- _ => apply andb_false_iff in H as [H|H]
  | H : negb _ = true |- _ => apply negb_true_iff in H
  | H : negb _ = false |- _ => apply negb_false_iff in H
  | H : (_ =? _) = true |- _ => apply Z.eqb_eq in H
  | H : (_ =? _) = false |- _ => apply Z.eqb_neq in H
  | H : (_ <? _) = true |- _ => apply Z.ltb_lt in H
  | H : (_ <? _) = false |- _ => apply Z.ltb_ge in H
  | H : (_ <=? _) = true |- _ => apply Z.leb_le in H
  | H : (_ <=? _) = false |- _ => apply Z.leb_gt in H
  | H : (_ >? _) = _ |- _ => rewrite Z.gtb_ltb in H
  | H : (_ >=? _) = _ |- _ => rewrite Z.geb_leb in H
  | H : bool_decide _ = true |- _ => apply bool_decide_eq_true in H
  | H : bool_decide _ = false |- _ => apply bool_decide_eq_false in H
  end.

(** ** Prefixes and sublists *)

Lemma take_insert_snoc {A} (l : list A) n a :
  (n < length l)%nat -> take (S n) (<[n := a]> l) = take n l ++ [a].
Proof.
  intros Hn. rewrite (take_S_r _ _ a) by (by apply list_lookup_insert_eq).
  by rewrite take_insert_ge by lia.
Qed.

Lemma sublist_rev {A} (l1 l2 : list A) : l1 `sublist_of` l2 -> rev l1 `sublist_of` rev l2.
Proof.
  induction 1 as [|x l1 l2 _ IH|x l1 l2 _ IH]; simpl; [done | by apply sublist_app|].
  by apply sublist_inserts_r.
Qed.

Lemma sublist_omap {A B} (f : A -> option B) (l1 l2 : list A) :
  l1 `sublist_of` l2 -> omap f l1 `sublist_of` omap f l2.
Proof.
  induction 1 as [|x l1 l2 _ IH|x l1 l2 _ IH]; simpl; [done | | ];
    destruct (f x); [by apply sublist_skip | done | by apply sublist_cons | done].
Qed.

Lemma sublist_Forall {A} (P : A -> Prop) (l1 l2 : list A) :
  l1 `sublist_of` l2 -> Forall P l2 -> Forall P l1.
Proof.
  induction 1 as [|x l1 l2 _ IH|x l1 l2 _ IH]; intros Hf; [done | |];
    apply list.Forall_cons in Hf as [? ?]; [constructor | ]; auto.
Qed.

Lemma sublist_single {A} (l : list A) a : l `sublist_of` [a] -> l = [] \/ l = [a].
Proof.
  intros Hs. inversion Hs as [|x l1 l2 Hn|x l1 l2 Hn]; subst; apply sublist_nil_r in Hn as ->; auto.
Qed.

(** ** Memory objects

    A memory object that is owned by one pointer is the list of its bytes;
    [mem_read] and [mem_write] are [memcpy] from and to it, and [None] is an
    access out of the bounds of the object. *)
Definition mem_read (off n : Z) (src : bytes) : option bytes :=
  if (0 <=? off) && (0 <=? n) && (off + n <=? zlen src)
  then Some (slice (Z.to_nat off) (Z.to_nat n) src) else None.

Definition mem_write (off : Z) (src dst : bytes) : option bytes :=
  if (0 <=? off) && (off + zlen src <=? zlen dst)
  then Some (take (Z.to_nat off) dst ++ src ++ drop (Z.to_nat off + length src) dst)
  else None.

(** An owning pointer: [None] is [NULL], [Some (l, a)] the address of a heap
    block and what the block holds. *)
Abbreviation loc := positive.
Abbreviation ptr A := (option (positive * A)).

Lemma mem_read_ok off n src :
  0 <= off -> 0 <= n -> off + n <= zlen src ->
  mem_read off n src = Some (slice (Z.to_nat off) (Z.to_nat n) src).
Proof.
  intros H1 H2 H3. unfold mem_read.
  by rewrite !(proj2 (Z.leb_le _ _)) by done.
Qed.

Lemma mem_write_ok off src dst :
  0 <= off -> off + zlen src <= zlen dst ->
  mem_write off src dst =
    Some (take (Z.to_nat off) dst ++ src ++ drop (Z.to_nat off + length src) dst).
Proof.
  intros H1 H2. unfold mem_write.
  by rewrite !(proj2 (Z.leb_le _ _)) by done.
Qed.

Lemma mem_write_length off src dst dst' :
  mem_write off src dst = Some dst' -> length dst' = length dst.
Proof.
  unfold mem_write. destruct (_ && _)%bool eqn:E; [|done]. intros [= <-].
  apply andb_true_iff in E as [E1%Z.leb_le E2%Z.leb_le]. zlia.
Qed.

Lemma mem_write_nil off dst :
  0 <= off <= zlen dst -> mem_write off [] dst = Some dst.
Proof.
  intros H. rewrite mem_write_ok by zlia. f_equal. simpl.
  by rewrite Nat.add_0_r, take_drop.
Qed.

(** ** Effects

    Stateful C code is a function in the monad [M S]: it takes the state and
    returns a result with the new state, or [None] when the execution is stuck.
    A stuck execution is an undefined behaviour of the C program (an access out
    of the bounds of its object, a null dereference, a double free), a
    violation of the lock hierarchy or a recursive lock (both possible
    deadlocks), or a loop that runs out of the fuel it was given.  The safety
    theorems prove that no execution from a well-formed state is stuck. *)
Declare Scope c_scope.
Delimit Scope c_scope with c.

Definition M (S A : Type) : Type := S -> option (A * S).

Section Monad.
Context {S : Type}.

Definition ret {A} (a : A) : M S A := fun s => Some (a, s).
Definition bind {A B} (m : M S A) (f : A -> M S B) : M S B :=
  fun s => match m s with Some (a, s') => f a s' | None => None end.
Definition stuck {A} : M S A := fun _ => None.
Definition gets {A} (f : S -> A) : M S A := fun s => Some (f s, s).
Definition modify (f : S -> S) : M S unit := fun s => Some (tt, f s).
Definition ensure (b : bool) : M S unit := if b then ret tt else stuck.
Definition of_option {A} (o : option A) : M S A :=
  match o with Some a => ret a | None => stuck end.
Definition when (b : bool) (m : M S unit) : M S unit := if b then m else ret tt.

Fixpoint foreach {A} (l : list A) (f : A -> M S unit) : M S unit :=
  match l with
  | [] => ret tt
  | a :: l' => bind (f a) (fun _ => foreach l' f)
  end.

(** [wp m Q s]: from [s], [m] is not stuck and ends in a result and a state
    that satisfy [Q]. *)
Definition wp {A} (m : M S A) (Q : A -> S -> Prop) (s : S) : Prop :=
  match m s with Some (a, s') => Q a s' | None => False end.

Lemma wp_ret {A} (a : A) Q s : Q a s -> wp (ret a) Q s.
Proof. done. Qed.

Lemma wp_bind {A B} (m : M S A) (f : A -> M S B) Q s :
  wp m (fun a s' => wp (f a) Q s') s -> wp (bind m f) Q s.
Proof. unfold wp, bind. by destruct (m s) as [[a s']|]. Qed.

Lemma wp_bind_inv {A B} (m : M S A) (f : A -> M S B) Q s :
  wp (bind m f) Q s -> wp m (fun a s' => wp (f a) Q s') s.
Proof. unfold wp, bind. by destruct (m s) as [[a s']|]. Qed.

Lemma wp_mono {A} (m : M S A) (P Q : A -> S -> Prop) s :
  wp m P s -> (forall a s', P a s' -> Q a s') -> wp m Q s.
Proof. unfold wp. destruct (m s) as [[a s']|]; auto. Qed.

Lemma wp_conj {A} (m : M S A) (P Q : A -> S -> Prop) s :
  wp m P s -> wp m Q s -> wp m (fun a s' => P a s' /\ Q a s') s.
Proof. unfold wp. destruct (m s) as [[a s']|]; auto. Qed.

Lemma wp_gets {A} (f : S -> A) Q s : Q (f s) s -> wp (gets f) Q s.
Proof. done. Qed.

Lemma wp_modify f Q s : Q tt (f s) -> wp (modify f) Q s.
Proof. done. Qed.

Lemma wp_ensure b Q s : b = true -> Q tt s -> wp (ensure b) Q s.
Proof. by intros -> ?. Qed.

Lemma wp_of_option {A} (o : option A) a Q s :
  o = Some a -> Q a s -> wp (of_option o) Q s.
Proof. by intros -> ?. Qed.

Lemma wp_when b m Q s :
  (b = true -> wp m Q s) -> (b = false -> Q tt s) -> wp (when b m) Q s.
Proof. destruct b; intros Ht Hf; [by apply Ht | by apply Hf]. Qed.

Lemma wp_exec {A} (m : M S A) Q s :
  wp m Q s <-> exists a s', m s = Some (a, s') /\ Q a s'.
Proof.
  unfold wp. split.
  - destruct (m s) as [[a s']|]; [by eauto | done].
  - by intros (a & s' & -> & ?).
Qed.

Lemma wp_result {A} (m : M S A) Q s a s' : wp m Q s -> m s = Some (a, s') -> Q a s'.
Proof. unfold wp. intros HQ E. by rewrite E in HQ. Qed.

Lemma wp_foreach {A} (l : list A) (f : A -> M S unit) (I : S -> Prop) Q s :
  I s ->
  (forall a s, a ∈ l -> I s -> wp (f a) (fun _ => I) s) ->
  (forall s, I s -> Q tt s) ->
  wp (foreach l f) Q s.
Proof.
  revert s. induction l as [|a l IH]; intros s Hs Hf HQ; simpl; [by apply wp_ret, HQ|].
  apply wp_bind. eapply wp_mono; [apply Hf; [set_solver | done]|].
  intros [] s' Hs'. simpl. apply IH; [done | | done].
  intros; apply Hf; set_solver.
Qed.

(** [wp_or E m Q s]: from [s], [m] ends as [Q] says, or it is stuck, and then
    [E] holds: the condition under which the code goes wrong. *)
Definition wp_or {A} (E : Prop) (m : M S A) (Q : A -> S -> Prop) (s : S) : Prop :=
  match m s with Some (a, s') => Q a s' | None => E end.

Lemma wp_or_wp {A} E (m : M S A) Q s : wp m Q s -> wp_or E m Q s.
Proof. unfold wp, wp_or. by destruct (m s) as [[a s']|]. Qed.

Lemma wp_or_bind {A B} E (m : M S A) (f : A -> M S B) Q s :
  wp_or E m (fun a s' => wp_or E (f a) Q s') s -> wp_or E (bind m f) Q s.
Proof. unfold wp_or, bind. by destruct (m s) as [[a s']|]. Qed.

Lemma wp_or_seq {A B} E (m : M S A) (f : A -> M S B) Q s :
  wp m (fun a s' => wp_or E (f a) Q s') s -> wp_or E (bind m f) Q s.
Proof. intros Hm. by apply wp_or_bind, wp_or_wp. Qed.

Lemma wp_or_mono {A} (E E' : Prop) (m : M S A) (P Q : A -> S -> Prop) s :
  wp_or E m P s -> (E -> E') -> (forall a s', P a s' -> Q a s') -> wp_or E' m Q s.
Proof. unfold wp_or. destruct (m s) as [[a s']|]; auto. Qed.

Lemma wp_or_conj {A} E E' (m : M S A) (P Q : A -> S -> Prop) s :
  wp_or E m P s -> wp_or E' m Q s -> wp_or E m (fun a s' => P a s' /\ Q a s') s.
Proof. unfold wp_or. destruct (m s) as [[a s']|]; auto. Qed.

Lemma wp_or_result {A} E (m : M S A) Q s a s' : wp_or E m Q s -> m s = Some (a, s') -> Q a s'.
Proof. unfold wp_or. intros HQ He. by rewrite He in HQ. Qed.

Lemma wp_or_total {A} (E : Prop) (m : M S A) Q s : ~ E -> wp_or E m Q s -> wp m Q s.
Proof. unfold wp, wp_or. by destruct (m s) as [[a s']|]. Qed.

Lemma wp_or_ensure (E : Prop) b Q s : (b = false -> E) -> (b = true -> Q tt s) -> wp_or E (ensure b) Q s.
Proof. destruct b; unfold wp_or; simpl; auto. Qed.

Lemma wp_or_foreach {A} E (l : list A) (f : A -> M S unit) (I : S -> Prop) Q s :
  I s -> (forall a s, a ∈ l -> I s -> wp_or E (f a) (fun _ => I) s) -> (forall s, I s -> Q tt s) ->
  wp_or E (foreach l f) Q s.
Proof.
  revert s. induction l as [|a l IH]; intros s Hs Hf HQ; simpl; [by apply HQ|].
  apply wp_or_bind. eapply wp_or_mono; [apply Hf; [by left | done] | done |].
  intros [] s' Hs'. apply IH; [done | | done]. intros; apply Hf; [by right | done].
Qed.

Lemma bind_ret_l {A B} (a : A) (f : A -> M S B) s : bind (ret a) f s = f a s.
Proof. done. Qed.

Lemma bind_ret_r {A} (m : M S A) s : bind m ret s = m s.
Proof. unfold bind. by destruct (m s) as [[??]|]. Qed.

Lemma bind_assoc {A B C} (m : M S A) (f : A -> M S B) (g : B -> M S C) s :
  bind (bind m f) g s = bind m (fun a => bind (f a) g) s.
Proof. unfold bind. by destruct (m s) as [[??]|]. Qed.

Lemma foreach_app {A} (l1 l2 : list A) (f : A -> M S unit) s :
  foreach (l1 ++ l2) f s = bind (foreach l1 f) (fun _ => foreach l2 f) s.
Proof.
  revert s. induction l1 as [|a l1 IH]; intros s; [done|].
  simpl. rewrite bind_assoc. unfold bind at 1 2.
  destruct (f a s) as [[[] s']|]; [apply IH | done].
Qed.
End Monad.

Notation "'let*' x ':=' m 'in' k" := (bind m (fun x => k))
  (at level 10, x pattern, m at level 200, k at level 200,
   format "'[v' 'let*'  x  ':='  m  'in' '/' k ']'") : c_scope.
Notation "m ;; k" := (bind m (fun _ => k))
  (at level 100, k at level 200, right associativity) : c_scope.

(** [wp_step] makes one step of the symbolic execution of a program. *)
Ltac wp_step :=
  lazymatch goal with
  | |- wp (bind _ _) _ _ => apply wp_bind
  | |- wp (ret _) _ _ => apply wp_ret
  | |- wp (gets _) _ _ => apply wp_gets
  | |- wp (modify _) _ _ => apply wp_modify
  | |- wp (when _ _) _ _ => apply wp_when; intros ?
  | |- wp (ensure _) _ _ => apply wp_ensure
  | |- wp (if ?b then _ else _) _ _ => destruct b eqn:?
  | |- wp (match ?o with _ => _ end) _ _ => destruct o eqn:?
  | |- wp (let _ := _ in _) _ _ => cbv zeta
  end.
Ltac wp_steps := repeat (wp_step; simpl).

(** *** What every completed run of a computation keeps *)

(** Whatever the state, if the computation returns, the state after it is
    related to the one before. *)
Definition keeps {S A} (R : S -> S -> Prop) (m : M S A) : Prop :=
  forall s a s', m s = Some (a, s') -> R s s'.

Lemma foreach_some {S A} (l : list A) (f : A -> M S unit) s r s' :
  foreach l f s = Some (r, s') -> forall a, a ∈ l -> exists s1 s2, f a s1 = Some (tt, s2).
Proof.
  revert s. induction l as [|a l IH]; intros s Hr b Hb; [by apply not_elem_of_nil in Hb|].
  cbn [foreach] in Hr. unfold bind in Hr. destruct (f a s) as [[[] s1]|] eqn:E; [|done].
  apply list.elem_of_cons in Hb as [->|Hb]; [by exists s, s1 | by eapply IH].
Qed.

Lemma bind_some {S A B} (m : M S A) (f : A -> M S B) s b s' :
  bind m f s = Some (b, s') -> exists a s1, m s = Some (a, s1) /\ f a s1 = Some (b, s').
Proof. unfold bind. destruct (m s) as [[a s1]|]; [|done]. by exists a, s1. Qed.

Section Keeps.
Context {S : Type} (R : S -> S -> Prop) `{!PreOrder R}.

Lemma keeps_ret {A} (a : A) : keeps R (ret a).
Proof. intros s b s' [= _ <-]. reflexivity. Qed.

Lemma keeps_bind {A B} (m : M S A) (f : A -> M S B) :
  keeps R m -> (forall a, keeps R (f a)) -> keeps R (bind m f).
Proof.
  intros Hm Hf s b s'. unfold bind. destruct (m s) as [[a s1]|] eqn:E; [|done].
  intros Hr. etransitivity; [by eapply Hm | by eapply Hf].
Qed.

Lemma keeps_stuck {A} : keeps R (stuck (A := A)).
Proof. by intros s a s'. Qed.

Lemma keeps_gets {A} (f : S -> A) : keeps R (gets f).
Proof. intros s a s' [= _ <-]. reflexivity. Qed.

Lemma keeps_modify f : (forall s, R s (f s)) -> keeps R (modify f).
Proof. intros Hf s a s' [= _ <-]. apply Hf. Qed.

Lemma keeps_of_option {A} (o : option A) : keeps R (of_option o).
Proof. destruct o; [apply keeps_ret | apply keeps_stuck]. Qed.

Lemma keeps_ensure b : keeps R (ensure b).
Proof. destruct b; [apply keeps_ret | apply keeps_stuck]. Qed.

Lemma keeps_when (b : bool) m : (b = true -> keeps R m) -> keeps R (when b m).
Proof. destruct b; intros Hm; [by apply Hm | apply keeps_ret]. Qed.

Lemma keeps_foreach {A} (l : list A) f : (forall a, keeps R (f a)) -> keeps R (foreach l f).
Proof. intros Hf. induction l as [|a l IH]; [apply keeps_ret | by apply keeps_bind]. Qed.

Lemma keeps_mono {A} (R' : S -> S -> Prop) (m : M S A) :
  (forall s s', R' s s' -> R s s') -> keeps R' m -> keeps R m.
Proof. intros HR Hm s a s' Hr. eapply HR, Hm, Hr. Qed.
End Keeps.
