(* ===== verification/Framing.v ===== *)
(** * Framing of a byte stream
    (the packet loops of [tcp_client_handler_9009] and of
    [process_download_data_batch], [src/main18.c]).

    Both command ports find packets in a stream in the same way: they look at
    the bytes received so far and either wait for more, skip one byte, or cut
    off one packet.  The class [Framing] states what the two parsers promise;
    the loop then terminates, is safe, and does not depend on how the stream is
    cut into receives. *)
From S2P Require Import Prelude.

Inductive verdict := Wait | Skip | Packet (len : nat).

Class Framing (judge : bytes -> verdict) : Prop := {
  skip_some buffer : judge buffer = Skip -> (1 <= length buffer)%nat;
  packet_some buffer n : judge buffer = Packet n -> (1 <= n <= length buffer)%nat;
  judge_app a b : judge a <> Wait -> judge (a ++ b) = judge a;
  packet_alone buffer n : judge buffer = Packet n -> judge (take n buffer) = Packet n
}.

(** Packets with a header of a fixed size that tells the length of the payload:
    [ok] judges the header, [plen] reads the length. *)
Definition header_judge (hs : Z) (ok : bytes -> bool) (plen : bytes -> Z) (buffer : bytes)
    : verdict :=
  if zlen buffer <? hs then Wait else
  if negb (ok buffer) then Skip else
  if zlen buffer <? hs + plen buffer then Wait
  else Packet (Z.to_nat (hs + plen buffer)).

Class Header (hs : Z) (ok : bytes -> bool) (plen : bytes -> Z) : Prop := {
  header_pos : 0 < hs;
  header_local a b : hs <= zlen a -> ok (a ++ b) = ok a /\ plen (a ++ b) = plen a;
  header_plen a : hs <= zlen a -> 0 <= plen a
}.

#[export] Instance header_framing hs ok plen : Header hs ok plen -> Framing (header_judge hs ok plen).
Proof.
  intros [Hpos Hloc Hnn]. unfold header_judge. split.
  - intros buffer. repeat case_match; try done. bool_prop. unfold zlen in *. lia.
  - intros buffer n. destruct (Z.ltb_spec (zlen buffer) hs) as [|Hl]; [done|].
    pose proof (Hnn buffer Hl). repeat case_match; try done. intros [= <-]. bool_prop.
    unfold zlen in *. lia.
  - intros a b. rewrite zlen_app. assert (0 <= zlen b) by (unfold zlen; lia).
    destruct (Z.ltb_spec (zlen a) hs) as [|Hl]; [done|]. destruct (Hloc a b Hl) as [-> ->].
    rewrite (proj2 (Z.ltb_ge (zlen a + zlen b) hs)) by lia. destruct (ok a); [simpl|done].
    destruct (Z.ltb_spec (zlen a) (hs + plen a)); [done|]. intros _.
    by rewrite (proj2 (Z.ltb_ge _ _)) by lia.
  - intros buffer n. destruct (Z.ltb_spec (zlen buffer) hs) as [|Hl]; [done|].
    pose proof (Hnn buffer Hl). destruct (ok buffer) eqn:Hok; [simpl|done].
    destruct (Z.ltb_spec (zlen buffer) (hs + plen buffer)) as [|Hp]; [done|]. intros [= <-].
    set (n := Z.to_nat _). assert (zlen (take n buffer) = hs + plen buffer) as Hlen.
    { unfold zlen in *. rewrite length_take. lia. }
    destruct (Hloc (take n buffer) (drop n buffer)) as [H1 H2]; [lia|].
    rewrite take_drop in H1, H2. rewrite <- H1, <- H2, Hok, Hlen.
    rewrite (proj2 (Z.ltb_ge _ hs)) by lia. simpl. by rewrite (proj2 (Z.ltb_ge _ _)) by lia.
Qed.

Lemma framing_ext (j j' : bytes -> verdict) :
  (forall buffer, j buffer = j' buffer) -> Framing j' -> Framing j.
Proof.
  intros He []. split.
  - intros b. rewrite He. auto.
  - intros b n. rewrite He. auto.
  - intros a b. rewrite !He. auto.
  - intros b n. rewrite !He. auto.
Qed.

(** The payload of a packet that was cut off is as long as its header says. *)
Lemma header_judge_packet hs ok plen p :
  Header hs ok plen -> header_judge hs ok plen p = Packet (length p) ->
  hs <= zlen p /\ zlen p = hs + plen p.
Proof.
  intros [Hpos _ Hnn]. unfold header_judge. destruct (Z.ltb_spec (zlen p) hs) as [|Hl]; [done|].
  pose proof (Hnn p Hl). repeat case_match; try done. intros [= Hp]. bool_prop.
  unfold zlen in *. lia.
Qed.

Section Framing.
Context (judge : bytes -> verdict) `{!Framing judge} {St : Type} (handle : bytes -> M St unit).
#[local] Open Scope c_scope.

Fixpoint frame_loop (fuel : nat) (buffer : bytes) : M St bytes :=
  match fuel with
  | O => stuck
  | S fuel' =>
    match judge buffer with
    | Wait => ret buffer
    | Skip => frame_loop fuel' (drop 1 buffer)
    | Packet n => handle (take n buffer) ;; frame_loop fuel' (drop n buffer)
    end
  end.

(** Any fuel above the number of bytes is enough. *)
Lemma frame_loop_fuel f g a w :
  (length a < f)%nat -> (length a < g)%nat -> frame_loop f a w = frame_loop g a w.
Proof.
  revert g a w. induction f as [|f IH]; intros [|g] a w Hf Hg; try lia.
  simpl. destruct (judge a) as [| |n] eqn:Hj; [done | |].
  - pose proof (skip_some _ Hj). apply IH; rewrite length_drop; lia.
  - pose proof (packet_some _ _ Hj). unfold bind.
    destruct (handle _ w) as [[[] w1]|]; [|done]. apply IH; rewrite length_drop; lia.
Qed.

(** The loop on what came so far, and then on the rest with what comes later. *)
Lemma frame_loop_app f g a b w :
  (length a < f)%nat -> (length (a ++ b) < g)%nat ->
  frame_loop g (a ++ b) w =
    (let* r := frame_loop f a in frame_loop (S (length (r ++ b))) (r ++ b)) w.
Proof.
  revert g a w. induction f as [|f IH]; intros g a w Hf Hg; [lia|].
  rewrite length_app in Hg. destruct (judge a) as [| |n] eqn:Hj.
  - simpl frame_loop at 2. rewrite Hj, bind_ret_l. apply frame_loop_fuel; rewrite length_app; lia.
  - pose proof (skip_some _ Hj) as Hl. destruct g as [|g]; [lia|]. simpl frame_loop at 1 2.
    rewrite judge_app, Hj by congruence. rewrite (drop_app_le a) by done.
    apply IH; rewrite ?length_app, length_drop; lia.
  - pose proof (packet_some _ _ Hj) as Hl. destruct g as [|g]; [lia|]. simpl frame_loop at 1 2.
    rewrite judge_app, Hj by congruence. rewrite (drop_app_le a), (take_app_le a) by lia.
    rewrite bind_assoc. unfold bind at 1 2.
    destruct (handle _ w) as [[[] w1]|]; [|done]. apply IH; rewrite ?length_app, length_drop; lia.
Qed.

(** What the loop keeps, when every packet keeps it. *)
Lemma frame_loop_safe (I : St -> Prop) (R : St -> St -> Prop) `{!PreOrder R} :
  (forall w w', I w -> R w w' -> I w') ->
  (forall p w, judge p = Packet (length p) -> I w -> wp (handle p) (fun _ => R w) w) ->
  forall f buffer w, I w -> (length buffer < f)%nat ->
  wp (frame_loop f buffer)
     (fun rest w' => judge rest = Wait /\ (exists used, buffer = used ++ rest) /\ R w w') w.
Proof.
  intros HI Hh f. induction f as [|f IH]; intros buffer w Hw Hf; [lia|]. simpl.
  destruct (judge buffer) as [| |n] eqn:Hj.
  - wp_step. split; [done|]. by split; [exists []|].
  - pose proof (skip_some _ Hj). eapply wp_mono; [apply IH; [done | rewrite length_drop; lia]|].
    intros rest w' (Hr & [used Hu] & HR). split; [done|]. split; [|done].
    exists (take 1 buffer ++ used). by rewrite <- app_assoc, <- Hu, take_drop.
  - pose proof (packet_some _ _ Hj). wp_step.
    eapply wp_mono; [apply Hh; [|done]|].
    { rewrite length_take, Nat.min_l by lia. by apply packet_alone. }
    intros [] w1 HR1. eapply wp_mono; [apply IH; [by eapply HI | rewrite length_drop; lia]|].
    intros rest w' (Hr & [used Hu] & HR). split; [done|]. split; [|by etransitivity].
    exists (take n buffer ++ used). by rewrite <- app_assoc, <- Hu, take_drop.
Qed.
End Framing.
