(* ===== verification/Words.v ===== *)
(** * Byte order conversions and the XOR checksum of [src/main18.c]. *)
From S2P Require Import Prelude.
From coqutil Require Z.prove_Zeq_bitwise.

(** ** Byte order *)

Definition reverse_2bytes (value : Z) : Z :=
  Z.lor (Z.shiftl (Z.land value 0x00FF) 8)
        (Z.shiftr (Z.land value 0xFF00) 8).

Definition reverse_4bytes (value : Z) : Z :=
  Z.lor (Z.lor (Z.lor (Z.shiftl (Z.land value 0x000000FF) 24)
                      (Z.shiftl (Z.land value 0x0000FF00) 8))
               (Z.shiftr (Z.land value 0x00FF0000) 8))
        (Z.shiftr (Z.land value 0xFF000000) 24).

Definition swap_endian_32bit (value : Z) : Z :=
  Z.lor (Z.lor (Z.lor (Z.shiftr (Z.land value 0xFF000000) 24)
                      (Z.shiftr (Z.land value 0x00FF0000) 8))
               (Z.shiftl (Z.land value 0x0000FF00) 8))
        (Z.shiftl (Z.land value 0x000000FF) 24).

(** The C library's network order conversions, on a little-endian target. *)
Definition htons (v : Z) : Z := le_dec (rev (le_enc 2 v)).
Definition ntohl (v : Z) : Z := le_dec (rev (le_enc 4 v)).

(** ** The checksum: the exclusive or of the little-endian 32-bit words, the
    last one zero-extended when the length is not a multiple of four. *)
Fixpoint xor_loop (res : Z) (data : bytes) : Z :=
  match data with
  | [] => res
  | b0 :: b1 :: b2 :: b3 :: data' => xor_loop (Z.lxor res (le_dec [b0; b1; b2; b3])) data'
  | tail => Z.lxor res (le_dec tail)
  end.

Definition calculate_xor_checksum (data : bytes) (len : nat) : Z :=
  xor_loop 0 (take len data).

(** ** Bitwise reasoning *)

Lemma le_dec_4 b0 b1 b2 b3 :
  le_dec [b0; b1; b2; b3] =
  Z.lor (Byte.byte.unsigned b0)
    (Z.shiftl (Z.lor (Byte.byte.unsigned b1)
      (Z.shiftl (Z.lor (Byte.byte.unsigned b2)
        (Z.shiftl (Byte.byte.unsigned b3) 8)) 8)) 8).
Proof.
  unfold Word.LittleEndianList.le_combine. by rewrite Z.shiftl_0_l, Z.lor_0_r.
Qed.

Lemma le_dec_2 b0 b1 :
  le_dec [b0; b1] = Z.lor (Byte.byte.unsigned b0) (Z.shiftl (Byte.byte.unsigned b1) 8).
Proof.
  unfold Word.LittleEndianList.le_combine. by rewrite Z.shiftl_0_l, Z.lor_0_r.
Qed.

(** [bitwise b0 .. bn] proves an equation between words built from the bytes
    [b0 .. bn] by masks, shifts and disjunctions, bit by bit. *)
Ltac bitwise_with_bounds tac :=
  change 0xFF with (Z.ones 8);
  change 0xFF00 with (Z.shiftl (Z.ones 8) 8);
  change 0xFF0000 with (Z.shiftl (Z.ones 8) 16);
  change 0xFF000000 with (Z.shiftl (Z.ones 8) 24);
  tac; prove_Zeq_bitwise.prove_Zeq_bitwise.

Tactic Notation "bitwise" constr(b0) constr(b1) :=
  pose proof (Byte.byte.unsigned_range b0);
  pose proof (Byte.byte.unsigned_range b1);
  bitwise_with_bounds idtac.

Tactic Notation "bitwise" constr(b0) constr(b1) constr(b2) constr(b3) :=
  pose proof (Byte.byte.unsigned_range b2);
  pose proof (Byte.byte.unsigned_range b3);
  bitwise b0 b1.

Lemma reverse_4bytes_le_dec b0 b1 b2 b3 :
  reverse_4bytes (le_dec [b0; b1; b2; b3]) = le_dec [b3; b2; b1; b0].
Proof. unfold reverse_4bytes. rewrite !le_dec_4. bitwise b0 b1 b2 b3. Qed.

Lemma reverse_2bytes_le_dec b0 b1 :
  reverse_2bytes (le_dec [b0; b1]) = le_dec [b1; b0].
Proof. unfold reverse_2bytes. rewrite !le_dec_2. bitwise b0 b1. Qed.

Lemma swap_endian_32bit_reverse v : swap_endian_32bit v = reverse_4bytes v.
Proof.
  unfold swap_endian_32bit, reverse_4bytes.
  rewrite (Z.lor_comm _ (Z.shiftl (Z.land v 0xFF) 24)).
  rewrite (Z.lor_comm (Z.lor _ _) (Z.shiftl (Z.land v 0xFF00) 8)).
  rewrite (Z.lor_comm (Z.shiftr (Z.land v 0xFF000000) 24)).
  by rewrite !Z.lor_assoc.
Qed.

Lemma u32_as_bytes v :
  is_u32 v -> exists b0 b1 b2 b3, v = le_dec [b0; b1; b2; b3].
Proof.
  intros Hv. pose proof (length_le_enc 4 v) as Hlen.
  pose proof (le_dec_enc 4 v) as Hdec. rewrite wrap_small in Hdec by done.
  destruct (le_enc 4 v) as [|b0 [|b1 [|b2 [|b3 [|]]]]]; try discriminate Hlen.
  by exists b0, b1, b2, b3.
Qed.

Lemma u16_as_bytes v : is_u16 v -> exists b0 b1, v = le_dec [b0; b1].
Proof.
  intros Hv. pose proof (length_le_enc 2 v) as Hlen.
  pose proof (le_dec_enc 2 v) as Hdec. rewrite wrap_small in Hdec by done.
  destruct (le_enc 2 v) as [|b0 [|b1 [|]]]; try discriminate Hlen.
  by exists b0, b1.
Qed.

Lemma reverse_4bytes_involutive v :
  is_u32 v -> reverse_4bytes (reverse_4bytes v) = v.
Proof.
  intros (b0 & b1 & b2 & b3 & ->)%u32_as_bytes. by rewrite !reverse_4bytes_le_dec.
Qed.

Lemma reverse_2bytes_involutive v :
  is_u16 v -> reverse_2bytes (reverse_2bytes v) = v.
Proof. intros (b0 & b1 & ->)%u16_as_bytes. by rewrite !reverse_2bytes_le_dec. Qed.

Lemma reverse_4bytes_range v : is_u32 v -> is_u32 (reverse_4bytes v).
Proof.
  intros (b0 & b1 & b2 & b3 & ->)%u32_as_bytes. rewrite reverse_4bytes_le_dec.
  apply (le_dec_bound [b3; b2; b1; b0]).
Qed.

Lemma reverse_2bytes_range v : is_u16 v -> is_u16 (reverse_2bytes v).
Proof.
  intros (b0 & b1 & ->)%u16_as_bytes. rewrite reverse_2bytes_le_dec.
  apply (le_dec_bound [b1; b0]).
Qed.

Lemma ntohl_reverse v : is_u32 v -> ntohl v = reverse_4bytes v.
Proof.
  intros (b0 & b1 & b2 & b3 & ->)%u32_as_bytes. unfold ntohl.
  change 4%nat with (length [b0; b1; b2; b3]). rewrite le_enc_dec.
  by rewrite reverse_4bytes_le_dec.
Qed.

Lemma htons_reverse v : is_u16 v -> htons v = reverse_2bytes v.
Proof.
  intros (b0 & b1 & ->)%u16_as_bytes. unfold htons.
  change 2%nat with (length [b0; b1]). rewrite le_enc_dec.
  by rewrite reverse_2bytes_le_dec.
Qed.

#[export] Hint Resolve reverse_4bytes_range reverse_2bytes_range : zmht.

(** ** The checksum *)

Lemma lxor_range w a b :
  0 <= w -> in_range w a -> in_range w b -> in_range w (Z.lxor a b).
Proof.
  intros Hw [Ha0 Ha] [Hb0 Hb]. split; [apply Z.lxor_nonneg; lia|].
  destruct (decide (Z.lxor a b = 0)) as [->|Hne].
  { apply Z.pow_pos_nonneg; lia. }
  assert (0 <= Z.lxor a b) by (apply Z.lxor_nonneg; lia).
  destruct (decide (w = 0)) as [->|Hw0].
  { assert (a = 0) as -> by lia. assert (b = 0) as -> by lia. done. }
  apply Z.log2_lt_pow2; [lia|].
  eapply Z.le_lt_trans; [apply Z.log2_lxor; lia|].
  apply Z.max_lub_lt.
  - destruct (decide (a = 0)) as [->|]; [simpl; lia|]. apply Z.log2_lt_pow2; lia.
  - destruct (decide (b = 0)) as [->|]; [simpl; lia|]. apply Z.log2_lt_pow2; lia.
Qed.

(** Induction on a byte string four bytes at a time. *)
Lemma words_ind (P : bytes -> Prop) :
  (forall tail, (length tail < 4)%nat -> P tail) ->
  (forall b0 b1 b2 b3 data, P data -> P (b0 :: b1 :: b2 :: b3 :: data)) ->
  forall data, P data.
Proof.
  intros Htail Hword data.
  assert (forall n data, (length data <= n)%nat -> P data) as Hind; [|eauto].
  clear data. induction n as [|n IH]; intros data Hlen.
  - apply Htail. lia.
  - destruct data as [|b0 [|b1 [|b2 [|b3 data]]]]; try (apply Htail; simpl; lia).
    apply Hword, IH. simpl in Hlen. lia.
Qed.

Lemma le_dec_short_range tail : (length tail <= 4)%nat -> is_u32 (le_dec tail).
Proof.
  intros Hlen. pose proof (le_dec_bound tail) as [H0 H1]. split; [done|].
  eapply Z.lt_le_trans; [exact H1|]. apply Z.pow_le_mono_r; unfold zlen; lia.
Qed.

Lemma xor_loop_acc res data : xor_loop res data = Z.lxor res (xor_loop 0 data).
Proof.
  revert res. induction data as [tail Htail|b0 b1 b2 b3 data IH] using words_ind; intros res.
  - destruct tail as [|b0 [|b1 [|b2 [|b3 tail]]]]; simpl in Htail; try lia;
      cbn [xor_loop]; by rewrite ?Z.lxor_0_l, ?Z.lxor_0_r.
  - cbn [xor_loop]. rewrite IH, (IH (Z.lxor 0 _)), Z.lxor_0_l. by rewrite Z.lxor_assoc.
Qed.

Lemma xor_loop_range data : is_u32 (xor_loop 0 data).
Proof.
  induction data as [tail Htail|b0 b1 b2 b3 data IH] using words_ind.
  - destruct tail as [|b0 [|b1 [|b2 [|b3 tail]]]]; simpl in Htail; try lia;
      cbn [xor_loop]; rewrite ?Z.lxor_0_l;
      first [by unfold in_range; lia | apply le_dec_short_range; simpl; lia].
  - cbn [xor_loop]. rewrite xor_loop_acc, Z.lxor_0_l.
    apply lxor_range; [done | | done]. apply le_dec_short_range; simpl; lia.
Qed.

Lemma calculate_xor_checksum_range data len : is_u32 (calculate_xor_checksum data len).
Proof. apply xor_loop_range. Qed.

#[export] Hint Resolve calculate_xor_checksum_range : zmht.

Lemma xor_loop_app data1 data2 :
  (length data1 mod 4 = 0)%nat ->
  xor_loop 0 (data1 ++ data2) = Z.lxor (xor_loop 0 data1) (xor_loop 0 data2).
Proof.
  induction data1 as [tail Htail|b0 b1 b2 b3 data1 IH] using words_ind; intros Hlen.
  - rewrite Nat.mod_small in Hlen by done. destruct tail; [|discriminate].
    by rewrite Z.lxor_0_l.
  - cbn [app xor_loop]. rewrite !(xor_loop_acc (Z.lxor 0 _)), !Z.lxor_0_l, IH.
    + by rewrite Z.lxor_assoc.
    + simpl length in Hlen.
      replace (S (S (S (S (length data1))))) with (length data1 + 1 * 4)%nat in Hlen by lia.
      by rewrite Nat.Div0.mod_add in Hlen.
Qed.

Lemma calculate_xor_checksum_take data len n :
  (len <= n)%nat -> calculate_xor_checksum (take n data) len = calculate_xor_checksum data len.
Proof. intros H. unfold calculate_xor_checksum. by rewrite take_take, Nat.min_l. Qed.

Lemma calculate_xor_checksum_app data1 data2 len :
  (len <= length data1)%nat ->
  calculate_xor_checksum (data1 ++ data2) len = calculate_xor_checksum data1 len.
Proof. intros H. unfold calculate_xor_checksum. by rewrite take_app_le. Qed.

(** The checksum of the first twelve bytes of a header is the exclusive or of
    its first three words. *)
Lemma calculate_xor_checksum_12 data :
  (12 <= length data)%nat ->
  calculate_xor_checksum data 12 =
  Z.lxor (Z.lxor (fld 0 4 data) (fld 4 4 data)) (fld 8 4 data).
Proof.
  intros H. do 12 (destruct data as [|? data]; [simpl in H; lia|]).
  unfold calculate_xor_checksum, fld. simpl take. simpl drop.
  cbn [xor_loop]. by rewrite Z.lxor_0_l.
Qed.

(** A checksum field that is still zero does not count, nor does what is past
    the end of the range. *)
Lemma calculate_xor_checksum_zero_field h t t' n :
  length h = n -> (n mod 4 = 0)%nat ->
  calculate_xor_checksum (h ++ le_enc 4 0 ++ t) (n + 4) = calculate_xor_checksum (h ++ t') n.
Proof.
  intros <- Hn. unfold calculate_xor_checksum.
  rewrite app_assoc, take_app_le by (rewrite length_app, length_le_enc; lia).
  rewrite take_ge by (rewrite length_app, length_le_enc; lia).
  rewrite take_app_length, xor_loop_app by done. apply Z.lxor_0_r.
Qed.

(** A word-aligned message followed by its checksum has checksum zero. *)
Lemma calculate_xor_checksum_closed h c :
  (length h mod 4 = 0)%nat -> c = calculate_xor_checksum h (length h) ->
  calculate_xor_checksum (h ++ le_enc 4 c) (length h + 4) = 0.
Proof.
  intros Hn ->. set (c := calculate_xor_checksum h (length h)).
  assert (is_u32 c) as Hc by apply calculate_xor_checksum_range.
  unfold calculate_xor_checksum. rewrite take_ge by (rewrite length_app, length_le_enc; lia).
  rewrite xor_loop_app by done.
  assert (xor_loop 0 (le_enc 4 c) = c) as ->.
  { destruct (u32_as_bytes c Hc) as (b0 & b1 & b2 & b3 & E).
    assert (le_enc 4 c = [b0; b1; b2; b3]) as ->.
    { rewrite E. change 4%nat with (length [b0; b1; b2; b3]). apply le_enc_dec. }
    rewrite E. cbn [xor_loop]. apply Z.lxor_0_l. }
  subst c. unfold calculate_xor_checksum. rewrite firstn_all. apply Z.lxor_nilpotent.
Qed.

(** Byte order: [reverse_4bytes] reads the four bytes of a word in the
    opposite (network) order, it is its own inverse, it agrees with
    [swap_endian_32bit] and with [ntohl], and [reverse_2bytes] agrees with
    [htons]. *)
Theorem byte_order_correct :
  (forall b0 b1 b2 b3,
     reverse_4bytes (le_dec [b0; b1; b2; b3]) = le_dec [b3; b2; b1; b0]) /\
  (forall v, is_u32 v ->
     is_u32 (reverse_4bytes v) /\ reverse_4bytes (reverse_4bytes v) = v /\
     swap_endian_32bit v = reverse_4bytes v /\ ntohl v = reverse_4bytes v) /\
  (forall v, is_u16 v ->
     is_u16 (reverse_2bytes v) /\ reverse_2bytes (reverse_2bytes v) = v /\
     htons v = reverse_2bytes v).
Proof.
  split; [exact reverse_4bytes_le_dec|]. split; intros v Hv.
  - split_and!; [by apply reverse_4bytes_range | by apply reverse_4bytes_involutive
      | apply swap_endian_32bit_reverse | by apply ntohl_reverse].
  - split_and!; [by apply reverse_2bytes_range | by apply reverse_2bytes_involutive
      | by apply htons_reverse].
Qed.

(** Error detection: corrupting any one 4-byte aligned word of a message
    (a single bit, a byte, or any burst inside the word) changes its
    checksum. *)
Theorem xor_checksum_detects_word_error (pre w w' post : bytes) :
  (length pre mod 4 = 0)%nat -> length w = 4%nat -> length w' = 4%nat -> w <> w' ->
  calculate_xor_checksum (pre ++ w ++ post) (length (pre ++ w ++ post)) <>
  calculate_xor_checksum (pre ++ w' ++ post) (length (pre ++ w' ++ post)).
Proof.
  intros Hpre Hw Hw' Hne Heq. apply Hne, le_dec_inj; [congruence|].
  unfold calculate_xor_checksum in Heq. rewrite !firstn_all in Heq.
  rewrite !xor_loop_app in Heq by (done || by rewrite Hw || by rewrite Hw').
  apply (f_equal (Z.lxor (xor_loop 0 pre))) in Heq.
  rewrite <- !(Z.lxor_assoc (xor_loop 0 pre)), Z.lxor_nilpotent, !Z.lxor_0_l in Heq.
  apply (f_equal (fun x => Z.lxor x (xor_loop 0 post))) in Heq.
  rewrite !Z.lxor_assoc, Z.lxor_nilpotent, !Z.lxor_0_r in Heq.
  destruct w as [|b0 [|b1 [|b2 [|b3 [|]]]]]; try discriminate Hw.
  destruct w' as [|c0 [|c1 [|c2 [|c3 [|]]]]]; try discriminate Hw'.
  cbn [xor_loop] in Heq. by rewrite !Z.lxor_0_l in Heq.
Qed.

Lemma xor_checksum_detects_word_error_witness :
  let pre := [x01; x02; x03; x04] in
  let w := [xff; x00; x00; x00] in let w' := [xfe; x00; x00; x00] in
  calculate_xor_checksum (pre ++ w ++ []) (length (pre ++ w ++ [])) <>
  calculate_xor_checksum (pre ++ w' ++ []) (length (pre ++ w' ++ [])).
Proof.
  apply xor_checksum_detects_word_error; [reflexivity | reflexivity | reflexivity | discriminate].
Defined.
