(* ===== verification/Ring.v ===== *)
(** * The single-channel ring buffer of [src/ringbuffer_channels.c].

    The operations of the buffer as the code has them: unsigned 32-bit
    counters that wrap, a mask in place of a modulo, and two-part copies with
    their bounds.  The second half gives the abstract specification, a bounded
    first-in first-out queue of elements, and proves that the buffer refines
    it, wrap-around of the counters included. *)
From S2P Require Import Prelude.

(** ** The heap

    [malloc] answers by an oracle: the [n]-th call of the run, for a given
    size, succeeds or fails.  The heap is the set of the blocks that are
    allocated; freeing a block that is not is stuck. *)
Record heap := mk_heap { h_live : gset loc; h_next : loc; h_calls : nat }.

Section Alloc.
Variable malloc_ok : nat -> Z -> bool.

Definition malloc (size : Z) : M heap (option loc) := fun h =>
  if malloc_ok (h_calls h) size
  then Some (Some (h_next h),
             mk_heap ({[h_next h]} ∪ h_live h) (Pos.succ (h_next h)) (S (h_calls h)))
  else Some (None, mk_heap (h_live h) (h_next h) (S (h_calls h))).
End Alloc.

Definition free (l : loc) : M heap unit := fun h =>
  if decide (l ∈ h_live h)
  then Some (tt, mk_heap (h_live h ∖ {[l]}) (h_next h) (h_calls h))
  else None.

(** ** Data *)

Record ring_buffer_t := mk_ring {
  rb_data : ptr bytes;
  rb_in : Z;
  rb_out : Z;
  rb_mask : Z;
  rb_esize : Z
}.

Definition sizeof_ring_buffer_t : Z := 20.

(** ** Helpers *)

Definition is_power_of_2 (n : Z) : bool :=
  negb (n =? 0) && (Z.land n (u32 (n - 1)) =? 0).

Definition rounddown_pow_of_two (n : Z) : Z :=
  if n =? 0 then 0 else
  let n := Z.lor n (Z.shiftr n 1) in
  let n := Z.lor n (Z.shiftr n 2) in
  let n := Z.lor n (Z.shiftr n 4) in
  let n := Z.lor n (Z.shiftr n 8) in
  let n := Z.lor n (Z.shiftr n 16) in
  u32 (n - Z.shiftr n 1).

(** ** Creation and destruction *)

Definition ringbuffer_create (malloc_ok : nat -> Z -> bool) (size esize : Z)
    : M heap (ptr ring_buffer_t) :=
  if (esize =? 0) || (size =? 0) then ret None else
  (let* rb := malloc malloc_ok sizeof_ring_buffer_t in
   match rb with
   | None => ret None
   | Some rb =>
     let elem_count := size / esize in
     let elem_count :=
       if is_power_of_2 elem_count then elem_count else rounddown_pow_of_two elem_count in
     let elem_count := if elem_count =? 0 then 1 else elem_count in
     let buf_total_size := u32 (elem_count * esize) in
     let* buf := malloc malloc_ok buf_total_size in
     match buf with
     | None => free rb ;; ret None
     | Some buf =>
       ret (Some (rb, {| rb_data := Some (buf, replicate (Z.to_nat buf_total_size) x00);
                         rb_in := 0; rb_out := 0;
                         rb_mask := u32 (elem_count - 1); rb_esize := esize |}))
     end
   end)%c.

Definition ringbuffer_destory (rb : ptr ring_buffer_t) : M heap unit :=
  match rb with
  | None => ret tt
  | Some (l, r) =>
    match rb_data r with
    | None => free l
    | Some (d, _) => (free d ;; free l)%c
    end
  end.

(** ** Copies between the buffer and an element *)

Definition ringbuffer_copy_in (rb : ring_buffer_t) (src : bytes) (len off : Z)
    : option ring_buffer_t :=
  match rb_data rb with
  | None => None
  | Some (d, data) =>
    let elem_total := u32 (rb_mask rb + 1) in
    let esize := rb_esize rb in
    let copy_bytes := u32 (len * esize) in
    let off := Z.land off (rb_mask rb) in
    let off_bytes := u32 (off * esize) in
    let first_copy := Z.min copy_bytes (u32 (u32 (elem_total * esize) - off_bytes)) in
    part1 ← mem_read 0 first_copy src;
    data1 ← mem_write off_bytes part1 data;
    part2 ← mem_read first_copy (copy_bytes - first_copy) src;
    data2 ← mem_write 0 part2 data1;
    Some {| rb_data := Some (d, data2); rb_in := rb_in rb; rb_out := rb_out rb;
            rb_mask := rb_mask rb; rb_esize := rb_esize rb |}
  end.

Definition ringbuffer_copy_out (rb : ring_buffer_t) (dst : bytes) (len off : Z)
    : option bytes :=
  match rb_data rb with
  | None => None
  | Some (_, data) =>
    let elem_total := u32 (rb_mask rb + 1) in
    let esize := rb_esize rb in
    let copy_bytes := u32 (len * esize) in
    let off := Z.land off (rb_mask rb) in
    let off_bytes := u32 (off * esize) in
    let first_copy := Z.min copy_bytes (u32 (u32 (elem_total * esize) - off_bytes)) in
    part1 ← mem_read off_bytes first_copy data;
    dst1 ← mem_write 0 part1 dst;
    part2 ← mem_read 0 (copy_bytes - first_copy) data;
    mem_write first_copy part2 dst1
  end.

(** ** Operations

    Each takes the pointer to the buffer, [None] when it is null, and the
    caller's memory, and returns the C result with what the call left behind. *)

Definition ringbuffer_unused (rb : ring_buffer_t) : Z :=
  u32 (u32 (rb_mask rb + 1) - u32 (rb_in rb - rb_out rb)).

Definition set_in (rb : ring_buffer_t) (i : Z) : ring_buffer_t :=
  {| rb_data := rb_data rb; rb_in := i; rb_out := rb_out rb;
     rb_mask := rb_mask rb; rb_esize := rb_esize rb |}.

Definition set_out (rb : ring_buffer_t) (o : Z) : ring_buffer_t :=
  {| rb_data := rb_data rb; rb_in := rb_in rb; rb_out := o;
     rb_mask := rb_mask rb; rb_esize := rb_esize rb |}.

Definition ringbuffer_put (rb : ptr ring_buffer_t) (buf : option bytes) (len : Z)
    : option (Z * ptr ring_buffer_t) :=
  match rb, buf with
  | Some (l, r), Some b =>
    if len =? 0 then Some (0, rb) else
    let put_elem := if u32 (len * rb_esize r) >=? rb_esize r then 1 else 0 in
    if put_elem =? 0 then Some (0, rb) else
    let unused_elem := ringbuffer_unused r in
    if put_elem >? unused_elem then Some (0, rb) else
    r' ← ringbuffer_copy_in r b put_elem (rb_in r);
    Some (put_elem, Some (l, set_in r' (u32 (rb_in r' + put_elem))))
  | _, _ => Some (0, rb)
  end.

Definition ringbuffer_out_peek (rb : ptr ring_buffer_t) (buf : option bytes) (len : Z)
    : option (Z * option bytes) :=
  match rb, buf with
  | Some (l, r), Some b =>
    if len =? 0 then Some (0, buf) else
    let used_elem := u32 (rb_in r - rb_out r) in
    let peek_elem := Z.min len used_elem in
    if peek_elem =? 0 then Some (0, buf) else
    b' ← ringbuffer_copy_out r b peek_elem (rb_out r);
    Some (peek_elem, Some b')
  | _, _ => Some (0, buf)
  end.

Definition ringbuffer_get (rb : ptr ring_buffer_t) (buf : option bytes) (len : Z)
    : option (Z * ptr ring_buffer_t * option bytes) :=
  match rb, buf with
  | Some (l, r), Some b =>
    if len =? 0 then Some (0, rb, buf) else
    let get_elem := if u32 (len * rb_esize r) >=? rb_esize r then 1 else 0 in
    if get_elem =? 0 then Some (0, rb, buf) else
    '(get_elem, buf') ← ringbuffer_out_peek rb buf get_elem;
    if get_elem >? 0
    then Some (get_elem, Some (l, set_out r (u32 (rb_out r + get_elem))), buf')
    else Some (get_elem, rb, buf')
  | _, _ => Some (0, rb, buf)
  end.

Definition ringbuffer_len (rb : ptr ring_buffer_t) : Z :=
  match rb with None => 0 | Some (_, r) => u32 (rb_in r - rb_out r) end.

Definition ringbuffer_cap (rb : ptr ring_buffer_t) : Z :=
  match rb with None => 0 | Some (_, r) => u32 (rb_mask r + 1) end.

Definition ringbuffer_avail (rb : ptr ring_buffer_t) : Z :=
  match rb with
  | None => 0
  | Some _ => u32 (ringbuffer_cap rb - ringbuffer_len rb)
  end.

Definition ringbuffer_is_full (rb : ptr ring_buffer_t) : bool :=
  match rb with
  | None => false
  | Some (_, r) => ringbuffer_len rb >=? u32 (rb_mask r + 1)
  end.

Definition ringbuffer_is_empty (rb : ptr ring_buffer_t) : bool :=
  match rb with None => true | Some (_, r) => rb_in r =? rb_out r end.

Definition ringbuffer_reset (rb : ptr ring_buffer_t) : ptr ring_buffer_t :=
  match rb with
  | None => None
  | Some (l, r) => Some (l, set_out (set_in r 0) 0)
  end.

(** ** Well-formed buffers and the queue they represent *)

Record rb_wf (rb : ring_buffer_t) : Prop := mk_rb_wf {
  wf_pow : exists k, 0 <= k < 32 /\ rb_mask rb + 1 = 2 ^ k;
  wf_esize : 0 < rb_esize rb;
  wf_bytes : (rb_mask rb + 1) * rb_esize rb < 2 ^ 32;
  wf_data : exists l d, rb_data rb = Some (l, d) /\
              zlen d = (rb_mask rb + 1) * rb_esize rb;
  wf_in : is_u32 (rb_in rb);
  wf_out : is_u32 (rb_out rb);
  wf_used : u32 (rb_in rb - rb_out rb) <= rb_mask rb + 1
}.

Definition rb_bytes (rb : ring_buffer_t) : bytes :=
  match rb_data rb with None => [] | Some (_, d) => d end.

(** The element in cell [j] of the array. *)
Definition rb_cell (rb : ring_buffer_t) (j : Z) : bytes :=
  slice (Z.to_nat (j * rb_esize rb)) (Z.to_nat (rb_esize rb)) (rb_bytes rb).

(** The queue: the elements from the read counter to the write counter. *)
Definition rb_queue (rb : ring_buffer_t) : list bytes :=
  (fun i : nat => rb_cell rb (Z.land (rb_out rb + Z.of_nat i) (rb_mask rb))) <$>
    seq 0 (Z.to_nat (u32 (rb_in rb - rb_out rb))).

(** ** The specification: a bounded queue *)
Module Fifo.
Definition put (cap : Z) (q : list bytes) (x : bytes) : Z * list bytes :=
  if zlen q <? cap then (1, q ++ [x]) else (0, q).

Definition get (q : list bytes) : Z * list bytes * option bytes :=
  match q with [] => (0, [], None) | x :: q' => (1, q', Some x) end.
End Fifo.

(** ** Lemmas on the arithmetic of the counters *)

Section Wf.
Context (rb : ring_buffer_t) (Hwf : rb_wf rb).

Lemma rb_mask_bounds : 0 <= rb_mask rb < 2 ^ 31.
Proof.
  destruct (wf_pow _ Hwf) as (k & Hk & Hm).
  pose proof (Z.pow_pos_nonneg 2 k).
  assert (2 ^ k <= 2 ^ 31) by (apply Z.pow_le_mono_r; lia). lia.
Qed.

Lemma rb_cap_u32 : u32 (rb_mask rb + 1) = rb_mask rb + 1.
Proof. apply wrap_small. pose proof rb_mask_bounds. unfold in_range. lia. Qed.

Lemma rb_land off : Z.land off (rb_mask rb) = off mod (rb_mask rb + 1).
Proof.
  destruct (wf_pow _ Hwf) as (k & Hk & Hm).
  replace (rb_mask rb) with (Z.ones k) at 1 by (rewrite Z.ones_equiv; lia).
  rewrite Z.land_ones by lia. by rewrite Hm.
Qed.

Lemma rb_land_bounds off : 0 <= Z.land off (rb_mask rb) <= rb_mask rb.
Proof.
  rewrite rb_land. pose proof rb_mask_bounds.
  pose proof (Z.mod_pos_bound off (rb_mask rb + 1)). lia.
Qed.

(** The mask divides the wrap-around of the counters. *)
Lemma rb_land_u32 off : Z.land (u32 off) (rb_mask rb) = Z.land off (rb_mask rb).
Proof.
  rewrite !rb_land. destruct (wf_pow _ Hwf) as (k & Hk & Hm). rewrite Hm.
  unfold wrap. replace (2 ^ 32) with (2 ^ k * 2 ^ (32 - k)).
  - rewrite Z.rem_mul_r by lia.
    rewrite Z.mul_comm, Z.mod_add by lia. by rewrite Z.mod_mod by lia.
  - rewrite <- Z.pow_add_r by lia. f_equal. lia.
Qed.

Lemma rb_cell_bytes j :
  0 <= j <= rb_mask rb -> 0 <= j * rb_esize rb /\
    j * rb_esize rb + rb_esize rb <= (rb_mask rb + 1) * rb_esize rb.
Proof. pose proof (wf_esize _ Hwf). nia. Qed.

Lemma rb_bytes_length : zlen (rb_bytes rb) = (rb_mask rb + 1) * rb_esize rb.
Proof. unfold rb_bytes. by destruct (wf_data _ Hwf) as (l & d & -> & ?). Qed.

Lemma rb_cell_length j :
  0 <= j <= rb_mask rb -> length (rb_cell rb j) = Z.to_nat (rb_esize rb).
Proof.
  intros Hj. pose proof (rb_cell_bytes j Hj). pose proof rb_bytes_length as Hl.
  pose proof (wf_esize _ Hwf).
  unfold rb_cell. apply length_slice. unfold zlen in Hl. lia.
Qed.

Lemma rb_esize_u32 : u32 (1 * rb_esize rb) = rb_esize rb.
Proof.
  rewrite Z.mul_1_l. apply wrap_small. pose proof (wf_bytes _ Hwf).
  pose proof (wf_esize _ Hwf). pose proof rb_mask_bounds. unfold in_range. nia.
Qed.

Lemma rb_off_u32 j :
  0 <= j <= rb_mask rb -> u32 (j * rb_esize rb) = j * rb_esize rb.
Proof.
  intros Hj. apply wrap_small. pose proof (rb_cell_bytes j Hj).
  pose proof (wf_bytes _ Hwf). pose proof (wf_esize _ Hwf). unfold in_range. nia.
Qed.

(** One element never crosses the end of the array: the first part of the
    copy is the whole element. *)
Lemma rb_first_copy off :
  Z.min (u32 (1 * rb_esize rb))
    (u32 (u32 (u32 (rb_mask rb + 1) * rb_esize rb) -
          u32 (Z.land off (rb_mask rb) * rb_esize rb))) = rb_esize rb.
Proof.
  pose proof (rb_land_bounds off) as Hj. pose proof (rb_cell_bytes _ Hj).
  pose proof (wf_bytes _ Hwf). pose proof (wf_esize _ Hwf). pose proof rb_mask_bounds.
  rewrite rb_esize_u32, rb_cap_u32, (rb_off_u32 (Z.land _ _)) by done.
  rewrite (wrap_small 32 ((rb_mask rb + 1) * rb_esize rb)) by (unfold in_range; nia).
  rewrite wrap_small by (unfold in_range; nia). nia.
Qed.
End Wf.

(** The buffer with [x] stored in cell [j]. *)
Definition rb_store (rb : ring_buffer_t) (j : Z) (x : bytes) : ring_buffer_t :=
  let o := Z.to_nat (j * rb_esize rb) in
  {| rb_data := (fun '(l, d) => (l, take o d ++ x ++ drop (o + length x) d)) <$> rb_data rb;
     rb_in := rb_in rb; rb_out := rb_out rb;
     rb_mask := rb_mask rb; rb_esize := rb_esize rb |}.

Lemma copy_in_one rb src off :
  rb_wf rb -> rb_esize rb <= zlen src ->
  ringbuffer_copy_in rb src 1 off =
    Some (rb_store rb (Z.land off (rb_mask rb)) (take (Z.to_nat (rb_esize rb)) src)).
Proof.
  intros Hwf Hsrc. unfold ringbuffer_copy_in.
  pose proof (rb_land_bounds rb Hwf off) as Hj.
  pose proof (rb_cell_bytes rb Hwf _ Hj) as Hc. pose proof (wf_esize _ Hwf).
  cbv zeta. rewrite rb_first_copy, rb_esize_u32, rb_off_u32 by done.
  unfold rb_store. destruct (wf_data _ Hwf) as (l & d & -> & Hd). simpl.
  rewrite Z.sub_diag, (mem_read_ok 0), (mem_read_ok (rb_esize rb) 0) by lia.
  unfold slice. rewrite take_0, drop_0. simpl.
  rewrite mem_write_ok by zlia. simpl.
  rewrite mem_write_nil by zlia. done.
Qed.

Lemma copy_out_one rb dst off :
  rb_wf rb -> rb_esize rb <= zlen dst ->
  ringbuffer_copy_out rb dst 1 off =
    Some (rb_cell rb (Z.land off (rb_mask rb)) ++ drop (Z.to_nat (rb_esize rb)) dst).
Proof.
  intros Hwf Hdst. unfold ringbuffer_copy_out.
  pose proof (rb_land_bounds rb Hwf off) as Hj.
  pose proof (rb_cell_bytes rb Hwf _ Hj) as Hc. pose proof (wf_esize _ Hwf).
  pose proof (rb_cell_length rb Hwf _ Hj) as Hl.
  cbv zeta. rewrite rb_first_copy, rb_esize_u32, rb_off_u32 by done.
  unfold rb_cell, rb_bytes in *. destruct (wf_data _ Hwf) as (l & d & Hdata & Hd).
  rewrite Hdata in *. simpl.
  rewrite Z.sub_diag, (mem_read_ok 0 0), (mem_read_ok _ (rb_esize rb)) by lia.
  simpl.
  rewrite mem_write_ok by zlia. simpl. rewrite Hl.
  rewrite mem_write_nil by zlia. done.
Qed.

Lemma rb_store_wf rb j x :
  rb_wf rb -> 0 <= j <= rb_mask rb -> zlen x = rb_esize rb -> rb_wf (rb_store rb j x).
Proof.
  intros Hwf Hj Hx. pose proof (rb_cell_bytes rb Hwf j Hj). destruct Hwf.
  destruct wf_data0 as (l & d & Hd & Hl).
  split; simpl; try done. exists l. eexists. rewrite Hd. simpl. split; [done|]. zlia.
Qed.

Lemma rb_cell_store_same rb j x :
  rb_wf rb -> 0 <= j <= rb_mask rb -> zlen x = rb_esize rb ->
  rb_cell (rb_store rb j x) j = x.
Proof.
  intros Hwf Hj Hx. pose proof (rb_cell_bytes rb Hwf j Hj).
  unfold rb_cell, rb_bytes, rb_store. simpl.
  destruct (wf_data _ Hwf) as (l & d & -> & Hd). simpl.
  replace (Z.to_nat (rb_esize rb)) with (length x) by zlia.
  apply slice_update_same. zlia.
Qed.

Lemma rb_cell_store_other rb i j x :
  rb_wf rb -> 0 <= i <= rb_mask rb -> 0 <= j <= rb_mask rb -> zlen x = rb_esize rb ->
  i <> j -> rb_cell (rb_store rb j x) i = rb_cell rb i.
Proof.
  intros Hwf Hi Hj Hx Hne. pose proof (rb_cell_bytes rb Hwf j Hj).
  pose proof (wf_esize _ Hwf).
  unfold rb_cell, rb_bytes, rb_store. simpl.
  destruct (wf_data _ Hwf) as (l & d & -> & Hd). simpl.
  assert (i < j \/ j < i) as [Hlt|Hlt] by lia.
  - apply slice_update_before; [|zlia]. nia.
  - apply slice_update_after; [|zlia]. zlen_simpl. nia.
Qed.

(** ** The buffer refines the queue *)

Abbreviation rb_used rb := (u32 (rb_in rb - rb_out rb)).

Lemma rb_used_nonneg rb : 0 <= rb_used rb.
Proof. apply (wrap_range 32). lia. Qed.

Lemma rb_queue_length rb : zlen (rb_queue rb) = rb_used rb.
Proof.
  unfold zlen, rb_queue. rewrite length_fmap, length_seq.
  pose proof (rb_used_nonneg rb). lia.
Qed.

Lemma rb_in_land rb :
  rb_wf rb -> Z.land (rb_in rb) (rb_mask rb) = Z.land (rb_out rb + rb_used rb) (rb_mask rb).
Proof.
  intros Hwf. rewrite <- (rb_land_u32 rb Hwf (rb_out rb + _)). f_equal.
  unfold wrap. rewrite Zplus_mod_idemp_r.
  replace (rb_out rb + (rb_in rb - rb_out rb)) with (rb_in rb) by lia.
  symmetry. apply Z.mod_small, Hwf.
Qed.

Lemma rb_land_u32_add rb a i :
  rb_wf rb -> Z.land (u32 a + i) (rb_mask rb) = Z.land (a + i) (rb_mask rb).
Proof.
  intros Hwf. rewrite <- (rb_land_u32 rb Hwf (u32 a + i)), <- (rb_land_u32 rb Hwf (a + i)).
  f_equal. unfold wrap. by rewrite Zplus_mod_idemp_l.
Qed.

(** Distinct positions within one turn of the buffer are distinct cells. *)
Lemma rb_land_ne rb a i j :
  rb_wf rb -> 0 <= i < j -> j <= rb_mask rb + i ->
  Z.land (a + i) (rb_mask rb) <> Z.land (a + j) (rb_mask rb).
Proof.
  intros Hwf Hij Hj Heq. rewrite !(rb_land rb Hwf) in Heq.
  pose proof (rb_mask_bounds rb Hwf).
  assert ((a + j - (a + i)) mod (rb_mask rb + 1) = 0) as H0.
  { rewrite Zminus_mod, Heq, Z.sub_diag. apply Z.mod_0_l. lia. }
  replace (a + j - (a + i)) with (j - i) in H0 by lia.
  rewrite Z.mod_small in H0; lia.
Qed.

Lemma rb_put_used rb :
  rb_wf rb -> rb_used rb <= rb_mask rb ->
  u32 (u32 (rb_in rb + 1) - rb_out rb) = rb_used rb + 1.
Proof.
  intros Hwf Hlt. pose proof (rb_mask_bounds rb Hwf). pose proof (rb_used_nonneg rb).
  transitivity (u32 (rb_used rb + 1)).
  - unfold wrap. rewrite Zminus_mod_idemp_l, Zplus_mod_idemp_l. f_equal. lia.
  - apply wrap_small. unfold in_range. lia.
Qed.

Lemma rb_get_used rb :
  rb_wf rb -> 0 < rb_used rb ->
  u32 (rb_in rb - u32 (rb_out rb + 1)) = rb_used rb - 1.
Proof.
  intros Hwf Hlt. pose proof (wf_used _ Hwf). pose proof (rb_mask_bounds rb Hwf).
  transitivity (u32 (rb_used rb - 1)).
  - unfold wrap. rewrite Zminus_mod_idemp_r, Zminus_mod_idemp_l. f_equal. lia.
  - apply wrap_small. unfold in_range. lia.
Qed.

Lemma rb_queue_push rb x :
  rb_wf rb -> rb_used rb <= rb_mask rb -> zlen x = rb_esize rb ->
  let rb' := set_in (rb_store rb (Z.land (rb_in rb) (rb_mask rb)) x) (u32 (rb_in rb + 1)) in
  rb_wf rb' /\ rb_queue rb' = rb_queue rb ++ [x].
Proof.
  intros Hwf Hlt Hx rb'.
  pose proof (rb_land_bounds rb Hwf (rb_in rb)) as Hj.
  pose proof (rb_store_wf rb _ x Hwf Hj Hx) as Hwf'.
  pose proof (rb_put_used rb Hwf Hlt) as Hu. pose proof (rb_used_nonneg rb).
  split.
  { destruct Hwf'. subst rb'. split; simpl in *; try done; [by apply wrap_range | lia]. }
  unfold rb_queue. subst rb'. simpl. rewrite Hu.
  replace (Z.to_nat (rb_used rb + 1)) with (S (Z.to_nat (rb_used rb))) by lia.
  rewrite seq_S, fmap_app. f_equal.
  - apply list_fmap_ext. intros i k [-> Hk]%lookup_seq. simpl.
    apply (rb_cell_store_other rb); try done; [apply rb_land_bounds; done|].
    rewrite rb_in_land by done. apply rb_land_ne; [done | lia..].
  - simpl. f_equal. rewrite Z2Nat.id, <- rb_in_land by done.
    by apply (rb_cell_store_same rb).
Qed.

Lemma rb_queue_pop rb :
  rb_wf rb -> 0 < rb_used rb ->
  let rb' := set_out rb (u32 (rb_out rb + 1)) in
  rb_wf rb' /\
  rb_queue rb = rb_cell rb (Z.land (rb_out rb) (rb_mask rb)) :: rb_queue rb'.
Proof.
  intros Hwf Hlt rb'. pose proof (rb_get_used rb Hwf Hlt) as Hu.
  split.
  { pose proof (wf_used _ Hwf). destruct Hwf. subst rb'.
    split; simpl in *; try done; [by apply wrap_range | lia]. }
  unfold rb_queue. subst rb'. simpl. rewrite Hu.
  replace (Z.to_nat (rb_used rb)) with (S (Z.to_nat (rb_used rb - 1))) by lia.
  simpl. rewrite Z.add_0_r. f_equal.
  rewrite <- fmap_S_seq, <- list_fmap_compose. apply list_fmap_ext.
  intros i k _. simpl. unfold rb_cell. simpl.
  rewrite (rb_land_u32_add rb) by done. do 4 f_equal. lia.
Qed.

Lemma rb_wf_reset rb : rb_wf rb -> rb_wf (set_out (set_in rb 0) 0).
Proof.
  intros Hwf. pose proof (rb_mask_bounds rb Hwf). destruct Hwf.
  split; simpl; try done. rewrite wrap_small; unfold in_range; lia.
Qed.

Lemma ringbuffer_put_spec l rb buf :
  rb_wf rb -> rb_esize rb <= zlen buf ->
  exists ret rb',
    ringbuffer_put (Some (l, rb)) (Some buf) 1 = Some (ret, Some (l, rb')) /\
    rb_wf rb' /\ rb_mask rb' = rb_mask rb /\ rb_esize rb' = rb_esize rb /\
    (ret, rb_queue rb') =
      Fifo.put (rb_mask rb + 1) (rb_queue rb) (take (Z.to_nat (rb_esize rb)) buf).
Proof.
  intros Hwf Hbuf. pose proof (wf_esize _ Hwf). pose proof (rb_mask_bounds rb Hwf).
  pose proof (wf_used _ Hwf). pose proof (rb_used_nonneg rb).
  unfold ringbuffer_put. rewrite rb_esize_u32 by done.
  rewrite (proj2 (Z.geb_le _ _)) by lia. simpl.
  unfold ringbuffer_unused. rewrite rb_cap_u32 by done.
  rewrite (wrap_small 32 (_ - _)) by (unfold in_range; lia).
  unfold Fifo.put. rewrite rb_queue_length. rewrite Z.gtb_ltb.
  destruct (Z.ltb_spec (rb_mask rb + 1 - rb_used rb) 1) as [Hfull|Hroom].
  - rewrite (proj2 (Z.ltb_ge _ _)) by lia. by exists 0, rb.
  - rewrite (proj2 (Z.ltb_lt _ _)), copy_in_one by (done || lia). simpl.
    destruct (rb_queue_push rb (take (Z.to_nat (rb_esize rb)) buf)) as [Hwf' Hq];
      [done | lia | zlia |].
    eexists 1, _. split; [done|]. split_and!; try done. by rewrite Hq.
Qed.

Lemma ringbuffer_get_spec l rb buf :
  rb_wf rb -> rb_esize rb <= zlen buf ->
  exists ret rb' buf',
    ringbuffer_get (Some (l, rb)) (Some buf) 1 = Some (ret, Some (l, rb'), Some buf') /\
    rb_wf rb' /\ rb_mask rb' = rb_mask rb /\ rb_esize rb' = rb_esize rb /\
    match Fifo.get (rb_queue rb) with
    | (r, q', Some x) =>
        ret = r /\ rb_queue rb' = q' /\
        buf' = x ++ drop (Z.to_nat (rb_esize rb)) buf /\ zlen x = rb_esize rb
    | (r, q', None) => ret = r /\ rb' = rb /\ rb_queue rb' = q' /\ buf' = buf
    end.
Proof.
  intros Hwf Hbuf. pose proof (wf_esize _ Hwf). pose proof (rb_used_nonneg rb).
  unfold ringbuffer_get, ringbuffer_out_peek. rewrite rb_esize_u32 by done.
  rewrite (proj2 (Z.geb_le _ _)) by lia. simpl.
  destruct (Z.eqb_spec (Z.min 1 (rb_used rb)) 0) as [Hempty|Hsome]; simpl.
  - exists 0, rb, buf. do 4 (split; [done|]).
    destruct (rb_queue rb) as [|x q] eqn:Hq; [done|].
    pose proof (rb_queue_length rb) as Hlen. rewrite Hq in Hlen. zlia.
  - replace (Z.min 1 (rb_used rb)) with 1 by lia.
    rewrite copy_out_one by done. simpl.
    destruct (rb_queue_pop rb) as [Hwf' Hq]; [done | lia |].
    eexists 1, _, _. split; [done|]. do 3 (split; [done|]). rewrite Hq. simpl.
    split_and!; try done. unfold zlen. rewrite rb_cell_length by (done || by apply rb_land_bounds).
    lia.
Qed.

(** ** Powers of two *)

Lemma is_power_of_2_spec n :
  0 < n < 2 ^ 32 -> is_power_of_2 n = true -> n = 2 ^ Z.log2 n.
Proof.
  intros Hn [_ Hz%Z.eqb_eq]%andb_true_iff.
  rewrite wrap_small in Hz by (unfold in_range; lia).
  pose proof (Z.log2_spec n ltac:(lia)) as [Hlo Hhi].
  destruct (decide (n = 2 ^ Z.log2 n)) as [|Hne]; [done|exfalso].
  pose proof (Z.pow_pos_nonneg 2 (Z.log2 n) ltac:(lia) (Z.log2_nonneg n)).
  assert (Z.log2 (n - 1) = Z.log2 n) as Hlog.
  { apply Z.log2_unique; [apply Z.log2_nonneg | lia]. }
  assert (Z.testbit (Z.land n (n - 1)) (Z.log2 n) = true) as Hbit.
  { rewrite Z.land_spec, Z.bit_log2 by lia. rewrite <- Hlog, Z.bit_log2 by lia. done. }
  rewrite Hz, Z.testbit_0_l in Hbit. done.
Qed.

(** [smeared L w n]: the highest set bit of [n] is [L], and the [w] bits down
    from it are all set. *)
Definition smeared (L w n : Z) : Prop :=
  0 <= n /\ (forall i, L < i -> Z.testbit n i = false) /\
  (forall i, 0 <= i -> L - w < i <= L -> Z.testbit n i = true).

Lemma smeared_step L w n :
  0 < w -> smeared L w n -> smeared L (w + w) (Z.lor n (Z.shiftr n w)).
Proof.
  intros Hw (H0 & Hhi & Hlo). split_and!.
  - apply Z.lor_nonneg. split; [done|]. by apply Z.shiftr_nonneg.
  - intros i Hi. assert (0 <= i \/ i < 0) as [Hpos|Hneg] by lia.
    + rewrite Z.lor_spec, Z.shiftr_spec, !Hhi by lia. done.
    + by apply Z.testbit_neg_r.
  - intros i Hpos Hi. rewrite Z.lor_spec, Z.shiftr_spec by done.
    assert (L - w < i \/ i <= L - w) as [Hc|Hc] by lia.
    + rewrite Hlo by lia. done.
    + rewrite (Hlo (i + w)) by lia. apply orb_true_r.
Qed.

Lemma smeared_ones L w n : 0 <= L < w -> smeared L w n -> n = Z.ones (L + 1).
Proof.
  intros Hw (H0 & Hhi & Hlo). apply Z.bits_inj'. intros i Hi.
  destruct (decide (i < L + 1)).
  - rewrite Z.ones_spec_low, Hlo by lia. done.
  - rewrite Z.ones_spec_high, Hhi by lia. done.
Qed.

Lemma rounddown_pow_of_two_spec n :
  0 < n < 2 ^ 32 -> rounddown_pow_of_two n = 2 ^ Z.log2 n.
Proof.
  intros Hn. unfold rounddown_pow_of_two. rewrite (proj2 (Z.eqb_neq _ _)) by lia.
  cbv zeta. set (m := Z.lor _ (Z.shiftr _ 16)).
  assert (0 <= Z.log2 n < 32) as HL.
  { split; [apply Z.log2_nonneg|]. apply Z.log2_lt_pow2; lia. }
  assert (m = Z.ones (Z.log2 n + 1)) as ->.
  { apply (smeared_ones (Z.log2 n) 32); [lia|]. subst m.
    apply (smeared_step _ 16), (smeared_step _ 8), (smeared_step _ 4),
      (smeared_step _ 2), (smeared_step _ 1); try lia.
    split_and!; [lia | intros i Hi; apply Z.bits_above_log2; lia |].
    intros i H0 Hi. replace i with (Z.log2 n) by lia. apply Z.bit_log2. lia. }
  assert (Z.shiftr (Z.ones (Z.log2 n + 1)) 1 = Z.ones (Z.log2 n)) as ->.
  { rewrite Z.shiftr_div_pow2, !Z.ones_equiv, Z.pow_add_r by lia.
    change (2 ^ 1) with 2. pose proof (Z.pow_pos_nonneg 2 (Z.log2 n)).
    replace (Z.pred (2 ^ Z.log2 n * 2)) with (1 + (2 ^ Z.log2 n - 1) * 2) by lia.
    rewrite Z.div_add by lia. change (1 / 2) with 0. lia. }
  rewrite !Z.ones_equiv, Z.pow_add_r by lia. change (2 ^ 1) with 2.
  assert (0 < 2 ^ Z.log2 n <= 2 ^ 31).
  { split; [apply Z.pow_pos_nonneg; lia | apply Z.pow_le_mono_r; lia]. }
  rewrite wrap_small; unfold in_range; lia.
Qed.

(** The capacity in elements: the largest power of two that fits, at least one. *)
Definition pow2_capacity (n : Z) : Z := if n =? 0 then 1 else 2 ^ Z.log2 n.

Lemma pow2_capacity_spec n :
  0 <= n < 2 ^ 32 ->
  (if (if is_power_of_2 n then n else rounddown_pow_of_two n) =? 0 then 1
   else if is_power_of_2 n then n else rounddown_pow_of_two n) = pow2_capacity n.
Proof.
  intros Hn. unfold pow2_capacity. destruct (Z.eqb_spec n 0) as [->|Hne]; [done|].
  assert ((if is_power_of_2 n then n else rounddown_pow_of_two n) = 2 ^ Z.log2 n) as ->.
  { destruct (is_power_of_2 n) eqn:E; [apply is_power_of_2_spec | apply rounddown_pow_of_two_spec];
      auto with lia. }
  pose proof (Z.pow_pos_nonneg 2 (Z.log2 n) ltac:(lia) (Z.log2_nonneg n)).
  by rewrite (proj2 (Z.eqb_neq _ _)) by lia.
Qed.

Lemma pow2_capacity_bounds n :
  0 <= n < 2 ^ 32 ->
  exists k, 0 <= k < 32 /\ pow2_capacity n = 2 ^ k /\ (pow2_capacity n <= n \/ pow2_capacity n = 1).
Proof.
  intros Hn. unfold pow2_capacity. destruct (Z.eqb_spec n 0) as [->|Hne].
  - exists 0. split_and!; [lia.. | done | by right].
  - exists (Z.log2 n). split_and!; [apply Z.log2_nonneg | apply Z.log2_lt_pow2; lia | done |].
    left. apply Z.log2_spec. lia.
Qed.

(** ** Creation *)

Definition heap_fresh (h : heap) : Prop := forall l, l ∈ h_live h -> (l < h_next h)%positive.

Definition rb_locs (rb : ptr ring_buffer_t) : list loc :=
  match rb with
  | None => []
  | Some (l, r) => match rb_data r with None => [l] | Some (d, _) => [d; l] end
  end.

(** Some call of [malloc] fails. *)
Definition alloc_refused (malloc_ok : nat -> Z -> bool) : Prop := exists n size, malloc_ok n size = false.

Lemma malloc_spec ok size h :
  heap_fresh h ->
  wp (malloc ok size) (fun o h' => heap_fresh h' /\
    match o with
    | None => h_live h' = h_live h /\ alloc_refused ok
    | Some l => (l ∉ h_live h) /\ h_live h' = {[l]} ∪ h_live h
    end) h.
Proof.
  intros Hh. unfold wp, malloc. destruct (ok _ _) eqn:E; simpl; [|split_and!; [done | done | by eexists _, _]].
  split_and!; [|intros Hl%Hh; lia|done].
  intros l [->%elem_of_singleton|Hl%Hh]%elem_of_union; simpl; lia.
Qed.

Lemma free_spec l h :
  heap_fresh h -> l ∈ h_live h ->
  wp (free l) (fun _ h' => heap_fresh h' /\ h_live h' = h_live h ∖ {[l]}) h.
Proof.
  intros Hh Hl. unfold wp, free. rewrite decide_True by done. split; [|done].
  intros l' Hl'%elem_of_difference. apply Hh. apply Hl'.
Qed.

Lemma pair_locs (d l : loc) (old : gset loc) :
  l <> d -> l ∉ old -> d ∉ old ->
  NoDup [d; l] /\ (forall x, x ∈ [d; l] -> x ∉ old).
Proof.
  intros Hne Hl Hd. split; [|set_solver].
  apply list.NoDup_cons. split; [set_solver | apply NoDup_singleton].
Qed.

(** What a created buffer is: empty, well formed, of the requested element size
    and of the capacity the size allows, in two fresh blocks. *)
Definition created (size esize : Z) (old : gset loc) (p : ptr ring_buffer_t) : Prop :=
  match p with
  | None => False
  | Some (_, rb) =>
      NoDup (rb_locs p) /\ (forall l, l ∈ rb_locs p -> l ∉ old) /\
      rb_wf rb /\ rb_queue rb = [] /\ rb_esize rb = esize /\
      rb_mask rb + 1 = pow2_capacity (size / esize)
  end.

Lemma ring_init_wf l d size esize :
  0 < esize < 2 ^ 32 -> 0 < size < 2 ^ 32 ->
  let cap := pow2_capacity (size / esize) in
  let rb := {| rb_data := Some (d, replicate (Z.to_nat (u32 (cap * esize))) x00);
               rb_in := 0; rb_out := 0; rb_mask := u32 (cap - 1); rb_esize := esize |} in
  l <> d -> forall old, l ∉ old -> d ∉ old -> created size esize old (Some (l, rb)).
Proof.
  intros He Hs cap rb Hne old Hl Hd.
  assert (0 <= size / esize) by (apply Z.div_pos; lia).
  assert (esize * (size / esize) <= size) by (apply Z.mul_div_le; lia).
  assert (size / esize <= size) by nia.
  destruct (pow2_capacity_bounds (size / esize)) as (k & Hk & Hc & Hle); [lia|].
  fold cap in Hc, Hle.
  assert (0 < 2 ^ k <= 2 ^ 31).
  { split; [apply Z.pow_pos_nonneg; lia | apply Z.pow_le_mono_r; lia]. }
  assert (u32 (cap - 1) = cap - 1) as Hm by (apply wrap_small; unfold in_range; lia).
  assert (0 < cap * esize < 2 ^ 32) by (destruct Hle as [|Hle]; [nia | rewrite Hle; lia]).
  assert (u32 (cap * esize) = cap * esize) as Hb by (apply wrap_small; unfold in_range; lia).
  destruct (pair_locs d l old Hne Hl Hd) as [Hnd Hold].
  simpl. split_and!; try done.
  - subst rb. rewrite Hm, Hb. split; simpl; rewrite ?Z.sub_add; try done; try lia.
    + exists k. lia.
    + exists d. eexists. split; [done|]. zlia.
    + change (u32 (0 - 0)) with 0. lia.
  - rewrite Hm. unfold cap. lia.
Qed.

Lemma ringbuffer_create_spec ok size esize h :
  heap_fresh h -> 0 < esize < 2 ^ 32 -> 0 < size < 2 ^ 32 ->
  wp (ringbuffer_create ok size esize) (fun p h' => heap_fresh h' /\
    (p = None /\ h_live h' = h_live h /\ alloc_refused ok \/
     created size esize (h_live h) p /\ h_live h' = list_to_set (rb_locs p) ∪ h_live h)) h.
Proof.
  intros Hh He Hs. unfold ringbuffer_create.
  rewrite !(proj2 (Z.eqb_neq _ _)) by lia. simpl.
  apply wp_bind. eapply wp_mono; [by apply malloc_spec|].
  intros [l|] h1 [Hh1 Hl1]; [destruct Hl1 as [Hfl Hl1]|]; [|wp_steps; destruct Hl1; eauto].
  assert (0 <= size / esize <= size).
  { split; [apply Z.div_pos; lia | apply Z.div_le_upper_bound; nia]. }
  rewrite (pow2_capacity_spec (size / esize)) by lia.
  apply wp_bind. eapply wp_mono; [by apply malloc_spec|].
  intros [d|] h2 [Hh2 Hl2]; [destruct Hl2 as [Hfd Hl2] | destruct Hl2 as [Hl2 Href]].
  - wp_steps. split; [done|]. right. split; [apply ring_init_wf; set_solver|].
    rewrite Hl2, Hl1. set_solver.
  - apply wp_bind. eapply wp_mono; [apply free_spec; [done | set_solver]|].
    intros [] h3 [Hh3 Hl3]. wp_steps. split; [done|]. left. split; [done|]. split; [|done].
    rewrite Hl3, Hl2, Hl1. set_solver.
Qed.

Lemma ringbuffer_destory_spec p h :
  heap_fresh h -> NoDup (rb_locs p) -> (forall l, l ∈ rb_locs p -> l ∈ h_live h) ->
  wp (ringbuffer_destory p) (fun _ h' => heap_fresh h' /\
    h_live h' = h_live h ∖ list_to_set (rb_locs p)) h.
Proof.
  intros Hh Hnd Hin. destruct p as [[l r]|]; simpl in *.
  2:{ wp_steps. split; [done | set_solver]. }
  destruct (rb_data r) as [[d bs]|].
  - apply list.NoDup_cons in Hnd as [Hnd _]. apply wp_bind.
    eapply wp_mono; [apply free_spec; [done | set_solver]|].
    intros [] h1 [Hh1 Hl1].
    eapply wp_mono; [apply free_spec; [done | set_solver]|].
    intros [] h2 [Hh2 Hl2]. split; [done | set_solver].
  - eapply wp_mono; [apply free_spec; [done | set_solver]|].
    intros [] h1 [Hh1 Hl1]. split; [done | set_solver].
Qed.

(** ** Runs of the buffer and of the queue

    A run calls the public operations in any order, on one buffer; the specified
    run does the same on the abstract queue. *)
Inductive rb_op :=
  | OpPut (buf : bytes)
  | OpGet (dst : bytes)
  | OpLen | OpAvail | OpIsFull | OpIsEmpty | OpReset.

Inductive rb_obs :=
  | ObsCount (n : Z)
  | ObsGet (n : Z) (dst : option bytes)
  | ObsBool (b : bool)
  | ObsUnit.

Definition rb_step (op : rb_op) (p : ptr ring_buffer_t) : option (rb_obs * ptr ring_buffer_t) :=
  match op with
  | OpPut buf => '(n, p') ← ringbuffer_put p (Some buf) 1; Some (ObsCount n, p')
  | OpGet dst => '(n, p', dst') ← ringbuffer_get p (Some dst) 1; Some (ObsGet n dst', p')
  | OpLen => Some (ObsCount (ringbuffer_len p), p)
  | OpAvail => Some (ObsCount (ringbuffer_avail p), p)
  | OpIsFull => Some (ObsBool (ringbuffer_is_full p), p)
  | OpIsEmpty => Some (ObsBool (ringbuffer_is_empty p), p)
  | OpReset => Some (ObsUnit, ringbuffer_reset p)
  end.

Fixpoint rb_run (ops : list rb_op) (p : ptr ring_buffer_t)
    : option (list rb_obs * ptr ring_buffer_t) :=
  match ops with
  | [] => Some ([], p)
  | op :: ops' =>
    '(o, p') ← rb_step op p;
    '(os, p'') ← rb_run ops' p';
    Some (o :: os, p'')
  end.

Definition fifo_step (cap esize : Z) (op : rb_op) (q : list bytes) : rb_obs * list bytes :=
  match op with
  | OpPut buf => let '(n, q') := Fifo.put cap q (take (Z.to_nat esize) buf) in (ObsCount n, q')
  | OpGet dst =>
      match Fifo.get q with
      | (n, q', Some x) => (ObsGet n (Some (x ++ drop (Z.to_nat esize) dst)), q')
      | (n, q', None) => (ObsGet n (Some dst), q')
      end
  | OpLen => (ObsCount (zlen q), q)
  | OpAvail => (ObsCount (cap - zlen q), q)
  | OpIsFull => (ObsBool (cap <=? zlen q), q)
  | OpIsEmpty => (ObsBool (zlen q =? 0), q)
  | OpReset => (ObsUnit, [])
  end.

Fixpoint fifo_run (cap esize : Z) (ops : list rb_op) (q : list bytes) : list rb_obs * list bytes :=
  match ops with
  | [] => ([], q)
  | op :: ops' =>
    let '(o, q') := fifo_step cap esize op q in
    let '(os, q'') := fifo_run cap esize ops' q' in
    (o :: os, q'')
  end.

(** The caller's memory holds at least one element. *)
Definition op_ok (esize : Z) (op : rb_op) : Prop :=
  match op with OpPut b | OpGet b => esize <= zlen b | _ => True end.

Lemma ringbuffer_len_spec l rb : ringbuffer_len (Some (l, rb)) = zlen (rb_queue rb).
Proof. by rewrite rb_queue_length. Qed.

Lemma ringbuffer_avail_spec l rb :
  rb_wf rb -> ringbuffer_avail (Some (l, rb)) = rb_mask rb + 1 - zlen (rb_queue rb).
Proof.
  intros Hwf. rewrite rb_queue_length. simpl. rewrite rb_cap_u32 by done.
  pose proof (rb_mask_bounds rb Hwf). pose proof (rb_used_nonneg rb).
  pose proof (wf_used _ Hwf). apply wrap_small. unfold in_range. lia.
Qed.

Lemma ringbuffer_is_full_spec l rb :
  rb_wf rb -> ringbuffer_is_full (Some (l, rb)) = (rb_mask rb + 1 <=? zlen (rb_queue rb)).
Proof.
  intros Hwf. rewrite rb_queue_length. simpl. rewrite rb_cap_u32 by done. apply Z.geb_leb.
Qed.

Lemma ringbuffer_is_empty_spec l rb :
  rb_wf rb -> ringbuffer_is_empty (Some (l, rb)) = (zlen (rb_queue rb) =? 0).
Proof.
  intros Hwf. rewrite rb_queue_length. simpl. apply eq_true_iff_eq.
  rewrite !Z.eqb_eq. split.
  - intros ->. by rewrite Z.sub_diag.
  - pose proof (wf_in _ Hwf). pose proof (wf_out _ Hwf). unfold in_range in *.
    intros Hz%Z.mod_divide; [|lia]. destruct Hz as [c Hc]. lia.
Qed.

Lemma rb_queue_reset rb : rb_queue (set_out (set_in rb 0) 0) = [].
Proof. done. Qed.

Lemma rb_step_refines op l rb :
  rb_wf rb -> op_ok (rb_esize rb) op ->
  exists rb',
    rb_step op (Some (l, rb)) =
      Some (fst (fifo_step (rb_mask rb + 1) (rb_esize rb) op (rb_queue rb)), Some (l, rb')) /\
    rb_wf rb' /\ rb_mask rb' = rb_mask rb /\ rb_esize rb' = rb_esize rb /\
    rb_queue rb' = snd (fifo_step (rb_mask rb + 1) (rb_esize rb) op (rb_queue rb)).
Proof.
  intros Hwf Hok. destruct op as [buf|dst| | | | |]; cbn [rb_step fifo_step].
  - destruct (ringbuffer_put_spec l rb buf Hwf Hok) as (n & rb' & -> & Hwf' & Hm & He & Hq).
    rewrite <- Hq. by exists rb'.
  - destruct (ringbuffer_get_spec l rb dst Hwf Hok) as (n & rb' & dst' & -> & Hwf' & Hm & He & Hq).
    destruct (Fifo.get (rb_queue rb)) as [[r q'] [x|]].
    + destruct Hq as (-> & Hq & -> & _). by exists rb'.
    + destruct Hq as (-> & -> & Hq & ->). by exists rb.
  - exists rb. by rewrite ringbuffer_len_spec.
  - exists rb. by rewrite ringbuffer_avail_spec.
  - exists rb. by rewrite ringbuffer_is_full_spec.
  - exists rb. by rewrite ringbuffer_is_empty_spec.
  - eexists. split; [done|]. split; [by apply rb_wf_reset | done].
Qed.

(** C10. Refinement: from any well-formed buffer, whatever the values of its
    wrapping counters, every sequence of operations runs without an access
    out of bounds, returns what a bounded first-in first-out queue of elements
    returns, and leaves a well-formed buffer that represents the queue left. *)
Theorem ring_refines_fifo ops l rb :
  rb_wf rb -> Forall (op_ok (rb_esize rb)) ops ->
  exists rb',
    rb_run ops (Some (l, rb)) =
      Some (fst (fifo_run (rb_mask rb + 1) (rb_esize rb) ops (rb_queue rb)), Some (l, rb')) /\
    rb_wf rb' /\
    rb_queue rb' = snd (fifo_run (rb_mask rb + 1) (rb_esize rb) ops (rb_queue rb)).
Proof.
  revert rb. induction ops as [|op ops IH]; intros rb Hwf Hok; [by exists rb|].
  apply list.Forall_cons in Hok as [Hop Hops]. simpl.
  destruct (rb_step_refines op l rb Hwf Hop) as (rb1 & -> & Hwf1 & Hm & He & Hq). simpl.
  destruct (IH rb1 Hwf1) as (rb2 & Hrun & Hwf2 & Hq2); [by rewrite He|].
  rewrite Hm, He, Hq in Hrun, Hq2. rewrite Hrun.
  destruct (fifo_step (rb_mask rb + 1) (rb_esize rb) op (rb_queue rb)) as [o q'].
  simpl in *. exists rb2.
  destruct (fifo_run (rb_mask rb + 1) (rb_esize rb) ops q') as [os q'']. done.
Qed.

(** A buffer of two 2-byte elements whose counters are about to wrap. *)
Definition wrapping_ring : ring_buffer_t :=
  {| rb_data := Some (1%positive, [x00; x00; x00; x00]);
     rb_in := 2 ^ 32 - 1; rb_out := 2 ^ 32 - 1; rb_mask := 1; rb_esize := 2 |}.

Lemma wrapping_ring_wf : rb_wf wrapping_ring.
Proof.
  split; simpl; try (unfold in_range; lia).
  - by exists 1.
  - by eexists _, _.
  - by vm_compute.
Qed.

Definition wrapping_ops : list rb_op :=
  [OpPut [x01; x02]; OpPut [x03; x04]; OpPut [x05; x06]; OpIsFull;
   OpGet [x00; x00; xff]; OpPut [x07; x08]; OpGet [x00; x00]; OpGet [x00; x00]; OpLen].

Lemma ring_refines_fifo_witness :
  exists rb',
    rb_run wrapping_ops (Some (1%positive, wrapping_ring)) =
      Some ([ObsCount 1; ObsCount 1; ObsCount 0; ObsBool true;
             ObsGet 1 (Some [x01; x02; xff]); ObsCount 1;
             ObsGet 1 (Some [x03; x04]); ObsGet 1 (Some [x07; x08]); ObsCount 0],
            Some (1%positive, rb')) /\
    rb_wf rb' /\ rb_queue rb' = [].
Proof.
  apply (ring_refines_fifo wrapping_ops 1%positive wrapping_ring wrapping_ring_wf).
  repeat constructor; vm_compute; discriminate.
Defined.

(** C40. Capacity: the rounding function returns the largest power of two that
    is not above its argument, and the test recognises exactly the powers. *)
Theorem rounddown_pow_of_two_largest n :
  0 < n < 2 ^ 32 ->
  (exists k, 0 <= k < 32 /\ rounddown_pow_of_two n = 2 ^ k) /\
  rounddown_pow_of_two n <= n < 2 * rounddown_pow_of_two n /\
  (is_power_of_2 n = true <-> exists k, 0 <= k /\ n = 2 ^ k).
Proof.
  intros Hn. rewrite rounddown_pow_of_two_spec by done.
  pose proof (Z.log2_spec n ltac:(lia)) as [Hlo Hhi].
  pose proof (Z.log2_nonneg n). assert (Z.log2 n < 32) by (apply Z.log2_lt_pow2; lia).
  rewrite Z.pow_succ_r in Hhi by done.
  split_and!; [by exists (Z.log2 n) | done..|].
  split.
  - intros Hp. exists (Z.log2 n). split; [done|]. by apply is_power_of_2_spec.
  - intros (k & Hk & ->). unfold is_power_of_2. rewrite (proj2 (Z.eqb_neq _ _)) by lia. simpl.
    rewrite wrap_small by (unfold in_range; lia). apply Z.eqb_eq.
    replace (2 ^ k - 1) with (Z.ones k) by (rewrite Z.ones_equiv; lia).
    rewrite Z.land_ones by done. apply Z.mod_same. lia.
Qed.

Lemma rounddown_pow_of_two_largest_witness :
  (exists k, 0 <= k < 32 /\ rounddown_pow_of_two 100 = 2 ^ k) /\
  rounddown_pow_of_two 100 <= 100 < 2 * rounddown_pow_of_two 100 /\
  (is_power_of_2 100 = true <-> exists k, 0 <= k /\ 100 = 2 ^ k).
Proof. apply (rounddown_pow_of_two_largest 100). lia. Defined.

(** Clients reason through the specifications. *)
#[global] Arguments ringbuffer_put : simpl never.
#[global] Arguments ringbuffer_get : simpl never.
#[global] Arguments ringbuffer_len : simpl never.
#[global] Arguments ringbuffer_avail : simpl never.
#[global] Arguments ringbuffer_create : simpl never.
#[global] Arguments ringbuffer_destory : simpl never.
