(* ===== verification/RingSet.v ===== *)
(** * Sets of ring buffers, one per channel ([src/ringbuffer_channels.c],
    second half): allocation with roll-back, destruction, and the channel
    operations with their range checks. *)
From S2P Require Import Prelude Ring.

(** ** Data *)

Record RingBuffer32ChSet := mk_set {
  channels : ptr (list (ptr ring_buffer_t));
  max_channel : Z;
  elem_size : Z;
  buf_capacity : Z
}.

(** What [memset(set, 0, sizeof(set))] leaves. *)
Definition zero_set : RingBuffer32ChSet := mk_set None 0 0 0.

Definition sizeof_pointer : Z := 4.

Definition with_channels (s : RingBuffer32ChSet) (c : ptr (list (ptr ring_buffer_t))) :=
  mk_set c (max_channel s) (elem_size s) (buf_capacity s).

(** [set->channels[ch]]: [None] is a null or out-of-range access. *)
Definition channel_at (s : RingBuffer32ChSet) (ch : Z) : option (ptr ring_buffer_t) :=
  '(_, chs) ← channels s; chs !! Z.to_nat ch.

(** [set->channels[ch] = rb], where [rb] is what the call made of the buffer. *)
Definition channel_set (s : RingBuffer32ChSet) (ch : Z) (rb : ptr ring_buffer_t) :=
  with_channels s ((fun '(l, chs) => (l, <[Z.to_nat ch := rb]> chs)) <$> channels s).

(** ** Destruction and initialisation *)

Definition ringbuffer_32ch_destory (set : option RingBuffer32ChSet) (MAX_Channel : Z)
    : M heap (option RingBuffer32ChSet) :=
  match set with
  | None => ret None
  | Some s =>
    match channels s with
    | None => ret (Some zero_set)
    | Some (l, chs) =>
      (foreach (seq 0 (Z.to_nat (max_channel s))) (fun i =>
         let* rb := of_option (chs !! i) in ringbuffer_destory rb) ;;
       free l ;; ret (Some zero_set))
    end
  end%c.

Fixpoint init_channels (malloc_ok : nat -> Z -> bool) (n : nat) (i : Z)
    (s : RingBuffer32ChSet) (buf_size MAX_Channel : Z) : M heap (Z * option RingBuffer32ChSet) :=
  match n with
  | O => ret (0, Some s)
  | S n' =>
    let* rb := ringbuffer_create malloc_ok buf_size (elem_size s) in
    let s' := channel_set s i rb in
    match rb with
    | None => let* set := ringbuffer_32ch_destory (Some s') MAX_Channel in ret (-1, set)
    | Some _ => init_channels malloc_ok n' (i + 1) s' buf_size MAX_Channel
    end
  end%c.

Definition UINT32_MAX : Z := 0xFFFFFFFF.

Definition ringbuffer_32ch_init (malloc_ok : nat -> Z -> bool)
    (set : option RingBuffer32ChSet) (elem_size buf_capacity MAX_Channel : Z)
    : M heap (Z * option RingBuffer32ChSet) :=
  match set with
  | None => ret (-1, None)
  | Some s =>
    if (elem_size =? 0) || (buf_capacity =? 0) || (MAX_Channel =? 0) then ret (-1, Some s) else
    let actual_cap := buf_capacity in
    let actual_cap :=
      if is_power_of_2 actual_cap then actual_cap else rounddown_pow_of_two actual_cap in
    let actual_cap := if actual_cap =? 0 then 1 else actual_cap in
    if actual_cap >? UINT32_MAX / elem_size then ret (-1, Some zero_set) else
    let* chans := malloc malloc_ok (sizeof_pointer * MAX_Channel) in
    match chans with
    | None => ret (-1, Some zero_set)
    | Some l =>
      let s := mk_set (Some (l, replicate (Z.to_nat MAX_Channel) None))
                 MAX_Channel elem_size actual_cap in
      let buf_size := u32 (actual_cap * elem_size) in
      init_channels malloc_ok (Z.to_nat MAX_Channel) 0 s buf_size MAX_Channel
    end
  end%c.

(** ** Channel operations *)

Definition ringbuffer_channel_valid (set : option RingBuffer32ChSet) (ch max : Z)
    : option bool :=
  match set with
  | None => Some false
  | Some s =>
    match channels s with
    | None => Some false
    | Some _ =>
      if negb (ch <? max) then Some false else
      if negb (ch <? max_channel s) then Some false else
      rb ← channel_at s ch; Some (bool_decide (is_Some rb))
    end
  end.

Definition ringbuffer_32ch_put (set : option RingBuffer32ChSet) (ch : Z)
    (data : option bytes) (MAX_Channel : Z) : option (Z * option RingBuffer32ChSet) :=
  match data with
  | None => Some (0, set)
  | Some _ =>
    valid ← ringbuffer_channel_valid set ch MAX_Channel;
    if negb valid then Some (0, set) else
    s ← set; rb ← channel_at s ch;
    '(r, rb') ← ringbuffer_put rb data 1;
    Some (r, Some (channel_set s ch rb'))
  end.

Definition ringbuffer_32ch_get (set : option RingBuffer32ChSet) (ch : Z)
    (data : option bytes) (MAX_Channel : Z)
    : option (Z * option RingBuffer32ChSet * option bytes) :=
  match data with
  | None => Some (0, set, data)
  | Some _ =>
    valid ← ringbuffer_channel_valid set ch MAX_Channel;
    if negb valid then Some (0, set, data) else
    s ← set; rb ← channel_at s ch;
    '(r, rb', data') ← ringbuffer_get rb data 1;
    Some (r, Some (channel_set s ch rb'), data')
  end.

Definition ringbuffer_32ch_len (set : option RingBuffer32ChSet) (ch MAX_Channel : Z)
    : option Z :=
  valid ← ringbuffer_channel_valid set ch MAX_Channel;
  if negb valid then Some 0 else
  s ← set; rb ← channel_at s ch; Some (ringbuffer_len rb).

Definition ringbuffer_32ch_reset (set : option RingBuffer32ChSet) (ch MAX_Channel : Z)
    : option (option RingBuffer32ChSet) :=
  valid ← ringbuffer_channel_valid set ch MAX_Channel;
  if negb valid then Some set else
  s ← set; rb ← channel_at s ch; Some (Some (channel_set s ch (ringbuffer_reset rb))).

Definition ringbuffer_32ch_avail (set : option RingBuffer32ChSet) (ch MAX_Channel : Z)
    : option Z :=
  valid ← ringbuffer_channel_valid set ch MAX_Channel;
  if negb valid then Some 0 else
  s ← set; rb ← channel_at s ch; Some (ringbuffer_avail rb).

(** ** Well-formed sets *)

Definition chan_wf (s : RingBuffer32ChSet) (p : ptr ring_buffer_t) : Prop :=
  exists l rb, p = Some (l, rb) /\ rb_wf rb /\
    rb_esize rb = elem_size s /\ rb_mask rb + 1 = buf_capacity s.

Definition set_wf (s : RingBuffer32ChSet) : Prop :=
  exists l chs, channels s = Some (l, chs) /\ zlen chs = max_channel s /\
    Forall (chan_wf s) chs.

(** The queue of a channel. *)
Definition chan_queue (s : RingBuffer32ChSet) (ch : Z) : list bytes :=
  match channel_at s ch with Some (Some (_, rb)) => rb_queue rb | _ => [] end.

(** [same_shape s s']: [s'] has the channels, the element size and the capacity
    of [s]; what an operation preserves besides the queues. *)
Definition same_shape (s s' : RingBuffer32ChSet) : Prop :=
  max_channel s' = max_channel s /\ elem_size s' = elem_size s /\
  buf_capacity s' = buf_capacity s.

#[export] Instance same_shape_preorder : PreOrder same_shape.
Proof. split; unfold same_shape; [done | intros ???; intuition congruence]. Qed.

(** The queues of the other channels are unchanged. *)
Definition others_kept (ch : Z) (s s' : RingBuffer32ChSet) : Prop :=
  forall ch', 0 <= ch' -> ch' <> ch -> chan_queue s' ch' = chan_queue s ch'.

Lemma channel_at_wf s ch :
  set_wf s -> 0 <= ch < max_channel s ->
  exists l rb, channel_at s ch = Some (Some (l, rb)) /\ rb_wf rb /\
    rb_esize rb = elem_size s /\ rb_mask rb + 1 = buf_capacity s.
Proof.
  intros (l & chs & Hc & Hlen & Hall) Hch. unfold channel_at. rewrite Hc. simpl.
  destruct (lookup_lt_is_Some_2 chs (Z.to_nat ch)) as [p Hp]; [zlia|].
  rewrite Hp. eapply Forall_lookup_1 in Hall as (l' & rb & -> & ?); [|done]. by eexists _, _.
Qed.

Lemma channel_valid_spec s ch max :
  set_wf s -> 0 <= ch ->
  ringbuffer_channel_valid (Some s) ch max = Some ((ch <? max) && (ch <? max_channel s)).
Proof.
  intros Hwf Hch. unfold ringbuffer_channel_valid.
  destruct Hwf as (l & chs & Hc & Hlen & Hall) eqn:E. rewrite Hc.
  destruct (ch <? max); [|done]. simpl.
  destruct (Z.ltb_spec ch (max_channel s)); [|done]. simpl.
  destruct (channel_at_wf s ch) as (l' & rb & -> & _); [by eexists _, _ | done |]. done.
Qed.

Lemma channel_set_wf s ch p :
  set_wf s -> 0 <= ch < max_channel s -> chan_wf s p ->
  set_wf (channel_set s ch p) /\ same_shape s (channel_set s ch p) /\
  channel_at (channel_set s ch p) ch = Some p /\
  (forall ch', 0 <= ch' -> ch' <> ch -> channel_at (channel_set s ch p) ch' = channel_at s ch').
Proof.
  intros (l & chs & Hc & Hlen & Hall) Hch Hp.
  unfold channel_set, channel_at, set_wf. rewrite Hc. simpl. split_and!.
  - eexists _, _. split; [done|]. split; [zlia|].
    exact (Forall_insert (chan_wf s) _ _ _ Hall Hp).
  - done.
  - apply list_lookup_insert_eq. zlia.
  - intros ch' H0 Hne. apply list_lookup_insert_ne. lia.
Qed.

Lemma chan_queue_set s ch l rb :
  set_wf s -> 0 <= ch < max_channel s -> chan_wf s (Some (l, rb)) ->
  chan_queue (channel_set s ch (Some (l, rb))) ch = rb_queue rb /\
  others_kept ch s (channel_set s ch (Some (l, rb))).
Proof.
  intros Hwf Hch Hp. destruct (channel_set_wf s ch _ Hwf Hch Hp) as (_ & _ & Hat & Hne).
  unfold chan_queue, others_kept. rewrite Hat. split; [done|].
  intros ch' H0 Hch'. unfold chan_queue. by rewrite Hne.
Qed.

(** ** The channel operations on well-formed sets *)

Definition chan_ok (s : RingBuffer32ChSet) (ch max : Z) : bool :=
  (ch <? max) && (ch <? max_channel s).

Lemma put_spec s ch data max :
  set_wf s -> 0 <= ch -> elem_size s <= zlen data ->
  exists r s', ringbuffer_32ch_put (Some s) ch (Some data) max = Some (r, Some s') /\
    set_wf s' /\ same_shape s s' /\ others_kept ch s s' /\
    (r, chan_queue s' ch) =
      if chan_ok s ch max
      then Fifo.put (buf_capacity s) (chan_queue s ch) (take (Z.to_nat (elem_size s)) data)
      else (0, chan_queue s ch).
Proof.
  intros Hwf Hch Hdata. unfold ringbuffer_32ch_put.
  rewrite channel_valid_spec by done. simpl. fold (chan_ok s ch max).
  destruct (chan_ok s ch max) eqn:Hok; simpl.
  2:{ exists 0, s. split_and!; try done. }
  apply andb_true_iff in Hok as [_ Hlt%Z.ltb_lt].
  destruct (channel_at_wf s ch) as (l & rb & Hat & Hrb & He & Hm); [done | lia |].
  rewrite Hat. simpl.
  destruct (ringbuffer_put_spec l rb data) as (r & rb' & Hput & Hrb' & Hm' & He' & Hq);
    [done | lia |].
  rewrite Hput. simpl.
  assert (chan_wf s (Some (l, rb'))) as Hcw.
  { exists l, rb'. split_and!; [done | done | lia | lia]. }
  destruct (channel_set_wf s ch _ Hwf ltac:(lia) Hcw) as (Hwf' & Hsh & _).
  destruct (chan_queue_set s ch l rb' Hwf ltac:(lia) Hcw) as [Hq' Hothers].
  eexists _, _. split_and!; try done.
  rewrite Hq', Hq, He, Hm. unfold chan_queue. by rewrite Hat.
Qed.

Lemma get_spec s ch data max :
  set_wf s -> 0 <= ch -> elem_size s <= zlen data ->
  exists r s' data', ringbuffer_32ch_get (Some s) ch (Some data) max = Some (r, Some s', Some data') /\
    set_wf s' /\ same_shape s s' /\ others_kept ch s s' /\
    match (if chan_ok s ch max then chan_queue s ch else []) with
    | x :: q' => r = 1 /\ chan_queue s' ch = q' /\ zlen x = elem_size s /\
                 data' = x ++ drop (Z.to_nat (elem_size s)) data
    | [] => r = 0 /\ chan_queue s' ch = chan_queue s ch /\ data' = data
    end.
Proof.
  intros Hwf Hch Hdata. unfold ringbuffer_32ch_get.
  rewrite channel_valid_spec by done. simpl. fold (chan_ok s ch max).
  destruct (chan_ok s ch max) eqn:Hok; simpl.
  2:{ exists 0, s, data. split_and!; try done. }
  apply andb_true_iff in Hok as [_ Hlt%Z.ltb_lt].
  destruct (channel_at_wf s ch) as (l & rb & Hat & Hrb & He & Hm); [done | lia |].
  rewrite Hat. simpl.
  destruct (ringbuffer_get_spec l rb data) as (r & rb' & data' & Hget & Hrb' & Hm' & He' & Hq);
    [done | lia |].
  rewrite Hget. simpl.
  assert (chan_wf s (Some (l, rb'))) as Hcw.
  { exists l, rb'. split_and!; [done | done | lia | lia]. }
  destruct (channel_set_wf s ch _ Hwf ltac:(lia) Hcw) as (Hwf' & Hsh & _).
  destruct (chan_queue_set s ch l rb' Hwf ltac:(lia) Hcw) as [Hq' Hothers].
  eexists _, _, _. split_and!; try done.
  rewrite Hq'. unfold chan_queue. rewrite Hat.
  destruct (rb_queue rb) as [|x q]; simpl in Hq.
  - destruct Hq as (-> & -> & Hq & ->). done.
  - destruct Hq as (-> & -> & -> & Hx). rewrite <- He. done.
Qed.

Lemma len_spec s ch max :
  set_wf s -> 0 <= ch ->
  ringbuffer_32ch_len (Some s) ch max =
    Some (if chan_ok s ch max then zlen (chan_queue s ch) else 0).
Proof.
  intros Hwf Hch. unfold ringbuffer_32ch_len. rewrite channel_valid_spec by done. simpl.
  fold (chan_ok s ch max). destruct (chan_ok s ch max) eqn:Hok; simpl; [|done].
  apply andb_true_iff in Hok as [_ Hlt%Z.ltb_lt].
  destruct (channel_at_wf s ch) as (l & rb & Hat & Hrb & He & Hm); [done | lia |].
  unfold chan_queue. rewrite Hat. cbn [mbind option_bind].
  by rewrite ringbuffer_len_spec.
Qed.

Lemma avail_spec s ch max :
  set_wf s -> 0 <= ch ->
  ringbuffer_32ch_avail (Some s) ch max =
    Some (if chan_ok s ch max then buf_capacity s - zlen (chan_queue s ch) else 0).
Proof.
  intros Hwf Hch. unfold ringbuffer_32ch_avail. rewrite channel_valid_spec by done. simpl.
  fold (chan_ok s ch max). destruct (chan_ok s ch max) eqn:Hok; simpl; [|done].
  apply andb_true_iff in Hok as [_ Hlt%Z.ltb_lt].
  destruct (channel_at_wf s ch) as (l & rb & Hat & Hrb & He & Hm); [done | lia |].
  unfold chan_queue. rewrite Hat. cbn [mbind option_bind].
  rewrite ringbuffer_avail_spec by done. by rewrite Hm.
Qed.

Lemma reset_spec s ch max :
  set_wf s -> 0 <= ch ->
  exists s', ringbuffer_32ch_reset (Some s) ch max = Some (Some s') /\
    set_wf s' /\ same_shape s s' /\ others_kept ch s s' /\
    chan_queue s' ch = if chan_ok s ch max then [] else chan_queue s ch.
Proof.
  intros Hwf Hch. unfold ringbuffer_32ch_reset. rewrite channel_valid_spec by done. simpl.
  fold (chan_ok s ch max). destruct (chan_ok s ch max) eqn:Hok; simpl.
  2:{ exists s. split_and!; done. }
  apply andb_true_iff in Hok as [_ Hlt%Z.ltb_lt].
  destruct (channel_at_wf s ch) as (l & rb & Hat & Hrb & He & Hm); [done | lia |].
  rewrite Hat. cbn [mbind option_bind ringbuffer_reset].
  assert (chan_wf s (Some (l, set_out (set_in rb 0) 0))) as Hcw.
  { eexists _, _. split; [done|]. split; [by apply rb_wf_reset | done]. }
  destruct (channel_set_wf s ch _ Hwf ltac:(lia) Hcw) as (Hwf' & Hsh & _).
  destruct (chan_queue_set s ch _ _ Hwf ltac:(lia) Hcw) as [Hq' Hothers].
  eexists. split_and!; try done.
Qed.

(** The capacity bounds every queue. *)
Lemma chan_queue_bound s ch :
  set_wf s -> 0 <= ch < max_channel s -> zlen (chan_queue s ch) <= buf_capacity s.
Proof.
  intros Hwf Hch. destruct (channel_at_wf s ch) as (l & rb & Hat & Hrb & He & Hm); [done..|].
  unfold chan_queue. rewrite Hat, rb_queue_length, <- Hm. apply Hrb.
Qed.

(** ** Allocation: what a set owns *)

Definition chans_locs (chs : list (ptr ring_buffer_t)) : list loc := chs ≫= rb_locs.

Definition set_locs (s : RingBuffer32ChSet) : list loc :=
  match channels s with None => [] | Some (l, chs) => l :: chans_locs chs end.

(** [owns base s h]: besides the blocks [base], the heap holds exactly the
    blocks of the set [s], each once. *)
Definition owns (base : gset loc) (s : RingBuffer32ChSet) (h : heap) : Prop :=
  heap_fresh h /\ NoDup (set_locs s) /\ (forall l, l ∈ set_locs s -> l ∉ base) /\
  h_live h = list_to_set (set_locs s) ∪ base.

Lemma chans_locs_app a b : chans_locs (a ++ b) = chans_locs a ++ chans_locs b.
Proof. apply bind_app. Qed.

Lemma chans_locs_none n : chans_locs (replicate n None) = [].
Proof. by induction n. Qed.

Lemma difference_union_locs (ls : list loc) (base : gset loc) :
  (forall l, l ∈ ls -> l ∉ base) -> (list_to_set ls ∪ base) ∖ list_to_set ls = base.
Proof. set_solver. Qed.

Lemma destroy_loop_spec chs pre suf h :
  chs = pre ++ suf -> heap_fresh h -> NoDup (chans_locs suf) ->
  (forall l, l ∈ chans_locs suf -> l ∈ h_live h) ->
  wp (foreach (seq (length pre) (length suf)) (fun i =>
        bind (of_option (chs !! i)) ringbuffer_destory))
     (fun _ h' => heap_fresh h' /\
        h_live h' = h_live h ∖ list_to_set (chans_locs suf)) h.
Proof.
  revert pre h. induction suf as [|p suf IH]; intros pre h Hchs Hh Hnd Hin; simpl.
  { apply wp_ret. split; [done | set_solver]. }
  apply list.NoDup_app in Hnd as (Hnd1 & Hdisj & Hnd2).
  apply wp_bind, wp_bind. eapply wp_of_option.
  { by rewrite Hchs, lookup_app_r, Nat.sub_diag by lia. }
  eapply wp_mono; [apply ringbuffer_destory_spec; [done | done | set_solver]|].
  intros [] h1 [Hh1 Hl1]. simpl.
  replace (S (length pre)) with (length (pre ++ [p])) by (rewrite length_app; simpl; lia).
  eapply wp_mono; [apply (IH (pre ++ [p])) | ].
  - by rewrite <- app_assoc.
  - done.
  - done.
  - intros l Hl. rewrite Hl1. apply elem_of_difference. split; [apply Hin; set_solver|].
    intros Hl'%elem_of_list_to_set. by apply (Hdisj l).
  - intros [] h2 [Hh2 Hl2]. split; [done|]. rewrite Hl2, Hl1. unfold chans_locs. simpl.
    rewrite list_to_set_app_L. set_solver.
Qed.

Lemma destory_spec base s m h :
  owns base s h ->
  (forall l chs, channels s = Some (l, chs) -> zlen chs = max_channel s) ->
  wp (ringbuffer_32ch_destory (Some s) m)
     (fun set h' => set = Some zero_set /\ heap_fresh h' /\ h_live h' = base) h.
Proof.
  intros (Hh & Hnd & Hdisj & Hl) Hlen. unfold ringbuffer_32ch_destory, set_locs in *.
  destruct (channels s) as [[l chs]|].
  2:{ wp_steps. split_and!; [done..|]. rewrite Hl. set_solver. }
  specialize (Hlen l chs eq_refl). apply list.NoDup_cons in Hnd as [Hl1 Hnd].
  replace (Z.to_nat (max_channel s)) with (length chs) by zlia.
  apply wp_bind. eapply wp_mono.
  - apply (destroy_loop_spec chs [] chs); try done. set_solver.
  - intros [] h1 [Hh1 Hl1']. simpl. apply wp_bind.
    eapply wp_mono; [apply free_spec; [done|]|].
    + rewrite Hl1', Hl. simpl. set_solver.
    + intros [] h2 [Hh2 Hl2]. wp_steps. split_and!; [done..|].
      rewrite Hl2, Hl1', Hl. simpl. set_solver.
Qed.

(** The state of the initialisation loop after the channels [done] are built. *)
Definition init_inv (base : gset loc) (s : RingBuffer32ChSet) (l : loc)
    (built : list (ptr ring_buffer_t)) (n : nat) (h : heap) : Prop :=
  owns base s h /\ channels s = Some (l, built ++ replicate n None) /\
  max_channel s = zlen built + Z.of_nat n /\
  Forall (fun p => chan_wf s p /\ rb_locs p <> [] /\
            match p with Some (_, rb) => rb_queue rb = [] | None => False end) built.

(** A freshly initialised set: well formed, every queue empty. *)
Definition set_fresh (s : RingBuffer32ChSet) : Prop :=
  set_wf s /\ forall ch, 0 <= ch < max_channel s -> chan_queue s ch = [].

Lemma init_inv_done base s l built h :
  init_inv base s l built 0 h -> set_fresh s.
Proof.
  intros (_ & Hc & Hmax & Hall). simpl in Hc. rewrite app_nil_r in Hc.
  split.
  - exists l, built. split; [done|]. split; [lia|].
    eapply list.Forall_impl; [exact Hall|]. by intros p [? _].
  - intros ch Hch. unfold chan_queue, channel_at. rewrite Hc. simpl.
    destruct (lookup_lt_is_Some_2 built (Z.to_nat ch)) as [p Hp]; [zlia|].
    rewrite Hp. eapply Forall_lookup_1 in Hall as (_ & _ & Hq); [|done].
    by destruct p as [[? ?]|].
Qed.

Lemma channel_set_next s l built n p :
  channels s = Some (l, built ++ replicate (S n) None) ->
  channel_set s (zlen built) p =
    mk_set (Some (l, (built ++ [p]) ++ replicate n None))
      (max_channel s) (elem_size s) (buf_capacity s).
Proof.
  intros Hc. unfold channel_set, with_channels. rewrite Hc. simpl.
  do 3 f_equal. unfold zlen. rewrite Nat2Z.id.
  rewrite insert_app_r_alt, Nat.sub_diag by lia. simpl. by rewrite <- app_assoc.
Qed.

Lemma owns_next base s l built n p h h' :
  channels s = Some (l, built ++ replicate (S n) None) ->
  owns base s h -> heap_fresh h' ->
  NoDup (rb_locs p) -> (forall x, x ∈ rb_locs p -> x ∉ h_live h) ->
  h_live h' = list_to_set (rb_locs p) ∪ h_live h ->
  owns base (channel_set s (zlen built) p) h'.
Proof.
  intros Hc (Hh & Hnd & Hdisj & Hl) Hh' Hndp Hfresh Hl'.
  rewrite (channel_set_next s l built n) by done. unfold owns, set_locs in *. simpl.
  rewrite Hc in *. rewrite !chans_locs_app, chans_locs_none, app_nil_r in *.
  unfold chans_locs at 2 4 6. simpl. rewrite app_nil_r.
  assert (forall x, x ∈ rb_locs p -> x ∉ l :: chans_locs built) as Hne by set_solver.
  split_and!; [done | | set_solver | ].
  - apply list.NoDup_cons in Hnd as [Hnl Hnd].
    apply list.NoDup_cons. split; [set_solver|].
    apply list.NoDup_app. split_and!; [done | set_solver | done].
  - rewrite Hl', Hl. simpl. rewrite !list_to_set_app_L. set_solver.
Qed.

#[local] Arguments ringbuffer_32ch_destory : simpl never.
#[local] Arguments channel_set : simpl never.

Lemma init_channels_spec ok n base s l built m h cap es :
  init_inv base s l built n h ->
  buf_capacity s = cap -> elem_size s = es -> pow2_capacity cap = cap -> 0 < cap ->
  0 < es < 2 ^ 32 -> cap * es < 2 ^ 32 ->
  wp (init_channels ok n (zlen built) s (cap * es) m)
     (fun '(r, set) h' =>
        (exists s', r = 0 /\ set = Some s' /\ set_fresh s' /\ same_shape s s' /\ owns base s' h') \/
        (r = -1 /\ set = Some zero_set /\ heap_fresh h' /\ h_live h' = base /\ alloc_refused ok)) h.
Proof.
  intros Hinv Hcap Hes Hpow Hpos Hesr Hbytes.
  revert s built h Hinv Hcap Hes.
  induction n as [|n IH]; intros s built h Hinv Hcap Hes; simpl.
  { apply wp_ret. left. exists s. split_and!; try done.
    - by eapply init_inv_done.
    - apply Hinv. }
  destruct Hinv as (Hown & Hc & Hmax & Hall). rewrite Hes.
  apply wp_bind. eapply wp_mono; [apply ringbuffer_create_spec; [apply Hown | done | nia]|].
  intros p h1 [Hh1 [(-> & Hl1 & Href)|[Hcr Hl1]]]; simpl.
  - (* the allocation of a channel failed: everything is released *)
    apply wp_bind. eapply wp_mono; [apply (destory_spec base)|].
    + apply (owns_next base s l built n None h); try done; [constructor | set_solver | ].
      rewrite Hl1. set_solver.
    + rewrite (channel_set_next s l built n) by done. simpl. intros l0 chs [= <- <-]. zlia.
    + intros set h2 (-> & Hh2 & Hl2). apply wp_ret. right. by split_and!.
  - destruct p as [[lp rb]|]; [|done].
    destruct Hcr as (Hnd & Hfresh & Hwf & Hq & He & Hm).
    rewrite Z.div_mul in Hm by lia.
    replace (zlen built + 1) with (zlen (built ++ [Some (lp, rb)])) by zlia.
    eapply wp_mono; [apply IH|].
    + split_and!.
      * by apply (owns_next base s l built n _ h).
      * by rewrite (channel_set_next s l built n).
      * rewrite (channel_set_next s l built n) by done. simpl. zlia.
      * rewrite (channel_set_next s l built n) by done. apply list.Forall_app. split.
        { eapply list.Forall_impl; [exact Hall|]. done. }
        constructor; [|constructor]. split_and!; [|simpl; by destruct (rb_data rb) as [[]|] | done].
        exists lp, rb. split_and!; [done | done | |]; simpl; lia.
    + done.
    + done.
    + intros [r set] h2. rewrite (channel_set_next s l built n) by done. done.
Qed.

Lemma init_spec ok s0 es cap m h :
  heap_fresh h -> 0 <= es < 2 ^ 32 -> 0 <= cap < 2 ^ 32 -> 0 <= m < 2 ^ 8 ->
  wp (ringbuffer_32ch_init ok (Some s0) es cap m)
     (fun '(r, set) h' =>
        (exists s, r = 0 /\ set = Some s /\ set_fresh s /\ max_channel s = m /\
           elem_size s = es /\ buf_capacity s = pow2_capacity cap /\ owns (h_live h) s h') \/
        (r = -1 /\ (set = Some zero_set \/ set = Some s0) /\ heap_fresh h' /\ h_live h' = h_live h /\
         (0 < es /\ 0 < cap /\ 0 < m /\ es * pow2_capacity cap < 2 ^ 32 -> alloc_refused ok))) h.
Proof.
  intros Hh Hes Hcap Hm. unfold ringbuffer_32ch_init.
  destruct ((es =? 0) || (cap =? 0) || (m =? 0))%bool eqn:E.
  { apply wp_ret. right. split_and!; auto. intros (H1 & H2 & H3 & _).
    apply orb_true_iff in E as [[E%Z.eqb_eq|E%Z.eqb_eq]%orb_true_iff|E%Z.eqb_eq]; lia. }
  apply orb_false_iff in E as [[E1%Z.eqb_neq E2%Z.eqb_neq]%orb_false_iff E3%Z.eqb_neq].
  rewrite pow2_capacity_spec by done. cbv zeta.
  destruct (pow2_capacity_bounds cap) as (k & Hk & Hc & Hle); [done|].
  assert (0 < pow2_capacity cap) by (rewrite Hc; apply Z.pow_pos_nonneg; lia).
  assert (pow2_capacity (pow2_capacity cap) = pow2_capacity cap) as Hidem.
  { unfold pow2_capacity at 1. rewrite (proj2 (Z.eqb_neq _ _)) by lia.
    by rewrite Hc, Z.log2_pow2 by lia. }
  rewrite Z.gtb_ltb. destruct (Z.ltb_spec (UINT32_MAX / es) (pow2_capacity cap)) as [Hbig|Hfit].
  { apply wp_ret. right. split_and!; auto. intros (_ & _ & _ & Hb). exfalso.
    apply Z.lt_nge in Hbig. apply Hbig. apply Z.div_le_lower_bound; unfold UINT32_MAX; lia. }
  assert (es * (UINT32_MAX / es) <= UINT32_MAX) by (apply Z.mul_div_le; lia).
  assert (pow2_capacity cap * es < 2 ^ 32) by (unfold UINT32_MAX in *; nia).
  apply wp_bind. eapply wp_mono; [by apply malloc_spec|].
  intros [l|] h1 [Hh1 Hl1]; [destruct Hl1 as [Hfl Hl1] | destruct Hl1; apply wp_ret; right; by auto 10].
  rewrite (wrap_small 32) by (unfold in_range; nia).
  eapply wp_mono; [eapply (init_channels_spec ok (Z.to_nat m) (h_live h) _ l [])|]; try done; try lia.
  - split; [|split_and!; simpl; [done | zlia | constructor]].
    unfold owns, set_locs. simpl. rewrite chans_locs_none.
    split_and!; [done | apply NoDup_singleton | set_solver | rewrite Hl1; set_solver].
  - intros [r set] h2 [(s' & -> & -> & Hfr & Hsh & Hown)|(-> & -> & Hh2 & Hl2 & Href)]; [left | right; by auto 10].
    destruct Hsh as (Hmax & He & Hb). exists s'. by split_and!.
Qed.

(** ** Runs of the set and of a family of queues *)

Definition set_queues (s : RingBuffer32ChSet) : list (list bytes) :=
  match channels s with
  | None => []
  | Some (_, chs) =>
      (fun p => match p with Some (_, rb) => rb_queue rb | None => [] end) <$> chs
  end.

Inductive set_op :=
  | SetPut (ch : Z) (data : bytes) (max : Z)
  | SetGet (ch : Z) (dst : bytes) (max : Z)
  | SetLen (ch max : Z)
  | SetAvail (ch max : Z)
  | SetReset (ch max : Z).

Definition set_step (op : set_op) (set : option RingBuffer32ChSet)
    : option (rb_obs * option RingBuffer32ChSet) :=
  match op with
  | SetPut ch data max =>
      '(n, set') ← ringbuffer_32ch_put set ch (Some data) max; Some (ObsCount n, set')
  | SetGet ch dst max =>
      '(n, set', dst') ← ringbuffer_32ch_get set ch (Some dst) max; Some (ObsGet n dst', set')
  | SetLen ch max => n ← ringbuffer_32ch_len set ch max; Some (ObsCount n, set)
  | SetAvail ch max => n ← ringbuffer_32ch_avail set ch max; Some (ObsCount n, set)
  | SetReset ch max => set' ← ringbuffer_32ch_reset set ch max; Some (ObsUnit, set')
  end.

Fixpoint set_run (ops : list set_op) (set : option RingBuffer32ChSet)
    : option (list rb_obs * option RingBuffer32ChSet) :=
  match ops with
  | [] => Some ([], set)
  | op :: ops' =>
    '(o, set') ← set_step op set;
    '(os, set'') ← set_run ops' set';
    Some (o :: os, set'')
  end.

(** The specification: a list of bounded queues, one per channel; an operation
    on a channel that does not exist, or that is above the caller's own limit,
    has no effect and reports zero. *)
Definition queues_at (qs : list (list bytes)) (ch max : Z) : option (list bytes) :=
  if ch <? max then qs !! Z.to_nat ch else None.

Definition queues_step (cap es : Z) (op : set_op) (qs : list (list bytes))
    : rb_obs * list (list bytes) :=
  match op with
  | SetPut ch data max =>
      match queues_at qs ch max with
      | Some q => let '(n, q') := Fifo.put cap q (take (Z.to_nat es) data) in
                  (ObsCount n, <[Z.to_nat ch := q']> qs)
      | None => (ObsCount 0, qs)
      end
  | SetGet ch dst max =>
      match queues_at qs ch max with
      | Some (x :: q') =>
          (ObsGet 1 (Some (x ++ drop (Z.to_nat es) dst)), <[Z.to_nat ch := q']> qs)
      | _ => (ObsGet 0 (Some dst), qs)
      end
  | SetLen ch max =>
      (ObsCount (match queues_at qs ch max with Some q => zlen q | None => 0 end), qs)
  | SetAvail ch max =>
      (ObsCount (match queues_at qs ch max with Some q => cap - zlen q | None => 0 end), qs)
  | SetReset ch max =>
      (ObsUnit, match queues_at qs ch max with
                | Some _ => <[Z.to_nat ch := []]> qs | None => qs end)
  end.

Fixpoint queues_run (cap es : Z) (ops : list set_op) (qs : list (list bytes))
    : list rb_obs * list (list bytes) :=
  match ops with
  | [] => ([], qs)
  | op :: ops' =>
    let '(o, qs') := queues_step cap es op qs in
    let '(os, qs'') := queues_run cap es ops' qs' in
    (o :: os, qs'')
  end.

Definition set_op_ok (es : Z) (op : set_op) : Prop :=
  match op with
  | SetPut ch b _ | SetGet ch b _ => 0 <= ch /\ es <= zlen b
  | SetLen ch _ | SetAvail ch _ | SetReset ch _ => 0 <= ch
  end.

Lemma set_queues_length s : set_wf s -> zlen (set_queues s) = max_channel s.
Proof.
  intros (l & chs & Hc & Hlen & _). unfold set_queues. rewrite Hc. zlia.
Qed.

Lemma set_queues_lookup s ch :
  set_wf s -> 0 <= ch < max_channel s -> set_queues s !! Z.to_nat ch = Some (chan_queue s ch).
Proof.
  intros Hwf Hch. destruct (channel_at_wf s ch) as (l & rb & Hat & _); [done..|].
  unfold chan_queue. rewrite Hat. unfold channel_at, set_queues in *.
  destruct (channels s) as [[l' chs]|]; [|done]. simpl in Hat.
  by rewrite list_lookup_fmap, Hat.
Qed.

Lemma queues_at_spec s ch max :
  set_wf s -> 0 <= ch ->
  queues_at (set_queues s) ch max = if chan_ok s ch max then Some (chan_queue s ch) else None.
Proof.
  intros Hwf Hch. unfold queues_at, chan_ok. destruct (ch <? max); [|done]. simpl.
  destruct (Z.ltb_spec ch (max_channel s)).
  - by apply set_queues_lookup.
  - apply lookup_ge_None. pose proof (set_queues_length s Hwf). zlia.
Qed.

Lemma set_queues_update s s' ch :
  set_wf s -> set_wf s' -> same_shape s s' -> others_kept ch s s' -> 0 <= ch ->
  set_queues s' = <[Z.to_nat ch := chan_queue s' ch]> (set_queues s).
Proof.
  intros Hwf Hwf' (Hmax & _) Hoth Hch. apply list_eq. intros i.
  pose proof (set_queues_length s Hwf). pose proof (set_queues_length s' Hwf').
  destruct (decide (Z.of_nat i < max_channel s)) as [Hi|Hi].
  - rewrite <- (Nat2Z.id i), set_queues_lookup by (done || lia).
    destruct (decide (Z.of_nat i = ch)) as [<-|Hne].
    + rewrite list_lookup_insert_eq by zlia. done.
    + rewrite list_lookup_insert_ne, set_queues_lookup by (done || lia).
      f_equal. apply Hoth; lia.
  - rewrite !lookup_ge_None_2; [done | zlia..].
Qed.

Lemma set_queues_same s s' ch :
  set_wf s -> set_wf s' -> same_shape s s' -> others_kept ch s s' -> 0 <= ch ->
  chan_queue s' ch = chan_queue s ch -> set_queues s' = set_queues s.
Proof.
  intros Hwf Hwf' Hsh Hoth Hch Hq. rewrite (set_queues_update s s' ch), Hq by done.
  destruct (decide (ch < max_channel s)).
  - apply list_insert_id. by apply set_queues_lookup.
  - apply list_insert_ge. pose proof (set_queues_length s Hwf). zlia.
Qed.

Lemma set_step_refines op s :
  set_wf s -> set_op_ok (elem_size s) op ->
  exists s',
    set_step op (Some s) =
      Some (fst (queues_step (buf_capacity s) (elem_size s) op (set_queues s)), Some s') /\
    set_wf s' /\ same_shape s s' /\
    set_queues s' = snd (queues_step (buf_capacity s) (elem_size s) op (set_queues s)).
Proof.
  intros Hwf Hok.
  destruct op as [ch data max|ch dst max|ch max|ch max|ch max]; cbn [set_step queues_step set_op_ok] in *.
  - destruct Hok as [Hch Hd]. destruct (put_spec s ch data max) as (r & s' & -> & Hwf' & Hsh & Hoth & Hq);
      [done..|]. exists s'. rewrite queues_at_spec by done. simpl.
    destruct (chan_ok s ch max).
    + rewrite <- Hq. split_and!; [done..|]. by apply set_queues_update.
    + injection Hq as -> Hq. split_and!; [done..|]. by apply (set_queues_same s s' ch).
  - destruct Hok as [Hch Hd].
    destruct (get_spec s ch dst max) as (r & s' & dst' & -> & Hwf' & Hsh & Hoth & Hq); [done..|].
    exists s'. rewrite queues_at_spec by done. simpl.
    destruct (chan_ok s ch max); [destruct (chan_queue s ch) as [|x q] eqn:Eq|].
    + destruct Hq as (-> & Hq & ->). split_and!; [done..|].
      apply (set_queues_same s s' ch); try done. congruence.
    + destruct Hq as (-> & Hq & _ & ->). split_and!; [done..|]. rewrite <- Hq.
      by apply set_queues_update.
    + destruct Hq as (-> & Hq & ->). split_and!; [done..|]. by apply (set_queues_same s s' ch).
  - exists s. rewrite len_spec, queues_at_spec by done. by destruct (chan_ok s ch max).
  - exists s. rewrite avail_spec, queues_at_spec by done. by destruct (chan_ok s ch max).
  - destruct (reset_spec s ch max) as (s' & -> & Hwf' & Hsh & Hoth & Hq); [done..|].
    exists s'. rewrite queues_at_spec by done. simpl. split_and!; [done..|].
    destruct (chan_ok s ch max).
    + rewrite <- Hq. by apply set_queues_update.
    + by apply (set_queues_same s s' ch).
Qed.

(** C9. Refinement of the channel sets: from any well-formed set, every
    sequence of channel operations, with any channel numbers, runs without an
    access out of bounds and returns what a list of independent bounded queues
    returns: an operation touches the queue of its own channel only, and one on
    a channel that does not exist changes nothing and reports zero. *)
Theorem channel_set_refines_queues ops s :
  set_wf s -> Forall (set_op_ok (elem_size s)) ops ->
  exists s',
    set_run ops (Some s) =
      Some (fst (queues_run (buf_capacity s) (elem_size s) ops (set_queues s)), Some s') /\
    set_wf s' /\ same_shape s s' /\
    set_queues s' = snd (queues_run (buf_capacity s) (elem_size s) ops (set_queues s)).
Proof.
  revert s. induction ops as [|op ops IH]; intros s Hwf Hok; [by exists s|].
  apply list.Forall_cons in Hok as [Hop Hops]. simpl.
  destruct (set_step_refines op s Hwf Hop) as (s1 & -> & Hwf1 & Hsh & Hq). simpl.
  destruct Hsh as (Hm & He & Hb).
  destruct (IH s1 Hwf1) as (s2 & Hrun & Hwf2 & Hsh2 & Hq2); [by rewrite He|].
  rewrite Hb, He, Hq in Hrun, Hq2. rewrite Hrun.
  destruct (queues_step _ _ op (set_queues s)) as [o q']. simpl in *. exists s2.
  destruct (queues_run _ _ ops q') as [os q'']. simpl. split_and!; try done.
  by transitivity s1.
Qed.

(** A set of two channels of one 2-byte element each. *)
Definition tiny_channel (l : loc) : ptr ring_buffer_t :=
  Some (Pos.succ l, {| rb_data := Some (l, [x00; x00]); rb_in := 0; rb_out := 0;
                       rb_mask := 0; rb_esize := 2 |}).

Definition two_channels : RingBuffer32ChSet :=
  mk_set (Some (1%positive, [tiny_channel 2; tiny_channel 4])) 2 2 1.

Lemma tiny_channel_wf l : chan_wf two_channels (tiny_channel l).
Proof.
  eexists _, _. split; [done|]. split; [|done].
  split; simpl; try (unfold in_range; lia); [by exists 0 | by eexists _, _ | by vm_compute].
Qed.

Lemma two_channels_wf : set_wf two_channels.
Proof.
  eexists _, _. split; [done|]. split; [done|].
  constructor; [apply tiny_channel_wf|]. constructor; [apply tiny_channel_wf|]. constructor.
Qed.

Definition two_channels_ops : list set_op :=
  [SetPut 0 [x01; x02] 6; SetPut 0 [x03; x04] 6; SetPut 1 [x05; x06] 6; SetPut 2 [x07; x08] 6;
   SetPut 1 [x09; x0a] 1; SetLen 0 6; SetGet 1 [x00; x00] 6; SetGet 0 [x00; x00] 6; SetAvail 0 6].

Lemma channel_set_refines_queues_witness :
  exists s',
    set_run two_channels_ops (Some two_channels) =
      Some ([ObsCount 1; ObsCount 0; ObsCount 1; ObsCount 0; ObsCount 0; ObsCount 1;
             ObsGet 1 (Some [x05; x06]); ObsGet 1 (Some [x01; x02]); ObsCount 1], Some s') /\
    set_wf s' /\ same_shape two_channels s' /\ set_queues s' = [[]; []].
Proof.
  destruct (channel_set_refines_queues two_channels_ops two_channels two_channels_wf)
    as (s' & Hrun & Hwf & Hsh & Hq).
  - repeat constructor; vm_compute; congruence.
  - exists s'. split_and!; [rewrite Hrun; vm_compute; reflexivity | exact Hwf | exact Hsh |].
    rewrite Hq. vm_compute. reflexivity.
Defined.

(** Allocation of a channel set never leaks: whichever allocations fail,
    either the call reports failure and every block it took is released, which
    only happens when an allocation was refused or the arguments ask for none
    or for too much, or it reports success with a well-formed set of empty channels, of the capacity
    the size allows, and destroying that set releases exactly what it took and
    leaves a set that is safe to destroy again. *)
Theorem channel_set_init_no_leak ok s0 es cap m h :
  heap_fresh h -> is_u32 es -> is_u32 cap -> is_u8 m ->
  wp (ringbuffer_32ch_init ok (Some s0) es cap m)
     (fun '(r, set) h' =>
        (r = -1 /\ h_live h' = h_live h /\
         (0 < es /\ 0 < cap /\ 0 < m /\ es * pow2_capacity cap < 2 ^ 32 -> alloc_refused ok)) \/
        (exists s, r = 0 /\ set = Some s /\ set_wf s /\ max_channel s = m /\ elem_size s = es /\
           buf_capacity s = pow2_capacity cap /\
           (forall ch, 0 <= ch < m -> chan_queue s ch = []) /\
           wp (ringbuffer_32ch_destory (Some s) m)
              (fun set' h'' => set' = Some zero_set /\ h_live h'' = h_live h /\
                 ringbuffer_32ch_destory set' m h'' = Some (Some zero_set, h'')) h')) h.
Proof.
  intros Hh Hes Hcap Hm.
  eapply wp_mono; [by apply init_spec|].
  intros [r set] h' [(s & -> & -> & [Hwf Hempty] & Hmax & He & Hb & Hown)|(-> & _ & _ & Hl & Href)];
    [right | by left].
  exists s. split_and!; try done.
  { intros ch Hch. apply Hempty. lia. }
  eapply wp_mono; [apply (destory_spec (h_live h) s m h' Hown)|].
  - destruct Hwf as (l & chs & Hc & Hlen & _). rewrite Hc. by intros ? ? [= <- <-].
  - intros set' h'' (-> & _ & Hl). done.
Qed.

Lemma channel_set_init_no_leak_witness :
  let ok := fun n size => (n <? 6)%nat in
  wp (ringbuffer_32ch_init ok (Some zero_set) 2 3 3)
     (fun '(r, set) h' =>
        (r = -1 /\ h_live h' = h_live (mk_heap ∅ 1 0) /\
         (0 < 2 /\ 0 < 3 /\ 0 < 3 /\ 2 * pow2_capacity 3 < 2 ^ 32 -> alloc_refused ok)) \/
        (exists s, r = 0 /\ set = Some s /\ set_wf s /\ max_channel s = 3 /\ elem_size s = 2 /\
           buf_capacity s = pow2_capacity 3 /\
           (forall ch, 0 <= ch < 3 -> chan_queue s ch = []) /\
           wp (ringbuffer_32ch_destory (Some s) 3)
              (fun set' h'' => set' = Some zero_set /\ h_live h'' = h_live (mk_heap ∅ 1 0) /\
                 ringbuffer_32ch_destory set' 3 h'' = Some (Some zero_set, h'')) h'))
     (mk_heap ∅ 1 0).
Proof.
  intros ok. apply (channel_set_init_no_leak ok zero_set 2 3 3 (mk_heap ∅ 1 0));
    try (split; vm_compute; congruence).
  intros l Hl. by apply not_elem_of_empty in Hl.
Defined.

#[global] Arguments ringbuffer_32ch_put : simpl never.
#[global] Arguments ringbuffer_32ch_get : simpl never.
#[global] Arguments ringbuffer_32ch_len : simpl never.
#[global] Arguments ringbuffer_32ch_avail : simpl never.
#[global] Arguments ringbuffer_32ch_reset : simpl never.
