(* ===== verification/Layout.v ===== *)
(** * The packed structures of the wire and of the driver
    ([src/main18.c], type definitions; [src/axican/zmuav_axican.h]).

    The code sends, receives and queues these structures as raw memory on a
    little-endian target.  A structure is a record; [pack] gives the bytes of
    its memory and [unpack] reads them back.  The class [Packed] states what
    every client relies on: the size and the two round trips. *)
From S2P Require Import Prelude.

Class Packed (A : Type) := {
  psize : nat;
  pack : A -> bytes;
  unpack : bytes -> A;
  pwf : A -> Prop;
  pack_length : forall a, pwf a -> length (pack a) = psize;
  unpack_pack : forall a, pwf a -> unpack (pack a) = a;
  pack_unpack : forall bs, length bs = psize -> pack (unpack bs) = bs;
  unpack_wf : forall bs, (psize <= length bs)%nat -> pwf (unpack bs);
  unpack_take : forall bs, unpack (take psize bs) = unpack bs
}.
#[global] Hint Mode Packed ! : typeclass_instances.

(** [sizeof A], a C [size_t]. *)
Definition sizeof (A : Type) `{Packed A} : Z := Z.of_nat (psize (A := A)).

(** Reading a structure through a cast pointer: stuck when the memory object
    is shorter than the structure. *)
Definition cast (A : Type) `{Packed A} {St} (bs : bytes) : M St A :=
  if (psize (A := A) <=? length bs)%nat then ret (unpack bs) else stuck.

Lemma wp_cast {A} `{Packed A} {St} (bs : bytes) (Q : A -> St -> Prop) s :
  sizeof A <= zlen bs -> Q (unpack bs) s -> wp (cast A bs) Q s.
Proof.
  unfold sizeof, zlen, cast. intros Hlen HQ.
  by rewrite (proj2 (Nat.leb_le _ _)) by lia.
Qed.

Lemma slice_take off n m bs :
  (off + n <= m)%nat -> slice off n (take m bs) = slice off n bs.
Proof.
  intros H. unfold slice. rewrite skipn_firstn_comm, take_take. f_equal. lia.
Qed.

Lemma slice_here n (l bs : bytes) : length l = n -> slice 0 n (l ++ bs) = l.
Proof. intros <-. unfold slice. by rewrite drop_0, take_app_length. Qed.

Lemma slice_skip_enc off n m z bs :
  (m <= off)%nat -> slice off n (le_enc m z ++ bs) = slice (off - m) n bs.
Proof.
  intros H. unfold slice. rewrite drop_app_ge by (rewrite length_le_enc; lia).
  by rewrite length_le_enc.
Qed.

Lemma fld_skip_arr off n m (l bs : bytes) :
  length l = m -> (m <= off)%nat -> fld off n (l ++ bs) = fld (off - m) n bs.
Proof. intros <- H. by rewrite fld_skip. Qed.

Lemma slice_skip_arr off n m (l bs : bytes) :
  length l = m -> (m <= off)%nat -> slice off n (l ++ bs) = slice (off - m) n bs.
Proof. intros <- H. unfold slice. by rewrite drop_app_ge. Qed.

(** The symbolic evaluation of a read of a packed structure. *)
Ltac eval_fld :=
  repeat first
    [ rewrite fld_skip_enc by lia; cbn [Nat.sub]
    | erewrite fld_skip_arr by (eassumption || lia); cbn [Nat.sub]
    | rewrite slice_skip_enc by lia; cbn [Nat.sub]
    | erewrite slice_skip_arr by (eassumption || lia); cbn [Nat.sub]
    | rewrite fld_here | rewrite fld_here'
    | rewrite slice_here by eassumption
    | rewrite slice_all by eassumption ].

#[global] Arguments Word.LittleEndianList.le_split : simpl never.
#[global] Arguments Word.LittleEndianList.le_combine : simpl never.
#[global] Arguments fld : simpl never.
#[global] Arguments slice : simpl never.

#[local] Arguments app : simpl never.

(** The laws of [Packed] for a record of integers and byte arrays. *)
Create HintDb packed_defs.

Ltac packed_length :=
  intros r Hr; autounfold with packed_defs in *; destruct_and?; zlia.

Ltac packed_unpack_pack :=
  intros [] Hr; autounfold with packed_defs in *; simpl in *; destruct_and?;
  f_equal; eval_fld; try done; by apply wrap_small.

Ltac packed_pack_unpack :=
  intros bs Hbs; autounfold with packed_defs; simpl;
  rewrite !le_enc_fld by lia; rewrite ?slice_app_assoc, slice_app;
  apply slice_all; lia.

Ltac packed_wf :=
  intros bs Hbs; autounfold with packed_defs; simpl;
  repeat match goal with |- _ /\ _ => split end;
  first [by apply fld_range | apply length_slice; lia].

Ltac packed_take :=
  intros bs; autounfold with packed_defs;
  f_equal; first [apply fld_take; lia | apply slice_take; lia].

Ltac solve_packed :=
  first [ packed_length | packed_unpack_pack | packed_pack_unpack | packed_wf | packed_take ].

(** [ReqPacket], the header of a 9009 command: 16 bytes. *)
Record ReqPacket := mk_ReqPacket {
  rq_sync_word : Z; rq_data_len : Z; rq_counter : Z; rq_cmd_type : Z; rq_checksum : Z
}.

Definition ReqPacket_pack (r : ReqPacket) : bytes :=
  le_enc 4 (rq_sync_word r) ++ le_enc 4 (rq_data_len r) ++ le_enc 2 (rq_counter r) ++
  le_enc 2 (rq_cmd_type r) ++ le_enc 4 (rq_checksum r).

Definition ReqPacket_unpack (bs : bytes) : ReqPacket :=
  {| rq_sync_word := fld 0 4 bs; rq_data_len := fld 4 4 bs; rq_counter := fld 8 2 bs;
     rq_cmd_type := fld 10 2 bs; rq_checksum := fld 12 4 bs |}.

Definition ReqPacket_wf (r : ReqPacket) : Prop :=
  in_range 32 (rq_sync_word r) /\ in_range 32 (rq_data_len r) /\ in_range 16 (rq_counter r) /\
  in_range 16 (rq_cmd_type r) /\ in_range 32 (rq_checksum r).

#[local] Hint Unfold ReqPacket_pack ReqPacket_unpack ReqPacket_wf : packed_defs.

#[export] Instance ReqPacket_packed : Packed ReqPacket.
Proof.
  refine {| psize := 16; pack := ReqPacket_pack; unpack := ReqPacket_unpack; pwf := ReqPacket_wf |}.
  all: solve_packed.
Defined.

(** [DATA_ReqPacket], the header of a 9012 packet: 20 bytes. *)
Record DATA_ReqPacket := mk_DATA_ReqPacket {
  dq_sync_word : Z; dq_data_len : Z; dq_counter : Z; dq_cmd_type : Z; dq_checksum : Z;
  dq_channel : Z
}.

Definition DATA_ReqPacket_pack (r : DATA_ReqPacket) : bytes :=
  le_enc 4 (dq_sync_word r) ++ le_enc 4 (dq_data_len r) ++ le_enc 2 (dq_counter r) ++
  le_enc 2 (dq_cmd_type r) ++ le_enc 4 (dq_checksum r) ++ le_enc 4 (dq_channel r).

Definition DATA_ReqPacket_unpack (bs : bytes) : DATA_ReqPacket :=
  {| dq_sync_word := fld 0 4 bs; dq_data_len := fld 4 4 bs; dq_counter := fld 8 2 bs;
     dq_cmd_type := fld 10 2 bs; dq_checksum := fld 12 4 bs; dq_channel := fld 16 4 bs |}.

Definition DATA_ReqPacket_wf (r : DATA_ReqPacket) : Prop :=
  in_range 32 (dq_sync_word r) /\ in_range 32 (dq_data_len r) /\ in_range 16 (dq_counter r) /\
  in_range 16 (dq_cmd_type r) /\ in_range 32 (dq_checksum r) /\ in_range 32 (dq_channel r).

#[local] Hint Unfold DATA_ReqPacket_pack DATA_ReqPacket_unpack DATA_ReqPacket_wf : packed_defs.

#[export] Instance DATA_ReqPacket_packed : Packed DATA_ReqPacket.
Proof.
  refine {| psize := 20; pack := DATA_ReqPacket_pack; unpack := DATA_ReqPacket_unpack; pwf := DATA_ReqPacket_wf |}.
  all: solve_packed.
Defined.

(** [CanConfigParam], the CAN attribute command and the element of the information reply: 48 bytes. *)
Record CanConfigParam := mk_CanConfigParam {
  cc_head : Z; cc_direction : Z; cc_type : Z; cc_length : Z; cc_ch_id : Z; cc_total_count : Z;
  cc_ch_count : Z; cc_baud_rate : Z; cc_mode : Z; cc_auto_send : Z; cc_ier : Z;
  cc_Packet_Interval : Z; cc_CAN_DATA_MODE : Z; cc_reserved : bytes; cc_timestamp : Z;
  cc_xor_checksum : Z
}.

Definition CanConfigParam_pack (r : CanConfigParam) : bytes :=
  le_enc 4 (cc_head r) ++ le_enc 1 (cc_direction r) ++ le_enc 1 (cc_type r) ++
  le_enc 1 (cc_length r) ++ le_enc 1 (cc_ch_id r) ++ le_enc 4 (cc_total_count r) ++
  le_enc 4 (cc_ch_count r) ++ le_enc 4 (cc_baud_rate r) ++ le_enc 1 (cc_mode r) ++
  le_enc 1 (cc_auto_send r) ++ le_enc 2 (cc_ier r) ++ le_enc 4 (cc_Packet_Interval r) ++
  le_enc 2 (cc_CAN_DATA_MODE r) ++ cc_reserved r ++ le_enc 8 (cc_timestamp r) ++
  le_enc 4 (cc_xor_checksum r).

Definition CanConfigParam_unpack (bs : bytes) : CanConfigParam :=
  {| cc_head := fld 0 4 bs; cc_direction := fld 4 1 bs; cc_type := fld 5 1 bs;
     cc_length := fld 6 1 bs; cc_ch_id := fld 7 1 bs; cc_total_count := fld 8 4 bs;
     cc_ch_count := fld 12 4 bs; cc_baud_rate := fld 16 4 bs; cc_mode := fld 20 1 bs;
     cc_auto_send := fld 21 1 bs; cc_ier := fld 22 2 bs; cc_Packet_Interval := fld 24 4 bs;
     cc_CAN_DATA_MODE := fld 28 2 bs; cc_reserved := slice 30 6 bs; cc_timestamp := fld 36 8 bs;
     cc_xor_checksum := fld 44 4 bs |}.

Definition CanConfigParam_wf (r : CanConfigParam) : Prop :=
  in_range 32 (cc_head r) /\ in_range 8 (cc_direction r) /\ in_range 8 (cc_type r) /\
  in_range 8 (cc_length r) /\ in_range 8 (cc_ch_id r) /\ in_range 32 (cc_total_count r) /\
  in_range 32 (cc_ch_count r) /\ in_range 32 (cc_baud_rate r) /\ in_range 8 (cc_mode r) /\
  in_range 8 (cc_auto_send r) /\ in_range 16 (cc_ier r) /\ in_range 32 (cc_Packet_Interval r) /\
  in_range 16 (cc_CAN_DATA_MODE r) /\ length (cc_reserved r) = 6%nat /\
  in_range 64 (cc_timestamp r) /\ in_range 32 (cc_xor_checksum r).

#[local] Hint Unfold CanConfigParam_pack CanConfigParam_unpack CanConfigParam_wf : packed_defs.

#[export] Instance CanConfigParam_packed : Packed CanConfigParam.
Proof.
  refine {| psize := 48; pack := CanConfigParam_pack; unpack := CanConfigParam_unpack; pwf := CanConfigParam_wf |}.
  all: solve_packed.
Defined.

(** [BroadcastConfigParam], the broadcast schedule command: 40 bytes. *)
Record BroadcastConfigParam := mk_BroadcastConfigParam {
  bp_head : Z; bp_direction : Z; bp_type : Z; bp_length : Z; bp_reserved : Z;
  bp_config_count : Z; bp_enable : Z; bp_b_mode : Z; bp_start_group : Z; bp_start_channel : Z;
  bp_active_mask : Z; bp_group_a_mask : Z; bp_group_b_mask : Z; bp_timestamp : Z;
  bp_xor_checksum : Z
}.

Definition BroadcastConfigParam_pack (r : BroadcastConfigParam) : bytes :=
  le_enc 4 (bp_head r) ++ le_enc 1 (bp_direction r) ++ le_enc 1 (bp_type r) ++
  le_enc 1 (bp_length r) ++ le_enc 1 (bp_reserved r) ++ le_enc 4 (bp_config_count r) ++
  le_enc 1 (bp_enable r) ++ le_enc 1 (bp_b_mode r) ++ le_enc 1 (bp_start_group r) ++
  le_enc 1 (bp_start_channel r) ++ le_enc 4 (bp_active_mask r) ++
  le_enc 4 (bp_group_a_mask r) ++ le_enc 4 (bp_group_b_mask r) ++ le_enc 8 (bp_timestamp r) ++
  le_enc 4 (bp_xor_checksum r).

Definition BroadcastConfigParam_unpack (bs : bytes) : BroadcastConfigParam :=
  {| bp_head := fld 0 4 bs; bp_direction := fld 4 1 bs; bp_type := fld 5 1 bs;
     bp_length := fld 6 1 bs; bp_reserved := fld 7 1 bs; bp_config_count := fld 8 4 bs;
     bp_enable := fld 12 1 bs; bp_b_mode := fld 13 1 bs; bp_start_group := fld 14 1 bs;
     bp_start_channel := fld 15 1 bs; bp_active_mask := fld 16 4 bs;
     bp_group_a_mask := fld 20 4 bs; bp_group_b_mask := fld 24 4 bs;
     bp_timestamp := fld 28 8 bs; bp_xor_checksum := fld 36 4 bs |}.

Definition BroadcastConfigParam_wf (r : BroadcastConfigParam) : Prop :=
  in_range 32 (bp_head r) /\ in_range 8 (bp_direction r) /\ in_range 8 (bp_type r) /\
  in_range 8 (bp_length r) /\ in_range 8 (bp_reserved r) /\ in_range 32 (bp_config_count r) /\
  in_range 8 (bp_enable r) /\ in_range 8 (bp_b_mode r) /\ in_range 8 (bp_start_group r) /\
  in_range 8 (bp_start_channel r) /\ in_range 32 (bp_active_mask r) /\
  in_range 32 (bp_group_a_mask r) /\ in_range 32 (bp_group_b_mask r) /\
  in_range 64 (bp_timestamp r) /\ in_range 32 (bp_xor_checksum r).

#[local] Hint Unfold BroadcastConfigParam_pack BroadcastConfigParam_unpack BroadcastConfigParam_wf : packed_defs.

#[export] Instance BroadcastConfigParam_packed : Packed BroadcastConfigParam.
Proof.
  refine {| psize := 40; pack := BroadcastConfigParam_pack; unpack := BroadcastConfigParam_unpack; pwf := BroadcastConfigParam_wf |}.
  all: solve_packed.
Defined.

(** [CanStartStopParam], the start and stop command: 8 bytes. *)
Record CanStartStopParam := mk_CanStartStopParam {
  ss_can_id : Z; ss_state : Z
}.

Definition CanStartStopParam_pack (r : CanStartStopParam) : bytes :=
  le_enc 4 (ss_can_id r) ++ le_enc 4 (ss_state r).

Definition CanStartStopParam_unpack (bs : bytes) : CanStartStopParam :=
  {| ss_can_id := fld 0 4 bs; ss_state := fld 4 4 bs |}.

Definition CanStartStopParam_wf (r : CanStartStopParam) : Prop :=
  in_range 32 (ss_can_id r) /\ in_range 32 (ss_state r).

#[local] Hint Unfold CanStartStopParam_pack CanStartStopParam_unpack CanStartStopParam_wf : packed_defs.

#[export] Instance CanStartStopParam_packed : Packed CanStartStopParam.
Proof.
  refine {| psize := 8; pack := CanStartStopParam_pack; unpack := CanStartStopParam_unpack; pwf := CanStartStopParam_wf |}.
  all: solve_packed.
Defined.

(** [PC_ARM_DATA_DATA], a downloaded CAN frame: 48 bytes. *)
Record PC_ARM_DATA_DATA := mk_PC_ARM_DATA_DATA {
  pd_head : Z; pd_direction : Z; pd_type : Z; pd_length : Z; pd_ch_id : Z; pd_total_count : Z;
  pd_ch_count : Z; pd_idr : Z; pd_drcr : Z; pd_dw1r : Z; pd_dw2r : Z; pd_packets_sum : Z;
  pd_packets_no : Z; pd_timestamp : Z; pd_xor_checksum : Z
}.

Definition PC_ARM_DATA_DATA_pack (r : PC_ARM_DATA_DATA) : bytes :=
  le_enc 4 (pd_head r) ++ le_enc 1 (pd_direction r) ++ le_enc 1 (pd_type r) ++
  le_enc 1 (pd_length r) ++ le_enc 1 (pd_ch_id r) ++ le_enc 4 (pd_total_count r) ++
  le_enc 4 (pd_ch_count r) ++ le_enc 4 (pd_idr r) ++ le_enc 4 (pd_drcr r) ++
  le_enc 4 (pd_dw1r r) ++ le_enc 4 (pd_dw2r r) ++ le_enc 2 (pd_packets_sum r) ++
  le_enc 2 (pd_packets_no r) ++ le_enc 8 (pd_timestamp r) ++ le_enc 4 (pd_xor_checksum r).

Definition PC_ARM_DATA_DATA_unpack (bs : bytes) : PC_ARM_DATA_DATA :=
  {| pd_head := fld 0 4 bs; pd_direction := fld 4 1 bs; pd_type := fld 5 1 bs;
     pd_length := fld 6 1 bs; pd_ch_id := fld 7 1 bs; pd_total_count := fld 8 4 bs;
     pd_ch_count := fld 12 4 bs; pd_idr := fld 16 4 bs; pd_drcr := fld 20 4 bs;
     pd_dw1r := fld 24 4 bs; pd_dw2r := fld 28 4 bs; pd_packets_sum := fld 32 2 bs;
     pd_packets_no := fld 34 2 bs; pd_timestamp := fld 36 8 bs; pd_xor_checksum := fld 44 4 bs |}.

Definition PC_ARM_DATA_DATA_wf (r : PC_ARM_DATA_DATA) : Prop :=
  in_range 32 (pd_head r) /\ in_range 8 (pd_direction r) /\ in_range 8 (pd_type r) /\
  in_range 8 (pd_length r) /\ in_range 8 (pd_ch_id r) /\ in_range 32 (pd_total_count r) /\
  in_range 32 (pd_ch_count r) /\ in_range 32 (pd_idr r) /\ in_range 32 (pd_drcr r) /\
  in_range 32 (pd_dw1r r) /\ in_range 32 (pd_dw2r r) /\ in_range 16 (pd_packets_sum r) /\
  in_range 16 (pd_packets_no r) /\ in_range 64 (pd_timestamp r) /\
  in_range 32 (pd_xor_checksum r).

#[local] Hint Unfold PC_ARM_DATA_DATA_pack PC_ARM_DATA_DATA_unpack PC_ARM_DATA_DATA_wf : packed_defs.

#[export] Instance PC_ARM_DATA_DATA_packed : Packed PC_ARM_DATA_DATA.
Proof.
  refine {| psize := 48; pack := PC_ARM_DATA_DATA_pack; unpack := PC_ARM_DATA_DATA_unpack; pwf := PC_ARM_DATA_DATA_wf |}.
  all: solve_packed.
Defined.

(** [PC_ARM_SIMULATOR_DATA], a downloaded answer of the stand-alone simulator: 288 bytes. *)
Record PC_ARM_SIMULATOR_DATA := mk_PC_ARM_SIMULATOR_DATA {
  sd_head : Z; sd_direction : Z; sd_type : Z; sd_length : Z; sd_channel_id : Z;
  sd_total_count : Z; sd_channel_count : Z; sd_packet_type : Z; sd_can_id : Z; sd_data_type : Z;
  sd_rcv_len : Z; sd_send_len : Z; sd_reserved : Z; sd_send_data : bytes
}.

Definition PC_ARM_SIMULATOR_DATA_pack (r : PC_ARM_SIMULATOR_DATA) : bytes :=
  le_enc 4 (sd_head r) ++ le_enc 1 (sd_direction r) ++ le_enc 1 (sd_type r) ++
  le_enc 2 (sd_length r) ++ le_enc 1 (sd_channel_id r) ++ le_enc 4 (sd_total_count r) ++
  le_enc 4 (sd_channel_count r) ++ le_enc 2 (sd_packet_type r) ++ le_enc 4 (sd_can_id r) ++
  le_enc 4 (sd_data_type r) ++ le_enc 2 (sd_rcv_len r) ++ le_enc 2 (sd_send_len r) ++
  le_enc 1 (sd_reserved r) ++ sd_send_data r.

Definition PC_ARM_SIMULATOR_DATA_unpack (bs : bytes) : PC_ARM_SIMULATOR_DATA :=
  {| sd_head := fld 0 4 bs; sd_direction := fld 4 1 bs; sd_type := fld 5 1 bs;
     sd_length := fld 6 2 bs; sd_channel_id := fld 8 1 bs; sd_total_count := fld 9 4 bs;
     sd_channel_count := fld 13 4 bs; sd_packet_type := fld 17 2 bs; sd_can_id := fld 19 4 bs;
     sd_data_type := fld 23 4 bs; sd_rcv_len := fld 27 2 bs; sd_send_len := fld 29 2 bs;
     sd_reserved := fld 31 1 bs; sd_send_data := slice 32 256 bs |}.

Definition PC_ARM_SIMULATOR_DATA_wf (r : PC_ARM_SIMULATOR_DATA) : Prop :=
  in_range 32 (sd_head r) /\ in_range 8 (sd_direction r) /\ in_range 8 (sd_type r) /\
  in_range 16 (sd_length r) /\ in_range 8 (sd_channel_id r) /\ in_range 32 (sd_total_count r) /\
  in_range 32 (sd_channel_count r) /\ in_range 16 (sd_packet_type r) /\
  in_range 32 (sd_can_id r) /\ in_range 32 (sd_data_type r) /\ in_range 16 (sd_rcv_len r) /\
  in_range 16 (sd_send_len r) /\ in_range 8 (sd_reserved r) /\ length (sd_send_data r) = 256%nat.

#[local] Hint Unfold PC_ARM_SIMULATOR_DATA_pack PC_ARM_SIMULATOR_DATA_unpack PC_ARM_SIMULATOR_DATA_wf : packed_defs.

#[export] Instance PC_ARM_SIMULATOR_DATA_packed : Packed PC_ARM_SIMULATOR_DATA.
Proof.
  refine {| psize := 288; pack := PC_ARM_SIMULATOR_DATA_pack; unpack := PC_ARM_SIMULATOR_DATA_unpack; pwf := PC_ARM_SIMULATOR_DATA_wf |}.
  all: solve_packed.
Defined.

(** [axican_frame], the frame of the CAN driver: 24 bytes. *)
Record axican_frame := mk_axican_frame {
  fr_can_id : Z; fr_can_dlc : Z; fr_data0 : Z; fr_data1 : Z; fr_timestamp : Z
}.

Definition axican_frame_pack (r : axican_frame) : bytes :=
  le_enc 4 (fr_can_id r) ++ le_enc 4 (fr_can_dlc r) ++ le_enc 4 (fr_data0 r) ++
  le_enc 4 (fr_data1 r) ++ le_enc 8 (fr_timestamp r).

Definition axican_frame_unpack (bs : bytes) : axican_frame :=
  {| fr_can_id := fld 0 4 bs; fr_can_dlc := fld 4 4 bs; fr_data0 := fld 8 4 bs;
     fr_data1 := fld 12 4 bs; fr_timestamp := fld 16 8 bs |}.

Definition axican_frame_wf (r : axican_frame) : Prop :=
  in_range 32 (fr_can_id r) /\ in_range 32 (fr_can_dlc r) /\ in_range 32 (fr_data0 r) /\
  in_range 32 (fr_data1 r) /\ in_range 64 (fr_timestamp r).

#[local] Hint Unfold axican_frame_pack axican_frame_unpack axican_frame_wf : packed_defs.

#[export] Instance axican_frame_packed : Packed axican_frame.
Proof.
  refine {| psize := 24; pack := axican_frame_pack; unpack := axican_frame_unpack; pwf := axican_frame_wf |}.
  all: solve_packed.
Defined.

(** [ARM_PC_STATUS_DATA], the transmit status and received frame reported to the PC: 68 bytes. *)
Record ARM_PC_STATUS_DATA := mk_ARM_PC_STATUS_DATA {
  st_PC_arm_head : Z; st_PC_arm_length : Z; st_PC_arm_conter : Z; st_PC_arm_commond : Z;
  st_pc_arm_check : Z; st_pc_arm_chind : Z; st_head : Z; st_direction : Z; st_type : Z;
  st_length : Z; st_ch_id : Z; st_total_count : Z; st_ch_count : Z; st_idr : Z; st_drcr : Z;
  st_dw1r : Z; st_dw2r : Z; st_states : Z; st_xor_states : Z; st_reserved2 : Z;
  st_timestamp : Z; st_xor_checksum : Z
}.

Definition ARM_PC_STATUS_DATA_pack (r : ARM_PC_STATUS_DATA) : bytes :=
  le_enc 4 (st_PC_arm_head r) ++ le_enc 4 (st_PC_arm_length r) ++
  le_enc 2 (st_PC_arm_conter r) ++ le_enc 2 (st_PC_arm_commond r) ++
  le_enc 4 (st_pc_arm_check r) ++ le_enc 4 (st_pc_arm_chind r) ++ le_enc 4 (st_head r) ++
  le_enc 1 (st_direction r) ++ le_enc 1 (st_type r) ++ le_enc 1 (st_length r) ++
  le_enc 1 (st_ch_id r) ++ le_enc 4 (st_total_count r) ++ le_enc 4 (st_ch_count r) ++
  le_enc 4 (st_idr r) ++ le_enc 4 (st_drcr r) ++ le_enc 4 (st_dw1r r) ++ le_enc 4 (st_dw2r r) ++
  le_enc 1 (st_states r) ++ le_enc 1 (st_xor_states r) ++ le_enc 2 (st_reserved2 r) ++
  le_enc 8 (st_timestamp r) ++ le_enc 4 (st_xor_checksum r).

Definition ARM_PC_STATUS_DATA_unpack (bs : bytes) : ARM_PC_STATUS_DATA :=
  {| st_PC_arm_head := fld 0 4 bs; st_PC_arm_length := fld 4 4 bs;
     st_PC_arm_conter := fld 8 2 bs; st_PC_arm_commond := fld 10 2 bs;
     st_pc_arm_check := fld 12 4 bs; st_pc_arm_chind := fld 16 4 bs; st_head := fld 20 4 bs;
     st_direction := fld 24 1 bs; st_type := fld 25 1 bs; st_length := fld 26 1 bs;
     st_ch_id := fld 27 1 bs; st_total_count := fld 28 4 bs; st_ch_count := fld 32 4 bs;
     st_idr := fld 36 4 bs; st_drcr := fld 40 4 bs; st_dw1r := fld 44 4 bs;
     st_dw2r := fld 48 4 bs; st_states := fld 52 1 bs; st_xor_states := fld 53 1 bs;
     st_reserved2 := fld 54 2 bs; st_timestamp := fld 56 8 bs; st_xor_checksum := fld 64 4 bs |}.

Definition ARM_PC_STATUS_DATA_wf (r : ARM_PC_STATUS_DATA) : Prop :=
  in_range 32 (st_PC_arm_head r) /\ in_range 32 (st_PC_arm_length r) /\
  in_range 16 (st_PC_arm_conter r) /\ in_range 16 (st_PC_arm_commond r) /\
  in_range 32 (st_pc_arm_check r) /\ in_range 32 (st_pc_arm_chind r) /\
  in_range 32 (st_head r) /\ in_range 8 (st_direction r) /\ in_range 8 (st_type r) /\
  in_range 8 (st_length r) /\ in_range 8 (st_ch_id r) /\ in_range 32 (st_total_count r) /\
  in_range 32 (st_ch_count r) /\ in_range 32 (st_idr r) /\ in_range 32 (st_drcr r) /\
  in_range 32 (st_dw1r r) /\ in_range 32 (st_dw2r r) /\ in_range 8 (st_states r) /\
  in_range 8 (st_xor_states r) /\ in_range 16 (st_reserved2 r) /\
  in_range 64 (st_timestamp r) /\ in_range 32 (st_xor_checksum r).

#[local] Hint Unfold ARM_PC_STATUS_DATA_pack ARM_PC_STATUS_DATA_unpack ARM_PC_STATUS_DATA_wf : packed_defs.

#[export] Instance ARM_PC_STATUS_DATA_packed : Packed ARM_PC_STATUS_DATA.
Proof.
  refine {| psize := 68; pack := ARM_PC_STATUS_DATA_pack; unpack := ARM_PC_STATUS_DATA_unpack; pwf := ARM_PC_STATUS_DATA_wf |}.
  all: solve_packed.
Defined.

(** [CAN_ARM_PC_DATA], the received frame reported to the PC: 68 bytes. *)
Record CAN_ARM_PC_DATA := mk_CAN_ARM_PC_DATA {
  up_PC_ARM_DATE_HEAD : Z; up_PC_ARM_DATE_LENGTH : Z; up_PC_ARM_DATE_COUNTER : Z;
  up_PC_ARM_DATE_COMMAND : Z; up_PC_ARM_DATE_CHECKSUM : Z; up_PC_ARM_CHIND : Z; up_head : Z;
  up_direction : Z; up_type : Z; up_length : Z; up_ch_id : Z; up_total_count : Z;
  up_ch_count : Z; up_idr : Z; up_drcr : Z; up_dw1r : Z; up_dw2r : Z; up_status : Z;
  up_reserved1 : Z; up_reserved2 : Z; up_timestamp : Z; up_xor_checksum : Z
}.

Definition CAN_ARM_PC_DATA_pack (r : CAN_ARM_PC_DATA) : bytes :=
  le_enc 4 (up_PC_ARM_DATE_HEAD r) ++ le_enc 4 (up_PC_ARM_DATE_LENGTH r) ++
  le_enc 2 (up_PC_ARM_DATE_COUNTER r) ++ le_enc 2 (up_PC_ARM_DATE_COMMAND r) ++
  le_enc 4 (up_PC_ARM_DATE_CHECKSUM r) ++ le_enc 4 (up_PC_ARM_CHIND r) ++
  le_enc 4 (up_head r) ++ le_enc 1 (up_direction r) ++ le_enc 1 (up_type r) ++
  le_enc 1 (up_length r) ++ le_enc 1 (up_ch_id r) ++ le_enc 4 (up_total_count r) ++
  le_enc 4 (up_ch_count r) ++ le_enc 4 (up_idr r) ++ le_enc 4 (up_drcr r) ++
  le_enc 4 (up_dw1r r) ++ le_enc 4 (up_dw2r r) ++ le_enc 1 (up_status r) ++
  le_enc 1 (up_reserved1 r) ++ le_enc 2 (up_reserved2 r) ++ le_enc 8 (up_timestamp r) ++
  le_enc 4 (up_xor_checksum r).

Definition CAN_ARM_PC_DATA_unpack (bs : bytes) : CAN_ARM_PC_DATA :=
  {| up_PC_ARM_DATE_HEAD := fld 0 4 bs; up_PC_ARM_DATE_LENGTH := fld 4 4 bs;
     up_PC_ARM_DATE_COUNTER := fld 8 2 bs; up_PC_ARM_DATE_COMMAND := fld 10 2 bs;
     up_PC_ARM_DATE_CHECKSUM := fld 12 4 bs; up_PC_ARM_CHIND := fld 16 4 bs;
     up_head := fld 20 4 bs; up_direction := fld 24 1 bs; up_type := fld 25 1 bs;
     up_length := fld 26 1 bs; up_ch_id := fld 27 1 bs; up_total_count := fld 28 4 bs;
     up_ch_count := fld 32 4 bs; up_idr := fld 36 4 bs; up_drcr := fld 40 4 bs;
     up_dw1r := fld 44 4 bs; up_dw2r := fld 48 4 bs; up_status := fld 52 1 bs;
     up_reserved1 := fld 53 1 bs; up_reserved2 := fld 54 2 bs; up_timestamp := fld 56 8 bs;
     up_xor_checksum := fld 64 4 bs |}.

Definition CAN_ARM_PC_DATA_wf (r : CAN_ARM_PC_DATA) : Prop :=
  in_range 32 (up_PC_ARM_DATE_HEAD r) /\ in_range 32 (up_PC_ARM_DATE_LENGTH r) /\
  in_range 16 (up_PC_ARM_DATE_COUNTER r) /\ in_range 16 (up_PC_ARM_DATE_COMMAND r) /\
  in_range 32 (up_PC_ARM_DATE_CHECKSUM r) /\ in_range 32 (up_PC_ARM_CHIND r) /\
  in_range 32 (up_head r) /\ in_range 8 (up_direction r) /\ in_range 8 (up_type r) /\
  in_range 8 (up_length r) /\ in_range 8 (up_ch_id r) /\ in_range 32 (up_total_count r) /\
  in_range 32 (up_ch_count r) /\ in_range 32 (up_idr r) /\ in_range 32 (up_drcr r) /\
  in_range 32 (up_dw1r r) /\ in_range 32 (up_dw2r r) /\ in_range 8 (up_status r) /\
  in_range 8 (up_reserved1 r) /\ in_range 16 (up_reserved2 r) /\ in_range 64 (up_timestamp r) /\
  in_range 32 (up_xor_checksum r).

#[local] Hint Unfold CAN_ARM_PC_DATA_pack CAN_ARM_PC_DATA_unpack CAN_ARM_PC_DATA_wf : packed_defs.

#[export] Instance CAN_ARM_PC_DATA_packed : Packed CAN_ARM_PC_DATA.
Proof.
  refine {| psize := 68; pack := CAN_ARM_PC_DATA_pack; unpack := CAN_ARM_PC_DATA_unpack; pwf := CAN_ARM_PC_DATA_wf |}.
  all: solve_packed.
Defined.

(** [CAN_Send_Response_r], the header of the information reply: 16 bytes. *)
Record CAN_Send_Response_r := mk_CAN_Send_Response_r {
  rr_HEAD : Z; rr_LENGTH : Z; rr_COUNT : Z; rr_COMMOND : Z; rr_Checksum : Z
}.

Definition CAN_Send_Response_r_pack (r : CAN_Send_Response_r) : bytes :=
  le_enc 4 (rr_HEAD r) ++ le_enc 4 (rr_LENGTH r) ++ le_enc 2 (rr_COUNT r) ++
  le_enc 2 (rr_COMMOND r) ++ le_enc 4 (rr_Checksum r).

Definition CAN_Send_Response_r_unpack (bs : bytes) : CAN_Send_Response_r :=
  {| rr_HEAD := fld 0 4 bs; rr_LENGTH := fld 4 4 bs; rr_COUNT := fld 8 2 bs;
     rr_COMMOND := fld 10 2 bs; rr_Checksum := fld 12 4 bs |}.

Definition CAN_Send_Response_r_wf (r : CAN_Send_Response_r) : Prop :=
  in_range 32 (rr_HEAD r) /\ in_range 32 (rr_LENGTH r) /\ in_range 16 (rr_COUNT r) /\
  in_range 16 (rr_COMMOND r) /\ in_range 32 (rr_Checksum r).

#[local] Hint Unfold CAN_Send_Response_r_pack CAN_Send_Response_r_unpack CAN_Send_Response_r_wf : packed_defs.

#[export] Instance CAN_Send_Response_r_packed : Packed CAN_Send_Response_r.
Proof.
  refine {| psize := 16; pack := CAN_Send_Response_r_pack; unpack := CAN_Send_Response_r_unpack; pwf := CAN_Send_Response_r_wf |}.
  all: solve_packed.
Defined.

(** [CAN_Send_Response], the reply to a command: 20 bytes. *)
Record CAN_Send_Response := mk_CAN_Send_Response {
  sr_HEAD : Z; sr_LENGTH : Z; sr_COUNT : Z; sr_COMMOND : Z; sr_Checksum : Z; sr_STATUS : Z
}.

Definition CAN_Send_Response_pack (r : CAN_Send_Response) : bytes :=
  le_enc 4 (sr_HEAD r) ++ le_enc 4 (sr_LENGTH r) ++ le_enc 2 (sr_COUNT r) ++
  le_enc 2 (sr_COMMOND r) ++ le_enc 4 (sr_Checksum r) ++ le_enc 4 (sr_STATUS r).

Definition CAN_Send_Response_unpack (bs : bytes) : CAN_Send_Response :=
  {| sr_HEAD := fld 0 4 bs; sr_LENGTH := fld 4 4 bs; sr_COUNT := fld 8 2 bs;
     sr_COMMOND := fld 10 2 bs; sr_Checksum := fld 12 4 bs; sr_STATUS := fld 16 4 bs |}.

Definition CAN_Send_Response_wf (r : CAN_Send_Response) : Prop :=
  in_range 32 (sr_HEAD r) /\ in_range 32 (sr_LENGTH r) /\ in_range 16 (sr_COUNT r) /\
  in_range 16 (sr_COMMOND r) /\ in_range 32 (sr_Checksum r) /\ in_range 32 (sr_STATUS r).

#[local] Hint Unfold CAN_Send_Response_pack CAN_Send_Response_unpack CAN_Send_Response_wf : packed_defs.

#[export] Instance CAN_Send_Response_packed : Packed CAN_Send_Response.
Proof.
  refine {| psize := 20; pack := CAN_Send_Response_pack; unpack := CAN_Send_Response_unpack; pwf := CAN_Send_Response_wf |}.
  all: solve_packed.
Defined.

(** [VersionQueryResponse], the reply to a version query: 20 bytes. *)
Record VersionQueryResponse := mk_VersionQueryResponse {
  vr_HEAD : Z; vr_LENGTH : Z; vr_COUNT : Z; vr_COMMOND : Z; vr_Checksum : Z; vr_version : Z
}.

Definition VersionQueryResponse_pack (r : VersionQueryResponse) : bytes :=
  le_enc 4 (vr_HEAD r) ++ le_enc 4 (vr_LENGTH r) ++ le_enc 2 (vr_COUNT r) ++
  le_enc 2 (vr_COMMOND r) ++ le_enc 4 (vr_Checksum r) ++ le_enc 4 (vr_version r).

Definition VersionQueryResponse_unpack (bs : bytes) : VersionQueryResponse :=
  {| vr_HEAD := fld 0 4 bs; vr_LENGTH := fld 4 4 bs; vr_COUNT := fld 8 2 bs;
     vr_COMMOND := fld 10 2 bs; vr_Checksum := fld 12 4 bs; vr_version := fld 16 4 bs |}.

Definition VersionQueryResponse_wf (r : VersionQueryResponse) : Prop :=
  in_range 32 (vr_HEAD r) /\ in_range 32 (vr_LENGTH r) /\ in_range 16 (vr_COUNT r) /\
  in_range 16 (vr_COMMOND r) /\ in_range 32 (vr_Checksum r) /\ in_range 32 (vr_version r).

#[local] Hint Unfold VersionQueryResponse_pack VersionQueryResponse_unpack VersionQueryResponse_wf : packed_defs.

#[export] Instance VersionQueryResponse_packed : Packed VersionQueryResponse.
Proof.
  refine {| psize := 20; pack := VersionQueryResponse_pack; unpack := VersionQueryResponse_unpack; pwf := VersionQueryResponse_wf |}.
  all: solve_packed.
Defined.

(** [CanBufRemainingResponse], the free space of one channel: 25 bytes. *)
Record CanBufRemainingResponse := mk_CanBufRemainingResponse {
  br_channel : Z; br_normal_buf_remaining : Z; br_pulse_buf_remaining : Z;
  br_sim_buf_remaining : Z; br_dmaddr_space : Z; br_vfifo_space : Z; br_axififo_space : Z
}.

Definition CanBufRemainingResponse_pack (r : CanBufRemainingResponse) : bytes :=
  le_enc 1 (br_channel r) ++ le_enc 4 (br_normal_buf_remaining r) ++
  le_enc 4 (br_pulse_buf_remaining r) ++ le_enc 4 (br_sim_buf_remaining r) ++
  le_enc 4 (br_dmaddr_space r) ++ le_enc 4 (br_vfifo_space r) ++ le_enc 4 (br_axififo_space r).

Definition CanBufRemainingResponse_unpack (bs : bytes) : CanBufRemainingResponse :=
  {| br_channel := fld 0 1 bs; br_normal_buf_remaining := fld 1 4 bs;
     br_pulse_buf_remaining := fld 5 4 bs; br_sim_buf_remaining := fld 9 4 bs;
     br_dmaddr_space := fld 13 4 bs; br_vfifo_space := fld 17 4 bs;
     br_axififo_space := fld 21 4 bs |}.

Definition CanBufRemainingResponse_wf (r : CanBufRemainingResponse) : Prop :=
  in_range 8 (br_channel r) /\ in_range 32 (br_normal_buf_remaining r) /\
  in_range 32 (br_pulse_buf_remaining r) /\ in_range 32 (br_sim_buf_remaining r) /\
  in_range 32 (br_dmaddr_space r) /\ in_range 32 (br_vfifo_space r) /\
  in_range 32 (br_axififo_space r).

#[local] Hint Unfold CanBufRemainingResponse_pack CanBufRemainingResponse_unpack CanBufRemainingResponse_wf : packed_defs.

#[export] Instance CanBufRemainingResponse_packed : Packed CanBufRemainingResponse.
Proof.
  refine {| psize := 25; pack := CanBufRemainingResponse_pack; unpack := CanBufRemainingResponse_unpack; pwf := CanBufRemainingResponse_wf |}.
  all: solve_packed.
Defined.

(** [EventPacket], an event on port 9011: 84 bytes. *)
Record EventPacket := mk_EventPacket {
  ev_sync_word : Z; ev_data_len : Z; ev_event_level : Z; ev_event_id : Z; ev_timestamp : Z;
  ev_checksum : Z; ev_description : bytes
}.

Definition EventPacket_pack (r : EventPacket) : bytes :=
  le_enc 4 (ev_sync_word r) ++ le_enc 4 (ev_data_len r) ++ le_enc 4 (ev_event_level r) ++
  le_enc 4 (ev_event_id r) ++ le_enc 2 (ev_timestamp r) ++ le_enc 2 (ev_checksum r) ++
  ev_description r.

Definition EventPacket_unpack (bs : bytes) : EventPacket :=
  {| ev_sync_word := fld 0 4 bs; ev_data_len := fld 4 4 bs; ev_event_level := fld 8 4 bs;
     ev_event_id := fld 12 4 bs; ev_timestamp := fld 16 2 bs; ev_checksum := fld 18 2 bs;
     ev_description := slice 20 64 bs |}.

Definition EventPacket_wf (r : EventPacket) : Prop :=
  in_range 32 (ev_sync_word r) /\ in_range 32 (ev_data_len r) /\
  in_range 32 (ev_event_level r) /\ in_range 32 (ev_event_id r) /\
  in_range 16 (ev_timestamp r) /\ in_range 16 (ev_checksum r) /\
  length (ev_description r) = 64%nat.

#[local] Hint Unfold EventPacket_pack EventPacket_unpack EventPacket_wf : packed_defs.

#[export] Instance EventPacket_packed : Packed EventPacket.
Proof.
  refine {| psize := 84; pack := EventPacket_pack; unpack := EventPacket_unpack; pwf := EventPacket_wf |}.
  all: solve_packed.
Defined.

(** [SecondPulseData], a second pulse: 9 bytes. *)
Record SecondPulseData := mk_SecondPulseData {
  sp_timestamp : Z; sp_pulse_flag : Z
}.

Definition SecondPulseData_pack (r : SecondPulseData) : bytes :=
  le_enc 8 (sp_timestamp r) ++ le_enc 1 (sp_pulse_flag r).

Definition SecondPulseData_unpack (bs : bytes) : SecondPulseData :=
  {| sp_timestamp := fld 0 8 bs; sp_pulse_flag := fld 8 1 bs |}.

Definition SecondPulseData_wf (r : SecondPulseData) : Prop :=
  in_range 64 (sp_timestamp r) /\ in_range 8 (sp_pulse_flag r).

#[local] Hint Unfold SecondPulseData_pack SecondPulseData_unpack SecondPulseData_wf : packed_defs.

#[export] Instance SecondPulseData_packed : Packed SecondPulseData.
Proof.
  refine {| psize := 9; pack := SecondPulseData_pack; unpack := SecondPulseData_unpack; pwf := SecondPulseData_wf |}.
  all: solve_packed.
Defined.

(** [PC_DMA_DATA], a DMA message: 2 bytes. *)
Record PC_DMA_DATA := mk_PC_DMA_DATA {
  dm_DMA_CHINNEL : Z; dm_DMA_REMAIN : Z
}.

Definition PC_DMA_DATA_pack (r : PC_DMA_DATA) : bytes :=
  le_enc 1 (dm_DMA_CHINNEL r) ++ le_enc 1 (dm_DMA_REMAIN r).

Definition PC_DMA_DATA_unpack (bs : bytes) : PC_DMA_DATA :=
  {| dm_DMA_CHINNEL := fld 0 1 bs; dm_DMA_REMAIN := fld 1 1 bs |}.

Definition PC_DMA_DATA_wf (r : PC_DMA_DATA) : Prop :=
  in_range 8 (dm_DMA_CHINNEL r) /\ in_range 8 (dm_DMA_REMAIN r).

#[local] Hint Unfold PC_DMA_DATA_pack PC_DMA_DATA_unpack PC_DMA_DATA_wf : packed_defs.

#[export] Instance PC_DMA_DATA_packed : Packed PC_DMA_DATA.
Proof.
  refine {| psize := 2; pack := PC_DMA_DATA_pack; unpack := PC_DMA_DATA_unpack; pwf := PC_DMA_DATA_wf |}.
  all: solve_packed.
Defined.

#[global] Arguments pack : simpl never.
#[global] Arguments unpack : simpl never.
#[global] Arguments psize : simpl never.

Lemma pack_zlen {A} `{Packed A} (a : A) : pwf a -> zlen (pack a) = sizeof A.
Proof. intros Ha. unfold zlen, sizeof. by rewrite pack_length. Qed.

(** ** The broadcast group

    A C structure with two bytes of padding after the count; the code zeroes the
    structure before filling it, so the padding is zero. *)

Record BroadcastFrameGroup := mk_group {
  bg_group_id : Z; bg_frame_count : Z; bg_frames : list axican_frame
}.

Definition group_pack (g : BroadcastFrameGroup) : bytes :=
  le_enc 4 (bg_group_id g) ++ le_enc 2 (bg_frame_count g) ++ [x00; x00] ++
  (bg_frames g ≫= pack).

Definition group_unpack (bs : bytes) : BroadcastFrameGroup :=
  {| bg_group_id := fld 0 4 bs; bg_frame_count := fld 4 2 bs;
     bg_frames := (fun i => unpack (slice (8 + 24 * i) 24 bs)) <$> seq 0 128 |}.

Definition sizeof_BroadcastFrameGroup : Z := 3080.

Definition group_wf (g : BroadcastFrameGroup) : Prop :=
  is_u32 (bg_group_id g) /\ is_u16 (bg_frame_count g) /\
  length (bg_frames g) = 128%nat /\ Forall pwf (bg_frames g).

Lemma bind_pack_length {A} `{Packed A} (l : list A) :
  Forall pwf l -> length (l ≫= pack) = (length l * psize (A := A))%nat.
Proof.
  intros Hl. induction Hl as [|a l Ha _ IH]; [done|].
  rewrite bind_cons, length_app, IH, (pack_length a) by done. simpl. lia.
Qed.

Lemma bind_pack_lookup {A} `{Packed A} (l : list A) i a tail :
  Forall pwf l -> l !! i = Some a -> unpack (drop (i * psize (A := A)) ((l ≫= pack) ++ tail)) = a.
Proof.
  intros Hl Hi. rewrite <- (take_drop_middle _ _ _ Hi), bind_app, bind_cons, <- !app_assoc.
  rewrite <- (take_drop_middle _ _ _ Hi) in Hl.
  apply list.Forall_app in Hl as [Hl1 [Ha _]%list.Forall_cons].
  apply lookup_lt_Some in Hi.
  rewrite drop_app_ge by (rewrite bind_pack_length, length_take by done; nia).
  rewrite bind_pack_length, length_take, Nat.min_l, Nat.sub_diag, drop_0 by (done || lia).
  rewrite <- unpack_take, take_app_le, take_ge by (rewrite pack_length by done; lia).
  by apply unpack_pack.
Qed.

Lemma bind_pack_slice {A} `{Packed A} (l : list A) i a :
  Forall pwf l -> l !! i = Some a ->
  slice (i * psize (A := A)) (psize (A := A)) (l ≫= pack) = pack a.
Proof.
  intros Hl. revert i. induction Hl as [|b l Hb _ IH]; intros i Hi; [done|].
  rewrite bind_cons. pose proof (pack_length b Hb) as Hlen. unfold slice in *.
  destruct i as [|i]; simpl in Hi.
  - injection Hi as ->. rewrite drop_0. rewrite <- Hlen. apply take_app_length.
  - replace (S i * psize (A := A))%nat with (length (pack b) + i * psize (A := A))%nat by lia.
    rewrite <- drop_drop, drop_app_length. by apply IH.
Qed.

Lemma group_pack_length g : group_wf g -> zlen (group_pack g) = sizeof_BroadcastFrameGroup.
Proof.
  intros (_ & _ & Hlen & Hf). unfold group_pack. rewrite !zlen_app.
  unfold zlen. rewrite !length_le_enc, bind_pack_length, Hlen by done. done.
Qed.

Lemma group_unpack_pack g : group_wf g -> group_unpack (group_pack g) = g.
Proof.
  intros (Hid & Hc & Hlen & Hf). destruct g as [id c frames]. cbn [bg_group_id bg_frame_count bg_frames] in *.
  unfold group_unpack, group_pack. cbn [bg_group_id bg_frame_count bg_frames]. f_equal.
  - rewrite fld_here. by apply wrap_small.
  - rewrite fld_skip_enc by lia. rewrite fld_here. by apply wrap_small.
  - apply list_eq. intros i. rewrite list_lookup_fmap.
    destruct (decide (i < 128)%nat) as [Hi|Hi].
    + rewrite lookup_seq_lt by done. cbn [fmap option_fmap option_map].
      destruct (lookup_lt_is_Some_2 frames i) as [f Hfi]; [lia|]. rewrite Hfi. f_equal.
      rewrite !slice_skip_enc by lia.
      replace (8 + 24 * (0 + i) - 4 - 2)%nat with (2 + i * 24)%nat by lia.
      change (slice (2 + i * 24) 24 ([x00; x00] ++ (frames ≫= pack)))
        with (slice (i * 24) 24 (frames ≫= pack)).
      pose proof (bind_pack_slice frames i f Hf Hfi) as E.
      change (psize (A := axican_frame)) with 24%nat in E. rewrite E. apply unpack_pack.
      by apply (Forall_lookup_1 _ _ _ _ Hf Hfi).
    + rewrite !lookup_ge_None_2; [done | lia | rewrite length_seq; lia].
Qed.

(** Clients reason through the laws. *)
#[global] Opaque pack unpack group_pack group_unpack.
