(* ===== verification/World.v ===== *)
(** * The state of the gateway and its environment
    ([src/main18.c], global variables; [src/axican/axican.h]).

    [world] holds the global variables, the mutexes the running thread holds
    and the system calls made so far.  A handler of the code is a function in
    the monad [M world].  The answers of the operating system and of the CAN
    driver are an oracle: any function of the calls made so far. *)
From S2P Require Import Prelude Words Ring RingSet Layout.

(** ** Constants of the code *)

Definition NORMAL_MODE : Z := 0.
Definition ALONG_MODE : Z := 1.
Definition INIT_MODE : Z := 2.
Definition BCAST_MODE_SIMULTANEOUS : Z := 1.
Definition BCAST_MODE_POLLING : Z := 2.
Definition BCAST_MODE_AB_ALTERNATE : Z := 3.
Definition BCAST_ENABLE : Z := 1.
Definition BCAST_CAN_MASK : Z := 0x3F.
Definition BCAST_MAX_FRAMES_PER_GROUP : Z := 128.
Definition BCAST_GROUP_QUEUE_DEPTH : Z := 16.
Definition BCAST_PPS_RX_WINDOW_MS : Z := 1000.
Definition BUFFER_SIZE : Z := 4096.
Definition BUFFER_SIZE_1 : Z := 1048628.
Definition OPEN_CAN_DEVICE : Z := 0xAA.
Definition CLOSE_CAN_DEVICE : Z := 0xBB.
Definition REQ_SYNC_WORD : Z := 0x03CCF0FF.
Definition ACK_SYNC_WORD : Z := 0x05CCF0FF.
Definition EVNET_SYNC_WORD : Z := 0x02CCF0FF.
Definition PC_ARM_DATA_WORD : Z := 0x04CCF0FF.
Definition PC_STATUS_HEAD : Z := 0x499602D2.
Definition PC_ARM_STATUS_WORD : Z := 0xFFF0CC01.
Definition ARM_APP_VERSION : Z := 0x20260701.
Definition VERSION_QUERY_ARM : Z := 0xAA.
Definition VERSION_QUERY_FPGA : Z := 0xBB.
Definition VERSION_QUERY_ARM_PROGRAM : Z := 0xAC.
Definition VERSION_QUERY_FAILED : Z := 0xFFFFFFFF.
Definition ARM_PROGRAM_CAN : Z := 1.
Definition ARM_PROGRAM_TYPE : Z := ARM_PROGRAM_CAN.
Definition AXICAN_MAX : Z := 6.
Definition MAX_CHANNELS : Z := 32.
Definition ZMUAV_XCAN_MODE_NORMAL : Z := 2.
Definition ZMUAV_XCAN_MODE_LOOPBACK : Z := 4.
Definition EINVAL : Z := 22.
Definition ENOMEM : Z := 12.
Definition EIO : Z := 5.

Inductive EventLevel := EVENT_LEVEL_INFO | EVENT_LEVEL_RISK | EVENT_LEVEL_ERROR | EVENT_LEVEL_FATAL.
Inductive EventID := EVENT_CAN_INIT_FAILED | EVENT_CAN_SENT_FAILE.

Definition EventLevel_Z (l : EventLevel) : Z :=
  match l with
  | EVENT_LEVEL_INFO => 0 | EVENT_LEVEL_RISK => 1 | EVENT_LEVEL_ERROR => 2 | EVENT_LEVEL_FATAL => 3
  end.

Definition EventID_Z (i : EventID) : Z :=
  match i with EVENT_CAN_INIT_FAILED => 1 | EVENT_CAN_SENT_FAILE => 2 end.

Inductive CanState := CAN_STATE_CLOSED | CAN_STATE_OPENED.

#[export] Instance CanState_eq_dec : EqDecision CanState.
Proof. solve_decision. Defined.

(** ** Data *)

Record CanDeviceConfig := mk_config {
  cf_can_id : Z; cf_baud_rate : Z; cf_mode : Z; cf_can_type : Z; cf_valid : Z; cf_state : CanState
}.

Definition set_cf_can_id v c :=
  mk_config v (cf_baud_rate c) (cf_mode c) (cf_can_type c) (cf_valid c) (cf_state c).
Definition set_cf_baud_rate v c :=
  mk_config (cf_can_id c) v (cf_mode c) (cf_can_type c) (cf_valid c) (cf_state c).
Definition set_cf_can_type v c :=
  mk_config (cf_can_id c) (cf_baud_rate c) (cf_mode c) v (cf_valid c) (cf_state c).
Definition set_cf_valid v c :=
  mk_config (cf_can_id c) (cf_baud_rate c) (cf_mode c) (cf_can_type c) v (cf_state c).
Definition set_cf_state v c :=
  mk_config (cf_can_id c) (cf_baud_rate c) (cf_mode c) (cf_can_type c) (cf_valid c) v.

Record BroadcastSchedulerConfig := mk_sched {
  bs_enable : Z; bs_mode : Z; bs_start_group : Z; bs_current_group : Z; bs_start_channel : Z;
  bs_poll_next_channel : Z; bs_active_mask : Z; bs_group_a_mask : Z; bs_group_b_mask : Z;
  bs_config_count : Z
}.

Record axican := mk_axican {
  ax_id : Z; ax_rd_fd : Z; ax_rd_flags : Z; ax_wr_fd : Z; ax_wr_flags : Z;
  ax_rx_frame : axican_frame; ax_tx_frame : axican_frame; ax_count : Z; ax_w_count : Z
}.

(** The scheduler of the second-pulse broadcast: its configuration, the pending
    wake-ups of the channels, the group counter and the receive gate. *)
Record bcast := mk_bcast {
  g_bcast_cfg : BroadcastSchedulerConfig;
  g_bcast_pending : list Z;
  g_bcast_group_id : Z;
  g_bcast_rx_gate_open : Z;
  g_bcast_rx_gate_until_ms : Z
}.

Definition set_bc_cfg v b :=
  mk_bcast v (g_bcast_pending b) (g_bcast_group_id b) (g_bcast_rx_gate_open b)
    (g_bcast_rx_gate_until_ms b).
Definition set_bc_pending v b :=
  mk_bcast (g_bcast_cfg b) v (g_bcast_group_id b) (g_bcast_rx_gate_open b)
    (g_bcast_rx_gate_until_ms b).
Definition set_bc_group_id v b :=
  mk_bcast (g_bcast_cfg b) (g_bcast_pending b) v (g_bcast_rx_gate_open b)
    (g_bcast_rx_gate_until_ms b).
Definition set_bc_gate open until b :=
  mk_bcast (g_bcast_cfg b) (g_bcast_pending b) (g_bcast_group_id b) open until.

(** The six families of ring buffers. *)
Record buffers := mk_buffers {
  g_data_buf_set : RingBuffer32ChSet;
  g_simulator_buf_set : RingBuffer32ChSet;
  g_pulse_buf_set : RingBuffer32ChSet;
  g_can_buf_set : RingBuffer32ChSet;
  g_poll_buf_set : RingBuffer32ChSet;
  g_bcast_group_buf_set : RingBuffer32ChSet
}.

Inductive buf_name := Data | Simulator | Pulse | CanQueue | PollQueue | BcastGroup.

#[export] Instance buf_name_eq_dec : EqDecision buf_name.
Proof. solve_decision. Defined.

Definition buf_set (n : buf_name) (b : buffers) : RingBuffer32ChSet :=
  match n with
  | Data => g_data_buf_set b | Simulator => g_simulator_buf_set b | Pulse => g_pulse_buf_set b
  | CanQueue => g_can_buf_set b | PollQueue => g_poll_buf_set b
  | BcastGroup => g_bcast_group_buf_set b
  end.

Definition set_buf (n : buf_name) (s : RingBuffer32ChSet) (b : buffers) : buffers :=
  let pick m := if decide (m = n) then s else buf_set m b in
  mk_buffers (pick Data) (pick Simulator) (pick Pulse) (pick CanQueue) (pick PollQueue)
    (pick BcastGroup).

(** ** Mutexes

    The hierarchy of the code: a thread takes mutexes of increasing rank only.
    Taking a mutex at or below one that is held is stuck, so a program that is
    never stuck cannot deadlock on these mutexes. *)
Inductive lock :=
  | download_process_mutex | buffer_mutex | packet_mutex | bcast_state_mutex | bcast_cfg_mutex
  | bcast_rx_gate_mutex | bcast_group_id_mutex | wake_mutex (ch : Z) | can_write_mutex (ch : Z)
  | data_upload_mutex | data_download_mutex | data_counter_mutex | event_sock_mutex
  | tcp_buffer_mutex | along_counter_mutex.

#[export] Instance lock_eq_dec : EqDecision lock.
Proof. solve_decision. Defined.

Definition lock_rank (l : lock) : nat :=
  match l with
  | download_process_mutex => 0
  | buffer_mutex => 1
  | packet_mutex | bcast_state_mutex => 2
  | bcast_cfg_mutex | bcast_rx_gate_mutex | bcast_group_id_mutex | wake_mutex _
  | can_write_mutex _ => 3
  | data_upload_mutex => 4
  | data_download_mutex => 5
  | data_counter_mutex | event_sock_mutex | tcp_buffer_mutex | along_counter_mutex => 6
  end.

(** ** System calls *)

(** The threads the program starts. *)
Inductive thread :=
  | ClientThread (port sock : Z) | ListenThread (port : Z)
  | RecvThread (id : Z) | SendThread (id : Z) | MonitorThread (id : Z) | AlongThread (id : Z)
  | BroadcastThread (id : Z) | DequeueThread1 (id : Z) | DequeueThread2 (id : Z)
  | ReportThread | PpsThread.

#[export] Instance thread_eq_dec : EqDecision thread.
Proof. solve_decision. Defined.

Inductive syscall :=
  | SysSocket
  | SysSetsockopt (sock level name value : Z)
  | SysBind (sock port : Z)
  | SysListen (sock backlog : Z)
  | SysAccept (sock : Z)
  | SysClose (fd : Z)
  | SysOpen (id : Z) (write : bool)
  | SysOpenPps
  | SysThread (t : thread)
  | SysJoin (t : thread)
  | SysDetach (t : thread)
  | SysSend (sock : Z) (data : bytes)
  | SysShutdown (sock : Z)
  | SysIoctlBaud (fd baud : Z)
  | SysIoctlMode (fd mode : Z)
  | SysIoctlCount (fd : Z)
  | SysIoctlFrame (fd : Z)
  | SysIoctlIrqCount (fd : Z)
  | SysRead (fd len : Z)
  | SysWrite (fd : Z) (data : bytes)
  | SysPoll (fd events timeout : Z)
  | SysClock (monotonic : bool)
  | SysTime
  | SysMalloc (size : Z)
  | SysFree
  | SysSignal (ch : Z).

(** The environment: the result of a call, and the memory a call fills in. *)
Class OS := {
  os_ret : list syscall -> syscall -> Z;
  os_data : list syscall -> syscall -> bytes;
  os_clock : list syscall -> bool -> Z * Z
}.

(** ** The state *)

Record world := mk_world {
  w_configs : list CanDeviceConfig;
  w_frame_count : list Z;
  w_axican : list axican;
  event_socket : Z;
  data_upload_socket : Z;
  data_download_socket : Z;
  data_counter : Z;
  can_data_type : Z;
  g_tcp_buffer_used : Z;
  g_tcp_buffer_total : Z;
  along_more_int_couter : Z;
  w_bufs : buffers;
  w_bc : bcast;
  w_held : list lock;
  w_hist : list syscall
}.

Definition set_configs (v : list CanDeviceConfig) (w : world) : world :=
  mk_world v (w_frame_count w) (w_axican w) (event_socket w) (data_upload_socket w)
    (data_download_socket w) (data_counter w) (can_data_type w) (g_tcp_buffer_used w)
    (g_tcp_buffer_total w) (along_more_int_couter w) (w_bufs w) (w_bc w) (w_held w)
    (w_hist w).
Definition set_frame_count (v : list Z) (w : world) : world :=
  mk_world (w_configs w) v (w_axican w) (event_socket w) (data_upload_socket w)
    (data_download_socket w) (data_counter w) (can_data_type w) (g_tcp_buffer_used w)
    (g_tcp_buffer_total w) (along_more_int_couter w) (w_bufs w) (w_bc w) (w_held w)
    (w_hist w).
Definition set_axican (v : list axican) (w : world) : world :=
  mk_world (w_configs w) (w_frame_count w) v (event_socket w) (data_upload_socket w)
    (data_download_socket w) (data_counter w) (can_data_type w) (g_tcp_buffer_used w)
    (g_tcp_buffer_total w) (along_more_int_couter w) (w_bufs w) (w_bc w) (w_held w)
    (w_hist w).
Definition set_event_socket (v : Z) (w : world) : world :=
  mk_world (w_configs w) (w_frame_count w) (w_axican w) v (data_upload_socket w)
    (data_download_socket w) (data_counter w) (can_data_type w) (g_tcp_buffer_used w)
    (g_tcp_buffer_total w) (along_more_int_couter w) (w_bufs w) (w_bc w) (w_held w)
    (w_hist w).
Definition set_data_upload_socket (v : Z) (w : world) : world :=
  mk_world (w_configs w) (w_frame_count w) (w_axican w) (event_socket w) v
    (data_download_socket w) (data_counter w) (can_data_type w) (g_tcp_buffer_used w)
    (g_tcp_buffer_total w) (along_more_int_couter w) (w_bufs w) (w_bc w) (w_held w)
    (w_hist w).
Definition set_data_download_socket (v : Z) (w : world) : world :=
  mk_world (w_configs w) (w_frame_count w) (w_axican w) (event_socket w)
    (data_upload_socket w) v (data_counter w) (can_data_type w) (g_tcp_buffer_used w)
    (g_tcp_buffer_total w) (along_more_int_couter w) (w_bufs w) (w_bc w) (w_held w)
    (w_hist w).
Definition set_data_counter (v : Z) (w : world) : world :=
  mk_world (w_configs w) (w_frame_count w) (w_axican w) (event_socket w)
    (data_upload_socket w) (data_download_socket w) v (can_data_type w)
    (g_tcp_buffer_used w) (g_tcp_buffer_total w) (along_more_int_couter w) (w_bufs w)
    (w_bc w) (w_held w) (w_hist w).
Definition set_can_data_type (v : Z) (w : world) : world :=
  mk_world (w_configs w) (w_frame_count w) (w_axican w) (event_socket w)
    (data_upload_socket w) (data_download_socket w) (data_counter w) v (g_tcp_buffer_used w)
    (g_tcp_buffer_total w) (along_more_int_couter w) (w_bufs w) (w_bc w) (w_held w)
    (w_hist w).
Definition set_g_tcp_buffer_used (v : Z) (w : world) : world :=
  mk_world (w_configs w) (w_frame_count w) (w_axican w) (event_socket w)
    (data_upload_socket w) (data_download_socket w) (data_counter w) (can_data_type w) v
    (g_tcp_buffer_total w) (along_more_int_couter w) (w_bufs w) (w_bc w) (w_held w)
    (w_hist w).
Definition set_g_tcp_buffer_total (v : Z) (w : world) : world :=
  mk_world (w_configs w) (w_frame_count w) (w_axican w) (event_socket w)
    (data_upload_socket w) (data_download_socket w) (data_counter w) (can_data_type w)
    (g_tcp_buffer_used w) v (along_more_int_couter w) (w_bufs w) (w_bc w) (w_held w)
    (w_hist w).
Definition set_along_more_int_couter (v : Z) (w : world) : world :=
  mk_world (w_configs w) (w_frame_count w) (w_axican w) (event_socket w)
    (data_upload_socket w) (data_download_socket w) (data_counter w) (can_data_type w)
    (g_tcp_buffer_used w) (g_tcp_buffer_total w) v (w_bufs w) (w_bc w) (w_held w) (w_hist w).
Definition set_bufs (v : buffers) (w : world) : world :=
  mk_world (w_configs w) (w_frame_count w) (w_axican w) (event_socket w)
    (data_upload_socket w) (data_download_socket w) (data_counter w) (can_data_type w)
    (g_tcp_buffer_used w) (g_tcp_buffer_total w) (along_more_int_couter w) v (w_bc w)
    (w_held w) (w_hist w).
Definition set_bc (v : bcast) (w : world) : world :=
  mk_world (w_configs w) (w_frame_count w) (w_axican w) (event_socket w)
    (data_upload_socket w) (data_download_socket w) (data_counter w) (can_data_type w)
    (g_tcp_buffer_used w) (g_tcp_buffer_total w) (along_more_int_couter w) (w_bufs w) v
    (w_held w) (w_hist w).
Definition set_held (v : list lock) (w : world) : world :=
  mk_world (w_configs w) (w_frame_count w) (w_axican w) (event_socket w)
    (data_upload_socket w) (data_download_socket w) (data_counter w) (can_data_type w)
    (g_tcp_buffer_used w) (g_tcp_buffer_total w) (along_more_int_couter w) (w_bufs w)
    (w_bc w) v (w_hist w).
Definition set_hist (v : list syscall) (w : world) : world :=
  mk_world (w_configs w) (w_frame_count w) (w_axican w) (event_socket w)
    (data_upload_socket w) (data_download_socket w) (data_counter w) (can_data_type w)
    (g_tcp_buffer_used w) (g_tcp_buffer_total w) (along_more_int_couter w) (w_bufs w)
    (w_bc w) (w_held w) v.

Definition add_call (c : syscall) (w : world) : world := set_hist (c :: w_hist w) w.

(** ** Elementary operations *)

Definition lock_free (l : lock) (held : list lock) : bool :=
  forallb (fun l' => (lock_rank l' <? lock_rank l)%nat) held.

Definition mutex_lock (l : lock) : M world unit := fun w =>
  if lock_free l (w_held w) then Some (tt, set_held (l :: w_held w) w) else None.

(** The code releases mutexes in the reverse order of taking them. *)
Definition mutex_unlock (l : lock) : M world unit := fun w =>
  match w_held w with
  | l' :: held => if decide (l' = l) then Some (tt, set_held held w) else None
  | [] => None
  end.

(** Reading and updating an element of a global array. *)
Definition arr_get {A} (f : world -> list A) (i : Z) : M world A := fun w =>
  if i <? 0 then None else a ← f w !! Z.to_nat i; Some (a, w).

Definition arr_upd {A} (f : world -> list A) (set : list A -> world -> world) (i : Z)
    (g : A -> A) : M world unit := fun w =>
  if i <? 0 then None else
  a ← f w !! Z.to_nat i; Some (tt, set (<[Z.to_nat i := g a]> (f w)) w).

Definition config_at (i : Z) : M world CanDeviceConfig := arr_get w_configs i.
Definition config_upd (i : Z) (g : CanDeviceConfig -> CanDeviceConfig) : M world unit :=
  arr_upd w_configs set_configs i g.

(** The channel operations on the global sets. *)
Definition buf_put (n : buf_name) (ch : Z) (data : bytes) (max : Z) : M world Z := fun w =>
  '(r, s) ← ringbuffer_32ch_put (Some (buf_set n (w_bufs w))) ch (Some data) max;
  s ← s; Some (r, set_bufs (set_buf n s (w_bufs w)) w).

Definition buf_get (n : buf_name) (ch : Z) (dst : bytes) (max : Z) : M world (Z * bytes) := fun w =>
  '(r, s, dst') ← ringbuffer_32ch_get (Some (buf_set n (w_bufs w))) ch (Some dst) max;
  s ← s; dst' ← dst'; Some ((r, dst'), set_bufs (set_buf n s (w_bufs w)) w).

Definition buf_avail (n : buf_name) (ch max : Z) : M world Z := fun w =>
  r ← ringbuffer_32ch_avail (Some (buf_set n (w_bufs w))) ch max; Some (r, w).

Definition buf_len (n : buf_name) (ch max : Z) : M world Z := fun w =>
  r ← ringbuffer_32ch_len (Some (buf_set n (w_bufs w))) ch max; Some (r, w).

Definition buf_reset (n : buf_name) (ch max : Z) : M world unit := fun w =>
  s ← ringbuffer_32ch_reset (Some (buf_set n (w_bufs w))) ch max;
  s ← s; Some (tt, set_bufs (set_buf n s (w_bufs w)) w).

Section Sys.
Context `{OS}.

Definition sys (c : syscall) : M world Z := fun w =>
  Some (os_ret (w_hist w) c, add_call c w).

Definition sys_data (c : syscall) : M world (Z * bytes) := fun w =>
  Some ((os_ret (w_hist w) c, os_data (w_hist w) c), add_call c w).

Definition clock_gettime (monotonic : bool) : M world (Z * Z * Z) := fun w =>
  let '(sec, nsec) := os_clock (w_hist w) monotonic in
  Some ((os_ret (w_hist w) (SysClock monotonic), sec, nsec), add_call (SysClock monotonic) w).

(** [(uint64_t)ts.tv_sec * 1000000 + ts.tv_nsec / 1000] *)
Definition timestamp_us (monotonic : bool) : M world Z :=
  (let* (_, sec, nsec) := clock_gettime monotonic in
   ret (u64 (u64 sec * 1000000 + nsec / 1000)))%c.
End Sys.

(** ** Well-formed states *)

Definition buf_chans (n : buf_name) : Z :=
  match n with Data | Simulator | Pulse => 32 | CanQueue | PollQueue | BcastGroup => 6 end.

Definition buf_esize (n : buf_name) : Z :=
  match n with
  | Data => sizeof PC_ARM_DATA_DATA | Simulator => sizeof PC_ARM_SIMULATOR_DATA
  | Pulse => sizeof SecondPulseData | CanQueue | PollQueue => sizeof axican_frame
  | BcastGroup => sizeof_BroadcastFrameGroup
  end.

Definition buf_depth (n : buf_name) : Z :=
  match n with
  | Data => 131072 | Simulator => 32 | Pulse => 2048 | CanQueue | PollQueue => 32768
  | BcastGroup => 16
  end.

Definition bufs_wf (b : buffers) : Prop :=
  forall n, set_wf (buf_set n b) /\ max_channel (buf_set n b) = buf_chans n /\
    elem_size (buf_set n b) = buf_esize n /\ buf_capacity (buf_set n b) = buf_depth n.

Definition config_wf (i : nat) (c : CanDeviceConfig) : Prop :=
  cf_can_id c = Z.of_nat i /\ is_u32 (cf_baud_rate c) /\ is_u8 (cf_mode c) /\
  is_u8 (cf_can_type c) /\ is_u8 (cf_valid c).

Definition configs_wf (l : list CanDeviceConfig) : Prop :=
  length l = 6%nat /\ forall i c, l !! i = Some c -> config_wf i c.

Record sched_wf (c : BroadcastSchedulerConfig) : Prop := {
  sw_poll : 0 <= bs_poll_next_channel c < AXICAN_MAX;
  sw_start : 0 <= bs_start_channel c < AXICAN_MAX;
  sw_group : 0 <= bs_current_group c <= 1;
  sw_active : 0 <= bs_active_mask c < 64;
  sw_a : 0 <= bs_group_a_mask c < 64;
  sw_b : 0 <= bs_group_b_mask c < 64
}.

Record bcast_wf (b : bcast) : Prop := {
  bw_sched : sched_wf (g_bcast_cfg b);
  bw_pending : length (g_bcast_pending b) = 6%nat;
  bw_pending_u32 : Forall is_u32 (g_bcast_pending b);
  bw_group_id : is_u32 (g_bcast_group_id b);
  bw_gate : g_bcast_rx_gate_open b = 0 \/ g_bcast_rx_gate_open b = 1
}.

(** An element of a broadcast queue: a group of 1 to 128 frames. *)
Definition group_ok (g : BroadcastFrameGroup) : Prop :=
  group_wf g /\ 1 <= bg_frame_count g <= BCAST_MAX_FRAMES_PER_GROUP.

Definition groups_wf (b : buffers) : Prop :=
  forall ch, 0 <= ch -> Forall (fun x => exists g, x = group_pack g /\ group_ok g)
                      (chan_queue (buf_set BcastGroup b) ch).

Record world_wf (w : world) : Prop := {
  ww_configs : configs_wf (w_configs w);
  ww_counts : length (w_frame_count w) = 6%nat;
  ww_counts_u32 : Forall is_u32 (w_frame_count w);
  ww_axican : length (w_axican w) = 6%nat;
  ww_counter : is_u16 (data_counter w);
  ww_bufs : bufs_wf (w_bufs w);
  ww_groups : groups_wf (w_bufs w);
  ww_bc : bcast_wf (w_bc w)
}.

(** [extends w w']: the calls of [w'] continue those of [w]. *)
Definition extends (w w' : world) : Prop := exists new, w_hist w' = new ++ w_hist w.

#[export] Instance extends_preorder : PreOrder extends.
Proof.
  split; [by exists []|]. intros w1 w2 w3 [n1 H1] [n2 H2].
  exists (n2 ++ n1). by rewrite H2, H1, app_assoc.
Qed.

(** [net_only w w']: only the sockets, the counters and the list of calls may
    differ; in particular the same mutexes are held. *)
Record net_only (w w' : world) : Prop := {
  no_configs : w_configs w' = w_configs w;
  no_axican : w_axican w' = w_axican w;
  no_download : data_download_socket w' = data_download_socket w;
  no_bufs : w_bufs w' = w_bufs w;
  no_bc : w_bc w' = w_bc w;
  no_held : w_held w' = w_held w;
  no_counts : length (w_frame_count w) = 6%nat -> Forall is_u32 (w_frame_count w) ->
    length (w_frame_count w') = 6%nat /\ Forall is_u32 (w_frame_count w');
  no_counter : is_u16 (data_counter w) -> is_u16 (data_counter w');
  no_extends : extends w w'
}.

#[export] Instance net_only_preorder : PreOrder net_only.
Proof.
  split.
  - intros w. split; auto; reflexivity.
  - intros w1 w2 w3 [] []. split; try congruence; try (by etransitivity); try by auto.
    intros H1 H2. destruct (no_counts0 H1 H2). auto.
Qed.

Lemma net_only_wf w w' : net_only w w' -> world_wf w -> world_wf w'.
Proof.
  intros [Hc Ha Hd Hb Hbc Hh Hn Hdc He] [Hc' Hn1 Hn2 Ha' Hdc' Hb' Hg' Hbc'].
  destruct (Hn Hn1 Hn2). split; rewrite ?Hc, ?Ha, ?Hb, ?Hbc; auto.
Qed.

(** ** Reasoning rules of the elementary operations *)

Lemma wp_lock l (Q : unit -> world -> Prop) w :
  lock_free l (w_held w) = true -> Q tt (set_held (l :: w_held w) w) -> wp (mutex_lock l) Q w.
Proof. intros Hl HQ. unfold wp, mutex_lock. by rewrite Hl. Qed.

Lemma wp_unlock l held (Q : unit -> world -> Prop) w :
  w_held w = l :: held -> Q tt (set_held held w) -> wp (mutex_unlock l) Q w.
Proof. intros Hl HQ. unfold wp, mutex_unlock. rewrite Hl. by rewrite decide_True. Qed.

Lemma mutex_lock_inv l w a w' : mutex_lock l w = Some (a, w') -> exists h, w' = set_held h w.
Proof. unfold mutex_lock. case_match; [|done]. intros [= _ <-]. by eexists. Qed.

Lemma mutex_unlock_inv l w a w' : mutex_unlock l w = Some (a, w') -> exists h, w' = set_held h w.
Proof. unfold mutex_unlock. repeat case_match; try done. intros [= _ <-]. by eexists. Qed.

Lemma mutex_lock_eq l w :
  lock_free l (w_held w) = true -> mutex_lock l w = Some (tt, set_held (l :: w_held w) w).
Proof. intros Hl. unfold mutex_lock. by rewrite Hl. Qed.

Lemma mutex_unlock_eq l held w :
  w_held w = l :: held -> mutex_unlock l w = Some (tt, set_held held w).
Proof. intros Hl. unfold mutex_unlock. rewrite Hl. by rewrite decide_True. Qed.

Lemma set_held_restore held held' w :
  w_held w = held -> set_held held (set_held held' w) = w.
Proof. intros <-. by destruct w. Qed.

Lemma wp_arr_get {A} (f : world -> list A) i a (Q : A -> world -> Prop) w :
  0 <= i -> f w !! Z.to_nat i = Some a -> Q a w -> wp (arr_get f i) Q w.
Proof.
  intros Hi Ha HQ. unfold wp, arr_get. rewrite (proj2 (Z.ltb_ge _ _)) by done. by rewrite Ha.
Qed.

Lemma wp_arr_upd {A} (f : world -> list A) set i g a (Q : unit -> world -> Prop) w :
  0 <= i -> f w !! Z.to_nat i = Some a -> Q tt (set (<[Z.to_nat i := g a]> (f w)) w) ->
  wp (arr_upd f set i g) Q w.
Proof.
  intros Hi Ha HQ. unfold wp, arr_upd. rewrite (proj2 (Z.ltb_ge _ _)) by done. by rewrite Ha.
Qed.

(** The locks below a rank. *)
Definition held_below (n : nat) (w : world) : Prop :=
  Forall (fun l => (lock_rank l < n)%nat) (w_held w).

Lemma lock_free_below l n w :
  held_below n w -> (n <= lock_rank l)%nat -> lock_free l (w_held w) = true.
Proof.
  intros Hb Hn. unfold lock_free. apply forallb_forall. intros l' Hl'.
  apply Nat.ltb_lt. unfold held_below in Hb. rewrite list.Forall_forall in Hb.
  specialize (Hb l'). rewrite list_elem_of_In in Hb. specialize (Hb Hl'). lia.
Qed.

Lemma held_below_mono n m w : (n <= m)%nat -> held_below n w -> held_below m w.
Proof.
  unfold held_below. intros Hnm Hw. eapply list.Forall_impl; [exact Hw|].
  intros l Hl. simpl in Hl. lia.
Qed.

Lemma held_below_eq n w w' : w_held w' = w_held w -> held_below n w -> held_below n w'.
Proof. unfold held_below. by intros ->. Qed.

(** The queues of the global buffers. *)
Definition buf_queue (n : buf_name) (ch : Z) (b : buffers) : list bytes :=
  chan_queue (buf_set n b) ch.

(** Only the queue of channel [ch] of [n] may differ. *)
Definition bufs_only (n : buf_name) (ch : Z) (b b' : buffers) : Prop :=
  forall m c, 0 <= c -> (m, c) <> (n, ch) -> buf_queue m c b' = buf_queue m c b.

#[export] Instance bufs_only_preorder n ch : PreOrder (bufs_only n ch).
Proof.
  split; [by intros b m c|]. intros b1 b2 b3 H1 H2 m c Hc Hne.
  by rewrite H2, H1.
Qed.

Lemma buf_set_same n s b : buf_set n (set_buf n s b) = s.
Proof. by destruct n. Qed.

Lemma buf_set_other n m s b : m <> n -> buf_set m (set_buf n s b) = buf_set m b.
Proof. by destruct n, m. Qed.

Lemma set_buf_wf n s s' b :
  bufs_wf b -> s = buf_set n b -> set_wf s' -> same_shape s s' -> bufs_wf (set_buf n s' b).
Proof.
  intros Hb -> Hs' (Hm & He & Hc) m. destruct (Hb n) as (_ & Hm' & He' & Hc').
  destruct (decide (m = n)) as [->|Hne].
  - rewrite buf_set_same. split_and!; [done | congruence..].
  - rewrite buf_set_other by done. apply Hb.
Qed.

Lemma set_buf_only n ch s s' b :
  s = buf_set n b -> others_kept ch s s' -> bufs_only n ch b (set_buf n s' b).
Proof.
  intros -> Hk m c Hc Hne. unfold buf_queue. destruct (decide (m = n)) as [->|Hm].
  - rewrite buf_set_same. apply Hk; [done | congruence].
  - by rewrite buf_set_other.
Qed.

(** A channel the caller may use: below its own limit and below the size of the
    set. *)
Definition buf_chan_ok (n : buf_name) (ch max : Z) : bool := (ch <? max) && (ch <? buf_chans n).

Lemma chan_ok_buf n ch max b :
  bufs_wf b -> chan_ok (buf_set n b) ch max = buf_chan_ok n ch max.
Proof. intros Hb. unfold chan_ok, buf_chan_ok. by destruct (Hb n) as (_ & -> & _). Qed.

Lemma wp_buf_put n ch data max (Q : Z -> world -> Prop) w :
  bufs_wf (w_bufs w) -> 0 <= ch -> buf_esize n <= zlen data ->
  (forall r b', bufs_wf b' -> bufs_only n ch (w_bufs w) b' ->
     (r, buf_queue n ch b') =
       (if buf_chan_ok n ch max
        then Fifo.put (buf_depth n) (buf_queue n ch (w_bufs w)) (take (Z.to_nat (buf_esize n)) data)
        else (0, buf_queue n ch (w_bufs w))) ->
     Q r (set_bufs b' w)) ->
  wp (buf_put n ch data max) Q w.
Proof.
  intros Hb Hch Hd HQ. destruct (Hb n) as (Hwf & Hm & He & Hc).
  destruct (put_spec (buf_set n (w_bufs w)) ch data max) as (r & s' & Hput & Hwf' & Hsh & Hoth & Hq);
    [done | done | by rewrite He |].
  unfold wp, buf_put. rewrite Hput. simpl. apply HQ.
  - by eapply set_buf_wf.
  - by eapply set_buf_only.
  - rewrite chan_ok_buf, He, Hc in Hq by done. unfold buf_queue at 1. by rewrite buf_set_same.
Qed.

Lemma wp_buf_get n ch dst max (Q : Z * bytes -> world -> Prop) w :
  bufs_wf (w_bufs w) -> 0 <= ch -> buf_esize n <= zlen dst ->
  (forall r dst' b', bufs_wf b' -> bufs_only n ch (w_bufs w) b' ->
     match (if buf_chan_ok n ch max then buf_queue n ch (w_bufs w) else []) with
     | x :: q' => r = 1 /\ buf_queue n ch b' = q' /\ zlen x = buf_esize n /\
                  dst' = x ++ drop (Z.to_nat (buf_esize n)) dst
     | [] => r = 0 /\ buf_queue n ch b' = buf_queue n ch (w_bufs w) /\ dst' = dst
     end ->
     Q (r, dst') (set_bufs b' w)) ->
  wp (buf_get n ch dst max) Q w.
Proof.
  intros Hb Hch Hd HQ. destruct (Hb n) as (Hwf & Hm & He & Hc).
  destruct (get_spec (buf_set n (w_bufs w)) ch dst max)
    as (r & s' & dst' & Hget & Hwf' & Hsh & Hoth & Hq); [done | done | by rewrite He |].
  unfold wp, buf_get. rewrite Hget. simpl. apply HQ.
  - by eapply set_buf_wf.
  - by eapply set_buf_only.
  - rewrite chan_ok_buf, He in Hq by done. unfold buf_queue. by rewrite buf_set_same.
Qed.

Lemma wp_buf_avail n ch max (Q : Z -> world -> Prop) w :
  bufs_wf (w_bufs w) -> 0 <= ch ->
  Q (if buf_chan_ok n ch max then buf_depth n - zlen (buf_queue n ch (w_bufs w)) else 0) w ->
  wp (buf_avail n ch max) Q w.
Proof.
  intros Hb Hch HQ. destruct (Hb n) as (Hwf & Hm & He & Hc).
  unfold wp, buf_avail. rewrite avail_spec, chan_ok_buf by done. simpl. by rewrite Hc.
Qed.

Lemma wp_buf_len n ch max (Q : Z -> world -> Prop) w :
  bufs_wf (w_bufs w) -> 0 <= ch ->
  Q (if buf_chan_ok n ch max then zlen (buf_queue n ch (w_bufs w)) else 0) w ->
  wp (buf_len n ch max) Q w.
Proof.
  intros Hb Hch HQ. destruct (Hb n) as (Hwf & Hm & He & Hc).
  unfold wp, buf_len. by rewrite len_spec, chan_ok_buf by done.
Qed.

Lemma wp_buf_reset n ch max (Q : unit -> world -> Prop) w :
  bufs_wf (w_bufs w) -> 0 <= ch ->
  (forall b', bufs_wf b' -> bufs_only n ch (w_bufs w) b' ->
     buf_queue n ch b' = (if buf_chan_ok n ch max then [] else buf_queue n ch (w_bufs w)) ->
     Q tt (set_bufs b' w)) ->
  wp (buf_reset n ch max) Q w.
Proof.
  intros Hb Hch HQ. destruct (Hb n) as (Hwf & Hm & He & Hc).
  destruct (reset_spec (buf_set n (w_bufs w)) ch max) as (s' & Hr & Hwf' & Hsh & Hoth & Hq);
    [done | done |].
  unfold wp, buf_reset. rewrite Hr. simpl. apply HQ.
  - by eapply set_buf_wf.
  - by eapply set_buf_only.
  - rewrite chan_ok_buf in Hq by done. unfold buf_queue at 1. by rewrite buf_set_same.
Qed.

(** A change of one queue other than a broadcast queue. *)
Lemma set_bufs_wf n ch b w :
  n <> BcastGroup -> world_wf w -> bufs_wf b -> bufs_only n ch (w_bufs w) b -> world_wf (set_bufs b w).
Proof.
  intros Hn Hwf Hb Ho. pose proof (ww_groups _ Hwf) as Hg. destruct Hwf. split; try done.
  intros c Hc. change (chan_queue (buf_set BcastGroup (w_bufs (set_bufs b w))) c)
    with (buf_queue BcastGroup c b).
  rewrite (Ho BcastGroup c Hc) by congruence. by apply Hg.
Qed.

Section SysRules.
Context `{OS}.

Lemma wp_sys c (Q : Z -> world -> Prop) w :
  Q (os_ret (w_hist w) c) (add_call c w) -> wp (sys c) Q w.
Proof. done. Qed.

Lemma wp_sys_data c (Q : Z * bytes -> world -> Prop) w :
  Q (os_ret (w_hist w) c, os_data (w_hist w) c) (add_call c w) -> wp (sys_data c) Q w.
Proof. done. Qed.

Lemma wp_clock m (Q : Z * Z * Z -> world -> Prop) w :
  Q (os_ret (w_hist w) (SysClock m), (os_clock (w_hist w) m).1, (os_clock (w_hist w) m).2)
    (add_call (SysClock m) w) -> wp (clock_gettime m) Q w.
Proof. unfold wp, clock_gettime. by destruct (os_clock _ _). Qed.

(** The time stamp the next reading of the clock gives. *)
Definition time_us (m : bool) (w : world) : Z :=
  u64 (u64 (os_clock (w_hist w) m).1 * 1000000 + (os_clock (w_hist w) m).2 / 1000).

Lemma wp_timestamp_us m (Q : Z -> world -> Prop) w :
  Q (time_us m w) (add_call (SysClock m) w) -> wp (timestamp_us m) Q w.
Proof. intros HQ. apply wp_bind, wp_clock, wp_ret, HQ. Qed.
End SysRules.

(** One step of the symbolic execution of a handler. *)
Ltac w_step :=
  lazymatch goal with
  | |- wp (mutex_lock _) _ _ => apply wp_lock; [| simpl]
  | |- wp (mutex_unlock _) _ _ => eapply wp_unlock; [by eauto | simpl]
  | |- wp (sys _) _ _ => apply wp_sys
  | |- wp (timestamp_us _) _ _ => apply wp_timestamp_us
  | _ => wp_step
  end.

(** ** A concrete state

    The gateway after its initialisation: six configured, closed channels and
    empty buffers of the capacities [main] asks for. *)

Definition empty_ring (es cap : Z) : ring_buffer_t :=
  {| rb_data := Some (1%positive, replicate (Z.to_nat (cap * es)) x00);
     rb_in := 0; rb_out := 0; rb_mask := cap - 1; rb_esize := es |}.

Definition empty_set (n : buf_name) : RingBuffer32ChSet :=
  mk_set (Some (1%positive, replicate (Z.to_nat (buf_chans n))
                              (Some (1%positive, empty_ring (buf_esize n) (buf_depth n)))))
    (buf_chans n) (buf_esize n) (buf_depth n).

Definition empty_buffers : buffers :=
  mk_buffers (empty_set Data) (empty_set Simulator) (empty_set Pulse) (empty_set CanQueue)
    (empty_set PollQueue) (empty_set BcastGroup).

Definition no_schedule : BroadcastSchedulerConfig := mk_sched 0 0 0 0 0 0 0 0 0 0.

Definition zero_frame : axican_frame := mk_axican_frame 0 0 0 0 0.

Definition boot_world : world := {|
  w_configs := (fun i => mk_config (Z.of_nat i) 500000 4 2 1 CAN_STATE_CLOSED) <$> seq 0 6;
  w_frame_count := replicate 6 0;
  w_axican := (fun i => mk_axican (Z.of_nat i) (3 + 2 * Z.of_nat i) 1 (4 + 2 * Z.of_nat i) 0
                          zero_frame zero_frame 0 0) <$> seq 0 6;
  event_socket := -1; data_upload_socket := -1; data_download_socket := -1; data_counter := 0;
  can_data_type := 0; g_tcp_buffer_used := 0; g_tcp_buffer_total := BUFFER_SIZE_1;
  along_more_int_couter := 0; w_bufs := empty_buffers;
  w_bc := mk_bcast no_schedule (replicate 6 0) 0 0 0;
  w_held := []; w_hist := []
|}.

Lemma empty_ring_wf es k :
  0 <= k < 32 -> 0 < es -> 2 ^ k * es < 2 ^ 32 -> rb_wf (empty_ring es (2 ^ k)).
Proof.
  intros Hk Hes Hb. pose proof (Z.pow_pos_nonneg 2 k ltac:(lia) ltac:(lia)).
  split; simpl; rewrite ?Z.sub_add; try (unfold in_range; lia); try done.
  - exists k. lia.
  - eexists _, _. split; [done|]. zlen_simpl. nia.
  - change (u32 (0 - 0)) with 0. lia.
Qed.

Lemma buf_shape n :
  exists k, 0 <= k < 32 /\ buf_depth n = 2 ^ k /\ 0 < buf_esize n /\
    2 ^ k * buf_esize n < 2 ^ 32 /\ 0 < buf_chans n.
Proof.
  destruct n; simpl;
    [exists 17 | exists 5 | exists 11 | exists 15 | exists 15 | exists 4];
    split_and!; done.
Qed.

Lemma empty_buffers_wf : bufs_wf empty_buffers.
Proof.
  intros n. assert (buf_set n empty_buffers = empty_set n) as -> by by destruct n.
  split_and!; try done.
  destruct (buf_shape n) as (k & Hk & Hd & He & Hb & Hc).
  eexists _, _. split; [done|]. split; [simpl; zlen_simpl; lia|].
  apply Forall_replicate. eexists _, _. split; [done|].
  split; [rewrite Hd; by apply empty_ring_wf|]. simpl. split; [done | lia].
Qed.

Lemma empty_buffers_queue n ch : buf_queue n ch empty_buffers = [].
Proof.
  unfold buf_queue. assert (buf_set n empty_buffers = empty_set n) as -> by by destruct n.
  unfold chan_queue, channel_at, empty_set. cbn [channels mbind option_bind].
  destruct (lookup_lt_is_Some (replicate (Z.to_nat (buf_chans n))
    (Some (1%positive, empty_ring (buf_esize n) (buf_depth n)))) (Z.to_nat ch)) as [H1 H2].
  destruct (replicate _ _ !! _) as [p|] eqn:E; [|done].
  apply lookup_replicate in E as [-> _]. done.
Qed.

Lemma zero_u32s : Forall is_u32 (replicate 6 0).
Proof. by apply Forall_replicate. Qed.

Lemma boot_world_wf : world_wf boot_world.
Proof.
  split; simpl; try done.
  - split; [done|]. intros i c Hc. do 6 (destruct i as [|i]; [injection Hc as <-; done|]). done.
  - apply zero_u32s.
  - apply empty_buffers_wf.
  - intros ch _. fold (buf_queue BcastGroup ch empty_buffers). by rewrite empty_buffers_queue.
  - split; simpl; try done; [apply zero_u32s | by left].
Qed.

Lemma boot_world_held n : held_below n boot_world.
Proof. constructor. Qed.

(** Clients reason through the rules. *)
#[global] Opaque mutex_lock mutex_unlock.
#[global] Arguments arr_get : simpl never.
#[global] Arguments arr_upd : simpl never.
#[global] Arguments buf_put : simpl never.
#[global] Arguments buf_get : simpl never.
#[global] Arguments buf_avail : simpl never.
#[global] Arguments buf_len : simpl never.
#[global] Arguments buf_reset : simpl never.
