(* ===== verification/Upload.v ===== *)
(** * Replies, status frames and events
    ([src/main18.c], [send_event] to [send_can_transmit_response] and the
    senders of the command replies).

    Each function takes its mutex, looks at its socket, builds one packet and
    sends it; a send that is not complete shuts the socket down and withdraws
    it.  The equations give the packet, the system calls and the state left on
    every branch. *)
From S2P Require Import Prelude Words Layout World.
From Stdlib Require Import (notations) String.

Abbreviation str s := (String.list_byte_of_string s%string).

Section Upload.
Context `{OS}.
#[local] Open Scope c_scope.

(** ** Sending on the three sockets *)

(** [send(data_upload_socket, ...)] with the treatment of an incomplete send
    that every reply function repeats. *)
Definition upload_send (data : bytes) : M world unit :=
  let* sock := gets data_upload_socket in
  let* sent := sys (SysSend sock data) in
  if negb (sent =? zlen data) then
    let* sock := gets data_upload_socket in
    let* _ := sys (SysShutdown sock) in
    modify (set_data_upload_socket (-1))
  else ret tt.

(** ** Events, port 9011 *)

(** [strncpy(description, msg, 63)] into 64 zeroed bytes. *)
Definition event_description (msg : bytes) : bytes :=
  take 63 (msg ++ replicate 63 x00) ++ [x00].

Definition event_packet (level : EventLevel) (id : EventID) (us : Z) (msg : bytes) : EventPacket :=
  let event := {| ev_sync_word := EVNET_SYNC_WORD; ev_data_len := sizeof EventPacket;
                  ev_event_level := EventLevel_Z level; ev_event_id := EventID_Z id;
                  ev_timestamp := u16 us; ev_checksum := 0;
                  ev_description := event_description msg |} in
  {| ev_sync_word := ev_sync_word event; ev_data_len := ev_data_len event;
     ev_event_level := ev_event_level event; ev_event_id := ev_event_id event;
     ev_timestamp := ev_timestamp event;
     ev_checksum := u16 (calculate_xor_checksum (pack event) (psize (A := EventPacket) - 2));
     ev_description := ev_description event |}.

Definition send_event (level : EventLevel) (id : EventID) (msg : bytes) : M world unit :=
  mutex_lock event_sock_mutex ;;
  let* sock := gets event_socket in
  if sock =? -1 then mutex_unlock event_sock_mutex else
  let* us := timestamp_us true in
  let event := event_packet level id us msg in
  let* sock := gets event_socket in
  let* sent := sys (SysSend sock (pack event)) in
  (if negb (sent =? sizeof EventPacket) then
     let* sock := gets event_socket in
     let* _ := sys (SysShutdown sock) in
     modify (set_event_socket (-1))
   else ret tt) ;;
  mutex_unlock event_sock_mutex.

(** ** The accounting of the TCP buffer *)

Definition adjust_tcp_buffer_total (new_total : Z) : M world Z :=
  mutex_lock tcp_buffer_mutex ;;
  let* used := gets g_tcp_buffer_used in
  if new_total <? used then mutex_unlock tcp_buffer_mutex ;; ret (-1) else
  modify (set_g_tcp_buffer_total new_total) ;;
  mutex_unlock tcp_buffer_mutex ;; ret 0.

Definition update_tcp_buffer_usage (n : Z) : M world unit :=
  mutex_lock tcp_buffer_mutex ;;
  (if n >? 0 then
     let* used := gets g_tcp_buffer_used in
     modify (set_g_tcp_buffer_used (u32 (used + n))) ;;
     let* used := gets g_tcp_buffer_used in
     when (used >? BUFFER_SIZE) (modify (set_g_tcp_buffer_used BUFFER_SIZE))
   else if n <? 0 then
     let processed := u32 (- n) in
     let* used := gets g_tcp_buffer_used in
     if used >=? processed then modify (set_g_tcp_buffer_used (u32 (used - processed)))
     else modify (set_g_tcp_buffer_used 0)
   else ret tt) ;;
  mutex_unlock tcp_buffer_mutex.

(** ** Command replies, port 9010 *)

(** A reply with its checksum over the first [len] bytes. *)
Definition response_checksum (r : CAN_Send_Response) (len : nat) : CAN_Send_Response :=
  {| sr_HEAD := sr_HEAD r; sr_LENGTH := sr_LENGTH r; sr_COUNT := sr_COUNT r;
     sr_COMMOND := sr_COMMOND r; sr_Checksum := calculate_xor_checksum (pack r) len;
     sr_STATUS := sr_STATUS r |}.

Definition response_status (r : CAN_Send_Response) (status : Z) : CAN_Send_Response :=
  {| sr_HEAD := sr_HEAD r; sr_LENGTH := sr_LENGTH r; sr_COUNT := sr_COUNT r;
     sr_COMMOND := sr_COMMOND r; sr_Checksum := sr_Checksum r; sr_STATUS := status |}.

Definition send_can_config_response (can_id status : Z) : M world unit :=
  mutex_lock data_upload_mutex ;;
  let* sock := gets data_upload_socket in
  if sock =? -1 then mutex_unlock data_upload_mutex else
  modify (fun w => set_data_counter (u16 (data_counter w + 1)) w) ;;
  let* counter := gets data_counter in
  let response := {| sr_HEAD := reverse_4bytes ACK_SYNC_WORD;
                     sr_LENGTH := reverse_4bytes (sizeof CAN_Send_Response);
                     sr_COUNT := counter; sr_COMMOND := htons 0x0101;
                     sr_Checksum := 0; sr_STATUS := 0 |} in
  let response := response_checksum response (psize (A := CAN_Send_Response) - 4) in
  let response := response_status response status in
  upload_send (pack response) ;;
  mutex_unlock data_upload_mutex.

Definition send_can_info_response (devices : list CanConfigParam) (total_count : Z)
    : M world unit :=
  mutex_lock data_upload_mutex ;;
  let* sock := gets data_upload_socket in
  if sock =? -1 then mutex_unlock data_upload_mutex else
  let response_size := sizeof CAN_Send_Response_r + total_count * sizeof CanConfigParam in
  let* response := sys (SysMalloc response_size) in
  if response =? 0 then mutex_unlock data_upload_mutex else
  mutex_lock data_counter_mutex ;;
  modify (fun w => set_data_counter (u16 (data_counter w + 1)) w) ;;
  let* counter := gets data_counter in
  mutex_unlock data_counter_mutex ;;
  let* body := of_option (mem_read 0 (total_count * sizeof CanConfigParam) (devices ≫= pack)) in
  let header c := {| rr_HEAD := reverse_4bytes ACK_SYNC_WORD;
                     rr_LENGTH := reverse_4bytes (u32 response_size);
                     rr_COUNT := counter; rr_COMMOND := reverse_2bytes 0x0102;
                     rr_Checksum := c |} in
  let checksum := calculate_xor_checksum (pack (header 0) ++ body)
                    (Z.to_nat (response_size - 4)) in
  let data := pack (header checksum) ++ body in
  let* sock := gets data_upload_socket in
  let* sent := sys (SysSend sock data) in
  (if sent =? -1 then
     let* sock := gets data_upload_socket in
     let* _ := sys (SysShutdown sock) in
     modify (set_data_upload_socket (-1))
   else if negb (sent =? response_size) then
     let* sock := gets data_upload_socket in
     let* _ := sys (SysShutdown sock) in
     modify (set_data_upload_socket (-1))
   else ret tt) ;;
  let* _ := sys SysFree in
  mutex_unlock data_upload_mutex.

Definition send_can_send_response (response : CAN_Send_Response) : M world unit :=
  mutex_lock data_upload_mutex ;;
  let* sock := gets data_upload_socket in
  if sock =? -1 then mutex_unlock data_upload_mutex else
  upload_send (pack response) ;;
  mutex_unlock data_upload_mutex.

Definition send_start_stop_response (status : Z) : M world unit :=
  let* counter := gets data_counter in
  modify (fun w => set_data_counter (u16 (data_counter w + 1)) w) ;;
  let response := {| sr_HEAD := reverse_4bytes ACK_SYNC_WORD;
                     sr_LENGTH := reverse_4bytes (sizeof CAN_Send_Response);
                     sr_COUNT := counter; sr_COMMOND := htons 0x0103;
                     sr_Checksum := 0; sr_STATUS := status |} in
  send_can_send_response (response_checksum response (psize (A := CAN_Send_Response) - 4)).

Definition send_broadcast_config_response (status : Z) : M world unit :=
  mutex_lock data_counter_mutex ;;
  modify (fun w => set_data_counter (u16 (data_counter w + 1)) w) ;;
  let* counter := gets data_counter in
  mutex_unlock data_counter_mutex ;;
  let response := {| sr_HEAD := reverse_4bytes ACK_SYNC_WORD;
                     sr_LENGTH := reverse_4bytes (sizeof CAN_Send_Response);
                     sr_COUNT := counter; sr_COMMOND := htons 0x0104;
                     sr_Checksum := 0; sr_STATUS := status |} in
  send_can_send_response (response_checksum response (psize (A := CAN_Send_Response) - 4)).

Definition send_version_query_response (req_counter version : Z) : M world unit :=
  mutex_lock data_upload_mutex ;;
  let* sock := gets data_upload_socket in
  if sock =? -1 then mutex_unlock data_upload_mutex else
  let response c v := {| vr_HEAD := reverse_4bytes ACK_SYNC_WORD;
                         vr_LENGTH := reverse_4bytes 4;
                         vr_COUNT := req_counter; vr_COMMOND := htons 0xFF05;
                         vr_Checksum := c; vr_version := v |} in
  let checksum := calculate_xor_checksum (pack (response 0 0)) (4 + 4 + 2 + 2) in
  let response := response checksum (reverse_4bytes version) in
  upload_send (pack response) ;;
  mutex_unlock data_upload_mutex.

(** ** Transmit status frames, port 9010 *)

Definition status_checksum (r : ARM_PC_STATUS_DATA) (len : nat) : ARM_PC_STATUS_DATA :=
  {| st_PC_arm_head := st_PC_arm_head r; st_PC_arm_length := st_PC_arm_length r;
     st_PC_arm_conter := st_PC_arm_conter r; st_PC_arm_commond := st_PC_arm_commond r;
     st_pc_arm_check := st_pc_arm_check r; st_pc_arm_chind := st_pc_arm_chind r;
     st_head := st_head r; st_direction := st_direction r; st_type := st_type r;
     st_length := st_length r; st_ch_id := st_ch_id r; st_total_count := st_total_count r;
     st_ch_count := st_ch_count r; st_idr := st_idr r; st_drcr := st_drcr r;
     st_dw1r := st_dw1r r; st_dw2r := st_dw2r r; st_states := st_states r;
     st_xor_states := st_xor_states r; st_reserved2 := st_reserved2 r;
     st_timestamp := st_timestamp r;
     st_xor_checksum := calculate_xor_checksum (pack r) len |}.

(** The next value of a per-channel frame counter. *)
Definition next_count (c : Z) : Z := if c =? 0xFFFFFFFF then 0 else u32 (c + 1).

Definition transmit_packet (can_id type status : Z) (frame : axican_frame)
    (counter ch_count us : Z) : ARM_PC_STATUS_DATA :=
  status_checksum
    {| st_PC_arm_head := PC_ARM_STATUS_WORD;
       st_PC_arm_length := reverse_4bytes (sizeof ARM_PC_STATUS_DATA - 20);
       st_PC_arm_conter := 0; st_PC_arm_commond := 0; st_pc_arm_check := 0;
       st_pc_arm_chind := reverse_4bytes can_id; st_head := PC_STATUS_HEAD;
       st_direction := 1; st_type := type; st_length := 0x30; st_ch_id := can_id;
       st_total_count := if counter =? 0xFFFFFFFF then 0 else counter + 1;
       st_ch_count := ch_count; st_idr := fr_can_id frame; st_drcr := fr_can_dlc frame;
       st_dw1r := fr_data0 frame; st_dw2r := fr_data1 frame; st_states := status;
       st_xor_states := status; st_reserved2 := 0; st_timestamp := us;
       st_xor_checksum := 0 |}
    (psize (A := ARM_PC_STATUS_DATA) - 4).

Definition send_can_transmit_response (can_id type status : Z) (frame : axican_frame)
    : M world unit :=
  mutex_lock data_upload_mutex ;;
  let* sock := gets data_upload_socket in
  if sock =? -1 then mutex_unlock data_upload_mutex else
  let* counter := gets data_counter in
  arr_upd w_frame_count set_frame_count can_id next_count ;;
  let* ch_count := arr_get w_frame_count can_id in
  let* us := timestamp_us false in
  let response := transmit_packet can_id type status frame counter ch_count us in
  upload_send (pack response) ;;
  mutex_unlock data_upload_mutex.
End Upload.

(** ** What the functions compute *)

Section UploadSpec.
Context `{OS}.

(** The state after a send on the upload socket. *)
Definition upload_result (data : bytes) (w : world) : world :=
  let sock := data_upload_socket w in
  let w1 := add_call (SysSend sock data) w in
  if os_ret (w_hist w) (SysSend sock data) =? zlen data then w1
  else set_data_upload_socket (-1) (add_call (SysShutdown sock) w1).

Lemma upload_send_eq data w : upload_send data w = Some (tt, upload_result data w).
Proof.
  unfold upload_send, upload_result, bind, gets, sys, modify, ret. simpl.
  by destruct (_ =? _).
Qed.

Lemma upload_result_held data held w :
  upload_result data (set_held held w) = set_held held (upload_result data w).
Proof. unfold upload_result. destruct w. simpl. by destruct (_ =? _). Qed.

Lemma w_held_upload_result data w : w_held (upload_result data w) = w_held w.
Proof. unfold upload_result. destruct w. simpl. by destruct (_ =? _). Qed.

(** A reply function: under the upload mutex, nothing without a client, else
    [body]. *)
Lemma upload_section (body : M world unit) w w' :
  lock_free data_upload_mutex (w_held w) = true ->
  (data_upload_socket w <> -1 ->
   body (set_held (data_upload_mutex :: w_held w) w) =
     Some (tt, set_held (data_upload_mutex :: w_held w) w')) ->
  w_held w' = w_held w ->
  (bind (mutex_lock data_upload_mutex) (fun _ =>
   bind (gets data_upload_socket) (fun sock =>
   if sock =? -1 then mutex_unlock data_upload_mutex else
   bind body (fun _ => mutex_unlock data_upload_mutex)))) w =
  Some (tt, if data_upload_socket w =? -1 then w else w').
Proof.
  intros Hl Hbody Hh. unfold bind at 1. rewrite mutex_lock_eq by done.
  unfold bind at 1, gets. simpl.
  destruct (Z.eqb_spec (data_upload_socket w) (-1)).
  - rewrite (mutex_unlock_eq _ (w_held w)) by done. by destruct w.
  - unfold bind. rewrite Hbody by done.
    rewrite (mutex_unlock_eq _ (w_held w)) by done. simpl. do 2 f_equal.
    by apply set_held_restore.
Qed.

Lemma send_can_send_response_eq r w :
  lock_free data_upload_mutex (w_held w) = true ->
  send_can_send_response r w =
    Some (tt, if data_upload_socket w =? -1 then w else upload_result (pack r) w).
Proof.
  intros Hl. apply upload_section; [done | intros _ | apply w_held_upload_result].
  by rewrite upload_send_eq, upload_result_held.
Qed.

(** The replies of the protocol: big-endian head, length and command, the
    counter in the byte order of the target, the checksum over the first
    sixteen bytes while the checksum and status fields are still zero. *)
Definition command_reply (command counter status : Z) : CAN_Send_Response :=
  let r := {| sr_HEAD := reverse_4bytes ACK_SYNC_WORD; sr_LENGTH := reverse_4bytes 20;
              sr_COUNT := counter; sr_COMMOND := htons command; sr_Checksum := 0;
              sr_STATUS := 0 |} in
  response_status (response_checksum r 16) status.

Definition count_up (w : world) : world := set_data_counter (u16 (data_counter w + 1)) w.

(** The checksum does not cover the status. *)
Lemma command_reply_status command counter status :
  response_checksum {| sr_HEAD := reverse_4bytes ACK_SYNC_WORD; sr_LENGTH := reverse_4bytes 20;
                       sr_COUNT := counter; sr_COMMOND := htons command; sr_Checksum := 0;
                       sr_STATUS := status |} 16 = command_reply command counter status.
Proof.
  unfold command_reply, response_checksum, response_status. simpl. f_equal.
Qed.

Lemma send_can_config_response_eq can_id status w :
  lock_free data_upload_mutex (w_held w) = true ->
  send_can_config_response can_id status w =
    Some (tt, if data_upload_socket w =? -1 then w else
              upload_result (pack (command_reply 0x0101 (u16 (data_counter w + 1)) status))
                (count_up w)).
Proof.
  intros Hl. unfold send_can_config_response.
  unfold bind at 1. rewrite mutex_lock_eq by done.
  unfold bind at 1, gets. simpl.
  destruct (Z.eqb_spec (data_upload_socket w) (-1)).
  - rewrite (mutex_unlock_eq _ (w_held w)) by done. by destruct w.
  - unfold bind, modify. rewrite upload_send_eq. simpl.
    rewrite (mutex_unlock_eq _ (w_held w)) by (by rewrite w_held_upload_result).
    f_equal. f_equal.
    change (set_data_counter _ (set_held ?h w)) with (set_held h (count_up w)).
    rewrite upload_result_held. apply set_held_restore.
    by rewrite w_held_upload_result.
Qed.
Lemma send_start_stop_response_eq status w :
  lock_free data_upload_mutex (w_held w) = true ->
  send_start_stop_response status w =
    Some (tt, if data_upload_socket w =? -1 then count_up w else
              upload_result (pack (command_reply 0x0103 (data_counter w) status)) (count_up w)).
Proof.
  intros Hl. unfold send_start_stop_response, bind, gets, modify.
  rewrite send_can_send_response_eq by done.
  change (sizeof CAN_Send_Response) with 20.
  change (psize (A := CAN_Send_Response) - 4)%nat with 16%nat.
  by rewrite command_reply_status.
Qed.

Lemma send_broadcast_config_response_eq status w :
  held_below 4 w ->
  send_broadcast_config_response status w =
    Some (tt, if data_upload_socket w =? -1 then count_up w else
              upload_result (pack (command_reply 0x0104 (u16 (data_counter w + 1)) status))
                (count_up w)).
Proof.
  intros Hl. unfold send_broadcast_config_response.
  unfold bind at 1. rewrite mutex_lock_eq by (eapply lock_free_below; [done | simpl; lia]).
  unfold bind, gets, modify. rewrite (mutex_unlock_eq _ (w_held w)) by done.
  change (set_held (w_held w) _) with
    (set_held (w_held w) (set_held (data_counter_mutex :: w_held w) (count_up w))).
  rewrite set_held_restore by done.
  rewrite send_can_send_response_eq by (eapply lock_free_below; [done | simpl; lia]).
  change (sizeof CAN_Send_Response) with 20.
  change (psize (A := CAN_Send_Response) - 4)%nat with 16%nat.
  by rewrite command_reply_status.
Qed.

Definition version_reply (req_counter version : Z) : VersionQueryResponse :=
  let r c v := {| vr_HEAD := reverse_4bytes ACK_SYNC_WORD; vr_LENGTH := reverse_4bytes 4;
                  vr_COUNT := req_counter; vr_COMMOND := htons 0xFF05;
                  vr_Checksum := c; vr_version := v |} in
  r (calculate_xor_checksum (pack (r 0 0)) 12) (reverse_4bytes version).

Lemma send_version_query_response_eq req_counter version w :
  lock_free data_upload_mutex (w_held w) = true ->
  send_version_query_response req_counter version w =
    Some (tt, if data_upload_socket w =? -1 then w else
              upload_result (pack (version_reply req_counter version)) w).
Proof.
  intros Hl. apply (upload_section (upload_send _)); [done | intros _ | apply w_held_upload_result].
  rewrite upload_send_eq, upload_result_held. done.
Qed.

(** The state after an event. *)
Definition event_result (level : EventLevel) (id : EventID) (msg : bytes) (w : world) : world :=
  if event_socket w =? -1 then w else
  let w1 := add_call (SysClock true) w in
  let data := pack (event_packet level id (time_us true w) msg) in
  let w2 := add_call (SysSend (event_socket w) data) w1 in
  if os_ret (w_hist w1) (SysSend (event_socket w) data) =? 84 then w2
  else set_event_socket (-1) (add_call (SysShutdown (event_socket w)) w2).

Lemma w_held_event_result level id msg w : w_held (event_result level id msg w) = w_held w.
Proof. unfold event_result. destruct w. simpl. by repeat case_match. Qed.

Lemma send_event_eq level id msg w :
  lock_free event_sock_mutex (w_held w) = true ->
  send_event level id msg w = Some (tt, event_result level id msg w).
Proof.
  intros Hl. unfold send_event, event_result.
  unfold bind at 1. rewrite mutex_lock_eq by done. unfold bind at 1, gets at 1. simpl.
  destruct (event_socket w =? -1).
  - rewrite (mutex_unlock_eq _ (w_held w)) by done. by destruct w.
  - unfold timestamp_us, clock_gettime, bind, gets, sys, modify, ret. simpl.
    change (sizeof EventPacket) with 84. unfold time_us.
    destruct (os_clock (w_hist w) true) as [sec nsec]. simpl.
    destruct (os_ret _ _ =? 84); simpl; rewrite (mutex_unlock_eq _ (w_held w)) by done;
      by destruct w.
Qed.

(** The information reply: a header and the configurations of the channels. *)
Definition info_reply (counter : Z) (devices : list CanConfigParam) : bytes :=
  let body := devices ≫= pack in
  let len := 16 + zlen body in
  let header c := {| rr_HEAD := reverse_4bytes ACK_SYNC_WORD;
                     rr_LENGTH := reverse_4bytes (u32 len); rr_COUNT := counter;
                     rr_COMMOND := reverse_2bytes 0x0102; rr_Checksum := c |} in
  pack (header (calculate_xor_checksum (pack (header 0) ++ body) (Z.to_nat (len - 4)))) ++ body.

Lemma devices_length (devices : list CanConfigParam) :
  Forall pwf devices -> zlen (devices ≫= pack) = zlen devices * 48.
Proof.
  intros Hd. induction Hd as [|d ds Hd _ IH]; [done|]. rewrite bind_cons.
  pose proof (pack_zlen d Hd) as Hl. change (sizeof CanConfigParam) with 48 in Hl.
  zlen_simpl. lia.
Qed.
(** The state after the information reply: memory for it may be refused. *)
Definition info_result (devices : list CanConfigParam) (w : world) : world :=
  let size := 16 + zlen devices * 48 in
  let w1 := add_call (SysMalloc size) w in
  if os_ret (w_hist w) (SysMalloc size) =? 0 then w1 else
  let data := info_reply (u16 (data_counter w + 1)) devices in
  add_call SysFree (upload_result data (count_up w1)).

Lemma w_held_info_result devices w : w_held (info_result devices w) = w_held w.
Proof.
  unfold info_result. case_match; [by destruct w|].
  change (w_held (upload_result (info_reply (u16 (data_counter w + 1)) devices)
            (count_up (add_call (SysMalloc (16 + zlen devices * 48)) w))) = w_held w).
  by rewrite w_held_upload_result.
Qed.

Lemma header_info_length counter c len :
  zlen (pack {| rr_HEAD := reverse_4bytes ACK_SYNC_WORD; rr_LENGTH := len; rr_COUNT := counter;
                rr_COMMOND := reverse_2bytes 0x0102; rr_Checksum := c |}) = 16.
Proof. with_strategy transparent [pack] reflexivity. Qed.

Lemma info_reply_length counter devices :
  Forall pwf devices -> zlen (info_reply counter devices) = 16 + zlen devices * 48.
Proof.
  intros Hd. unfold info_reply. cbv zeta.
  by rewrite zlen_app, header_info_length, devices_length.
Qed.

Lemma send_can_info_response_eq devices w :
  held_below 4 w -> Forall pwf devices ->
  send_can_info_response devices (zlen devices) w =
    Some (tt, if data_upload_socket w =? -1 then w else info_result devices w).
Proof.
  intros Hl Hd. unfold send_can_info_response.
  unfold bind at 1. rewrite mutex_lock_eq by (eapply lock_free_below; [done | simpl; lia]).
  unfold bind at 1, gets at 1. simpl.
  destruct (Z.eqb_spec (data_upload_socket w) (-1)).
  { rewrite (mutex_unlock_eq _ (w_held w)) by done. by rewrite set_held_restore. }
  change (sizeof CAN_Send_Response_r) with 16. change (sizeof CanConfigParam) with 48.
  unfold info_result. rewrite <- (devices_length devices Hd).
  unfold bind at 1, sys at 1. simpl.
  destruct (os_ret (w_hist w) _ =? 0).
  { rewrite (mutex_unlock_eq _ (w_held w)) by done. by destruct w. }
  unfold bind at 1. rewrite mutex_lock_eq.
  2:{ simpl. by apply (lock_free_below data_counter_mutex 4); [| simpl; lia]. }
  unfold bind at 1, modify at 1. unfold bind at 1, gets at 1. simpl.
  unfold bind at 1. rewrite (mutex_unlock_eq _ (data_upload_mutex :: w_held w)) by done.
  rewrite mem_read_ok by (unfold zlen; lia).
  unfold slice. rewrite drop_0, take_ge by (unfold zlen; lia).
  unfold bind at 1, of_option, ret at 1.
  fold (info_reply (u16 (data_counter w + 1)) devices).
  set (data := info_reply (u16 (data_counter w + 1)) devices).
  assert (zlen data = 16 + zlen (devices ≫= pack)) as Hlen.
  { subst data. by rewrite info_reply_length, devices_length. }
  unfold bind, gets, sys, modify, upload_result. simpl. rewrite Hlen.
  destruct (Z.eqb_spec (os_ret (SysMalloc (16 + zlen (devices ≫= pack)) :: w_hist w)
              (SysSend (data_upload_socket w) data)) (16 + zlen (devices ≫= pack))) as [Heq|Hne].
  - destruct (Z.eqb_spec (os_ret (SysMalloc (16 + zlen (devices ≫= pack)) :: w_hist w)
              (SysSend (data_upload_socket w) data)) (-1)) as [Hneg|].
    { unfold zlen in *. lia. }
    simpl. unfold ret. rewrite (mutex_unlock_eq _ (w_held w)) by done. by destruct w.
  - destruct (_ =? -1); simpl; rewrite (mutex_unlock_eq _ (w_held w)) by done; by destruct w.
Qed.

(** The state after a transmit status frame. *)
Definition transmit_result (can_id type status : Z) (frame : axican_frame) (c : Z) (w : world)
    : world :=
  let w1 := add_call (SysClock false)
              (set_frame_count (<[Z.to_nat can_id := next_count c]> (w_frame_count w)) w) in
  upload_result
    (pack (transmit_packet can_id type status frame (data_counter w) (next_count c)
             (time_us false w))) w1.
Lemma send_can_transmit_response_eq can_id type status frame c w :
  lock_free data_upload_mutex (w_held w) = true ->
  0 <= can_id -> w_frame_count w !! Z.to_nat can_id = Some c ->
  send_can_transmit_response can_id type status frame w =
    Some (tt, if data_upload_socket w =? -1 then w else
              transmit_result can_id type status frame c w).
Proof.
  intros Hl Hid Hc. unfold send_can_transmit_response.
  unfold bind at 1. rewrite mutex_lock_eq by done. unfold bind at 1, gets at 1. simpl.
  destruct (Z.eqb_spec (data_upload_socket w) (-1)).
  { rewrite (mutex_unlock_eq _ (w_held w)) by done. by rewrite set_held_restore. }
  unfold arr_upd, arr_get, timestamp_us, clock_gettime, bind, gets, ret.
  rewrite (proj2 (Z.ltb_ge _ _)) by done. simpl. rewrite Hc. simpl.
  rewrite list_lookup_insert_eq by (by eapply lookup_lt_Some). simpl.
  unfold transmit_result, time_us. destruct (os_clock (w_hist w) false) as [sec nsec]. simpl.
  rewrite upload_send_eq. simpl.
  rewrite (mutex_unlock_eq _ (w_held w)) by (by rewrite w_held_upload_result).
  unfold upload_result. simpl. destruct (_ =? _); by destruct w.
Qed.

(** ** What the functions leave alone *)

Lemma net_only_add_call c w : net_only w (add_call c w).
Proof. split; try done. by exists [c]. Qed.

Lemma net_only_upload_socket v w : net_only w (set_data_upload_socket v w).
Proof. split; try done. by exists []. Qed.

Lemma net_only_event_socket v w : net_only w (set_event_socket v w).
Proof. split; try done. by exists []. Qed.

Lemma net_only_count_up w : net_only w (count_up w).
Proof.
  split; try done; [|by exists []].
  intros _. apply wrap_range. lia.
Qed.

Lemma next_count_range c : is_u32 c -> is_u32 (next_count c).
Proof.
  intros Hc. unfold next_count. destruct (_ =? _); [done|]. apply wrap_range. lia.
Qed.

Lemma net_only_next_count i c w :
  w_frame_count w !! i = Some c ->
  net_only w (set_frame_count (<[i := next_count c]> (w_frame_count w)) w).
Proof.
  intros Hc. split; try done; [|by exists []].
  intros Hlen Hall. simpl. split; [by rewrite length_insert|].
  apply Forall_insert; [done|]. apply next_count_range.
  by apply (Forall_lookup_1 _ _ _ _ Hall Hc).
Qed.

Lemma net_only_upload data w : net_only w (upload_result data w).
Proof.
  unfold upload_result. case_match; [apply net_only_add_call|].
  do 2 (etransitivity; [apply net_only_add_call|]). apply net_only_upload_socket.
Qed.

Lemma net_only_event level id msg w : net_only w (event_result level id msg w).
Proof.
  unfold event_result. case_match; [done|].
  etransitivity; [apply net_only_add_call|].
  case_match; [apply net_only_add_call|].
  do 2 (etransitivity; [apply net_only_add_call|]). apply net_only_event_socket.
Qed.

Lemma net_only_info devices w : net_only w (info_result devices w).
Proof.
  unfold info_result. etransitivity; [apply net_only_add_call|]. case_match; [done|].
  etransitivity; [|apply net_only_add_call].
  etransitivity; [apply net_only_count_up|]. apply net_only_upload.
Qed.

Lemma net_only_transmit can_id type status frame c w :
  w_frame_count w !! Z.to_nat can_id = Some c ->
  net_only w (transmit_result can_id type status frame c w).
Proof.
  intros Hc. unfold transmit_result.
  etransitivity; [by apply net_only_next_count|].
  etransitivity; [apply net_only_add_call | apply net_only_upload].
Qed.

Lemma net_only_if (b : bool) w w1 w2 :
  net_only w w1 -> net_only w w2 -> net_only w (if b then w1 else w2).
Proof. by destruct b. Qed.
End UploadSpec.

#[export] Hint Resolve net_only_add_call net_only_count_up net_only_upload net_only_event
  net_only_info net_only_if : zmht.

(** ** The replies as the client sees them *)

(** The checksum field at offset [len] is the checksum of the bytes before it. *)
Definition verifies (len : nat) (bs : bytes) : Prop :=
  fld len 4 bs = calculate_xor_checksum bs len.

Lemma fld_pack_wf {A} `{Packed A} (a : A) n off bs :
  pack a = bs -> fld off n (pack a) = fld off n bs.
Proof. by intros ->. Qed.

Section Replies.
Context `{OS}.

Inductive reply :=
  | ReplyConfig (can_id status : Z)
  | ReplyStartStop (status : Z)
  | ReplyBroadcast (status : Z)
  | ReplyVersion (req_counter version : Z).

Definition run_reply (r : reply) : M world unit :=
  match r with
  | ReplyConfig can_id status => send_can_config_response can_id status
  | ReplyStartStop status => send_start_stop_response status
  | ReplyBroadcast status => send_broadcast_config_response status
  | ReplyVersion c v => send_version_query_response c v
  end.

(** The command, the counter, the length and the last field a reply carries,
    in the byte order the client reads. *)
Definition reply_fields (r : reply) (w : world) : Z * Z * Z * Z :=
  match r with
  | ReplyConfig _ status => (0x0101, u16 (data_counter w + 1), 20, status)
  | ReplyStartStop status => (0x0103, data_counter w, 20, status)
  | ReplyBroadcast status => (0x0104, u16 (data_counter w + 1), 20, status)
  | ReplyVersion c v => (0xFF05, c, 4, reverse_4bytes v)
  end.

Definition reply_ok (r : reply) : Prop :=
  match r with
  | ReplyConfig _ s | ReplyStartStop s | ReplyBroadcast s => is_u32 s
  | ReplyVersion c v => is_u16 c /\ is_u32 v
  end.

Lemma command_reply_wf command counter status :
  is_u16 command -> is_u16 counter -> is_u32 status ->
  pwf (command_reply command counter status).
Proof.
  intros Hc Hn Hs. pose proof (reverse_2bytes_range command Hc) as Hr.
  rewrite <- htons_reverse in Hr by done.
  split_and!; simpl; try done. apply calculate_xor_checksum_range.
Qed.

Lemma version_reply_wf c v : is_u16 c -> is_u32 v -> pwf (version_reply c v).
Proof.
  intros Hc Hv. split_and!; simpl; try done; [apply calculate_xor_checksum_range|].
  by apply reverse_4bytes_range.
Qed.

(** The fields of a reply, read from its bytes. *)
Lemma command_reply_bytes command counter status :
  is_u16 command -> is_u16 counter -> is_u32 status ->
  let d := pack (command_reply command counter status) in
  zlen d = 20 /\ fld 0 4 d = reverse_4bytes ACK_SYNC_WORD /\
  fld 4 4 d = reverse_4bytes 20 /\ fld 8 2 d = counter /\
  fld 10 2 d = reverse_2bytes command /\ verifies 12 d /\ fld 16 4 d = status.
Proof.
  intros Hc Hn Hs d. pose proof (command_reply_wf command counter status Hc Hn Hs) as Hwf.
  pose proof (unpack_pack _ Hwf) as Hu. fold d in Hu.
  split; [by apply (pack_zlen _ Hwf)|].
  pose proof (f_equal sr_HEAD Hu) as H1. pose proof (f_equal sr_LENGTH Hu) as H2.
  pose proof (f_equal sr_COUNT Hu) as H3. pose proof (f_equal sr_COMMOND Hu) as H4.
  pose proof (f_equal sr_Checksum Hu) as H5. pose proof (f_equal sr_STATUS Hu) as H6.
  rewrite <- htons_reverse by done. split_and!; try done.
  unfold verifies. transitivity (sr_Checksum (command_reply command counter status)); [exact H5|].
  simpl. apply (calculate_xor_checksum_zero_field
    (le_enc 4 (reverse_4bytes ACK_SYNC_WORD) ++ le_enc 4 (reverse_4bytes 20) ++
     le_enc 2 counter ++ le_enc 2 (htons command)) (le_enc 4 0)
    (le_enc 4 (sr_Checksum (command_reply command counter status)) ++ le_enc 4 status) 12); done.
Qed.

Lemma version_reply_bytes c v :
  is_u16 c -> is_u32 v ->
  let d := pack (version_reply c v) in
  zlen d = 20 /\ fld 0 4 d = reverse_4bytes ACK_SYNC_WORD /\
  fld 4 4 d = reverse_4bytes 4 /\ fld 8 2 d = c /\
  fld 10 2 d = reverse_2bytes 0xFF05 /\ verifies 12 d /\ fld 16 4 d = reverse_4bytes v.
Proof.
  intros Hc Hv d. pose proof (version_reply_wf c v Hc Hv) as Hwf.
  pose proof (unpack_pack _ Hwf) as Hu. fold d in Hu.
  split; [by apply (pack_zlen _ Hwf)|].
  pose proof (f_equal vr_HEAD Hu) as H1. pose proof (f_equal vr_LENGTH Hu) as H2.
  pose proof (f_equal vr_COUNT Hu) as H3. pose proof (f_equal vr_COMMOND Hu) as H4.
  pose proof (f_equal vr_Checksum Hu) as H5. pose proof (f_equal vr_version Hu) as H6.
  split_and!; try done.
Qed.

(** The bytes of a reply. *)
Definition reply_bytes (r : reply) (w : world) : bytes :=
  match r with
  | ReplyConfig _ status => pack (command_reply 0x0101 (u16 (data_counter w + 1)) status)
  | ReplyStartStop status => pack (command_reply 0x0103 (data_counter w) status)
  | ReplyBroadcast status => pack (command_reply 0x0104 (u16 (data_counter w + 1)) status)
  | ReplyVersion c v => pack (version_reply c v)
  end.

Lemma reply_bytes_fields r w :
  is_u16 (data_counter w) -> reply_ok r ->
  let '(command, counter, len, last) := reply_fields r w in
  let d := reply_bytes r w in
  zlen d = 20 /\ fld 0 4 d = reverse_4bytes ACK_SYNC_WORD /\
  fld 4 4 d = reverse_4bytes len /\ fld 8 2 d = counter /\
  fld 10 2 d = reverse_2bytes command /\ verifies 12 d /\ fld 16 4 d = last.
Proof.
  intros Hdc Hok. pose proof (wrap_range 16 (data_counter w + 1) ltac:(lia)).
  assert (forall c, 0 <= c < 65536 -> is_u16 c) as Hu16 by done.
  destruct r as [id st|st|st|c v]; cbn [reply_fields reply_bytes reply_ok] in *.
  - apply command_reply_bytes; [apply Hu16; lia | assumption..].
  - apply command_reply_bytes; [apply Hu16; lia | assumption..].
  - apply command_reply_bytes; [apply Hu16; lia | assumption..].
  - apply version_reply_bytes; apply Hok.
Qed.

(** Where a reply counts. *)
Definition counts (r : reply) (w : world) : bool :=
  match r with
  | ReplyConfig _ _ => negb (data_upload_socket w =? -1)
  | ReplyVersion _ _ => false
  | _ => true
  end.

Lemma run_reply_eq r w :
  held_below 4 w ->
  run_reply r w =
    Some (tt, let w1 := if counts r w then count_up w else w in
              if data_upload_socket w =? -1 then w1 else upload_result (reply_bytes r w) w1).
Proof.
  intros Hb.
  assert (lock_free data_upload_mutex (w_held w) = true) by (eapply lock_free_below; [done | simpl; lia]).
  destruct r; cbn [run_reply].
  - rewrite send_can_config_response_eq by done. simpl. by destruct (_ =? _).
  - by rewrite send_start_stop_response_eq.
  - by rewrite send_broadcast_config_response_eq.
  - by rewrite send_version_query_response_eq.
Qed.

(** Command replies: with a client on port 9010 a reply function makes
    one send of a 20-byte packet with the head, length, counter, command,
    status (or version) the protocol fixes and a checksum that verifies; the
    client is kept exactly when the system took the whole packet, otherwise
    it is shut down once and withdrawn.  Without a client no call is made.
    Nothing else of the state changes and every mutex is released. *)
Theorem command_reply_once r w :
  held_below 4 w -> is_u16 (data_counter w) -> reply_ok r ->
  exists w', run_reply r w = Some (tt, w') /\ net_only w w' /\
    w_frame_count w' = w_frame_count w /\ event_socket w' = event_socket w /\
    (if data_upload_socket w =? -1
     then w_hist w' = w_hist w /\ data_upload_socket w' = -1
     else exists d, zlen d = 20 /\
       (let '(command, counter, len, last) := reply_fields r w in
        fld 0 4 d = reverse_4bytes ACK_SYNC_WORD /\ fld 4 4 d = reverse_4bytes len /\
        fld 8 2 d = counter /\ fld 10 2 d = reverse_2bytes command /\
        verifies 12 d /\ fld 16 4 d = last) /\
       let sock := data_upload_socket w in
       if os_ret (w_hist w) (SysSend sock d) =? 20
       then w_hist w' = SysSend sock d :: w_hist w /\ data_upload_socket w' = sock
       else w_hist w' = SysShutdown sock :: SysSend sock d :: w_hist w /\
            data_upload_socket w' = -1).
Proof.
  intros Hb Hdc Hok. eexists. split; [by apply run_reply_eq|].
  pose proof (reply_bytes_fields r w Hdc Hok) as Hf.
  cbv zeta. set (w1 := if counts r w then count_up w else w).
  assert (net_only w w1 /\ w_frame_count w1 = w_frame_count w /\ event_socket w1 = event_socket w /\
    w_hist w1 = w_hist w /\ data_upload_socket w1 = data_upload_socket w)
    as (Hno & Hfc & Hev & Hh & Hs).
  { subst w1. destruct (counts r w); split_and!; auto with zmht; reflexivity. }
  clearbody w1. destruct (reply_fields r w) as [[[command counter] len] last].
  destruct Hf as (Hlen & Hf). destruct (Z.eqb_spec (data_upload_socket w) (-1)).
  { by rewrite Hh, Hs. }
  split; [etransitivity; [done | apply net_only_upload]|].
  unfold upload_result. rewrite Hlen, Hs, Hh.
  split; [by destruct (_ =? _)|]. split; [by destruct (_ =? _)|].
  exists (reply_bytes r w). split; [exact Hlen|]. split; [exact Hf|].
  cbv zeta. destruct (os_ret _ _ =? 20); simpl; by rewrite ?Hh, ?Hs.
Qed.
End Replies.

(** An environment where every call succeeds and every send is complete. *)
Definition quiet_os : OS := {|
  os_ret := fun _ c => match c with SysSend _ d | SysWrite _ d => zlen d | _ => 0 end;
  os_data := fun _ _ => [];
  os_clock := fun _ _ => (12, 345678901)
|}.

Definition connected_world : world := set_event_socket 8 (set_data_upload_socket 7 boot_world).

Lemma connected_world_wf : world_wf connected_world.
Proof. destruct boot_world_wf. by split. Qed.

Lemma command_reply_once_witness :
  let w := connected_world in let r := ReplyConfig 2 0 in
  exists w', run_reply (H := quiet_os) r w = Some (tt, w') /\ net_only w w' /\
    w_frame_count w' = w_frame_count w /\ event_socket w' = event_socket w /\
    (if data_upload_socket w =? -1
     then w_hist w' = w_hist w /\ data_upload_socket w' = -1
     else exists d, zlen d = 20 /\
       (let '(command, counter, len, last) := reply_fields r w in
        fld 0 4 d = reverse_4bytes ACK_SYNC_WORD /\ fld 4 4 d = reverse_4bytes len /\
        fld 8 2 d = counter /\ fld 10 2 d = reverse_2bytes command /\
        verifies 12 d /\ fld 16 4 d = last) /\
       let sock := data_upload_socket w in
       if os_ret (OS := quiet_os) (w_hist w) (SysSend sock d) =? 20
       then w_hist w' = SysSend sock d :: w_hist w /\ data_upload_socket w' = sock
       else w_hist w' = SysShutdown sock :: SysSend sock d :: w_hist w /\
            data_upload_socket w' = -1).
Proof.
  apply (command_reply_once (H := quiet_os)); [apply boot_world_held | by vm_compute | by vm_compute].
Defined.

(** ** Status frames and events as the client sees them *)

Section Frames.
Context `{OS}.

Lemma transmit_packet_wf can_id type status frame counter ch_count us :
  is_u8 can_id -> is_u8 type -> is_u8 status -> pwf frame -> is_u16 counter ->
  is_u32 ch_count -> is_u64 us ->
  pwf (transmit_packet can_id type status frame counter ch_count us).
Proof.
  intros Hid Hty Hst (Hf1 & Hf2 & Hf3 & Hf4 & _) Hdc Hcc Hus.
  assert (is_u32 can_id) as Hid32 by (unfold in_range in *; lia).
  pose proof (reverse_4bytes_range _ Hid32).
  assert (is_u32 (if counter =? 0xFFFFFFFF then 0 else counter + 1)) as Htc.
  { destruct (_ =? _); [done|]. unfold in_range in *. lia. }
  split_and!; simpl; try done; apply calculate_xor_checksum_range.
Qed.

(** The 64 bytes before the checksum of a status frame. *)
Definition status_prefix (r : ARM_PC_STATUS_DATA) : bytes :=
  le_enc 4 (st_PC_arm_head r) ++ le_enc 4 (st_PC_arm_length r) ++
  le_enc 2 (st_PC_arm_conter r) ++ le_enc 2 (st_PC_arm_commond r) ++
  le_enc 4 (st_pc_arm_check r) ++ le_enc 4 (st_pc_arm_chind r) ++ le_enc 4 (st_head r) ++
  le_enc 1 (st_direction r) ++ le_enc 1 (st_type r) ++ le_enc 1 (st_length r) ++
  le_enc 1 (st_ch_id r) ++ le_enc 4 (st_total_count r) ++ le_enc 4 (st_ch_count r) ++
  le_enc 4 (st_idr r) ++ le_enc 4 (st_drcr r) ++ le_enc 4 (st_dw1r r) ++ le_enc 4 (st_dw2r r) ++
  le_enc 1 (st_states r) ++ le_enc 1 (st_xor_states r) ++ le_enc 2 (st_reserved2 r) ++
  le_enc 8 (st_timestamp r).

Lemma status_pack_prefix r : pack r = status_prefix r ++ le_enc 4 (st_xor_checksum r).
Proof.
  with_strategy transparent [pack] change (pack r) with (ARM_PC_STATUS_DATA_pack r).
  unfold ARM_PC_STATUS_DATA_pack, status_prefix. by rewrite <- !app_assoc.
Qed.

Lemma status_prefix_length r : length (status_prefix r) = 64%nat.
Proof. unfold status_prefix. by rewrite !length_app, !length_le_enc. Qed.

Lemma status_checksum_closed r : calculate_xor_checksum (pack (status_checksum r 64)) 68 = 0.
Proof.
  rewrite status_pack_prefix.
  change (status_prefix (status_checksum r 64)) with (status_prefix r).
  change 68%nat with (64 + 4)%nat.
  assert (st_xor_checksum (status_checksum r 64) = calculate_xor_checksum (status_prefix r) 64)
    as ->.
  { simpl. rewrite status_pack_prefix. apply calculate_xor_checksum_app.
    by rewrite status_prefix_length. }
  pose proof (status_prefix_length r) as Hl. rewrite <- Hl.
  apply calculate_xor_checksum_closed; [by rewrite Hl | done].
Qed.

(** Transmit status frames: with a client on port 9010, reporting a frame
    advances the counter of its channel by one modulo 2^32 and makes one send
    of a 68-byte packet that carries the frame, the channel, the status and
    the advanced counter, and whose 32-bit words xor to zero; the client is
    kept exactly when the whole packet was taken.  Without a client nothing
    changes. *)
Theorem transmit_status_once can_id type status frame w :
  held_below 4 w -> world_wf w -> 0 <= can_id < AXICAN_MAX -> is_u8 type -> is_u8 status ->
  pwf frame ->
  exists w', send_can_transmit_response can_id type status frame w = Some (tt, w') /\
    net_only w w' /\
    (if data_upload_socket w =? -1 then w' = w else
     exists d c, w_frame_count w !! Z.to_nat can_id = Some c /\
       w_frame_count w' = <[Z.to_nat can_id := if c =? 2 ^ 32 - 1 then 0 else c + 1]> (w_frame_count w) /\
       zlen d = 68 /\ calculate_xor_checksum d 68 = 0 /\
       (let r : ARM_PC_STATUS_DATA := unpack d in
        st_ch_id r = can_id /\ st_type r = type /\ st_states r = status /\
        st_idr r = fr_can_id frame /\ st_drcr r = fr_can_dlc frame /\
        st_dw1r r = fr_data0 frame /\ st_dw2r r = fr_data1 frame /\
        st_ch_count r = if c =? 2 ^ 32 - 1 then 0 else c + 1) /\
       let sock := data_upload_socket w in
       if os_ret (SysClock false :: w_hist w) (SysSend sock d) =? 68
       then w_hist w' = SysSend sock d :: SysClock false :: w_hist w /\
            data_upload_socket w' = sock
       else w_hist w' = SysShutdown sock :: SysSend sock d :: SysClock false :: w_hist w /\
            data_upload_socket w' = -1).
Proof.
  intros Hb Hwf Hid Hty Hst Hf. unfold AXICAN_MAX in Hid.
  destruct (lookup_lt_is_Some_2 (w_frame_count w) (Z.to_nat can_id)) as [c Hc];
    [rewrite (ww_counts _ Hwf); lia|].
  eexists. split; [apply send_can_transmit_response_eq; [by eapply lock_free_below | lia | exact Hc]|].
  split; [apply net_only_if; [done | by apply net_only_transmit]|].
  destruct (Z.eqb_spec (data_upload_socket w) (-1)); [done|].
  pose proof (Forall_lookup_1 _ _ _ _ (ww_counts_u32 _ Hwf) Hc) as Hc32.
  assert (next_count c = if c =? 2 ^ 32 - 1 then 0 else c + 1) as Hnc.
  { unfold next_count. change 0xFFFFFFFF with (2 ^ 32 - 1).
    destruct (Z.eqb_spec c (2 ^ 32 - 1)); [done|].
    apply wrap_small. unfold in_range in *. lia. }
  assert (pwf (transmit_packet can_id type status frame (data_counter w) (next_count c)
            (time_us false w))) as Hp.
  { apply transmit_packet_wf; try done; [unfold in_range; lia | apply Hwf
      | by apply next_count_range | apply wrap_range; lia]. }
  unfold transmit_result.
  set (d := pack (transmit_packet _ _ _ _ _ _ _)).
  exists d, c. split; [done|].
  assert (zlen d = 68) as Hlen by apply (pack_zlen _ Hp).
  unfold upload_result. rewrite Hlen.
  split; [rewrite <- Hnc; simpl; by destruct (_ =? 68)|]. split; [done|].
  split; [apply status_checksum_closed|].
  split.
  { cbv zeta. unfold d. rewrite unpack_pack by done. by rewrite <- Hnc. }
  simpl. by destruct (_ =? 68).
Qed.
End Frames.

Lemma transmit_status_once_witness :
  let w := connected_world in let frame := mk_axican_frame 0x123 8 1 2 99 in
  exists w', send_can_transmit_response (H := quiet_os) 2 0x82 1 frame w = Some (tt, w') /\
    net_only w w' /\ w_frame_count w' = [0; 0; 1; 0; 0; 0] /\ data_upload_socket w' = 7.
Proof.
  intros w frame.
  destruct (transmit_status_once (H := quiet_os) 2 0x82 1 frame w) as (w' & Hrun & Hno & Hr);
    [apply boot_world_held | apply connected_world_wf | by vm_compute | by vm_compute
    | by vm_compute | by vm_compute | ].
  exists w'. split; [exact Hrun|]. split; [exact Hno|].
  destruct Hr as (d & c & Hc & Hcount & Hlen & _ & _ & Hs). injection Hc as <-.
  split; [by rewrite Hcount|].
  simpl in Hs. rewrite Hlen in Hs. apply Hs.
Defined.
