(* ===== verification/Broadcast.v ===== *)
(** * The second-pulse broadcast scheduler
    ([src/main18.c], [validate_broadcast_mask] to [handle_broadcast_config],
    [next_broadcast_group_id] to [enqueue_broadcast_group] and
    [select_broadcast_mask_on_pps] to [take_broadcast_group]).

    Every operation on the broadcast state is one transaction under
    [bcast_state_mutex]; the interleavings of the threads are the sequences of
    transactions.  The properties: which configurations are accepted, which
    channels each pulse selects in each of the three modes, when a group is
    queued, and that a queued group is sent at most once, in order, and only for
    a pulse that came after the last configuration. *)
From S2P Require Import Prelude Words Ring RingSet Layout World Upload.
From Stdlib Require Import (notations) String.

Definition wake_get (ch : Z) : M world Z := arr_get (fun w => g_bcast_pending (w_bc w)) ch.
Definition wake_set (ch : Z) (g : Z -> Z) : M world unit :=
  arr_upd (fun w => g_bcast_pending (w_bc w)) (fun l w => set_bc (set_bc_pending l (w_bc w)) w) ch g.

(** The channels in the order of the [for] loops of the code. *)
Definition channels_loop : list Z := [0; 1; 2; 3; 4; 5].

Section Broadcast.
Context `{OS}.
#[local] Open Scope c_scope.

Definition validate_broadcast_mask (mask : Z) : bool :=
  Z.land mask (Z.lxor 0xFFFFFFFF BCAST_CAN_MASK) =? 0.

Definition broadcast_buffer_available (ch : Z) : M world Z :=
  mutex_lock bcast_state_mutex ;;
  let* available := buf_avail BcastGroup ch AXICAN_MAX in
  mutex_unlock bcast_state_mutex ;;
  ret available.

Definition reset_broadcast_buffers : M world unit :=
  foreach channels_loop (fun ch =>
    buf_reset BcastGroup ch AXICAN_MAX ;;
    mutex_lock (wake_mutex ch) ;;
    wake_set ch (fun _ => 0) ;;
    mutex_unlock (wake_mutex ch)) ;;
  mutex_lock bcast_rx_gate_mutex ;;
  modify (fun w => set_bc (set_bc_gate 0 0 (w_bc w)) w) ;;
  mutex_unlock bcast_rx_gate_mutex.

(** [event] and the failure reply: how the handler refuses a request. *)
Definition refuse_broadcast_config (msg : bytes) : M world unit :=
  send_event EVENT_LEVEL_ERROR EVENT_CAN_SENT_FAILE msg ;;
  send_broadcast_config_response 1.

Definition sched_of_param (param : BroadcastConfigParam) : BroadcastSchedulerConfig :=
  {| bs_enable := bp_enable param; bs_mode := bp_b_mode param;
     bs_start_group := bp_start_group param; bs_current_group := bp_start_group param;
     bs_start_channel := bp_start_channel param;
     bs_poll_next_channel := bp_start_channel param;
     bs_active_mask := Z.land (bp_active_mask param) BCAST_CAN_MASK;
     bs_group_a_mask := Z.land (bp_group_a_mask param) BCAST_CAN_MASK;
     bs_group_b_mask := Z.land (bp_group_b_mask param) BCAST_CAN_MASK;
     bs_config_count := bp_config_count param |}.

Definition handle_broadcast_config (sock : Z) (req : ReqPacket) (data : bytes) : M world unit :=
  let* param := cast BroadcastConfigParam data in
  if negb (bp_head param =? PC_STATUS_HEAD) || negb (bp_direction param =? 0) ||
     negb (bp_length param =? sizeof BroadcastConfigParam)
  then refuse_broadcast_config (str "broadcast config header invalid") else
  let expect_xor := calculate_xor_checksum (pack param) (psize (A := BroadcastConfigParam) - 4) in
  if negb (bp_xor_checksum param =? expect_xor)
  then refuse_broadcast_config (str "broadcast config checksum invalid") else
  if negb (bp_enable param =? 0) && negb (bp_enable param =? BCAST_ENABLE)
  then refuse_broadcast_config (str "broadcast enable invalid") else
  if (bp_enable param =? BCAST_ENABLE) &&
     ((bp_b_mode param <? BCAST_MODE_SIMULTANEOUS) ||
      (bp_b_mode param >? BCAST_MODE_AB_ALTERNATE))
  then refuse_broadcast_config (str "broadcast mode invalid") else
  if negb (validate_broadcast_mask (bp_active_mask param)) ||
     negb (validate_broadcast_mask (bp_group_a_mask param)) ||
     negb (validate_broadcast_mask (bp_group_b_mask param)) ||
     (bp_start_channel param >=? AXICAN_MAX) || (bp_start_group param >? 1)
  then refuse_broadcast_config (str "broadcast mask invalid") else
  mutex_lock bcast_state_mutex ;;
  mutex_lock bcast_cfg_mutex ;;
  modify (fun w => set_bc (set_bc_cfg (sched_of_param param) (w_bc w)) w) ;;
  mutex_unlock bcast_cfg_mutex ;;
  reset_broadcast_buffers ;;
  mutex_unlock bcast_state_mutex ;;
  send_broadcast_config_response 0.

(** ** The receive gate *)

Definition next_broadcast_group_id : M world Z :=
  mutex_lock bcast_group_id_mutex ;;
  modify (fun w =>
    let id := g_bcast_group_id (w_bc w) in
    set_bc (set_bc_group_id (if id =? 0xFFFFFFFF then 1 else u32 (id + 1)) (w_bc w)) w) ;;
  let* group_id := gets (fun w => g_bcast_group_id (w_bc w)) in
  mutex_unlock bcast_group_id_mutex ;;
  ret group_id.

Definition get_broadcast_store_mask : M world Z :=
  mutex_lock bcast_cfg_mutex ;;
  let* cfg := gets (fun w => g_bcast_cfg (w_bc w)) in
  let mask :=
    if bs_enable cfg =? BCAST_ENABLE then
      if (bs_mode cfg =? BCAST_MODE_SIMULTANEOUS) || (bs_mode cfg =? BCAST_MODE_POLLING)
      then bs_active_mask cfg
      else if bs_mode cfg =? BCAST_MODE_AB_ALTERNATE
      then Z.lor (bs_group_a_mask cfg) (bs_group_b_mask cfg)
      else 0
    else 0 in
  mutex_unlock bcast_cfg_mutex ;;
  ret (Z.land mask BCAST_CAN_MASK).

Definition monotonic_ms : M world Z :=
  let* (rc, sec, nsec) := clock_gettime true in
  if negb (rc =? 0) then ret 0 else
  ret (u64 (u64 sec * 1000 + u64 nsec / 1000000)).

Definition set_broadcast_rx_gate (open : Z) : M world unit :=
  mutex_lock bcast_rx_gate_mutex ;;
  (if negb (open =? 0) then
     let* now := monotonic_ms in
     modify (fun w => set_bc (set_bc_gate 1 (u64 (now + BCAST_PPS_RX_WINDOW_MS)) (w_bc w)) w)
   else modify (fun w => set_bc (set_bc_gate 0 0 (w_bc w)) w)) ;;
  mutex_unlock bcast_rx_gate_mutex.

Definition is_broadcast_rx_gate_open : M world bool :=
  mutex_lock bcast_rx_gate_mutex ;;
  let* gate := gets (fun w => g_bcast_rx_gate_open (w_bc w)) in
  let* open :=
    (if gate =? 0 then ret false else
     let* now := monotonic_ms in
     let* until := gets (fun w => g_bcast_rx_gate_until_ms (w_bc w)) in
     ret (now <=? until)) in
  when (negb open) (modify (fun w => set_bc (set_bc_gate 0 0 (w_bc w)) w)) ;;
  mutex_unlock bcast_rx_gate_mutex ;;
  ret open.

Definition is_broadcast_pps_window_open (ch : Z) : M world bool :=
  if ch >=? AXICAN_MAX then ret false else is_broadcast_rx_gate_open.

(** ** Queueing a group *)

Definition pc_can_payload_to_axican_frame (src : PC_ARM_DATA_DATA) : axican_frame :=
  {| fr_can_id := pd_idr src; fr_can_dlc := pd_drcr src;
     fr_data0 := reverse_4bytes (pd_dw1r src); fr_data1 := reverse_4bytes (pd_dw2r src);
     fr_timestamp := pd_timestamp src |}.

(** The group the code builds: zeroed, then the converted frames. *)
Definition make_group (id : Z) (frames : list PC_ARM_DATA_DATA) : BroadcastFrameGroup :=
  {| bg_group_id := id; bg_frame_count := u16 (zlen frames);
     bg_frames := (pc_can_payload_to_axican_frame <$> frames) ++
                  replicate (128 - length frames) zero_frame |}.

Definition enqueue_broadcast_group (target_ch : Z) (frames : list PC_ARM_DATA_DATA) : M world Z :=
  let frame_count := zlen frames in
  if (frame_count =? 0) || (frame_count >? BCAST_MAX_FRAMES_PER_GROUP) then
    send_event EVENT_LEVEL_ERROR EVENT_CAN_SENT_FAILE (str "broadcast group size invalid") ;;
    ret (- EINVAL)
  else
  let* valid := (if target_ch >=? AXICAN_MAX then ret false else
                 let* c := config_at target_ch in ret (negb (cf_valid c =? 0))) in
  if negb valid then
    send_event EVENT_LEVEL_ERROR EVENT_CAN_SENT_FAILE (str "broadcast packet channel invalid") ;;
    ret (- EINVAL)
  else
  mutex_lock bcast_state_mutex ;;
  let* open := is_broadcast_pps_window_open target_ch in
  if negb open then mutex_unlock bcast_state_mutex ;; ret (- EINVAL) else
  let* avail := buf_avail BcastGroup target_ch AXICAN_MAX in
  if avail =? 0 then mutex_unlock bcast_state_mutex ;; ret (- ENOMEM) else
  let* id := next_broadcast_group_id in
  let group := make_group id frames in
  let* n := buf_put BcastGroup target_ch (group_pack group) AXICAN_MAX in
  if negb (n =? 1) then mutex_unlock bcast_state_mutex ;; ret (- ENOMEM) else
  mutex_unlock bcast_state_mutex ;;
  ret 0.

(** ** The pulse *)

(** The loop of the polling mode: the first active channel from [next] on. *)
Fixpoint poll_loop (steps : list Z) (next active : Z) : option Z :=
  match steps with
  | [] => None
  | step :: steps' =>
    let ch := (next + step) mod AXICAN_MAX in
    if negb (Z.land active (Z.shiftl 1 ch) =? 0) then Some ch else poll_loop steps' next active
  end.

Definition set_poll_next v c :=
  mk_sched (bs_enable c) (bs_mode c) (bs_start_group c) (bs_current_group c) (bs_start_channel c)
    v (bs_active_mask c) (bs_group_a_mask c) (bs_group_b_mask c) (bs_config_count c).
Definition set_current_group v c :=
  mk_sched (bs_enable c) (bs_mode c) (bs_start_group c) v (bs_start_channel c)
    (bs_poll_next_channel c) (bs_active_mask c) (bs_group_a_mask c) (bs_group_b_mask c)
    (bs_config_count c).

Definition select_broadcast_mask_on_pps : M world Z :=
  mutex_lock bcast_cfg_mutex ;;
  let* cfg := gets (fun w => g_bcast_cfg (w_bc w)) in
  if negb (bs_enable cfg =? BCAST_ENABLE) then mutex_unlock bcast_cfg_mutex ;; ret 0 else
  let set_cfg c := modify (fun w => set_bc (set_bc_cfg c (w_bc w)) w) in
  let* mask :=
    (if bs_mode cfg =? BCAST_MODE_SIMULTANEOUS then ret (bs_active_mask cfg)
     else if bs_mode cfg =? BCAST_MODE_POLLING then
       let active := Z.land (bs_active_mask cfg) BCAST_CAN_MASK in
       match poll_loop channels_loop (bs_poll_next_channel cfg) active with
       | Some ch => set_cfg (set_poll_next ((ch + 1) mod AXICAN_MAX) cfg) ;; ret (Z.shiftl 1 ch)
       | None => ret 0
       end
     else if bs_mode cfg =? BCAST_MODE_AB_ALTERNATE then
       if bs_current_group cfg =? 0
       then set_cfg (set_current_group 1 cfg) ;; ret (bs_group_a_mask cfg)
       else set_cfg (set_current_group 0 cfg) ;; ret (bs_group_b_mask cfg)
     else ret 0) in
  mutex_unlock bcast_cfg_mutex ;;
  ret (Z.land mask BCAST_CAN_MASK).

Definition notify_broadcast_channels (mask : Z) : M world unit :=
  foreach channels_loop (fun ch =>
    if Z.land mask (Z.shiftl 1 ch) =? 0 then ret tt else
    mutex_lock (wake_mutex ch) ;;
    wake_set ch (fun pending => u32 (pending + 1)) ;;
    let* _ := sys (SysSignal ch) in
    mutex_unlock (wake_mutex ch)).

Definition process_broadcast_pps : M world unit :=
  mutex_lock bcast_state_mutex ;;
  set_broadcast_rx_gate 1 ;;
  let* wake_mask := select_broadcast_mask_on_pps in
  when (negb (wake_mask =? 0)) (notify_broadcast_channels wake_mask) ;;
  mutex_unlock bcast_state_mutex.

(** ** Sending a group *)

Definition axican_poll2 (fd flags timeout : Z) : M world Z :=
  if negb (flags =? 0) && negb (flags =? 1) then ret (-1) else
  let* pollrc := sys (SysPoll fd flags timeout) in
  if pollrc >? 0 then ret 0 else ret (-1).

Definition broadcast_can_write_ready (can_id timeout_ms : Z) : M world bool :=
  if can_id >=? AXICAN_MAX then ret false else
  let* ax := arr_get w_axican can_id in
  if ax_wr_fd ax <? 0 then ret false else
  let* rc := axican_poll2 (ax_wr_fd ax) 0 timeout_ms in
  ret (rc =? 0).

Fixpoint send_group_loop (n : nat) (i can_id : Z) (group : BroadcastFrameGroup) : M world Z :=
  match n with
  | O => ret 0
  | S n' =>
    mutex_lock (can_write_mutex can_id) ;;
    let* ax := arr_get w_axican can_id in
    let* frame := of_option (bg_frames group !! Z.to_nat i) in
    let* rc := sys (SysWrite (ax_wr_fd ax) (pack frame)) in
    mutex_unlock (can_write_mutex can_id) ;;
    if negb (rc =? sizeof axican_frame) then
      send_event EVENT_LEVEL_ERROR EVENT_CAN_SENT_FAILE (str "broadcast CAN send failed") ;;
      ret (- EIO)
    else send_group_loop n' (i + 1) can_id group
  end.

Definition send_broadcast_group_for_channel (can_id : Z) (group : BroadcastFrameGroup)
    : M world Z :=
  if can_id >=? AXICAN_MAX then ret (- EINVAL) else
  let* c := config_at can_id in
  if negb (bool_decide (cf_state c = CAN_STATE_OPENED)) then ret (- EINVAL) else
  send_group_loop (Z.to_nat (bg_frame_count group)) 0 can_id group.

Definition take_broadcast_group (can_id : Z) (group : bytes) : M world (Z * bytes) :=
  if can_id >=? AXICAN_MAX then ret (0, group) else
  mutex_lock bcast_state_mutex ;;
  mutex_lock (wake_mutex can_id) ;;
  let* pending := wake_get can_id in
  let* res :=
    (if negb (pending =? 0) then
       wake_set can_id (fun pending => u32 (pending - 1)) ;;
       let* c := config_at can_id in
       if bool_decide (cf_state c = CAN_STATE_OPENED)
       then buf_get BcastGroup can_id group AXICAN_MAX
       else ret (0, group)
     else ret (0, group)) in
  mutex_unlock (wake_mutex can_id) ;;
  mutex_unlock bcast_state_mutex ;;
  ret res.

(** One turn of [broadcast_can_send_thread], after the wait. *)
Definition broadcast_can_send_turn (can_id : Z) : M world unit :=
  let group := replicate (Z.to_nat sizeof_BroadcastFrameGroup) x00 in
  let* (get_ret, group) := take_broadcast_group can_id group in
  if negb (get_ret =? 1) then ret tt else
  let* _ := send_broadcast_group_for_channel can_id (group_unpack group) in
  ret tt.
End Broadcast.

#[global] Arguments poll_loop : simpl never.

(** ** The selection as a function *)

Definition poll_select (cfg : BroadcastSchedulerConfig) : option Z :=
  poll_loop channels_loop (bs_poll_next_channel cfg) (Z.land (bs_active_mask cfg) BCAST_CAN_MASK).

(** The mask a pulse wakes and the configuration it leaves. *)
Definition select_mask (cfg : BroadcastSchedulerConfig) : Z * BroadcastSchedulerConfig :=
  if negb (bs_enable cfg =? BCAST_ENABLE) then (0, cfg) else
  if bs_mode cfg =? BCAST_MODE_SIMULTANEOUS then (Z.land (bs_active_mask cfg) BCAST_CAN_MASK, cfg)
  else if bs_mode cfg =? BCAST_MODE_POLLING then
    match poll_select cfg with
    | Some ch => (Z.land (Z.shiftl 1 ch) BCAST_CAN_MASK, set_poll_next ((ch + 1) mod AXICAN_MAX) cfg)
    | None => (0, cfg)
    end
  else if bs_mode cfg =? BCAST_MODE_AB_ALTERNATE then
    if bs_current_group cfg =? 0
    then (Z.land (bs_group_a_mask cfg) BCAST_CAN_MASK, set_current_group 1 cfg)
    else (Z.land (bs_group_b_mask cfg) BCAST_CAN_MASK, set_current_group 0 cfg)
  else (0, cfg).

Definition with_cfg (c : BroadcastSchedulerConfig) (w : world) : world :=
  set_bc (set_bc_cfg c (w_bc w)) w.
Definition with_pending (p : list Z) (w : world) : world :=
  set_bc (set_bc_pending p (w_bc w)) w.
Definition with_gate (o u : Z) (w : world) : world := set_bc (set_bc_gate o u (w_bc w)) w.

Lemma select_eq w :
  held_below 3 w ->
  select_broadcast_mask_on_pps w =
    Some ((select_mask (g_bcast_cfg (w_bc w))).1, with_cfg (select_mask (g_bcast_cfg (w_bc w))).2 w).
Proof.
  intros Hb. unfold select_broadcast_mask_on_pps, select_mask, poll_select.
  unfold bind at 1. rewrite mutex_lock_eq by (eapply lock_free_below; [done | simpl; lia]).
  unfold bind, gets, ret, modify. simpl.
  set (cfg := g_bcast_cfg (w_bc w)).
  assert (w = with_cfg cfg w) as Hid by (destruct w as [? ? ? ? ? ? ? ? ? ? ? ? [] ? ?]; done).
  destruct (negb (bs_enable cfg =? BCAST_ENABLE)); simpl.
  { rewrite (mutex_unlock_eq _ (w_held w)) by done. rewrite set_held_restore by done. simpl. by rewrite <- Hid. }
  repeat match goal with
  | |- context [if ?b then _ else _] => destruct b
  | |- context [match poll_loop ?a ?b ?c with _ => _ end] => destruct (poll_loop a b c)
  end; simpl; rewrite (mutex_unlock_eq _ (w_held w)) by done; simpl;
    try (rewrite <- Hid); by destruct w.
Qed.

(** [k] successive pulses: the masks they select and the configuration left. *)
Fixpoint select_iter (k : nat) (cfg : BroadcastSchedulerConfig) : list Z * BroadcastSchedulerConfig :=
  match k with
  | O => ([], cfg)
  | S k' => let '(m, cfg') := select_mask cfg in
            let '(ms, cfg'') := select_iter k' cfg' in (m :: ms, cfg'')
  end.

(** The number of active channels of a mask. *)
Definition active_channels (mask : Z) : list Z :=
  filter (fun ch => Z.testbit mask ch = true) channels_loop.

Definition poll_cfg (active next : Z) : BroadcastSchedulerConfig :=
  mk_sched 1 2 0 0 0 next active 0 0 0.

Lemma poll_cfg_select cfg :
  bs_enable cfg = BCAST_ENABLE -> bs_mode cfg = BCAST_MODE_POLLING ->
  select_mask cfg =
    let '(m, c) := select_mask (poll_cfg (bs_active_mask cfg) (bs_poll_next_channel cfg)) in
    (m, set_poll_next (bs_poll_next_channel c) cfg).
Proof.
  intros He Hm. unfold select_mask, poll_select. rewrite He, Hm. simpl.
  destruct (poll_loop _ _ _); [done | by destruct cfg].
Qed.

Lemma poll_cfg_iter k cfg :
  bs_enable cfg = BCAST_ENABLE -> bs_mode cfg = BCAST_MODE_POLLING ->
  (select_iter k cfg).1 =
    (select_iter k (poll_cfg (bs_active_mask cfg) (bs_poll_next_channel cfg))).1.
Proof.
  revert cfg. induction k as [|k IH]; intros cfg He Hm; [done|]. simpl.
  rewrite (poll_cfg_select cfg) by done.
  assert (exists m n, select_mask (poll_cfg (bs_active_mask cfg) (bs_poll_next_channel cfg)) =
    (m, poll_cfg (bs_active_mask cfg) n)) as (m & n & ->).
  { unfold select_mask, poll_select. simpl. destruct (poll_loop _ _ _); by eexists _, _. }
  simpl. specialize (IH (set_poll_next n cfg) He Hm). simpl in IH.
  destruct (select_iter k (set_poll_next n cfg)), (select_iter k (poll_cfg _ n)).
  simpl in *. by rewrite IH.
Qed.

(** Every mask and every position of the polling mode, by computation. *)
Definition poll_round_ok (active next : Z) : bool :=
  let n := length (active_channels active) in
  let ms := (select_iter n (poll_cfg active next)).1 in
  bool_decide (ms ⊆+ (Z.shiftl 1 <$> active_channels active)) && (length ms =? n)%nat.

Lemma poll_round_all :
  forallb (fun a => forallb (poll_round_ok (Z.of_nat a)) channels_loop) (seq 0 64) = true.
Proof. vm_compute. reflexivity. Qed.

Lemma poll_round active next :
  0 <= active < 64 -> 0 <= next < 6 -> poll_round_ok active next = true.
Proof.
  intros Ha Hn. pose proof poll_round_all as Hall. rewrite forallb_forall in Hall.
  specialize (Hall (Z.to_nat active)). rewrite Z2Nat.id in Hall by lia.
  assert (In (Z.to_nat active) (seq 0 64)) as Hin by (apply in_seq; lia).
  specialize (Hall Hin). rewrite forallb_forall in Hall. apply Hall.
  simpl. lia.
Qed.

Lemma select_mask_wf cfg : sched_wf cfg -> sched_wf (select_mask cfg).2.
Proof.
  intros []. unfold select_mask.
  repeat match goal with
  | |- context [if ?b then _ else _] => destruct b
  | |- context [match poll_select cfg with _ => _ end] => destruct (poll_select cfg)
  end; split; simpl; try done; by apply Z.mod_pos_bound.
Qed.

(** A pulse changes nothing of the configuration but the position. *)
Definition same_schedule (c c' : BroadcastSchedulerConfig) : Prop :=
  bs_enable c' = bs_enable c /\ bs_mode c' = bs_mode c /\
  bs_active_mask c' = bs_active_mask c /\ bs_group_a_mask c' = bs_group_a_mask c /\
  bs_group_b_mask c' = bs_group_b_mask c.

Lemma select_mask_same cfg : same_schedule cfg (select_mask cfg).2.
Proof.
  unfold select_mask.
  repeat match goal with
  | |- context [if ?b then _ else _] => destruct b
  | |- context [match poll_select cfg with _ => _ end] => destruct (poll_select cfg)
  end; done.
Qed.

Lemma select_iter_wf k cfg :
  sched_wf cfg -> sched_wf (select_iter k cfg).2 /\ same_schedule cfg (select_iter k cfg).2.
Proof.
  revert cfg. induction k as [|k IH]; intros cfg Hwf; [done|]. simpl.
  pose proof (select_mask_wf cfg Hwf) as Hwf'. pose proof (select_mask_same cfg) as Hs.
  destruct (select_mask cfg) as [m c]. simpl in *. specialize (IH c Hwf').
  destruct (select_iter k c) as [ms c']. simpl in *. destruct IH as [? Hs'].
  split; [done|]. unfold same_schedule in *. intuition congruence.
Qed.

Section Pulses.
Context `{OS}.
#[local] Open Scope c_scope.

(** The masks of [n] successive pulses. *)
Fixpoint select_times (n : nat) : M world (list Z) :=
  match n with
  | O => ret []
  | S n' => let* m := select_broadcast_mask_on_pps in
            let* ms := select_times n' in ret (m :: ms)
  end.
End Pulses.

Lemma select_times_eq n w :
  held_below 3 w ->
  select_times n w =
    Some ((select_iter n (g_bcast_cfg (w_bc w))).1, with_cfg (select_iter n (g_bcast_cfg (w_bc w))).2 w).
Proof.
  revert w. induction n as [|n IH]; intros w Hb; simpl.
  { by destruct w as [? ? ? ? ? ? ? ? ? ? ? ? [] ? ?]. }
  unfold bind. rewrite select_eq by done. rewrite IH by done. simpl.
  destruct (select_mask _) as [m c]. simpl. by destruct (select_iter n c).
Qed.

(** C36. Fair polling: in polling mode, whatever the position, as many
    successive pulses as there are active channels select each active channel
    exactly once and no other, and leave a valid configuration of the same
    schedule, so the same holds again from there. *)
Theorem polling_round_robin w :
  held_below 3 w -> sched_wf (g_bcast_cfg (w_bc w)) ->
  bs_enable (g_bcast_cfg (w_bc w)) = BCAST_ENABLE ->
  bs_mode (g_bcast_cfg (w_bc w)) = BCAST_MODE_POLLING ->
  let active := active_channels (bs_active_mask (g_bcast_cfg (w_bc w))) in
  exists ms cfg',
    select_times (length active) w = Some (ms, with_cfg cfg' w) /\
    ms ≡ₚ (Z.shiftl 1 <$> active) /\
    sched_wf cfg' /\ same_schedule (g_bcast_cfg (w_bc w)) cfg'.
Proof.
  intros Hb Hwf He Hm active. eexists _, _. split; [by apply select_times_eq|].
  split; [|by apply select_iter_wf].
  rewrite poll_cfg_iter by done.
  pose proof (poll_round (bs_active_mask (g_bcast_cfg (w_bc w)))
    (bs_poll_next_channel (g_bcast_cfg (w_bc w))) (sw_active _ Hwf) (sw_poll _ Hwf)) as Hok.
  unfold poll_round_ok in Hok. fold active in Hok.
  apply andb_true_iff in Hok as [Hsub%bool_decide_eq_true Hlen%Nat.eqb_eq].
  apply submseteq_length_Permutation; [done|]. by rewrite length_fmap, Hlen.
Qed.

Definition polling_world : world :=
  with_cfg (mk_sched 1 2 0 0 4 4 0x2B 0 0 1) boot_world.

Lemma polling_round_robin_witness :
  exists ms cfg',
    select_times 4 polling_world = Some (ms, with_cfg cfg' polling_world) /\
    ms ≡ₚ [1; 2; 8; 32] /\ sched_wf cfg' /\ same_schedule (g_bcast_cfg (w_bc polling_world)) cfg'.
Proof.
  apply (polling_round_robin polling_world); [constructor | split; simpl; done | done | done].
Defined.

Lemma land_can_mask m : 0 <= m < 64 -> Z.land m BCAST_CAN_MASK = m.
Proof. intros Hm. change BCAST_CAN_MASK with (Z.ones 6). rewrite Z.land_ones by lia. apply Z.mod_small. lia. Qed.

Lemma select_disabled cfg : bs_enable cfg <> BCAST_ENABLE -> select_mask cfg = (0, cfg).
Proof. intros He. unfold select_mask. by rewrite (proj2 (Z.eqb_neq _ _)). Qed.

Lemma select_simultaneous cfg :
  sched_wf cfg -> bs_enable cfg = BCAST_ENABLE -> bs_mode cfg = BCAST_MODE_SIMULTANEOUS ->
  select_mask cfg = (bs_active_mask cfg, cfg).
Proof. intros [] He Hm. unfold select_mask. rewrite He, Hm. simpl. by rewrite land_can_mask. Qed.

Lemma select_alternate cfg :
  sched_wf cfg -> bs_enable cfg = BCAST_ENABLE -> bs_mode cfg = BCAST_MODE_AB_ALTERNATE ->
  select_mask cfg =
    (if Z.even (bs_current_group cfg) then bs_group_a_mask cfg else bs_group_b_mask cfg,
     set_current_group (1 - bs_current_group cfg) cfg).
Proof.
  intros [] He Hm. unfold select_mask. rewrite He, Hm. simpl.
  assert (bs_current_group cfg = 0 \/ bs_current_group cfg = 1) as [-> | ->] by lia;
    simpl; by rewrite land_can_mask.
Qed.

Lemma select_iter_modes n i cfg :
  sched_wf cfg -> (i < n)%nat ->
  length (select_iter n cfg).1 = n /\
  (bs_enable cfg <> BCAST_ENABLE -> (select_iter n cfg).1 !! i = Some 0) /\
  (bs_enable cfg = BCAST_ENABLE -> bs_mode cfg = BCAST_MODE_SIMULTANEOUS ->
   (select_iter n cfg).1 !! i = Some (bs_active_mask cfg)) /\
  (bs_enable cfg = BCAST_ENABLE -> bs_mode cfg = BCAST_MODE_AB_ALTERNATE ->
   (select_iter n cfg).1 !! i = Some (if Z.even (Z.of_nat i + bs_current_group cfg)
                     then bs_group_a_mask cfg else bs_group_b_mask cfg)).
Proof.
  revert i cfg. induction n as [|n IH]; intros i cfg Hwf Hi; [lia|]. simpl.
  pose proof (select_mask_wf cfg Hwf) as Hwf'. pose proof (select_mask_same cfg) as Hs.
  destruct (select_mask cfg) as [m c] eqn:Esel. simpl in *.
  assert (length (select_iter n c).1 = n) as Hlen.
  { destruct n as [|n]; [done|]. apply (IH 0%nat c Hwf'). lia. }
  destruct i as [|i]; simpl.
  - destruct (select_iter n c) as [ms c'] eqn:Eit. simpl in *.
    split_and!; [by rewrite Hlen | intros He | intros He Hm | intros He Hm].
    + rewrite select_disabled in Esel by done. by injection Esel as <- _.
    + rewrite select_simultaneous in Esel by done. by injection Esel as <- _.
    + rewrite select_alternate in Esel by done. by injection Esel as <- _.
  - destruct (IH i c Hwf' ltac:(lia)) as (_ & H1 & H2 & H3). destruct Hs as (S1 & S2 & S3 & S4 & S5).
    destruct (select_iter n c) as [ms c'] eqn:Eit. simpl in *.
    split_and!; [by rewrite Hlen | intros He | intros He Hm | intros He Hm].
    + apply H1. congruence.
    + rewrite H2 by congruence. by rewrite S3.
    + rewrite H3, S4, S5 by congruence. rewrite select_alternate in Esel by done.
      injection Esel as _ <-. simpl. do 2 f_equal.
      replace (Z.of_nat i + (1 - bs_current_group cfg))
        with (Z.pos (Pos.of_succ_nat i) + bs_current_group cfg + 2 * (- bs_current_group cfg)) by lia.
      by rewrite Z.even_add_mul_2.
Qed.

(** The other modes: when the schedule is enabled, every pulse of the
    simultaneous mode selects the active mask, and the pulses of the alternate
    mode select the two group masks in turn, beginning with the current group;
    when it is disabled every pulse selects nothing. *)
Theorem alternate_and_simultaneous w n i :
  held_below 3 w -> sched_wf (g_bcast_cfg (w_bc w)) -> (i < n)%nat ->
  let cfg := g_bcast_cfg (w_bc w) in
  exists ms cfg',
    select_times n w = Some (ms, with_cfg cfg' w) /\ length ms = n /\
    (bs_enable cfg <> BCAST_ENABLE -> ms !! i = Some 0) /\
    (bs_enable cfg = BCAST_ENABLE -> bs_mode cfg = BCAST_MODE_SIMULTANEOUS ->
     ms !! i = Some (bs_active_mask cfg)) /\
    (bs_enable cfg = BCAST_ENABLE -> bs_mode cfg = BCAST_MODE_AB_ALTERNATE ->
     ms !! i = Some (if Z.even (Z.of_nat i + bs_current_group cfg)
                     then bs_group_a_mask cfg else bs_group_b_mask cfg)).
Proof.
  intros Hb Hwf Hi cfg. eexists _, _. split; [by apply select_times_eq|].
  by apply select_iter_modes.
Qed.

Definition alternate_world : world :=
  with_cfg (mk_sched 1 3 1 1 0 0 0 0x05 0x3A 1) boot_world.

Lemma alternate_and_simultaneous_witness :
  let cfg := g_bcast_cfg (w_bc alternate_world) in
  exists ms cfg',
    select_times 3 alternate_world = Some (ms, with_cfg cfg' alternate_world) /\ length ms = 3%nat /\
    (bs_enable cfg <> BCAST_ENABLE -> ms !! 1%nat = Some 0) /\
    (bs_enable cfg = BCAST_ENABLE -> bs_mode cfg = BCAST_MODE_SIMULTANEOUS ->
     ms !! 1%nat = Some (bs_active_mask cfg)) /\
    (bs_enable cfg = BCAST_ENABLE -> bs_mode cfg = BCAST_MODE_AB_ALTERNATE ->
     ms !! 1%nat = Some (if Z.even (Z.of_nat 1 + bs_current_group cfg)
                     then bs_group_a_mask cfg else bs_group_b_mask cfg)).
Proof.
  apply (alternate_and_simultaneous alternate_world 3 1);
    [constructor | split; simpl; done | lia].
Defined.

(** ** The transactions *)

Record bc_frame (w w' : world) : Prop := {
  bf_configs : w_configs w' = w_configs w;
  bf_axican : w_axican w' = w_axican w;
  bf_download : data_download_socket w' = data_download_socket w;
  bf_held : w_held w' = w_held w;
  bf_counts : length (w_frame_count w) = 6%nat -> Forall is_u32 (w_frame_count w) ->
    length (w_frame_count w') = 6%nat /\ Forall is_u32 (w_frame_count w');
  bf_counter : is_u16 (data_counter w) -> is_u16 (data_counter w');
  bf_extends : extends w w';
  bf_bufs : forall n ch, n <> BcastGroup -> 0 <= ch ->
    buf_queue n ch (w_bufs w') = buf_queue n ch (w_bufs w)
}.

#[export] Instance bc_frame_preorder : PreOrder bc_frame.
Proof.
  split.
  - intros w. split; auto; reflexivity.
  - intros w1 w2 w3 [] []. split; try congruence; try (by etransitivity); try by auto.
    + intros H1 H2. destruct (bf_counts0 H1 H2). auto.
    + intros n ch Hn Hch. by rewrite bf_bufs1, bf_bufs0.
Qed.

Lemma net_only_bc_frame w w' : net_only w w' -> bc_frame w w'.
Proof. intros []. split; try done. intros n ch _ _. by rewrite no_bufs. Qed.

Lemma bc_frame_wf w w' :
  bc_frame w w' -> world_wf w -> bufs_wf (w_bufs w') -> groups_wf (w_bufs w') ->
  bcast_wf (w_bc w') -> world_wf w'.
Proof.
  intros [Hc Ha Hd Hh Hn Hdc He Hb] [Hc' Hn1 Hn2 Ha' Hdc' Hb' Hg' Hbc'] H1 H2 H3.
  destruct (Hn Hn1 Hn2). split; rewrite ?Hc, ?Ha; auto.
Qed.

(** An update of the broadcast state and of its queues. *)
Definition bc_upd (b : buffers) (p : list Z) (w : world) : world := set_bufs b (with_pending p w).

Lemma bc_upd_frame b p w :
  (forall n ch, n <> BcastGroup -> 0 <= ch -> buf_queue n ch b = buf_queue n ch (w_bufs w)) ->
  bc_frame w (bc_upd b p w).
Proof. intros Hb. split; try done. by exists []. Qed.

Lemma with_gate_frame o u w : bc_frame w (with_gate o u w).
Proof. split; try done. by exists []. Qed.

Lemma with_cfg_frame c w : bc_frame w (with_cfg c w).
Proof. split; try done. by exists []. Qed.

Section Transactions.
Context `{OS}.

(** The clock the gate reads. *)
Definition now_ms (w : world) : Z :=
  if os_ret (w_hist w) (SysClock true) =? 0
  then u64 (u64 (os_clock (w_hist w) true).1 * 1000 + u64 (os_clock (w_hist w) true).2 / 1000000)
  else 0.

Lemma monotonic_ms_eq w : monotonic_ms w = Some (now_ms w, add_call (SysClock true) w).
Proof.
  unfold monotonic_ms, now_ms, clock_gettime, bind, ret.
  destruct (os_clock (w_hist w) true) as [sec nsec]. by destruct (_ =? 0).
Qed.

Lemma set_gate_eq w :
  held_below 3 w ->
  set_broadcast_rx_gate 1 w =
    Some (tt, with_gate 1 (u64 (now_ms w + BCAST_PPS_RX_WINDOW_MS)) (add_call (SysClock true) w)).
Proof.
  intros Hb. unfold set_broadcast_rx_gate. unfold bind at 1.
  rewrite mutex_lock_eq by (eapply lock_free_below; [done | simpl; lia]). simpl.
  unfold bind. rewrite monotonic_ms_eq. unfold modify. simpl.
  rewrite (mutex_unlock_eq _ (w_held w)) by done. by destruct w.
Qed.

(** Whether the gate lets a group in, and the state after asking. *)
Definition gate_open (w : world) : bool :=
  negb (g_bcast_rx_gate_open (w_bc w) =? 0) && (now_ms w <=? g_bcast_rx_gate_until_ms (w_bc w)).

Definition gate_asked (w : world) : world :=
  let w1 := if g_bcast_rx_gate_open (w_bc w) =? 0 then w else add_call (SysClock true) w in
  if gate_open w then w1 else with_gate 0 0 w1.

Lemma is_gate_open_eq w :
  held_below 3 w -> is_broadcast_rx_gate_open w = Some (gate_open w, gate_asked w).
Proof.
  intros Hb. unfold is_broadcast_rx_gate_open, gate_asked, gate_open. unfold bind at 1.
  rewrite mutex_lock_eq by (eapply lock_free_below; [done | simpl; lia]).
  unfold bind, gets, ret, modify. simpl.
  destruct (g_bcast_rx_gate_open (w_bc w) =? 0); simpl.
  - rewrite (mutex_unlock_eq _ (w_held w)) by done. by destruct w.
  - rewrite monotonic_ms_eq. simpl.
    change (now_ms (set_held _ w)) with (now_ms w).
    destruct (now_ms w <=? _); simpl; rewrite (mutex_unlock_eq _ (w_held w)) by done;
      by destruct w.
Qed.

Lemma gate_asked_frame w : bc_frame w (gate_asked w).
Proof.
  unfold gate_asked. etransitivity; [|case_match; [reflexivity | apply with_gate_frame]].
  case_match; [done | apply net_only_bc_frame, net_only_add_call].
Qed.

(** The identifier of the next group; zero is never given. *)
Definition next_id (w : world) : Z :=
  let id := g_bcast_group_id (w_bc w) in if id =? 0xFFFFFFFF then 1 else u32 (id + 1).

Lemma next_group_id_eq w :
  held_below 3 w ->
  next_broadcast_group_id w =
    Some (next_id w, set_bc (set_bc_group_id (next_id w) (w_bc w)) w).
Proof.
  intros Hb. unfold next_broadcast_group_id. unfold bind at 1.
  rewrite mutex_lock_eq by (eapply lock_free_below; [done | simpl; lia]).
  unfold bind, gets, ret, modify. simpl.
  rewrite (mutex_unlock_eq _ (w_held w)) by done. by destruct w.
Qed.

(** ** Resetting *)

Lemma reset_loop l w :
  held_below 3 w -> bufs_wf (w_bufs w) -> length (g_bcast_pending (w_bc w)) = 6%nat ->
  Forall (fun ch => 0 <= ch < 6) l ->
  wp (foreach l (fun ch => bind (buf_reset BcastGroup ch AXICAN_MAX) (fun _ =>
        bind (mutex_lock (wake_mutex ch)) (fun _ =>
        bind (wake_set ch (fun _ => 0)) (fun _ => mutex_unlock (wake_mutex ch))))))
     (fun _ w' => exists b p, w' = bc_upd b p w /\ bufs_wf b /\ length p = 6%nat /\
        (forall n ch, 0 <= ch -> buf_queue n ch b =
           if decide (n = BcastGroup /\ ch ∈ l) then [] else buf_queue n ch (w_bufs w)) /\
        (forall i, (i < 6)%nat -> p !! i =
           if decide (Z.of_nat i ∈ l) then Some 0 else g_bcast_pending (w_bc w) !! i)) w.
Proof.
  intros Hb. revert w Hb. induction l as [|ch l IH]; intros w Hb Hbufs Hlen Hl; simpl.
  { apply wp_ret. exists (w_bufs w), (g_bcast_pending (w_bc w)).
    split; [by destruct w as [? ? ? ? ? ? ? ? ? ? ? ? [] ? ?]|].
    split_and!; [done | done | | done].
    intros n ch _. rewrite decide_False; [done | set_solver]. }
  apply list.Forall_cons in Hl as [Hch Hl].
  destruct (lookup_lt_is_Some_2 (g_bcast_pending (w_bc w)) (Z.to_nat ch)) as [v Hv]; [lia|].
  apply wp_bind, wp_bind. apply wp_buf_reset; [done | lia|].
  intros b1 Hb1 Honly Hq. simpl. apply wp_bind, wp_lock; [by eapply lock_free_below|].
  simpl. apply wp_bind. unfold wake_set. eapply wp_arr_upd; [lia | exact Hv|]. simpl.
  eapply wp_unlock; [done|]. simpl.
  set (p1 := <[Z.to_nat ch := 0]> (g_bcast_pending (w_bc w))).
  eapply wp_mono; [apply (IH (bc_upd b1 p1 w))|].
  - done.
  - done.
  - simpl. subst p1. by rewrite length_insert.
  - done.
  - intros [] w' (b & p & -> & Hb' & Hp & Hq' & Hp'). exists b, p.
    split; [by destruct w|]. split_and!; [done | done | |].
    + intros n c Hc. rewrite Hq' by done. simpl.
      destruct (decide (n = BcastGroup /\ c ∈ l)) as [[-> Hin]|Hnin].
      { by rewrite decide_True by set_solver. }
      destruct (decide (n = BcastGroup /\ c ∈ ch :: l)) as [[-> Hin]|Hnin'].
      * assert (c = ch) as -> by set_solver. rewrite Hq. unfold buf_chan_ok.
        simpl. unfold AXICAN_MAX. rewrite (proj2 (Z.ltb_lt _ _)) by lia. done.
      * apply Honly; [done|]. intros [= -> ->]. set_solver.
    + intros i Hi. rewrite Hp' by done. simpl. subst p1.
      destruct (decide (Z.of_nat i ∈ l)); [by rewrite decide_True by set_solver|].
      destruct (decide (Z.of_nat i = ch)) as [<-|Hne].
      * rewrite decide_True by set_solver. rewrite Nat2Z.id, list_lookup_insert_eq by lia. done.
      * rewrite decide_False by set_solver. rewrite list_lookup_insert_ne by lia. done.
Qed.
(** A channel that does not exist has no queue. *)
Lemma buf_queue_out n ch b : bufs_wf b -> buf_chans n <= ch -> buf_queue n ch b = [].
Proof.
  intros Hb Hch. destruct (Hb n) as ((l & chs & Hc & Hlen & _) & Hm & _).
  unfold buf_queue, chan_queue, channel_at. rewrite Hc. simpl.
  rewrite lookup_ge_None_2; [done | zlia].
Qed.

Lemma channels_loop_elem ch : ch ∈ channels_loop <-> 0 <= ch < 6.
Proof. unfold channels_loop. rewrite !list.elem_of_cons, elem_of_nil. lia. Qed.

Definition no_pending : list Z := replicate 6 0.

Lemma pending_ext (p q : list Z) :
  length p = 6%nat -> length q = 6%nat -> (forall i, (i < 6)%nat -> p !! i = q !! i) -> p = q.
Proof.
  intros Hp Hq Heq. apply list_eq. intros i. destruct (decide (i < 6)%nat); [by apply Heq|].
  rewrite !lookup_ge_None_2; [done | lia..].
Qed.

Lemma reset_buffers_spec w :
  held_below 3 w -> bufs_wf (w_bufs w) -> length (g_bcast_pending (w_bc w)) = 6%nat ->
  wp reset_broadcast_buffers
     (fun _ w' => exists b, w' = with_gate 0 0 (bc_upd b no_pending w) /\ bufs_wf b /\
        (forall ch, 0 <= ch -> buf_queue BcastGroup ch b = []) /\
        (forall n ch, n <> BcastGroup -> 0 <= ch ->
           buf_queue n ch b = buf_queue n ch (w_bufs w))) w.
Proof.
  intros Hb Hbufs Hlen. unfold reset_broadcast_buffers. apply wp_bind.
  eapply wp_mono; [apply reset_loop; try done|].
  { apply list.Forall_forall. intros ch Hch. by apply channels_loop_elem. }
  intros [] w' (b & p & -> & Hb' & Hp & Hq & Hp'). simpl.
  apply wp_bind, wp_lock; [by eapply lock_free_below|]. simpl.
  apply wp_bind, wp_modify. simpl. eapply wp_unlock; [done|].
  assert (p = no_pending) as ->.
  { apply pending_ext; [done..|]. intros i Hi. rewrite Hp' by done.
    rewrite decide_True by (apply channels_loop_elem; lia).
    unfold no_pending. by rewrite lookup_replicate_2. }
  exists b. split; [by destruct w|]. split_and!; [done | |].
  - intros ch Hch. destruct (decide (ch < 6)).
    + rewrite Hq by done. rewrite decide_True; [done|]. split; [done | apply channels_loop_elem; lia].
    + apply buf_queue_out; [done | simpl; lia].
  - intros n ch Hn Hch. rewrite Hq by done. rewrite decide_False; [done | naive_solver].
Qed.

(** ** Waking *)

Definition wake_pending (mask : Z) (l : list Z) (p : list Z) : list Z :=
  imap (fun i v => if decide (Z.of_nat i ∈ l /\ Z.land mask (Z.shiftl 1 (Z.of_nat i)) <> 0)
                   then u32 (v + 1) else v) p.

Definition signals (mask : Z) (l : list Z) : list syscall :=
  SysSignal <$> rev (filter (fun ch => Z.land mask (Z.shiftl 1 ch) <> 0) l).

Definition add_calls (cs : list syscall) (w : world) : world := set_hist (cs ++ w_hist w) w.

Lemma wake_pending_length mask l p : length (wake_pending mask l p) = length p.
Proof. apply length_imap. Qed.

Lemma wake_pending_cons mask ch l p :
  ~ ch ∈ l -> 0 <= ch -> Z.land mask (Z.shiftl 1 ch) <> 0 ->
  forall v, p !! Z.to_nat ch = Some v ->
  wake_pending mask l (<[Z.to_nat ch := u32 (v + 1)]> p) = wake_pending mask (ch :: l) p.
Proof.
  intros Hnin Hch Hm v Hv. apply list_eq. intros i. unfold wake_pending.
  rewrite !list_lookup_imap. destruct (decide (i = Z.to_nat ch)) as [->|Hne].
  - rewrite list_lookup_insert_eq by (by eapply lookup_lt_Some). rewrite Hv. simpl.
    rewrite Z2Nat.id by done. rewrite decide_False by naive_solver.
    by rewrite decide_True by set_solver.
  - rewrite list_lookup_insert_ne by done. destruct (p !! i) as [x|]; [|done]. simpl.
    do 2 f_equal. destruct (decide (Z.of_nat i ∈ l /\ _)) as [[H1 H2]|H1].
    + by rewrite decide_True by set_solver.
    + rewrite decide_False; [done|]. intros [[Heq|Hin]%list.elem_of_cons ?]; [lia | naive_solver].
Qed.

Lemma wake_pending_skip mask ch l p :
  Z.land mask (Z.shiftl 1 ch) = 0 -> wake_pending mask l p = wake_pending mask (ch :: l) p.
Proof.
  intros Hm. apply list_eq. intros i. unfold wake_pending. rewrite !list_lookup_imap.
  destruct (p !! i) as [x|]; [|done]. simpl. f_equal.
  destruct (decide (Z.of_nat i ∈ l /\ _)) as [[H1 H2]|H1].
  - by rewrite decide_True by set_solver.
  - rewrite decide_False; [done|]. intros [[Heq|Hin]%list.elem_of_cons Hne]; [|naive_solver].
    by rewrite Heq in Hne.
Qed.

Lemma notify_loop mask l w :
  held_below 3 w -> length (g_bcast_pending (w_bc w)) = 6%nat -> NoDup l ->
  Forall (fun ch => 0 <= ch < 6) l ->
  foreach l (fun ch =>
    if Z.land mask (Z.shiftl 1 ch) =? 0 then ret tt else
    bind (mutex_lock (wake_mutex ch)) (fun _ =>
    bind (wake_set ch (fun pending => u32 (pending + 1))) (fun _ =>
    bind (sys (SysSignal ch)) (fun _ => mutex_unlock (wake_mutex ch))))) w =
  Some (tt, add_calls (signals mask l) (with_pending (wake_pending mask l (g_bcast_pending (w_bc w))) w)).
Proof.
  intros Hb. revert w Hb. induction l as [|ch l IH]; intros w Hb Hlen Hnd Hl; simpl.
  { unfold ret. do 2 f_equal. assert (wake_pending mask [] (g_bcast_pending (w_bc w)) =
      g_bcast_pending (w_bc w)) as ->.
    { apply list_eq. intros i. unfold wake_pending. rewrite list_lookup_imap.
      by destruct (_ !! i). }
    by destruct w as [? ? ? ? ? ? ? ? ? ? ? ? [] ? ?]. }
  apply list.Forall_cons in Hl as [Hch Hl]. apply list.NoDup_cons in Hnd as [Hnin Hnd].
  unfold bind at 1. unfold signals. rewrite filter_cons.
  destruct (Z.eqb_spec (Z.land mask (Z.shiftl 1 ch)) 0) as [Hz|Hnz].
  - unfold ret. rewrite IH by done. rewrite <- (wake_pending_skip mask ch) by done.
    by rewrite decide_False by (intros ?; done).
  - destruct (lookup_lt_is_Some_2 (g_bcast_pending (w_bc w)) (Z.to_nat ch)) as [v Hv]; [lia|].
    unfold bind at 1. rewrite mutex_lock_eq by (by eapply lock_free_below).
    unfold bind, wake_set, arr_upd, sys. rewrite (proj2 (Z.ltb_ge _ _)) by lia. simpl.
    rewrite Hv. simpl. rewrite (mutex_unlock_eq _ (w_held w)) by done.
    rewrite IH; [| done | simpl; by rewrite length_insert | done | done].
    simpl. rewrite (wake_pending_cons _ _ _ _ Hnin (proj1 Hch) Hnz v Hv).
    rewrite decide_True by done. simpl. rewrite fmap_app. do 2 f_equal.
    unfold add_calls, signals. destruct w. simpl. by rewrite <- app_assoc.
Qed.
End Transactions.

(** ** The pulse transaction *)

Section Pps.
Context `{OS}.

Definition pps_result (w : world) : world :=
  let w1 := with_gate 1 (u64 (now_ms w + BCAST_PPS_RX_WINDOW_MS)) (add_call (SysClock true) w) in
  let (m, cfg) := select_mask (g_bcast_cfg (w_bc w)) in
  let w2 := with_cfg cfg w1 in
  if m =? 0 then w2 else
  add_calls (signals m channels_loop)
    (with_pending (wake_pending m channels_loop (g_bcast_pending (w_bc w))) w2).

Lemma channels_loop_ok : NoDup channels_loop /\ Forall (fun ch => 0 <= ch < 6) channels_loop.
Proof.
  split; [by apply (bool_decide_unpack _)|].
  apply list.Forall_forall. intros ch Hch. by apply channels_loop_elem.
Qed.

Lemma pps_eq w :
  held_below 2 w -> length (g_bcast_pending (w_bc w)) = 6%nat ->
  process_broadcast_pps w = Some (tt, pps_result w).
Proof.
  intros Hb Hlen. destruct channels_loop_ok as [Hnd Hall].
  unfold process_broadcast_pps, pps_result. unfold bind at 1.
  rewrite mutex_lock_eq by (by eapply lock_free_below).
  set (h := bcast_state_mutex :: w_held w).
  assert (held_below 3 (set_held h w)) as Hb3.
  { constructor; [simpl; lia|]. by eapply held_below_mono; [|exact Hb]; lia. }
  unfold bind at 1. rewrite set_gate_eq by done.
  unfold bind at 1. rewrite select_eq by done. simpl.
  change (now_ms (set_held h w)) with (now_ms w).
  destruct (select_mask (g_bcast_cfg (w_bc w))) as [m cfg]. simpl.
  unfold bind, when. destruct (m =? 0); simpl.
  - unfold ret. rewrite (mutex_unlock_eq _ (w_held w)) by done. by destruct w.
  - unfold notify_broadcast_channels. rewrite notify_loop by done. simpl.
    rewrite (mutex_unlock_eq _ (w_held w)) by done. by destruct w.
Qed.

Lemma wake_pending_u32 m l p : Forall is_u32 p -> Forall is_u32 (wake_pending m l p).
Proof.
  intros Hp. unfold wake_pending. apply list.Forall_lookup. intros i x.
  rewrite list_lookup_imap. destruct (p !! i) as [v|] eqn:E; [|done]. simpl. intros [= <-].
  pose proof (Forall_lookup_1 _ _ _ _ Hp E).
  destruct (decide _); [apply wrap_range; lia | done].
Qed.

Lemma pps_bc w :
  bcast_wf (w_bc w) ->
  bcast_wf (w_bc (pps_result w)) /\ bc_frame w (pps_result w) /\
  w_bufs (pps_result w) = w_bufs w.
Proof.
  intros [Hsch Hlen Hpend Hid Hgate]. unfold pps_result.
  pose proof (select_mask_wf _ Hsch) as Hs.
  destruct (select_mask (g_bcast_cfg (w_bc w))) as [m cfg]. simpl in Hs.
  destruct (m =? 0); simpl; (split_and!; [| | done]).
  - split; simpl; try done. by right.
  - split; try done. by exists [SysClock true].
  - split; simpl; try done; [by rewrite wake_pending_length | by apply wake_pending_u32 | by right].
  - split; try done. exists (signals m channels_loop ++ [SysClock true]). simpl.
    by rewrite <- app_assoc.
Qed.
End Pps.

(** ** Configuring *)

Lemma land_high_mask m :
  is_u32 m -> Z.land m (Z.lxor 0xFFFFFFFF BCAST_CAN_MASK) = Z.shiftl (m / 64) 6.
Proof.
  intros Hm. change (Z.lxor 0xFFFFFFFF BCAST_CAN_MASK) with (Z.shiftl (Z.ones 26) 6).
  assert (Z.land m (Z.shiftl (Z.ones 26) 6) = Z.shiftl (Z.land (Z.shiftr m 6) (Z.ones 26)) 6) as ->.
  { apply Z.bits_inj'. intros i Hi. rewrite Z.land_spec.
    destruct (decide (i < 6)).
    - rewrite !Z.shiftl_spec_low by lia. apply andb_false_r.
    - rewrite !Z.shiftl_spec by lia. rewrite Z.land_spec, Z.shiftr_spec by lia.
      by replace (i - 6 + 6) with i by lia. }
  rewrite Z.land_ones, Z.shiftr_div_pow2 by lia. change (2 ^ 6) with 64.
  rewrite Z.mod_small; [done|]. unfold in_range in Hm.
  split; [apply Z.div_pos; lia | apply Z.div_lt_upper_bound; lia].
Qed.

Lemma validate_mask_spec m : is_u32 m -> validate_broadcast_mask m = true <-> m < 64.
Proof.
  intros Hm. unfold validate_broadcast_mask. rewrite land_high_mask by done.
  rewrite Z.eqb_eq, Z.shiftl_eq_0_iff by lia. unfold in_range in Hm.
  rewrite Z.div_small_iff by lia. lia.
Qed.

(** What the protocol asks of a schedule. *)
Definition schedule_valid (data : bytes) : Prop :=
  let p : BroadcastConfigParam := unpack data in
  bp_head p = PC_STATUS_HEAD /\ bp_direction p = 0 /\ bp_length p = 40 /\
  verifies 36 data /\
  (bp_enable p = 0 \/ bp_enable p = 1 /\ 1 <= bp_b_mode p <= 3) /\
  bp_active_mask p < 64 /\ bp_group_a_mask p < 64 /\ bp_group_b_mask p < 64 /\
  bp_start_channel p < 6 /\ bp_start_group p <= 1.

#[export] Instance schedule_valid_dec data : Decision (schedule_valid data).
Proof. unfold schedule_valid, verifies. apply _. Defined.

(** The checksum of a structure read from memory is that of the memory. *)
Lemma checksum_pack_unpack {A} `{Packed A} (bs : bytes) len :
  (psize (A := A) <= length bs)%nat -> (len <= psize (A := A))%nat ->
  calculate_xor_checksum (pack (unpack bs : A)) len = calculate_xor_checksum bs len.
Proof.
  intros Hlen Hle. rewrite <- (unpack_take bs), pack_unpack.
  - by apply calculate_xor_checksum_take.
  - rewrite length_take. lia.
Qed.

Section Config.
Context `{OS}.

Definition bcast_reply_result (status : Z) (w : world) : world :=
  if data_upload_socket w =? -1 then count_up w else
  upload_result (pack (command_reply 0x0104 (u16 (data_counter w + 1)) status)) (count_up w).

Lemma net_only_bcast_reply status w : net_only w (bcast_reply_result status w).
Proof.
  unfold bcast_reply_result. etransitivity; [apply net_only_count_up|].
  case_match; [done | apply net_only_upload].
Qed.

Definition refused (msg : bytes) (w : world) : world :=
  bcast_reply_result 1 (event_result EVENT_LEVEL_ERROR EVENT_CAN_SENT_FAILE msg w).

Lemma refuse_eq msg w : held_below 2 w -> refuse_broadcast_config msg w = Some (tt, refused msg w).
Proof.
  intros Hb. unfold refuse_broadcast_config, bind.
  rewrite send_event_eq by (eapply lock_free_below; [done | simpl; lia]).
  apply send_broadcast_config_response_eq.
  eapply held_below_eq; [apply w_held_event_result|]. by eapply held_below_mono; [|exact Hb]; lia.
Qed.

(** The state after an accepted schedule. *)
Definition scheduled (p : BroadcastConfigParam) (b : buffers) (w : world) : world :=
  with_gate 0 0 (bc_upd b no_pending (with_cfg (sched_of_param p) w)).

(** The tests of the handler, as the code orders them. *)
Lemma schedule_tests data :
  40 <= zlen data ->
  let p : BroadcastConfigParam := unpack data in
  schedule_valid data <->
  (negb (bp_head p =? PC_STATUS_HEAD) || negb (bp_direction p =? 0) || negb (bp_length p =? 40) =
     false) /\
  negb (bp_xor_checksum p =? calculate_xor_checksum data 36) = false /\
  negb (bp_enable p =? 0) && negb (bp_enable p =? BCAST_ENABLE) = false /\
  (bp_enable p =? BCAST_ENABLE) &&
    ((bp_b_mode p <? BCAST_MODE_SIMULTANEOUS) || (bp_b_mode p >? BCAST_MODE_AB_ALTERNATE)) =
    false /\
  negb (validate_broadcast_mask (bp_active_mask p)) ||
    negb (validate_broadcast_mask (bp_group_a_mask p)) ||
    negb (validate_broadcast_mask (bp_group_b_mask p)) ||
    (bp_start_channel p >=? AXICAN_MAX) || (bp_start_group p >? 1) = false.
Proof.
  intros Hdata p.
  assert (pwf p) as Hp.
  { apply unpack_wf. change (psize (A := BroadcastConfigParam)) with 40%nat.
    unfold zlen in Hdata. lia. }
  change (BroadcastConfigParam_wf p) in Hp. unfold BroadcastConfigParam_wf in Hp. destruct_and! Hp.
  assert (bp_xor_checksum p = fld 36 4 data) as Hx by done.
  pose proof (validate_mask_spec (bp_active_mask p) ltac:(done)) as V1.
  pose proof (validate_mask_spec (bp_group_a_mask p) ltac:(done)) as V2.
  pose proof (validate_mask_spec (bp_group_b_mask p) ltac:(done)) as V3.
  unfold schedule_valid, verifies. fold p. rewrite <- Hx.
  unfold BCAST_ENABLE, BCAST_MODE_SIMULTANEOUS, BCAST_MODE_AB_ALTERNATE, AXICAN_MAX.
  rewrite !orb_false_iff, !andb_false_iff, !orb_false_iff, !negb_false_iff.
  rewrite V1, V2, V3, !Z.geb_leb, !Z.gtb_ltb, !Z.eqb_eq, !Z.eqb_neq, !Z.ltb_ge, !Z.leb_gt. lia.
Qed.

Lemma config_spec sock req data w :
  held_below 2 w -> bufs_wf (w_bufs w) -> length (g_bcast_pending (w_bc w)) = 6%nat ->
  40 <= zlen data ->
  wp (handle_broadcast_config sock req data)
     (fun _ w' =>
        (schedule_valid data ->
          exists b, w' = bcast_reply_result 0 (scheduled (unpack data) b w) /\ bufs_wf b /\
            (forall ch, 0 <= ch -> buf_queue BcastGroup ch b = []) /\
            (forall n ch, n <> BcastGroup -> 0 <= ch ->
               buf_queue n ch b = buf_queue n ch (w_bufs w))) /\
        (~ schedule_valid data -> exists msg, w' = refused msg w)) w.
Proof.
  intros Hb Hbufs Hlen Hdata. unfold handle_broadcast_config.
  apply wp_bind, wp_cast; [done|]. pose proof (schedule_tests data Hdata) as Htests.
  cbv zeta in Htests |- *. set (p := unpack data : BroadcastConfigParam) in *.
  change (sizeof BroadcastConfigParam) with 40.
  change (psize (A := BroadcastConfigParam) - 4)%nat with 36%nat.
  assert (calculate_xor_checksum (pack p) 36 = calculate_xor_checksum data 36) as ->.
  { apply (checksum_pack_unpack (A := BroadcastConfigParam));
      change (psize (A := BroadcastConfigParam)) with 40%nat; unfold zlen in Hdata; lia. }
  match goal with |- wp _ ?R _ => set (Q := R) end.
  assert (forall msg, ~ schedule_valid data -> wp (refuse_broadcast_config msg) Q w) as Hrefuse.
  { intros msg Hnv. unfold wp. rewrite refuse_eq by done. split; [done|]. by exists msg. }
  repeat match goal with
  | |- wp (if ?b then refuse_broadcast_config _ else _) _ _ =>
      destruct b eqn:?; [apply Hrefuse; rewrite Htests; intros (? & ? & ? & ? & ?); congruence|]
  end.
  assert (schedule_valid data) as Hv by (apply Htests; done). clear Htests Hrefuse.
  apply wp_bind, wp_lock; [by eapply lock_free_below|]. simpl.
  apply wp_bind, wp_lock.
  { apply (lock_free_below _ 3); [|done]. constructor; [simpl; lia|].
    by eapply held_below_mono; [|exact Hb]; lia. }
  simpl. apply wp_bind, wp_modify. simpl. apply wp_bind. eapply wp_unlock; [done|]. simpl.
  apply wp_bind. eapply wp_mono; [apply reset_buffers_spec; try done|].
  { constructor; [simpl; lia|]. by eapply held_below_mono; [|exact Hb]; lia. }
  intros [] w1 (b & -> & Hb' & Hq & Hother). simpl.
  apply wp_bind. eapply wp_unlock; [done|]. simpl.
  unfold wp. rewrite send_broadcast_config_response_eq.
  2:{ by eapply held_below_mono; [|exact Hb]; lia. }
  subst Q. split; [|done]. intros _. exists b. split; [|done].
  unfold bcast_reply_result, scheduled. by destruct w.
Qed.
End Config.

(** ** Queueing *)

Lemma make_group_ok id frames :
  is_u32 id -> Forall pwf frames -> 1 <= zlen frames <= 128 -> group_ok (make_group id frames).
Proof.
  intros Hid Hf Hlen.
  assert (u16 (zlen frames) = zlen frames) as Hc by (apply wrap_small; unfold in_range; lia).
  unfold group_ok, group_wf. cbn [make_group bg_group_id bg_frame_count bg_frames].
  rewrite Hc. split; [|exact Hlen]. split_and!; [done | unfold in_range; lia | |].
  - rewrite length_app, length_fmap, length_replicate. unfold zlen in Hlen. lia.
  - apply list.Forall_app. split.
    + apply list.Forall_fmap. eapply list.Forall_impl; [exact Hf|]. intros f Hfr. simpl.
      change (PC_ARM_DATA_DATA_wf f) in Hfr. unfold PC_ARM_DATA_DATA_wf in Hfr. destruct_and! Hfr.
      change (axican_frame_wf (pc_can_payload_to_axican_frame f)).
      unfold axican_frame_wf. simpl. split_and!; try done; by apply reverse_4bytes_range.
    + by apply Forall_replicate.
Qed.

Lemma next_id_u32 w : is_u32 (next_id w).
Proof. unfold next_id. destruct (_ =? _); [done | apply wrap_range; lia]. Qed.

Lemma bufs_only_groups n ch b b' :
  bufs_only n ch b b' -> groups_wf b ->
  (n = BcastGroup -> 0 <= ch ->
   Forall (fun x => exists g, x = group_pack g /\ group_ok g) (buf_queue BcastGroup ch b')) ->
  groups_wf b'.
Proof.
  intros Ho Hg Hch c Hc. fold (buf_queue BcastGroup c b').
  destruct (decide ((BcastGroup, c) = (n, ch))) as [[= <- <-]|Hne]; [by apply Hch|].
  rewrite Ho by done. by apply Hg.
Qed.

Lemma buf_queue_bound n ch b :
  bufs_wf b -> 0 <= ch < buf_chans n -> zlen (buf_queue n ch b) <= buf_depth n.
Proof.
  intros Hb Hch. destruct (Hb n) as (Hwf & Hm & _ & Hc). rewrite <- Hc.
  apply chan_queue_bound; [done | by rewrite Hm].
Qed.

Section Enqueue.
Context `{OS}.

(** When a group is let into the queue of a channel. *)
Definition group_accepted (ch : Z) (frames : list PC_ARM_DATA_DATA) (w : world) : Prop :=
  1 <= zlen frames <= 128 /\ ch < 6 /\
  (exists c, w_configs w !! Z.to_nat ch = Some c /\ cf_valid c <> 0) /\
  gate_open w = true /\ zlen (buf_queue BcastGroup ch (w_bufs w)) < 16.

(** What a group transaction keeps of the broadcast state. *)
Definition sched_kept (w w' : world) : Prop :=
  g_bcast_cfg (w_bc w') = g_bcast_cfg (w_bc w) /\
  g_bcast_pending (w_bc w') = g_bcast_pending (w_bc w).

Definition enqueue_post (ch : Z) (frames : list PC_ARM_DATA_DATA) (w : world) (r : Z) (w' : world)
    : Prop :=
  world_wf w' /\ bc_frame w w' /\ sched_kept w w' /\
  (r = 0 /\ group_accepted ch frames w /\ bufs_only BcastGroup ch (w_bufs w) (w_bufs w') /\
     buf_queue BcastGroup ch (w_bufs w') =
       buf_queue BcastGroup ch (w_bufs w) ++ [group_pack (make_group (next_id w) frames)] \/
   r <> 0 /\ ~ group_accepted ch frames w /\ w_bufs w' = w_bufs w).

Lemma enqueue_refused ch frames w r w' :
  world_wf w -> r <> 0 -> ~ group_accepted ch frames w -> net_only w w' ->
  enqueue_post ch frames w r w'.
Proof.
  intros Hwf Hr Hna Hno. split; [by eapply net_only_wf|].
  split; [by apply net_only_bc_frame|].
  split; [unfold sched_kept; by rewrite (no_bc _ _ Hno)|].
  right. split_and!; [done..|]. by apply no_bufs.
Qed.

Lemma gate_asked_bc w :
  bcast_wf (w_bc w) ->
  bcast_wf (w_bc (gate_asked w)) /\ w_bufs (gate_asked w) = w_bufs w /\
  sched_kept w (gate_asked w) /\ w_configs (gate_asked w) = w_configs w /\
  w_held (gate_asked w) = w_held w /\
  g_bcast_group_id (w_bc (gate_asked w)) = g_bcast_group_id (w_bc w).
Proof.
  intros []. unfold gate_asked.
  destruct (gate_open w), (g_bcast_rx_gate_open (w_bc w) =? 0); split_and!; try done;
    split; simpl; try done; by left.
Qed.

Lemma enqueue_spec ch frames w :
  held_below 2 w -> world_wf w -> 0 <= ch -> Forall pwf frames ->
  wp (enqueue_broadcast_group ch frames) (enqueue_post ch frames w) w.
Proof.
  intros Hb Hwf Hch Hf. unfold enqueue_broadcast_group. cbv zeta.
  assert (forall msg (w0 := w), wp (bind (send_event EVENT_LEVEL_ERROR EVENT_CAN_SENT_FAILE msg)
    (fun _ => ret (- EINVAL))) (fun r w' => r = - EINVAL /\ net_only w w') w) as Hev.
  { intros msg w0. apply wp_bind. unfold wp.
    rewrite send_event_eq by (eapply lock_free_below; [done | simpl; lia]).
    split; [done | apply net_only_event]. }
  destruct ((zlen frames =? 0) || (zlen frames >? BCAST_MAX_FRAMES_PER_GROUP))%bool eqn:E1.
  { eapply wp_mono; [apply Hev|]. intros r w' [-> Hno]. apply enqueue_refused; try done.
    intros (Hl & _). unfold BCAST_MAX_FRAMES_PER_GROUP in *. bool_prop; lia. }
  unfold BCAST_MAX_FRAMES_PER_GROUP in E1. apply orb_false_iff in E1 as [E1 E2]. bool_prop.
  assert (1 <= zlen frames <= 128) as Hlen by (unfold zlen in *; lia).
  apply wp_bind.
  assert (wp (if ch >=? AXICAN_MAX then ret false else
      bind (config_at ch) (fun c => ret (negb (cf_valid c =? 0))))
    (fun v w' => w' = w /\ (v = true <-> ch < 6 /\
      exists c, w_configs w !! Z.to_nat ch = Some c /\ cf_valid c <> 0)) w) as Hvalid.
  { unfold AXICAN_MAX. destruct (ch >=? 6) eqn:E; bool_prop.
    { apply wp_ret. split; [done|]. split; [done|]. intros [? _]. lia. }
    destruct (ww_configs _ Hwf) as [Hl _].
    destruct (lookup_lt_is_Some_2 (w_configs w) (Z.to_nat ch)) as [c Hc]; [lia|].
    apply wp_bind. eapply wp_arr_get; [done | exact Hc|]. apply wp_ret. split; [done|].
    rewrite Hc, negb_true_iff, Z.eqb_neq. split; [|naive_solver].
    intros Hv. split; [lia|]. by exists c. }
  eapply wp_mono; [exact Hvalid|]. clear Hvalid. intros v w' [-> Hv].
  destruct v; simpl.
  2:{ eapply wp_mono; [apply Hev|]. intros r w' [-> Hno]. apply enqueue_refused; try done.
      intros (_ & H1 & H2 & _). by pose proof (proj2 Hv (conj H1 H2)). }
  destruct (proj1 Hv eq_refl) as [Hch6 Hcfg]. clear Hv Hev.
  apply wp_bind, wp_lock; [by eapply lock_free_below|]. simpl.
  set (h := bcast_state_mutex :: w_held w).
  assert (Forall (fun l => (lock_rank l < 3)%nat) h) as Hh.
  { constructor; [simpl; lia|]. by eapply list.Forall_impl; [exact Hb|]; simpl; lia. }
  unfold is_broadcast_pps_window_open, AXICAN_MAX. rewrite Z.geb_leb, (proj2 (Z.leb_gt _ _)) by done.
  apply wp_bind. unfold wp at 1. rewrite is_gate_open_eq by done. cbn beta iota.
  change (gate_open (set_held h w)) with (gate_open w).
  assert (gate_asked (set_held h w) = set_held h (gate_asked w)) as ->.
  { unfold gate_asked. change (gate_open (set_held h w)) with (gate_open w).
    destruct w. simpl. by repeat case_match. }
  destruct (gate_asked_bc w (ww_bc _ Hwf)) as (Hbc & Hbufs & Hkept & Hcf & Hheld & Hid).
  pose proof (gate_asked_frame w) as Hfr.
  set (w1 := gate_asked w) in *.
  assert (world_wf w1) as Hwf1.
  { apply (bc_frame_wf w); try done; rewrite Hbufs; apply Hwf. }
  destruct (gate_open w) eqn:Egate; simpl.
  2:{ apply wp_bind. eapply wp_unlock; [done|]. simpl. apply wp_ret.
      rewrite set_held_restore by done. split_and!; try done.
      right. split_and!; try done. by intros (_ & _ & _ & Hg & _); congruence. }
  apply wp_bind, wp_buf_avail; [apply Hwf1 | done |]. simpl.
  unfold buf_chan_ok. rewrite !(proj2 (Z.ltb_lt ch _)) by (simpl; lia). simpl.
  rewrite Hbufs.
  destruct (16 - zlen (buf_queue BcastGroup ch (w_bufs w)) =? 0) eqn:Efull; bool_prop.
  { apply wp_bind. eapply wp_unlock; [done|]. simpl. apply wp_ret.
    rewrite set_held_restore by done. split_and!; try done.
    right. split_and!; try done. intros (_ & _ & _ & _ & Hlt). lia. }
  assert (zlen (buf_queue BcastGroup ch (w_bufs w)) < 16) as Hroom.
  { pose proof (buf_queue_bound BcastGroup ch (w_bufs w) (ww_bufs _ Hwf)) as Hbd.
    simpl in Hbd. lia. }
  apply wp_bind. unfold wp at 1. rewrite next_group_id_eq by done. cbn beta iota zeta.
  assert (next_id (set_held h w1) = next_id w) as ->.
  { unfold next_id. simpl. by rewrite Hid. }
  set (id := next_id w). set (w2 := set_bc _ _).
  assert (group_ok (make_group id frames)) as Hg by (by apply make_group_ok; [apply next_id_u32 | |]).
  pose proof (group_pack_length _ (proj1 Hg)) as Hgl.
  apply wp_bind, wp_buf_put; [apply Hwf1 | done | by rewrite Hgl |].
  intros r b Hb' Honly Hq. simpl in Honly, Hq. rewrite Hbufs in Honly, Hq.
  unfold buf_chan_ok in Hq. rewrite !(proj2 (Z.ltb_lt ch _)) in Hq by (simpl; lia).
  simpl in Hq. unfold Fifo.put in Hq. rewrite (proj2 (Z.ltb_lt _ _)) in Hq by done.
  injection Hq as -> Hq. simpl. apply wp_bind. eapply wp_unlock; [done|]. simpl. apply wp_ret.
  rewrite take_ge in Hq by (unfold zlen in Hgl; lia).
  assert (set_held (w_held w) (set_bufs b w2) =
    set_bufs b (set_bc (set_bc_group_id id (w_bc w1)) w1)) as ->.
  { rewrite <- Hheld. subst w2. by destruct w1. }
  assert (groups_wf b) as Hgb.
  { eapply bufs_only_groups; [exact Honly | apply Hwf|]. intros _ _. rewrite Hq.
    apply list.Forall_app. split; [by apply (ww_groups _ Hwf)|]. constructor; [|constructor]. by eexists. }
  split_and!.
  - apply (bc_frame_wf w1); try done; [split; try done; [by exists []|] |].
    + intros n c Hn Hc. simpl. rewrite Honly, Hbufs; [done.. | congruence].
    + destruct Hbc. split; simpl; try done. apply next_id_u32.
  - etransitivity; [exact Hfr|]. split; try done; [by exists []|].
    intros n c Hn Hc. simpl. rewrite Honly, Hbufs; [done.. | congruence].
  - done.
  - left. split_and!; try done.
Qed.
End Enqueue.

(** ** Taking a group *)

Section Take.
Context `{OS}.

Definition take_post (ch : Z) (dst : bytes) (w : world) (res : Z * bytes) (w' : world) : Prop :=
  let '(r, dst') := res in
  exists p, g_bcast_pending (w_bc w) !! Z.to_nat ch = Some p /\
  if p =? 0 then r = 0 /\ dst' = dst /\ w' = w else
  exists b, w' = bc_upd b (<[Z.to_nat ch := p - 1]> (g_bcast_pending (w_bc w))) w /\
    bufs_wf b /\ bufs_only BcastGroup ch (w_bufs w) b /\
    exists c, w_configs w !! Z.to_nat ch = Some c /\
    match (if decide (cf_state c = CAN_STATE_OPENED)
           then buf_queue BcastGroup ch (w_bufs w) else []) with
    | x :: q => r = 1 /\ dst' = x /\ buf_queue BcastGroup ch b = q
    | [] => r = 0 /\ dst' = dst /\ buf_queue BcastGroup ch b = buf_queue BcastGroup ch (w_bufs w)
    end.

Lemma take_spec ch dst w :
  held_below 2 w -> world_wf w -> 0 <= ch < 6 -> zlen dst = sizeof_BroadcastFrameGroup ->
  wp (take_broadcast_group ch dst) (take_post ch dst w) w.
Proof.
  intros Hb Hwf Hch Hdst. unfold take_broadcast_group, AXICAN_MAX.
  rewrite Z.geb_leb, (proj2 (Z.leb_gt _ _)) by lia.
  destruct (lookup_lt_is_Some_2 (g_bcast_pending (w_bc w)) (Z.to_nat ch)) as [p Hp];
    [rewrite (bw_pending _ (ww_bc _ Hwf)); lia|].
  destruct (lookup_lt_is_Some_2 (w_configs w) (Z.to_nat ch)) as [c Hc];
    [rewrite (proj1 (ww_configs _ Hwf)); lia|].
  pose proof (Forall_lookup_1 _ _ _ _ (bw_pending_u32 _ (ww_bc _ Hwf)) Hp) as Hpu.
  apply wp_bind, wp_lock; [by eapply lock_free_below|]. simpl.
  apply wp_bind, wp_lock.
  { apply (lock_free_below _ 3); [|done]. constructor; [simpl; lia|].
    by eapply list.Forall_impl; [exact Hb|]; simpl; lia. }
  simpl. apply wp_bind. eapply wp_arr_get; [lia | exact Hp|]. apply wp_bind.
  unfold take_post.
  destruct (p =? 0) eqn:Ep; simpl; bool_prop.
  { apply wp_ret, wp_bind. eapply wp_unlock; [done|]. apply wp_bind. eapply wp_unlock; [done|].
    apply wp_ret. simpl. exists p. rewrite Hp, Ep. simpl. by destruct w. }
  apply wp_bind. unfold wake_set. eapply wp_arr_upd; [lia | exact Hp|]. simpl.
  assert (u32 (p - 1) = p - 1) as -> by (apply wrap_small; unfold in_range in *; lia).
  apply wp_bind. eapply wp_arr_get; [lia | exact Hc|].
  set (p1 := <[Z.to_nat ch := p - 1]> (g_bcast_pending (w_bc w))).
  destruct (bool_decide (cf_state c = CAN_STATE_OPENED)) eqn:Est; bool_prop.
  - apply wp_buf_get; [apply Hwf | lia | simpl; rewrite Hdst; done |].
    intros r dst' b Hb' Honly Hq. simpl. apply wp_bind. eapply wp_unlock; [done|]. simpl.
    apply wp_bind. eapply wp_unlock; [done|]. simpl. apply wp_ret.
    exists p. split; [done|]. rewrite (proj2 (Z.eqb_neq _ _)) by done.
    exists b. split; [by destruct w|]. split_and!; [done | done |].
    exists c. split; [done|]. rewrite decide_True by done.
    simpl in Hq. unfold buf_chan_ok, AXICAN_MAX in Hq.
    rewrite !(proj2 (Z.ltb_lt ch _)) in Hq by (simpl; lia). simpl in Hq.
    destruct (buf_queue BcastGroup ch (w_bufs w)) as [|x q]; [naive_solver|].
    destruct Hq as (-> & Hq & Hx & ->). split_and!; [done | | done].
    rewrite drop_ge, app_nil_r; [done|]. unfold zlen in Hdst. lia.
  - apply wp_ret. simpl. apply wp_bind. eapply wp_unlock; [done|]. simpl.
    apply wp_bind. eapply wp_unlock; [done|]. simpl. apply wp_ret.
    exists p. split; [done|]. rewrite (proj2 (Z.eqb_neq _ _)) by done.
    exists (w_bufs w). split; [by destruct w|]. split_and!; [apply Hwf | done |].
    exists c. split; [done|]. by rewrite decide_False.
Qed.
End Take.

(** ** The interleavings of the broadcast threads

    Each transaction runs under [bcast_state_mutex], so an execution of the
    command, download, pulse and send threads is a sequence of whole
    transactions in some order.  A step carries what the transaction did. *)

Inductive label :=
  | LReset                          (* a schedule was accepted *)
  | LSelect (mask : Z)              (* a pulse selected the channels of the mask *)
  | LQueued (ch : Z) (g : bytes)    (* a group was queued *)
  | LTaken (ch : Z) (g : bytes)     (* a group was taken for sending *)
  | LOther.                         (* anything else *)

Section Steps.
Context `{OS}.

Inductive bc_step : world -> label -> world -> Prop :=
  | step_config sock req data w w' :
      40 <= zlen data ->
      handle_broadcast_config sock req data w = Some (tt, w') ->
      bc_step w (if decide (schedule_valid data) then LReset else LOther) w'
  | step_pps w w' :
      process_broadcast_pps w = Some (tt, w') ->
      bc_step w (LSelect (select_mask (g_bcast_cfg (w_bc w))).1) w'
  | step_enqueue ch frames r w w' :
      0 <= ch -> Forall pwf frames ->
      enqueue_broadcast_group ch frames w = Some (r, w') ->
      bc_step w (if r =? 0 then LQueued ch (group_pack (make_group (next_id w) frames)) else LOther) w'
  | step_take ch dst r g w w' :
      0 <= ch < 6 -> zlen dst = sizeof_BroadcastFrameGroup ->
      take_broadcast_group ch dst w = Some ((r, g), w') ->
      bc_step w (if r =? 1 then LTaken ch g else LOther) w'
  | step_other w w' :
      (* a handler that does not touch the broadcast state *)
      world_wf w' -> w_held w' = w_held w -> w_bc w' = w_bc w ->
      (forall ch, 0 <= ch -> buf_queue BcastGroup ch (w_bufs w') = buf_queue BcastGroup ch (w_bufs w)) ->
      bc_step w LOther w'.

(** Executions, the first step first. *)
Inductive bc_run : world -> list label -> world -> Prop :=
  | run_nil w : bc_run w [] w
  | run_cons w l w1 ls w2 : bc_step w l w1 -> bc_run w1 ls w2 -> bc_run w (l :: ls) w2.
End Steps.

(** What an execution did to a channel. *)
Fixpoint queued (ch : Z) (ls : list label) : list bytes :=
  match ls with
  | [] => []
  | LQueued c g :: ls' => if c =? ch then g :: queued ch ls' else queued ch ls'
  | _ :: ls' => queued ch ls'
  end.

Fixpoint taken (ch : Z) (ls : list label) : list bytes :=
  match ls with
  | [] => []
  | LTaken c g :: ls' => if c =? ch then g :: taken ch ls' else taken ch ls'
  | _ :: ls' => taken ch ls'
  end.

Fixpoint selected (ch : Z) (ls : list label) : Z :=
  match ls with
  | [] => 0
  | LSelect m :: ls' =>
      (if Z.land m (Z.shiftl 1 ch) =? 0 then 0 else 1) + selected ch ls'
  | _ :: ls' => selected ch ls'
  end.

(** The pending wake-ups of a channel. *)
Definition pending_of (ch : Z) (w : world) : Z :=
  default 0 (g_bcast_pending (w_bc w) !! Z.to_nat ch).

Section StepFacts.
Context `{OS}.

(** Extra groups queued and taken, and the bound on the wake-ups, of a step. *)
Definition step_effect (ch : Z) (w : world) (l : label) (w' : world) : Prop :=
  buf_queue BcastGroup ch (w_bufs w) ++ queued ch [l] =
    taken ch [l] ++ buf_queue BcastGroup ch (w_bufs w') /\
  pending_of ch w' + zlen (taken ch [l]) <= pending_of ch w + selected ch [l].

Definition step_ok (w : world) (l : label) (w' : world) : Prop :=
  world_wf w' /\ w_held w' = [] /\
  forall ch, 0 <= ch < 6 ->
    match l with
    | LReset => buf_queue BcastGroup ch (w_bufs w') = [] /\ pending_of ch w' = 0
    | _ => step_effect ch w l w'
    end.

Lemma other_effect ch w w' :
  g_bcast_pending (w_bc w') = g_bcast_pending (w_bc w) ->
  buf_queue BcastGroup ch (w_bufs w') = buf_queue BcastGroup ch (w_bufs w) ->
  step_effect ch w LOther w'.
Proof.
  intros Hp Hq. unfold step_effect, pending_of. simpl. rewrite Hp, Hq, app_nil_r.
  split; [done|]. zlia.
Qed.

Lemma scheduled_wf p b w :
  world_wf w -> sched_wf (sched_of_param p) -> bufs_wf b ->
  (forall ch, 0 <= ch -> buf_queue BcastGroup ch b = []) ->
  (forall n ch, n <> BcastGroup -> 0 <= ch -> buf_queue n ch b = buf_queue n ch (w_bufs w)) ->
  world_wf (scheduled p b w) /\ bc_frame w (scheduled p b w).
Proof.
  intros Hwf Hs Hb Hq Ho.
  assert (bc_frame w (scheduled p b w)) as Hf.
  { etransitivity; [|apply with_gate_frame].
    etransitivity; [apply with_cfg_frame|]. by apply bc_upd_frame. }
  split; [|done]. apply (bc_frame_wf w); try done.
  - intros ch Hch. change (chan_queue _ ch) with (buf_queue BcastGroup ch b). by rewrite Hq.
  - split; simpl; try done; [apply zero_u32s | apply (ww_bc _ Hwf) | by left].
Qed.

Lemma schedule_sched_wf data :
  40 <= zlen data -> schedule_valid data -> sched_wf (sched_of_param (unpack data)).
Proof.
  intros Hlen (_ & _ & _ & _ & _ & H1 & H2 & H3 & H4 & H5).
  assert (pwf (unpack data : BroadcastConfigParam)) as Hp.
  { apply unpack_wf. change (psize (A := BroadcastConfigParam)) with 40%nat.
    unfold zlen in Hlen. lia. }
  change (BroadcastConfigParam_wf (unpack data)) in Hp. unfold BroadcastConfigParam_wf in Hp.
  set (p := unpack data : BroadcastConfigParam) in *. destruct_and! Hp. unfold in_range in *.
  split; simpl; unfold AXICAN_MAX; rewrite ?land_can_mask; lia.
Qed.

Lemma config_step_ok sock req data w w' :
  world_wf w -> w_held w = [] -> 40 <= zlen data ->
  handle_broadcast_config sock req data w = Some (tt, w') ->
  step_ok w (if decide (schedule_valid data) then LReset else LOther) w'.
Proof.
  intros Hwf Hh Hlen Hrun.
  assert (held_below 2 w) as Hb by (unfold held_below; by rewrite Hh).
  destruct (wp_result _ _ _ _ _ (config_spec sock req data w Hb (ww_bufs _ Hwf)
    (bw_pending _ (ww_bc _ Hwf)) Hlen) Hrun) as [Hv Hnv].
  destruct (decide (schedule_valid data)) as [V|V].
  - destruct (Hv V) as (b & -> & Hb' & Hq & Ho).
    destruct (scheduled_wf (unpack data) b w Hwf (schedule_sched_wf data Hlen V) Hb' Hq Ho)
      as [Hwf' Hf].
    pose proof (net_only_bcast_reply 0 (scheduled (unpack data) b w)) as Hno.
    split; [by eapply net_only_wf|]. split; [rewrite (no_held _ _ Hno); exact Hh|].
    intros ch Hch. rewrite (no_bufs _ _ Hno). simpl.
    split; [apply Hq; lia|]. unfold pending_of. rewrite (no_bc _ _ Hno). simpl.
    unfold no_pending. by rewrite lookup_replicate_2 by lia.
  - destruct (Hnv V) as [msg ->].
    assert (net_only w (refused msg w)) as Hno.
    { unfold refused. etransitivity; [apply net_only_event | apply net_only_bcast_reply]. }
    split; [by eapply net_only_wf|]. split; [by rewrite (no_held _ _ Hno)|].
    intros ch Hch. apply other_effect; [by rewrite (no_bc _ _ Hno) | by rewrite (no_bufs _ _ Hno)].
Qed.

Lemma wake_pending_lookup m ch p :
  0 <= ch < 6 ->
  wake_pending m channels_loop p !! Z.to_nat ch =
    (fun v => if Z.land m (Z.shiftl 1 ch) =? 0 then v else u32 (v + 1)) <$> p !! Z.to_nat ch.
Proof.
  intros Hch. unfold wake_pending. rewrite list_lookup_imap.
  destruct (p !! Z.to_nat ch) as [v|]; [|done]. simpl. f_equal. rewrite Z2Nat.id by lia.
  destruct (Z.eqb_spec (Z.land m (Z.shiftl 1 ch)) 0) as [Hz|Hnz].
  - rewrite decide_False; [done | naive_solver].
  - rewrite decide_True; [done|]. split; [by apply channels_loop_elem | done].
Qed.

Lemma pps_step_ok w w' :
  world_wf w -> w_held w = [] -> process_broadcast_pps w = Some (tt, w') ->
  step_ok w (LSelect (select_mask (g_bcast_cfg (w_bc w))).1) w'.
Proof.
  intros Hwf Hh Hrun. rewrite pps_eq in Hrun;
    [| unfold held_below; by rewrite Hh | apply (ww_bc _ Hwf)].
  injection Hrun as <-. destruct (pps_bc w (ww_bc _ Hwf)) as (Hbc & Hf & Hbufs).
  split.
  { apply (bc_frame_wf w); try done; rewrite Hbufs; apply Hwf. }
  split; [by rewrite (bf_held _ _ Hf)|]. intros ch Hch. unfold step_effect. rewrite Hbufs, app_nil_r. split; [done|]. simpl.
  destruct (lookup_lt_is_Some_2 (g_bcast_pending (w_bc w)) (Z.to_nat ch)) as [p Hp];
    [rewrite (bw_pending _ (ww_bc _ Hwf)); lia|].
  pose proof (Forall_lookup_1 _ _ _ _ (bw_pending_u32 _ (ww_bc _ Hwf)) Hp) as Hpu.
  unfold pending_of, pps_result. destruct (select_mask _) as [m cfg]. simpl.
  destruct (m =? 0) eqn:Em; simpl.
  - bool_prop. subst m. rewrite Z.land_0_l. simpl. zlia.
  - rewrite wake_pending_lookup, Hp by done. simpl.
    destruct (Z.land m (Z.shiftl 1 ch) =? 0); [zlia|].
    assert (u32 (p + 1) <= p + 1) by (apply Z.mod_le; unfold in_range in *; lia). zlia.
Qed.
Lemma enqueue_step_ok ch frames r w w' :
  world_wf w -> w_held w = [] -> 0 <= ch -> Forall pwf frames ->
  enqueue_broadcast_group ch frames w = Some (r, w') ->
  step_ok w (if r =? 0 then LQueued ch (group_pack (make_group (next_id w) frames)) else LOther) w'.
Proof.
  intros Hwf Hh Hch Hf Hrun.
  assert (held_below 2 w) as Hb by (unfold held_below; by rewrite Hh).
  destruct (wp_result _ _ _ _ _ (enqueue_spec ch frames w Hb Hwf Hch Hf) Hrun)
    as (Hwf' & Hfr & (Hcfg & Hpend) & Hcase).
  split; [done|]. split; [by rewrite (bf_held _ _ Hfr)|].
  destruct Hcase as [(-> & _ & Ho & Hq)|(Hr & _ & Hbufs)].
  - simpl. intros c Hc. unfold step_effect, pending_of. rewrite Hpend. simpl.
    destruct (Z.eqb_spec ch c) as [->|Hne].
    + rewrite Hq. split; [done|]. zlia.
    + rewrite Ho by (lia || congruence). rewrite app_nil_r. split; [done|]. zlia.
  - rewrite (proj2 (Z.eqb_neq _ _)) by done. intros c Hc.
    apply other_effect; [done | by rewrite Hbufs].
Qed.

Lemma take_step_ok ch dst r g w w' :
  world_wf w -> w_held w = [] -> 0 <= ch < 6 -> zlen dst = sizeof_BroadcastFrameGroup ->
  take_broadcast_group ch dst w = Some ((r, g), w') ->
  step_ok w (if r =? 1 then LTaken ch g else LOther) w'.
Proof.
  intros Hwf Hh Hch Hd Hrun.
  assert (held_below 2 w) as Hb by (unfold held_below; by rewrite Hh).
  destruct (wp_result _ _ _ _ _ (take_spec ch dst w Hb Hwf Hch Hd) Hrun) as (p & Hp & Hcase).
  destruct (Z.eqb_spec p 0) as [->|Hp0].
  { destruct Hcase as (-> & -> & ->). simpl. split; [done|]. split; [done|].
    intros c Hc. by apply other_effect. }
  destruct Hcase as (b & -> & Hb' & Ho & c & Hc & Hcase).
  pose proof (Forall_lookup_1 _ _ _ _ (bw_pending_u32 _ (ww_bc _ Hwf)) Hp) as Hpu.
  unfold in_range in Hpu.
  set (p1 := <[Z.to_nat ch := p - 1]> (g_bcast_pending (w_bc w))).
  assert (bc_frame w (bc_upd b p1 w)) as Hf.
  { apply bc_upd_frame. intros n c' Hn Hc'. apply Ho; [done | congruence]. }
  assert (forall c', 0 <= c' < 6 -> pending_of c' (bc_upd b p1 w) =
    if decide (c' = ch) then p - 1 else pending_of c' w) as Hpend.
  { intros c' Hc'. unfold pending_of. simpl. subst p1. destruct (decide (c' = ch)) as [->|Hcc].
    - rewrite list_lookup_insert_eq by (by eapply lookup_lt_Some). done.
    - by rewrite list_lookup_insert_ne by lia. }
  assert (pending_of ch w = p) as Hpch by (unfold pending_of; by rewrite Hp).
  split; [|split; [done|]].
  { apply (bc_frame_wf w); try done.
    - eapply bufs_only_groups; [exact Ho | apply Hwf|]. intros _ _. simpl.
      pose proof (ww_groups _ Hwf ch ltac:(lia)) as Hg. fold (buf_queue BcastGroup ch (w_bufs w)) in Hg.
      destruct (decide _).
      + destruct (buf_queue BcastGroup ch (w_bufs w)) as [|x q] eqn:Eq.
        * destruct Hcase as (_ & _ & ->). constructor.
        * destruct Hcase as (_ & _ & ->). by apply list.Forall_cons in Hg as [_ Hg].
      + by destruct Hcase as (_ & _ & ->).
    - destruct (ww_bc _ Hwf) as [H1 H2 H3 H4 H5]. split; simpl; try done.
      + subst p1. by rewrite length_insert.
      + apply Forall_insert; [done|]. unfold in_range. lia. }
  destruct (if decide (cf_state c = CAN_STATE_OPENED)
            then buf_queue BcastGroup ch (w_bufs w) else []) as [|x q] eqn:Eq.
  - destruct Hcase as (-> & -> & Hq). simpl. intros c' Hc'.
    unfold step_effect. simpl. rewrite app_nil_r, Hpend by done.
    destruct (decide (c' = ch)) as [->|Hcc]; [rewrite Hq; split; [done | zlia] |].
    split; [symmetry; apply Ho; [lia | congruence] | zlia].
  - destruct Hcase as (-> & -> & Hq). destruct (decide _); [|done]. simpl. intros c' Hc'.
    unfold step_effect. simpl. rewrite app_nil_r, Hpend by done. rewrite (Z.eqb_sym ch c').
    destruct (decide (c' = ch)) as [->|Hcc].
    + rewrite Z.eqb_refl, Eq, Hq. split; [done | zlia].
    + rewrite (proj2 (Z.eqb_neq _ _)) by done.
      split; [symmetry; apply Ho; [lia | congruence] | zlia].
Qed.

Lemma bc_step_ok w l w' :
  world_wf w -> w_held w = [] -> bc_step w l w' -> step_ok w l w'.
Proof.
  intros Hwf Hh Hstep. destruct Hstep.
  - by eapply config_step_ok.
  - by apply pps_step_ok.
  - by apply enqueue_step_ok.
  - by eapply take_step_ok.
  - split; [done|]. split; [congruence|]. intros ch Hch.
    apply other_effect; [congruence | auto with lia].
Qed.

Lemma run_effect ch w ls w' :
  world_wf w -> w_held w = [] -> bc_run w ls w' -> 0 <= ch < 6 -> ~ LReset ∈ ls ->
  world_wf w' /\ w_held w' = [] /\
  buf_queue BcastGroup ch (w_bufs w) ++ queued ch ls =
    taken ch ls ++ buf_queue BcastGroup ch (w_bufs w') /\
  pending_of ch w' + zlen (taken ch ls) <= pending_of ch w + selected ch ls.
Proof.
  intros Hwf Hh Hrun Hch. induction Hrun as [w|w l w1 ls w2 Hstep Hrun IH]; intros Hnr.
  { simpl. rewrite app_nil_r. split_and!; [done..|]. zlia. }
  destruct (bc_step_ok w l w1 Hwf Hh Hstep) as (Hwf1 & Hh1 & Heff). specialize (Heff ch Hch).
  destruct (IH Hwf1 Hh1) as (Hwf2 & Hh2 & Hq & Hp); [set_solver|].
  split; [done|]. split; [done|].
  assert (step_effect ch w l w1) as [Hq1 Hp1] by (destruct l; [set_solver | done..]).
  destruct l as [|m|c g|c g|]; simpl in *; rewrite ?app_nil_r in *; [set_solver | | | |].
  - rewrite Hq1, Hq. split; [done|]. zlia.
  - destruct (c =? ch); rewrite ?app_nil_r in *.
    + replace (g :: queued ch ls) with ([g] ++ queued ch ls) by done.
      rewrite app_assoc, Hq1, Hq. split; [done|]. zlia.
    + rewrite Hq1, Hq. split; [done|]. zlia.
  - destruct (c =? ch); simpl in *.
    + rewrite Hq1. simpl. rewrite Hq. split; [done|]. zlia.
    + rewrite Hq1, Hq. split; [done|]. zlia.
  - rewrite Hq1, Hq. split; [done|]. zlia.
Qed.
End StepFacts.

(** No stale or duplicated broadcast: in every interleaving of the threads,
    after a schedule is accepted the groups taken for sending on a channel are,
    in order, a prefix of the groups queued on it since, the rest being exactly
    what is still queued; and there are never more of them than pulses that
    selected the channel since.  So a configuration discards the old groups and
    the old wake-ups, and no group is sent twice or before its pulse. *)
Theorem no_stale_broadcast `{OS} ch w0 w1 ls w :
  world_wf w0 -> w_held w0 = [] -> 0 <= ch < 6 ->
  bc_step w0 LReset w1 -> bc_run w1 ls w -> ~ LReset ∈ ls ->
  world_wf w /\ w_held w = [] /\
  queued ch ls = taken ch ls ++ buf_queue BcastGroup ch (w_bufs w) /\
  zlen (taken ch ls) + pending_of ch w <= selected ch ls.
Proof.
  intros Hwf Hh Hch Hstep Hrun Hnr.
  destruct (bc_step_ok w0 LReset w1 Hwf Hh Hstep) as (Hwf1 & Hh1 & Heff).
  destruct (Heff ch Hch) as [Hq0 Hp0].
  destruct (run_effect ch w1 ls w Hwf1 Hh1 Hrun Hch Hnr) as (Hwf' & Hh' & Hq & Hp).
  rewrite Hq0 in Hq. rewrite Hp0 in Hp. split_and!; [done.. | lia].
Qed.

(** A valid schedule: polling over the channels 0, 1, 3 and 5. *)
Definition sample_schedule : bytes :=
  let p c := {| bp_head := PC_STATUS_HEAD; bp_direction := 0; bp_type := 0; bp_length := 40;
                bp_reserved := 0; bp_config_count := 7; bp_enable := 1; bp_b_mode := 2;
                bp_start_group := 0; bp_start_channel := 4; bp_active_mask := 0x2B;
                bp_group_a_mask := 0; bp_group_b_mask := 0; bp_timestamp := 0;
                bp_xor_checksum := c |} in
  pack (p (calculate_xor_checksum (pack (p 0)) 36)).

Lemma sample_schedule_valid : schedule_valid sample_schedule.
Proof. apply (bool_decide_unpack _). vm_compute. exact I. Qed.

Definition sample_request : ReqPacket := mk_ReqPacket 0 0 0 0 0.

Lemma no_stale_broadcast_witness :
  let H := quiet_os in
  exists w1 ls w,
    (bc_step connected_world LReset w1 /\ bc_run w1 ls w /\ ls <> []) /\
    (world_wf w /\ w_held w = [] /\
     queued 5 ls = taken 5 ls ++ buf_queue BcastGroup 5 (w_bufs w) /\
     zlen (taken 5 ls) + pending_of 5 w <= selected 5 ls).
Proof.
  intros H.
  destruct (proj1 (wp_exec _ _ _) (config_spec 0 sample_request sample_schedule connected_world
    (boot_world_held 2) (ww_bufs _ connected_world_wf) eq_refl
    ltac:(vm_compute; congruence))) as (u & w1 & Hrun & _). destruct u.
  assert (bc_step connected_world LReset w1) as Hstep.
  { pose proof (step_config 0 sample_request sample_schedule connected_world w1
      ltac:(vm_compute; congruence) Hrun) as Hs.
    rewrite decide_True in Hs by apply sample_schedule_valid. exact Hs. }
  destruct (bc_step_ok _ _ _ connected_world_wf eq_refl Hstep) as (Hwf1 & Hh1 & _).
  assert (bc_run w1 [LSelect (select_mask (g_bcast_cfg (w_bc w1))).1] (pps_result w1)) as Hr.
  { eapply run_cons; [|apply run_nil]. apply step_pps. apply pps_eq; [|apply Hwf1].
    unfold held_below. by rewrite Hh1. }
  exists w1. eexists _, _. split; [split_and!; [exact Hstep | exact Hr | discriminate]|].
  apply (no_stale_broadcast (H := H) 5 connected_world w1 _ _ connected_world_wf eq_refl
    ltac:(lia) Hstep Hr).
  intros Hin%list.elem_of_cons. destruct Hin as [Hin|Hin]; [discriminate | by apply elem_of_nil in Hin].
Defined.

(** C35. A schedule is accepted exactly when it is valid: a head, direction,
    length and checksum that match, an enable flag of 0 or 1, a mode between 1
    and 3 when enabled, masks within the six channels and a start position in
    range.  An accepted one replaces the configuration, empties every broadcast
    queue, clears every pending wake-up and closes the gate, and is answered
    with status 0; a refused one changes no broadcast state and is answered
    with status 1.  Either way the state stays well formed, the other buffers
    are untouched and every mutex is released. *)
Theorem broadcast_config_iff_valid `{OS} sock req data w :
  held_below 2 w -> world_wf w -> 40 <= zlen data ->
  exists w1 w', handle_broadcast_config sock req data w = Some (tt, w') /\
    world_wf w' /\ bc_frame w w' /\
    (schedule_valid data /\ w' = bcast_reply_result 0 w1 /\
       g_bcast_cfg (w_bc w') = sched_of_param (unpack data) /\
       g_bcast_pending (w_bc w') = [0; 0; 0; 0; 0; 0] /\ g_bcast_rx_gate_open (w_bc w') = 0 /\
       (forall ch, 0 <= ch -> buf_queue BcastGroup ch (w_bufs w') = [])
     \/ ~ schedule_valid data /\ w' = bcast_reply_result 1 w1 /\
       w_bc w' = w_bc w /\ w_bufs w' = w_bufs w).
Proof.
  intros Hb Hwf Hlen.
  destruct (proj1 (wp_exec _ _ _) (config_spec sock req data w Hb (ww_bufs _ Hwf)
    (bw_pending _ (ww_bc _ Hwf)) Hlen)) as ([] & w' & Hrun & Hv & Hnv).
  destruct (decide (schedule_valid data)) as [V|V].
  - destruct (Hv V) as (b & -> & Hb' & Hq & Ho).
    destruct (scheduled_wf (unpack data) b w Hwf (schedule_sched_wf data Hlen V) Hb' Hq Ho)
      as [Hwf' Hf].
    pose proof (net_only_bcast_reply 0 (scheduled (unpack data) b w)) as Hno.
    exists (scheduled (unpack data) b w). eexists. split; [exact Hrun|].
    split; [by eapply net_only_wf|].
    split; [etransitivity; [exact Hf | by apply net_only_bc_frame]|].
    left. split; [done|]. split; [done|]. rewrite (no_bc _ _ Hno), (no_bufs _ _ Hno). done.
  - destruct (Hnv V) as [msg ->].
    exists (event_result EVENT_LEVEL_ERROR EVENT_CAN_SENT_FAILE msg w). eexists.
    split; [exact Hrun|].
    assert (net_only w (refused msg w)) as Hno.
    { unfold refused. etransitivity; [apply net_only_event | apply net_only_bcast_reply]. }
    split; [by eapply net_only_wf|]. split; [by apply net_only_bc_frame|].
    right. split; [done|]. split; [done|]. by rewrite (no_bc _ _ Hno), (no_bufs _ _ Hno).
Qed.

Lemma broadcast_config_iff_valid_witness :
  let H := quiet_os in let w := connected_world in let data := sample_schedule in
  exists w1 w', handle_broadcast_config 0 sample_request data w = Some (tt, w') /\
    world_wf w' /\ bc_frame w w' /\
    (schedule_valid data /\ w' = bcast_reply_result 0 w1 /\
       g_bcast_cfg (w_bc w') = sched_of_param (unpack data) /\
       g_bcast_pending (w_bc w') = [0; 0; 0; 0; 0; 0] /\ g_bcast_rx_gate_open (w_bc w') = 0 /\
       (forall ch, 0 <= ch -> buf_queue BcastGroup ch (w_bufs w') = [])
     \/ ~ schedule_valid data /\ w' = bcast_reply_result 1 w1 /\
       w_bc w' = w_bc w /\ w_bufs w' = w_bufs w).
Proof.
  intros H w data.
  apply (broadcast_config_iff_valid 0 sample_request data w);
    [apply (boot_world_held 2) | apply connected_world_wf | vm_compute; congruence].
Defined.

(** C34. Group atomicity: a group is queued exactly when it has 1 to 128
    frames, its channel exists and is configured, the pulse window is open and
    the queue of 16 groups has room.  Then the call returns 0 and the queue of
    that channel, and no other, grows by one group that holds every frame, in
    order; otherwise it returns an error and no buffer changes.  The schedule
    and the pending wake-ups are untouched. *)
Theorem group_enqueue_atomic `{OS} ch frames w :
  held_below 2 w -> world_wf w -> 0 <= ch -> Forall pwf frames ->
  exists r w', enqueue_broadcast_group ch frames w = Some (r, w') /\
    world_wf w' /\ bc_frame w w' /\ sched_kept w w' /\
    (r = 0 /\ group_accepted ch frames w /\ bufs_only BcastGroup ch (w_bufs w) (w_bufs w') /\
       (exists g, buf_queue BcastGroup ch (w_bufs w') =
                    buf_queue BcastGroup ch (w_bufs w) ++ [group_pack g] /\
          group_unpack (group_pack g) = g /\ bg_frame_count g = zlen frames /\
          take (length frames) (bg_frames g) = pc_can_payload_to_axican_frame <$> frames)
     \/ r <> 0 /\ ~ group_accepted ch frames w /\ w_bufs w' = w_bufs w).
Proof.
  intros Hb Hwf Hch Hf.
  destruct (proj1 (wp_exec _ _ _) (enqueue_spec ch frames w Hb Hwf Hch Hf))
    as (r & w' & Hrun & Hwf' & Hfr & Hk & Hcase).
  exists r, w'. split_and!; try done. destruct Hcase as [(-> & Ha & Ho & Hq)|Hcase]; [left | by right].
  split_and!; try done. exists (make_group (next_id w) frames).
  destruct Ha as (Hlen & _).
  pose proof (make_group_ok (next_id w) frames (next_id_u32 w) Hf Hlen) as [Hg _].
  split_and!; [done | by apply group_unpack_pack | |].
  - apply wrap_small. unfold in_range. lia.
  - simpl. rewrite <- (length_fmap pc_can_payload_to_axican_frame frames). apply take_app_length.
Qed.

Definition sample_frame : PC_ARM_DATA_DATA :=
  mk_PC_ARM_DATA_DATA PC_STATUS_HEAD 0 2 48 1 1 1 0x123 8 0x11223344 0x55667788 1 1 5 0.

Lemma group_enqueue_atomic_witness :
  let H := quiet_os in let w := with_gate 1 20000 boot_world in
  let frames := [sample_frame; sample_frame] in
  group_accepted 1 frames w /\
  exists r w', enqueue_broadcast_group 1 frames w = Some (r, w') /\
    world_wf w' /\ bc_frame w w' /\ sched_kept w w' /\
    (r = 0 /\ group_accepted 1 frames w /\ bufs_only BcastGroup 1 (w_bufs w) (w_bufs w') /\
       (exists g, buf_queue BcastGroup 1 (w_bufs w') =
                    buf_queue BcastGroup 1 (w_bufs w) ++ [group_pack g] /\
          group_unpack (group_pack g) = g /\ bg_frame_count g = zlen frames /\
          take (length frames) (bg_frames g) = pc_can_payload_to_axican_frame <$> frames)
     \/ r <> 0 /\ ~ group_accepted 1 frames w /\ w_bufs w' = w_bufs w).
Proof.
  intros H w frames. split.
  - split; [by vm_compute|]. split; [lia|]. split; [by eexists|]. split; [by vm_compute|].
    change (w_bufs w) with empty_buffers. rewrite empty_buffers_queue. reflexivity.
  - apply (group_enqueue_atomic 1 frames w); [constructor | | lia | repeat constructor; by vm_compute].
    destruct boot_world_wf. split; try done. destruct ww_bc. split; try done. by right.
Defined.

(** ** Sending *)

Section Send.
Context `{OS}.

Definition write_of (fd : Z) (f : axican_frame) : syscall := SysWrite fd (pack f).

Lemma send_loop_spec n i ch g ax w :
  held_below 3 w -> 0 <= ch -> 0 <= i -> w_axican w !! Z.to_nat ch = Some ax ->
  i + Z.of_nat n <= zlen (bg_frames g) ->
  wp (send_group_loop n i ch g) (fun r w' =>
    exists k, (k <= n)%nat /\
    let sent := write_of (ax_wr_fd ax) <$> take k (drop (Z.to_nat i) (bg_frames g)) in
    (k = n /\ r = 0 /\ w' = add_calls (rev sent) w \/
     exists f, (k < n)%nat /\ r = - EIO /\ bg_frames g !! (Z.to_nat i + k)%nat = Some f /\
       os_ret (rev sent ++ w_hist w) (write_of (ax_wr_fd ax) f) <> 24 /\
       w' = event_result EVENT_LEVEL_ERROR EVENT_CAN_SENT_FAILE (str "broadcast CAN send failed")
              (add_calls (write_of (ax_wr_fd ax) f :: rev sent) w))) w.
Proof.
  intros Hb Hch. revert i w Hb. induction n as [|n IH]; intros i w Hb Hi Hax Hn; simpl.
  { apply wp_ret. exists 0%nat. split; [done|]. left. simpl. split_and!; [done..|]. by destruct w. }
  destruct (lookup_lt_is_Some_2 (bg_frames g) (Z.to_nat i)) as [f Hf]; [unfold zlen in Hn; lia|].
  apply wp_bind, wp_lock; [by eapply lock_free_below|]. simpl.
  apply wp_bind. eapply wp_arr_get; [done | exact Hax|].
  apply wp_bind. eapply wp_of_option; [exact Hf|]. apply wp_bind, wp_sys. simpl.
  apply wp_bind. eapply wp_unlock; [done|]. simpl.
  change (sizeof axican_frame) with 24.
  assert (set_held (w_held w) (add_call (SysWrite (ax_wr_fd ax) (pack f))
    (set_held (can_write_mutex ch :: w_held w) w)) = add_calls [write_of (ax_wr_fd ax) f] w) as ->
    by by destruct w.
  destruct (Z.eqb_spec (os_ret (w_hist w) (write_of (ax_wr_fd ax) f)) 24) as [E|E];
    unfold write_of in E; rewrite ?E, ?(proj2 (Z.eqb_neq _ _) E); simpl.
  - eapply wp_mono; [apply (IH (i + 1)); try done; lia|].
    intros r w' (k & Hk & Hcase). exists (S k). split; [lia|].
    rewrite (drop_S _ f (Z.to_nat i)) by done. simpl.
    replace (Z.to_nat (i + 1)) with (S (Z.to_nat i)) in Hcase by lia.
    destruct Hcase as [(-> & -> & ->)|(f' & Hlt & -> & Hf' & Hr & ->)]; [left|right].
    + split_and!; [done..|]. unfold add_calls. destruct w. simpl. by rewrite <- app_assoc.
    + exists f'. split_and!; [lia | done | rewrite <- Hf'; f_equal; lia | by rewrite <- app_assoc |].
      f_equal. unfold add_calls. destruct w. simpl. by rewrite <- app_assoc.
  - apply wp_bind. unfold wp. rewrite send_event_eq by (by eapply lock_free_below; [exact Hb|]; simpl; lia).
    unfold ret. exists 0%nat. split; [lia|]. right. exists f. simpl. rewrite Nat.add_0_r.
    split_and!; [lia | done..].
Qed.
End Send.

(** Sending a group: on an open channel the frames of the group are
    written to the write descriptor of that channel one by one, in order; the
    call succeeds exactly when all of them were, and otherwise stops at the
    first incomplete write, reports one event and sends nothing more.  On a
    closed channel nothing is written. *)
Theorem send_group_in_order `{OS} ch g w :
  held_below 3 w -> world_wf w -> 0 <= ch < 6 -> group_ok g ->
  exists r w' ax c, send_broadcast_group_for_channel ch g w = Some (r, w') /\
    w_axican w !! Z.to_nat ch = Some ax /\ w_configs w !! Z.to_nat ch = Some c /\
    let frames := take (Z.to_nat (bg_frame_count g)) (bg_frames g) in
    let write f := SysWrite (ax_wr_fd ax) (pack f) in
    match cf_state c with
    | CAN_STATE_CLOSED => r = - EINVAL /\ w' = w
    | CAN_STATE_OPENED =>
      r = 0 /\ w' = add_calls (rev (write <$> frames)) w \/
      exists sent f rest, frames = sent ++ f :: rest /\ r = - EIO /\
        os_ret (rev (write <$> sent) ++ w_hist w) (write f) <> 24 /\
        w' = event_result EVENT_LEVEL_ERROR EVENT_CAN_SENT_FAILE (str "broadcast CAN send failed")
               (add_calls (rev (write <$> (sent ++ [f]))) w)
    end.
Proof.
  intros Hb Hwf Hch ((_ & _ & Hlen & _) & Hcount).
  unfold BCAST_MAX_FRAMES_PER_GROUP in Hcount.
  destruct (lookup_lt_is_Some_2 (w_axican w) (Z.to_nat ch)) as [ax Hax];
    [rewrite (ww_axican _ Hwf); lia|].
  destruct (lookup_lt_is_Some_2 (w_configs w) (Z.to_nat ch)) as [c Hc];
    [rewrite (proj1 (ww_configs _ Hwf)); lia|].
  assert (wp (send_broadcast_group_for_channel ch g) (fun r w' =>
    let frames := take (Z.to_nat (bg_frame_count g)) (bg_frames g) in
    let write f := SysWrite (ax_wr_fd ax) (pack f) in
    match cf_state c with
    | CAN_STATE_CLOSED => r = - EINVAL /\ w' = w
    | CAN_STATE_OPENED =>
      r = 0 /\ w' = add_calls (rev (write <$> frames)) w \/
      exists sent f rest, frames = sent ++ f :: rest /\ r = - EIO /\
        os_ret (rev (write <$> sent) ++ w_hist w) (write f) <> 24 /\
        w' = event_result EVENT_LEVEL_ERROR EVENT_CAN_SENT_FAILE (str "broadcast CAN send failed")
               (add_calls (rev (write <$> (sent ++ [f]))) w)
    end) w) as Hwp.
  { unfold send_broadcast_group_for_channel, AXICAN_MAX.
    rewrite Z.geb_leb, (proj2 (Z.leb_gt _ _)) by lia.
    apply wp_bind. eapply wp_arr_get; [lia | exact Hc|].
    destruct (cf_state c); simpl; [by apply wp_ret|].
    eapply wp_mono; [eapply send_loop_spec; try done; [lia | unfold zlen; lia]|].
    intros r w' (k & Hk & Hcase). rewrite drop_0 in Hcase.
    destruct Hcase as [(-> & -> & ->)|(f & Hlt & -> & Hf & Hr & ->)]; [by left|right].
    exists (take k (bg_frames g)), f, (drop (S k) (take (Z.to_nat (bg_frame_count g)) (bg_frames g))).
    split_and!; [|done|exact Hr|].
    - rewrite <- (take_drop k (take _ (bg_frames g))) at 1. rewrite take_take, Nat.min_l by lia.
      f_equal. apply drop_S. rewrite lookup_take_lt by lia. exact Hf.
    - rewrite fmap_app, rev_app_distr. done. }
  apply wp_exec in Hwp as (r & w' & Hrun & Hpost). by exists r, w', ax, c.
Qed.

Definition opened_world : world :=
  set_configs ((fun c => set_cf_state CAN_STATE_OPENED c) <$> w_configs boot_world) connected_world.

Lemma opened_world_wf : world_wf opened_world.
Proof.
  destruct connected_world_wf. split; try done. split; [done|].
  intros i c Hc. do 6 (destruct i as [|i]; [injection Hc as <-; done|]). done.
Qed.

Lemma send_group_in_order_witness :
  let H := quiet_os in let g := make_group 9 [sample_frame; sample_frame] in let w := opened_world in
  exists r w' ax c, send_broadcast_group_for_channel 2 g w = Some (r, w') /\
    w_axican w !! 2%nat = Some ax /\ w_configs w !! 2%nat = Some c /\
    let frames := take (Z.to_nat (bg_frame_count g)) (bg_frames g) in
    let write f := SysWrite (ax_wr_fd ax) (pack f) in
    match cf_state c with
    | CAN_STATE_CLOSED => r = - EINVAL /\ w' = w
    | CAN_STATE_OPENED =>
      r = 0 /\ w' = add_calls (rev (write <$> frames)) w \/
      exists sent f rest, frames = sent ++ f :: rest /\ r = - EIO /\
        os_ret (rev (write <$> sent) ++ w_hist w) (write f) <> 24 /\
        w' = event_result EVENT_LEVEL_ERROR EVENT_CAN_SENT_FAILE (str "broadcast CAN send failed")
               (add_calls (rev (write <$> (sent ++ [f]))) w)
    end.
Proof.
  intros H g w.
  apply (send_group_in_order 2 g w);
    [constructor | apply opened_world_wf | lia |].
  apply make_group_ok; [by vm_compute | repeat constructor; by vm_compute | by vm_compute].
Defined.
