(* ===== verification/Commands.v ===== *)
(** * The commands of port 9009
    ([src/main18.c], [handle_can_config] to [handle_can_start_stop],
    [parse_request_packet], [command_min_payload_size] and the loop of
    [tcp_client_handler_9009]).

    A handler receives the header of its packet and the payload, and reads the
    payload through a cast pointer; reading past the payload is stuck.  The main
    result is that the command loop is never stuck on any bytes: it consumes
    every complete packet, resynchronises byte by byte on a bad header, keeps at
    most one incomplete packet, and keeps the state well formed. *)
From S2P Require Import Prelude Framing Words Ring RingSet Layout World Upload Broadcast.
From Stdlib Require Import (notations) String.

Section Handlers.
Context `{OS}.
#[local] Open Scope c_scope.

Definition error_event (msg : bytes) : M world unit :=
  send_event EVENT_LEVEL_ERROR EVENT_CAN_SENT_FAILE msg.

(** [*(uint32_t * )data] *)
Definition read_u32 (data : bytes) : M world Z :=
  if 4 <=? zlen data then ret (fld 0 4 data) else stuck.

Definition axican_set_baud (fd baud : Z) : M world Z := sys (SysIoctlBaud fd baud).
Definition axican_set_mode (fd mode : Z) : M world Z := sys (SysIoctlMode fd mode).

(** ** CAN configuration *)

(** Setting the baud rate, [ALONG_MODE]: the result is [baud_success]. *)
Definition along_set_baud (param : CanConfigParam) : M world Z :=
  if (cc_baud_rate param >? 0) && (cc_baud_rate param <=? 1000000) then
    let* ax := arr_get w_axican (cc_ch_id param) in
    let* rc := axican_set_baud (ax_rd_fd ax) (cc_baud_rate param) in
    if negb (rc =? 0) then error_event (str "CAN set baud rate failed") ;; ret 0
    else config_upd (cc_ch_id param) (set_cf_baud_rate (cc_baud_rate param)) ;; ret 1
  else error_event (str "Invalid baud rate (0~1000000)") ;; ret 0.

Definition along_try_mode (param : CanConfigParam) (mode : Z) : M world Z :=
  let* ax := arr_get w_axican (cc_ch_id param) in
  let* rc := axican_set_mode (ax_rd_fd ax) mode in
  if negb (rc =? 0) then error_event (str "CAN set mode failed") ;; ret 0 else ret 1.

(** The [switch] on the mode; the loopback case falls through to the default.
    The result is [mode_success]. *)
Definition along_set_mode (param : CanConfigParam) : M world Z :=
  if cc_mode param =? ZMUAV_XCAN_MODE_NORMAL then along_try_mode param ZMUAV_XCAN_MODE_NORMAL
  else if cc_mode param =? ZMUAV_XCAN_MODE_LOOPBACK then
    let* mode_success := along_try_mode param ZMUAV_XCAN_MODE_LOOPBACK in
    error_event (str "RECEIVE DATA MODE OTHER") ;; ret mode_success
  else error_event (str "RECEIVE DATA MODE OTHER") ;; ret 0.

Definition can_config_along (param : CanConfigParam) : M world unit :=
  let* baud_success := along_set_baud param in
  let* mode_success := along_set_mode param in
  let status := if (mode_success =? 1) && (baud_success =? 1) then 0 else 1 in
  send_can_config_response (cc_ch_id param) status.

(** The same for [NORMAL_MODE], which reports success after a failed call. *)
Definition normal_set_baud (param : CanConfigParam) : M world Z :=
  if (cc_baud_rate param >? 0) && (cc_baud_rate param <=? 1000000) then
    let* ax := arr_get w_axican (cc_ch_id param) in
    let* rc := axican_set_baud (ax_rd_fd ax) (cc_baud_rate param) in
    when (negb (rc =? 0)) (error_event (str "CAN set baud rate failed")) ;;
    config_upd (cc_ch_id param) (set_cf_baud_rate (cc_baud_rate param)) ;;
    ret 1
  else error_event (str "Invalid baud rate (0~1000000)") ;; ret 0.

Definition normal_try_mode (param : CanConfigParam) (mode : Z) : M world Z :=
  let* ax := arr_get w_axican (cc_ch_id param) in
  let* rc := axican_set_mode (ax_rd_fd ax) mode in
  when (negb (rc =? 0)) (error_event (str "CAN set mode failed")) ;;
  ret 1.

Definition normal_set_mode (param : CanConfigParam) : M world Z :=
  if cc_mode param =? ZMUAV_XCAN_MODE_NORMAL then normal_try_mode param ZMUAV_XCAN_MODE_NORMAL
  else if cc_mode param =? ZMUAV_XCAN_MODE_LOOPBACK then
    let* mode_success := normal_try_mode param ZMUAV_XCAN_MODE_LOOPBACK in
    error_event (str "RECEIVE DATA MODE OTHER") ;; ret mode_success
  else error_event (str "RECEIVE DATA MODE OTHER") ;; ret 0.

Definition can_config_normal (param : CanConfigParam) : M world unit :=
  let* baud_success := normal_set_baud param in
  let* mode_success := normal_set_mode param in
  let status := if negb (mode_success =? 0) && negb (baud_success =? 0) then 0 else 1 in
  send_can_config_response (cc_ch_id param) status.

(** The [switch] on [CAN_DATA_MODE]: a case whose [type] is not zero falls
    through to the next one. *)
Definition handle_can_config (sock : Z) (req : ReqPacket) (data : bytes) : M world unit :=
  let* param := cast CanConfigParam data in
  if cc_ch_id param >=? AXICAN_MAX then error_event (str "Invalid CAN ID") else
  if negb (cc_head param =? PC_STATUS_HEAD) then error_event (str "DATA HEAND ERR") else
  let expect_xor_checksum :=
    calculate_xor_checksum (pack param) (psize (A := CanConfigParam) - 4) in
  if negb (cc_xor_checksum param =? expect_xor_checksum)
  then error_event (str "xor_checksum ERR") else
  config_upd (cc_ch_id param) (set_cf_can_id (cc_ch_id param)) ;;
  config_upd (cc_ch_id param) (set_cf_valid 1) ;;
  config_upd (cc_ch_id param) (set_cf_can_type (u8 (cc_CAN_DATA_MODE param))) ;;
  let default := error_event (str "Unsupported CAN data mode") in
  let normal := if cc_type param =? 0 then can_config_normal param else default in
  let along := if cc_type param =? 0 then can_config_along param else normal in
  if cc_CAN_DATA_MODE param =? ALONG_MODE then along
  else if cc_CAN_DATA_MODE param =? NORMAL_MODE then normal
  else default.

(** ** Information query *)

Definition info_checksum (p : CanConfigParam) : CanConfigParam :=
  {| cc_head := cc_head p; cc_direction := cc_direction p; cc_type := cc_type p;
     cc_length := cc_length p; cc_ch_id := cc_ch_id p; cc_total_count := cc_total_count p;
     cc_ch_count := cc_ch_count p; cc_baud_rate := cc_baud_rate p; cc_mode := cc_mode p;
     cc_auto_send := cc_auto_send p; cc_ier := cc_ier p;
     cc_Packet_Interval := cc_Packet_Interval p; cc_CAN_DATA_MODE := cc_CAN_DATA_MODE p;
     cc_reserved := cc_reserved p; cc_timestamp := cc_timestamp p;
     cc_xor_checksum := calculate_xor_checksum (pack p) (psize (A := CanConfigParam) - 4) |}.

(** One iteration of the loop over the channels. *)
Definition info_device (i : Z) : M world CanConfigParam :=
  let* curr_cfg := config_at i in
  let* counter := gets data_counter in
  arr_upd w_frame_count set_frame_count (cf_can_id curr_cfg) next_count ;;
  let* ch_count := arr_get w_frame_count (cf_can_id curr_cfg) in
  let* mode_cfg := config_at (cf_can_id curr_cfg) in
  let* us := timestamp_us false in
  ret (info_checksum
    {| cc_head := 0x499602D2; cc_direction := 1; cc_type := cf_can_type curr_cfg;
       cc_length := 0x30; cc_ch_id := cf_can_id curr_cfg;
       cc_total_count := if counter =? 0xFFFFFFFF then 0 else counter + 1;
       cc_ch_count := ch_count; cc_baud_rate := cf_baud_rate curr_cfg;
       cc_mode := cf_mode curr_cfg; cc_auto_send := 1; cc_ier := 0; cc_Packet_Interval := 0;
       cc_CAN_DATA_MODE := cf_can_type mode_cfg; cc_reserved := replicate 6 x00;
       cc_timestamp := us; cc_xor_checksum := 0 |}).

Fixpoint info_devices (l : list Z) : M world (list CanConfigParam) :=
  match l with
  | [] => ret []
  | i :: l' => let* d := info_device i in let* ds := info_devices l' in ret (d :: ds)
  end.

Definition handle_can_info_query (sock : Z) (req : ReqPacket) (data : bytes) : M world unit :=
  let* data_value := read_u32 data in
  if negb (data_value =? 0xffffffff) then error_event (str "RECEIVE DATA NOT 0XFFFFFFFF") else
  let* can_responses := info_devices channels_loop in
  send_can_info_response can_responses AXICAN_MAX ;;
  let* _ := sys (SysSend sock (str "CAN info query processed, result sent via port 9010")) in
  ret tt.

(** ** Buffer query *)

Definition buf_response (ch : Z) : M world CanBufRemainingResponse :=
  let* normal := buf_avail Data ch 32 in
  let* pulse := broadcast_buffer_available ch in
  let* sim := buf_avail Simulator ch 32 in
  ret {| br_channel := ch; br_normal_buf_remaining := normal; br_pulse_buf_remaining := pulse;
         br_sim_buf_remaining := sim; br_dmaddr_space := 0xFFFFFFFF;
         br_vfifo_space := 0xFFFFFFFF; br_axififo_space := 0xFFFFFFFF |}.

Fixpoint buf_responses (l : list Z) : M world (list CanBufRemainingResponse) :=
  match l with
  | [] => ret []
  | ch :: l' => let* r := buf_response ch in let* rs := buf_responses l' in ret (r :: rs)
  end.

(** The reply: a zero header, the six channels, and 26 zero entries. *)
Definition buf_query_packet (rs : list CanBufRemainingResponse) : bytes :=
  replicate 16 x00 ++ (rs ≫= pack) ++ replicate (26 * 25) x00.

Definition handle_can_buf_query (sock : Z) (req : ReqPacket) (data : bytes) : M world unit :=
  let* buf_type := read_u32 data in
  if negb (buf_type =? 0xffffffff)
  then error_event (str "Invalid buffer type (must be 1~3)") else
  mutex_lock buffer_mutex ;;
  let* rs := buf_responses channels_loop in
  mutex_unlock buffer_mutex ;;
  mutex_lock data_upload_mutex ;;
  let* s := gets data_upload_socket in
  if s =? -1 then mutex_unlock data_upload_mutex else
  upload_send (buf_query_packet rs) ;;
  mutex_unlock data_upload_mutex.

(** ** Version query, start and stop *)

Definition handle_version_query (sock : Z) (req : ReqPacket) (data : bytes) : M world unit :=
  if negb (reverse_4bytes (rq_data_len req) =? 4)
  then send_version_query_response (rq_counter req) VERSION_QUERY_FAILED else
  let* word := read_u32 data in
  let query_type := reverse_4bytes word in
  let result :=
    if query_type =? VERSION_QUERY_ARM then ARM_APP_VERSION
    else if query_type =? VERSION_QUERY_FPGA then VERSION_QUERY_FAILED
    else if query_type =? VERSION_QUERY_ARM_PROGRAM then ARM_PROGRAM_TYPE
    else VERSION_QUERY_FAILED in
  send_version_query_response (rq_counter req) result.

Definition handle_can_start_stop (sock : Z) (req : ReqPacket) (data : bytes) : M world unit :=
  let* param := cast CanStartStopParam data in
  if ss_can_id param >=? AXICAN_MAX then
    error_event (str "Invalid CAN ID for start/stop") ;;
    send_start_stop_response 1
  else
  let host_data := ntohl (ss_state param) in
  if host_data =? OPEN_CAN_DEVICE then
    config_upd (ss_can_id param) (set_cf_state CAN_STATE_OPENED) ;;
    send_start_stop_response 0
  else if host_data =? CLOSE_CAN_DEVICE then
    config_upd (ss_can_id param) (set_cf_state CAN_STATE_CLOSED) ;;
    send_start_stop_response 0
  else
    error_event (str "Invalid CAN state (expected open/close)") ;;
    send_start_stop_response 1.

(** ** Parsing *)

Inductive ParseStatus :=
  | PARSE_SUCCESS | PARSE_ERR_SYNC | PARSE_ERR_LEN | PARSE_ERR_CHECKSUM | PARSE_NEED_MORE.

(** [buffer] holds the [buf_len] bytes received so far; a packet that is found
    starts at its first byte. *)
Definition parse_request_packet (buffer : bytes) : ParseStatus :=
  let buf_len := zlen buffer in
  if buf_len <? sizeof ReqPacket then PARSE_NEED_MORE else
  let header : ReqPacket := unpack buffer in
  if negb (reverse_4bytes (rq_sync_word header) =? REQ_SYNC_WORD) then PARSE_ERR_SYNC else
  if negb (rq_checksum header =?
           Z.lxor (Z.lxor (fld 0 4 buffer) (fld 4 4 buffer)) (fld 8 4 buffer))
  then PARSE_ERR_CHECKSUM else
  let payload_len := reverse_4bytes (rq_data_len header) in
  if payload_len >? BUFFER_SIZE - sizeof ReqPacket then PARSE_ERR_LEN else
  if payload_len >? buf_len - sizeof ReqPacket then PARSE_NEED_MORE else
  PARSE_SUCCESS.

Definition command_min_payload_size (command : Z) : Z :=
  if command =? 0x0101 then sizeof CanConfigParam
  else if command =? 0x0102 then 4
  else if command =? 0x0100 then 4
  else if command =? 0x0103 then sizeof CanStartStopParam
  else if command =? 0x0104 then sizeof BroadcastConfigParam
  else 0.

(** ** The command loop *)

Definition dispatch_command (sock : Z) (req : ReqPacket) (payload : bytes) : M world unit :=
  let command := reverse_2bytes (rq_cmd_type req) in
  if zlen payload <? command_min_payload_size command then ret tt else
  if command =? 0x0101 then handle_can_config sock req payload
  else if command =? 0x0102 then handle_can_info_query sock req payload
  else if command =? 0x0100 then handle_can_buf_query sock req payload
  else if command =? 0x0103 then handle_can_start_stop sock req payload
  else if command =? 0x0104 then handle_broadcast_config sock req payload
  else if command =? 0xFF05 then handle_version_query sock req payload
  else error_event (str "Unknown CAN command").

(** [while (buffered >= sizeof(ReqPacket))]: the bytes that are left. *)
Fixpoint command_loop (fuel : nat) (sock : Z) (buffer : bytes) : M world bytes :=
  match fuel with
  | O => stuck
  | S fuel' =>
    if negb (zlen buffer >=? sizeof ReqPacket) then ret buffer else
    match parse_request_packet buffer with
    | PARSE_NEED_MORE => ret buffer
    | PARSE_SUCCESS =>
      let req : ReqPacket := unpack buffer in
      let payload_len := reverse_4bytes (rq_data_len req) in
      let packet_len := sizeof ReqPacket + payload_len in
      let* payload := of_option (mem_read (sizeof ReqPacket) payload_len buffer) in
      dispatch_command sock req payload ;;
      command_loop fuel' sock (drop (Z.to_nat packet_len) buffer)
    | _ => command_loop fuel' sock (drop 1 buffer)
    end
  end.

(** One turn of the receive loop: [chunk] is what [recv] put behind the
    [buffered] bytes. *)
Definition command_receive (sock : Z) (buffered chunk : bytes) : M world bytes :=
  let buffer := buffered ++ chunk in
  command_loop (S (length buffer)) sock buffer.

(** What [recv] answers: at most [n] bytes, an interrupted call, an error. *)
Inductive recv_answer := RecvSome (n : Z) | RecvIntr | RecvFailed.

(** [while (running)]: [stream] is what the client sends; [recv] gets no more
    than the room behind the buffered bytes, and a result of zero bytes, which
    an empty room would give as well, ends the connection. *)
Fixpoint tcp_client_handler_9009 (answers : list recv_answer) (sock : Z) (buffered stream : bytes)
    : M world (bytes * bytes) :=
  match answers with
  | [] => ret (buffered, stream)
  | RecvIntr :: answers' => tcp_client_handler_9009 answers' sock buffered stream
  | RecvFailed :: _ => error_event (str "9009 port recv failed") ;; ret (buffered, stream)
  | RecvSome n :: answers' =>
    let k := Z.to_nat (Z.min n (BUFFER_SIZE - zlen buffered)) in
    let chunk := take k stream in
    if zlen chunk =? 0 then ret (buffered, stream) else
    let* rest := command_receive sock buffered chunk in
    tcp_client_handler_9009 answers' sock rest (drop k stream)
  end.
End Handlers.

(** ** What a command leaves alone *)

(** A command may change the configurations, the sockets, the counters, the
    broadcast schedule and its queues. *)
Record cmd_frame (w w' : world) : Prop := {
  cm_wf : world_wf w -> world_wf w';
  cm_held : w_held w' = w_held w;
  cm_axican : w_axican w' = w_axican w;
  cm_download : data_download_socket w' = data_download_socket w;
  cm_bufs : forall n ch, n <> BcastGroup -> 0 <= ch ->
    buf_queue n ch (w_bufs w') = buf_queue n ch (w_bufs w);
  cm_extends : extends w w'
}.

#[export] Instance cmd_frame_preorder : PreOrder cmd_frame.
Proof.
  split.
  - intros w. split; auto; reflexivity.
  - intros w1 w2 w3 [] []. split; try congruence; try (by etransitivity); [by auto|].
    intros n ch Hn Hch. rewrite cm_bufs1, cm_bufs0; done.
Qed.

Lemma net_only_cmd_frame w w' : net_only w w' -> cmd_frame w w'.
Proof.
  intros Hno. pose proof (net_only_wf _ _ Hno). destruct Hno. split; try done.
  intros n ch _ _. congruence.
Qed.

(** A new list of configurations, and nothing else but [net_only]. *)
Definition at_config (f : list CanDeviceConfig) (w w' : world) : Prop :=
  net_only (set_configs f w) w'.

Lemma set_configs_same w : set_configs (w_configs w) w = w.
Proof. by destruct w. Qed.

Lemma net_only_set_configs f w w' : net_only w w' -> net_only (set_configs f w) (set_configs f w').
Proof. intros []. by split. Qed.

Lemma at_config_refl w : at_config (w_configs w) w w.
Proof. unfold at_config. by rewrite set_configs_same. Qed.

Lemma at_config_net f w w1 w2 : at_config f w w1 -> net_only w1 w2 -> at_config f w w2.
Proof. unfold at_config. intros. by etransitivity. Qed.

Lemma at_config_upd f g w w1 : at_config f w w1 -> at_config g w (set_configs g w1).
Proof.
  intros Hw. apply (net_only_set_configs g) in Hw. by unfold at_config; destruct w, w1.
Qed.

Lemma at_config_trans f g w w1 w2 : at_config f w w1 -> at_config g w1 w2 -> at_config g w w2.
Proof.
  intros H1 H2. unfold at_config in *. etransitivity; [|exact H2].
  by apply (at_config_upd f).
Qed.

Lemma at_config_configs f w w' : at_config f w w' -> w_configs w' = f.
Proof. intros Hw. by rewrite (no_configs _ _ Hw). Qed.

Lemma at_config_cmd_frame f w w' :
  at_config f w w' -> (configs_wf (w_configs w) -> configs_wf f) -> cmd_frame w w'.
Proof.
  intros Hw Hf. etransitivity; [|apply (net_only_cmd_frame _ _ Hw)].
  split; try done; [|by exists []].
  intros []. split; try done. by apply Hf.
Qed.

Lemma configs_wf_insert f i c :
  configs_wf f -> config_wf (Z.to_nat i) c -> configs_wf (<[Z.to_nat i := c]> f).
Proof.
  intros [Hl Hf] Hc. split; [by rewrite length_insert|].
  intros j d [(<- & <- & _)|(_ & Hd)]%list_lookup_insert_Some; [done | by apply Hf].
Qed.

(** The configuration of a channel. *)
Lemma config_lookup i w : world_wf w -> 0 <= i < 6 -> exists c,
  w_configs w !! Z.to_nat i = Some c /\ config_wf (Z.to_nat i) c.
Proof.
  intros Hwf Hi. destruct (ww_configs _ Hwf) as [Hl Hf].
  destruct (lookup_lt_is_Some_2 (w_configs w) (Z.to_nat i)) as [c Hc]; [lia|].
  exists c. eauto.
Qed.

Lemma axican_lookup i w : world_wf w -> 0 <= i < 6 -> exists ax, w_axican w !! Z.to_nat i = Some ax.
Proof.
  intros Hwf Hi. apply lookup_lt_is_Some_2. rewrite (ww_axican _ Hwf). lia.
Qed.

Section Rules.
Context `{OS}.
#[local] Open Scope c_scope.

(** The state after an error event. *)
Definition err (msg : bytes) (w : world) : world :=
  event_result EVENT_LEVEL_ERROR EVENT_CAN_SENT_FAILE msg w.

Lemma net_only_err msg w : net_only w (err msg w).
Proof. apply net_only_event. Qed.

Lemma error_event_eq msg w : held_below 6 w -> error_event msg w = Some (tt, err msg w).
Proof. intros Hb. apply send_event_eq. by eapply lock_free_below. Qed.

Lemma wp_error_event msg (Q : unit -> world -> Prop) w :
  held_below 6 w -> Q tt (err msg w) -> wp (error_event msg) Q w.
Proof. intros Hb HQ. unfold wp. by rewrite error_event_eq. Qed.

Lemma wp_config_upd i g c (Q : unit -> world -> Prop) w :
  0 <= i -> w_configs w !! Z.to_nat i = Some c ->
  Q tt (set_configs (<[Z.to_nat i := g c]> (w_configs w)) w) -> wp (config_upd i g) Q w.
Proof. intros Hi Hc HQ. by eapply wp_arr_upd. Qed.

Lemma wp_read_u32 data (Q : Z -> world -> Prop) w :
  4 <= zlen data -> Q (fld 0 4 data) w -> wp (read_u32 data) Q w.
Proof.
  intros Hl HQ. unfold read_u32. by rewrite (proj2 (Z.leb_le _ _)) by done.
Qed.

(** [answered c r w w']: between [w] and [w'] the call [c] was made and the
    system answered [r]. *)
Definition answered (c : syscall) (r : Z) (w w' : world) : Prop :=
  exists h n1 n2, w_hist w' = n2 ++ c :: h /\ h = n1 ++ w_hist w /\ os_ret h c = r.

Lemma answered_now c w w1 : extends w w1 -> answered c (os_ret (w_hist w1) c) w (add_call c w1).
Proof. intros [n Hn]. by exists (w_hist w1), n, []. Qed.

Lemma answered_later c r w w1 w2 : answered c r w w1 -> extends w1 w2 -> answered c r w w2.
Proof.
  intros (h & n1 & n2 & H1 & -> & Hr) [n Hn].
  exists (n1 ++ w_hist w), n1, (n ++ n2). by rewrite Hn, H1, <- app_assoc.
Qed.

Lemma answered_before c r w w1 w2 : extends w w1 -> answered c r w1 w2 -> answered c r w w2.
Proof.
  intros [n Hn] (h & n1 & n2 & H1 & -> & Hr).
  exists (n1 ++ w_hist w1), (n1 ++ n), n2. split_and!; [done | | done].
  by rewrite Hn, <- app_assoc.
Qed.
End Rules.

#[export] Hint Resolve net_only_err at_config_refl : zmht.

(** ** CAN configuration *)

Section Config.
Context `{OS}.
#[local] Open Scope c_scope.

(** [strict] is [ALONG_MODE]. *)
Definition set_baud_of (strict : bool) := if strict then along_set_baud else normal_set_baud.
Definition try_mode_of (strict : bool) := if strict then along_try_mode else normal_try_mode.
Definition set_mode_of (strict : bool) := if strict then along_set_mode else normal_set_mode.

Definition baud_valid (p : CanConfigParam) : bool :=
  (0 <? cc_baud_rate p) && (cc_baud_rate p <=? 1000000).
Definition mode_valid (p : CanConfigParam) : bool :=
  (cc_mode p =? ZMUAV_XCAN_MODE_NORMAL) || (cc_mode p =? ZMUAV_XCAN_MODE_LOOPBACK).

(** Whether a setting counts as done: a valid value which, when [strict], the
    driver took with answer [rc]. *)
Definition setting_done (strict valid : bool) (rc : Z) : bool :=
  valid && (negb strict || (rc =? 0)).

Definition baud_config (stored : bool) (p : CanConfigParam) (c : CanDeviceConfig) : CanDeviceConfig :=
  if stored then set_cf_baud_rate (cc_baud_rate p) c else c.

Lemma set_baud_spec strict p ax c w :
  held_below 6 w -> 0 <= cc_ch_id p ->
  w_axican w !! Z.to_nat (cc_ch_id p) = Some ax ->
  w_configs w !! Z.to_nat (cc_ch_id p) = Some c ->
  wp (set_baud_of strict p) (fun b w' => exists rc,
     let stored := setting_done strict (baud_valid p) rc in
     (baud_valid p = true -> answered (SysIoctlBaud (ax_rd_fd ax) (cc_baud_rate p)) rc w w') /\
     b = (if stored then 1 else 0) /\
     at_config (<[Z.to_nat (cc_ch_id p) := baud_config stored p c]> (w_configs w)) w w') w.
Proof.
  intros Hb Hch Hax Hc.
  set (call := SysIoctlBaud (ax_rd_fd ax) (cc_baud_rate p)).
  set (rc := os_ret (w_hist w) call).
  assert (at_config (w_configs w) w (add_call call w)) as Hcall.
  { eapply at_config_net; [apply at_config_refl | apply net_only_add_call]. }
  assert (answered call rc w (add_call call w)) as Hans by (by apply answered_now).
  assert (<[Z.to_nat (cc_ch_id p) := c]> (w_configs w) = w_configs w) as Hid.
  { by apply list_insert_id. }
  assert (baud_valid p = (cc_baud_rate p >? 0) && (cc_baud_rate p <=? 1000000)) as Hv.
  { unfold baud_valid. by rewrite Z.gtb_ltb. }
  destruct strict; simpl; unfold along_set_baud, normal_set_baud; rewrite <- Hv;
    unfold setting_done; (destruct (baud_valid p) eqn:Hvalid; simpl).
  2,4: wp_step; apply wp_error_event; [done|]; wp_step; exists rc;
       (split; [done|]); (split; [done|]); simpl; rewrite Hid;
       eapply at_config_net; [apply at_config_refl | apply net_only_err].
  - wp_step. eapply wp_arr_get; [done | exact Hax |]. wp_step. apply wp_sys. fold call rc.
    destruct (Z.eqb_spec rc 0) as [Hz|Hz]; simpl.
    + wp_step. eapply wp_config_upd; [done | exact Hc |]. wp_step. exists rc.
      rewrite (proj2 (Z.eqb_eq _ _) Hz). split; [intros _|split; [done|]].
      * eapply answered_later; [exact Hans | by exists []].
      * by eapply at_config_upd.
    + wp_step. apply wp_error_event; [done|]. wp_step. exists rc.
      rewrite (proj2 (Z.eqb_neq _ _) Hz). split; [intros _|split; [done|]].
      * eapply answered_later; [exact Hans | apply (no_extends _ _ (net_only_err _ _))].
      * simpl. rewrite Hid. eapply at_config_net; [exact Hcall | apply net_only_err].
  - wp_step. eapply wp_arr_get; [done | exact Hax |]. wp_step. apply wp_sys. fold call rc.
    wp_step.
    apply (wp_mono _ (fun _ w1 => net_only (add_call call w) w1)).
    { wp_step; [apply wp_error_event; [done | apply net_only_err] | done]. }
    intros _ w1 Hno. wp_step.
    eapply wp_config_upd; [done | by rewrite (no_configs _ _ Hno) |]. wp_step. exists rc.
    split; [intros _|split; [done|]].
    + eapply answered_later; [exact Hans|]. apply (no_extends _ _ Hno).
    + rewrite (no_configs _ _ Hno). eapply at_config_upd, at_config_net; [exact Hcall | exact Hno].
Qed.

Lemma try_mode_spec strict p mode ax w :
  held_below 6 w -> 0 <= cc_ch_id p ->
  w_axican w !! Z.to_nat (cc_ch_id p) = Some ax ->
  wp (try_mode_of strict p mode) (fun b w' => exists rc,
     answered (SysIoctlMode (ax_rd_fd ax) mode) rc w w' /\ net_only w w' /\
     b = (if setting_done strict true rc then 1 else 0)) w.
Proof.
  intros Hb Hch Hax.
  set (call := SysIoctlMode (ax_rd_fd ax) mode). set (rc := os_ret (w_hist w) call).
  assert (answered call rc w (add_call call w)) as Hans by (by apply answered_now).
  assert (forall w', net_only (add_call call w) w' -> answered call rc w w' /\ net_only w w') as Hstep.
  { intros w' Hno. split; [eapply answered_later; [exact Hans | apply (no_extends _ _ Hno)]|].
    etransitivity; [apply net_only_add_call | exact Hno]. }
  destruct strict; simpl; unfold along_try_mode, normal_try_mode;
    (wp_step; eapply wp_arr_get; [done | exact Hax |]); wp_step; apply wp_sys; fold call rc;
    unfold setting_done; simpl.
  - destruct (rc =? 0) eqn:Hz; simpl.
    + wp_step. exists rc. rewrite Hz. destruct (Hstep (add_call call w)); [done | by split_and!].
    + wp_step. apply wp_error_event; [done|]. wp_step. exists rc. rewrite Hz.
      destruct (Hstep (err (str "CAN set mode failed") (add_call call w)));
        [apply net_only_err | by split_and!].
  - wp_step. apply (wp_mono _ (fun _ w1 => net_only (add_call call w) w1)).
    { wp_step; [apply wp_error_event; [done | apply net_only_err] | done]. }
    intros _ w1 Hno. wp_step. exists rc. destruct (Hstep w1 Hno). by split_and!.
Qed.

Lemma set_mode_spec strict p ax w :
  held_below 6 w -> 0 <= cc_ch_id p ->
  w_axican w !! Z.to_nat (cc_ch_id p) = Some ax ->
  wp (set_mode_of strict p) (fun b w' => exists rc,
     (mode_valid p = true -> answered (SysIoctlMode (ax_rd_fd ax) (cc_mode p)) rc w w') /\
     net_only w w' /\ b = (if setting_done strict (mode_valid p) rc then 1 else 0)) w.
Proof.
  intros Hb Hch Hax.
  assert (set_mode_of strict p =
    if cc_mode p =? ZMUAV_XCAN_MODE_NORMAL then try_mode_of strict p ZMUAV_XCAN_MODE_NORMAL
    else if cc_mode p =? ZMUAV_XCAN_MODE_LOOPBACK then
      (let* m := try_mode_of strict p ZMUAV_XCAN_MODE_LOOPBACK in
       error_event (str "RECEIVE DATA MODE OTHER") ;; ret m)
    else (error_event (str "RECEIVE DATA MODE OTHER") ;; ret 0)) as -> by by destruct strict.
  unfold mode_valid.
  destruct (Z.eqb_spec (cc_mode p) ZMUAV_XCAN_MODE_NORMAL) as [->|]; simpl.
  { eapply wp_mono; [by apply try_mode_spec|]. intros b w' (rc & ? & ? & ?). by exists rc. }
  destruct (Z.eqb_spec (cc_mode p) ZMUAV_XCAN_MODE_LOOPBACK) as [->|]; simpl.
  - wp_step. eapply wp_mono; [by apply try_mode_spec|]. intros b w' (rc & Hans & Hno & Hr).
    wp_step. apply wp_error_event; [by eapply held_below_eq; [apply (no_held _ _ Hno)|]|].
    wp_step. exists rc. split; [intros _|split; [|done]].
    + eapply answered_later; [exact Hans | apply (no_extends _ _ (net_only_err _ _))].
    + etransitivity; [exact Hno | apply net_only_err].
  - wp_step. apply wp_error_event; [done|]. wp_step. exists 0.
    split_and!; [done | apply net_only_err | done].
Qed.

(** The checks before the configuration is touched. *)
Definition config_accepted (data : bytes) : bool :=
  let p : CanConfigParam := unpack data in
  (cc_ch_id p <? AXICAN_MAX) && (cc_head p =? PC_STATUS_HEAD) &&
  (cc_xor_checksum p =? calculate_xor_checksum data 44).

Definition named_config (p : CanConfigParam) (c : CanDeviceConfig) : CanDeviceConfig :=
  set_cf_can_type (u8 (cc_CAN_DATA_MODE p)) (set_cf_valid 1 (set_cf_can_id (cc_ch_id p) c)).

Definition config_reply (status : Z) (w : world) : world :=
  if data_upload_socket w =? -1 then w else
  upload_result (pack (command_reply 0x0101 (u16 (data_counter w + 1)) status)) (count_up w).

Lemma net_only_config_reply status w : net_only w (config_reply status w).
Proof.
  unfold config_reply. case_match; [done|].
  etransitivity; [apply net_only_count_up | apply net_only_upload].
Qed.

Definition config_by (strict : bool) := if strict then can_config_along else can_config_normal.

Definition config_post (strict : bool) (p : CanConfigParam) (ax : axican) (c : CanDeviceConfig)
    (w w' : world) : Prop :=
  exists rb rm w1,
    let stored := setting_done strict (baud_valid p) rb in
    let moded := setting_done strict (mode_valid p) rm in
    (baud_valid p = true -> answered (SysIoctlBaud (ax_rd_fd ax) (cc_baud_rate p)) rb w w1) /\
    (mode_valid p = true -> answered (SysIoctlMode (ax_rd_fd ax) (cc_mode p)) rm w w1) /\
    at_config (<[Z.to_nat (cc_ch_id p) := baud_config stored p c]> (w_configs w)) w w1 /\
    w' = config_reply (if stored && moded then 0 else 1) w1.

Lemma config_by_spec strict p ax c w :
  held_below 4 w -> 0 <= cc_ch_id p ->
  w_axican w !! Z.to_nat (cc_ch_id p) = Some ax ->
  w_configs w !! Z.to_nat (cc_ch_id p) = Some c ->
  wp (config_by strict p) (fun _ w' => config_post strict p ax c w w') w.
Proof.
  intros Hb Hch Hax Hc.
  assert (held_below 6 w) as Hb6 by (eapply held_below_mono; [|exact Hb]; lia).
  assert (config_by strict p =
    (let* b := set_baud_of strict p in let* m := set_mode_of strict p in
     send_can_config_response (cc_ch_id p)
       (if strict then if (m =? 1) && (b =? 1) then 0 else 1
        else if negb (m =? 0) && negb (b =? 0) then 0 else 1))) as -> by by destruct strict.
  wp_step. eapply wp_mono; [by apply set_baud_spec|]. intros b w1 (rb & Hab & Hb1 & Hw1).
  wp_step. eapply wp_mono.
  { apply set_mode_spec; [eapply held_below_eq; [apply (no_held _ _ Hw1)|exact Hb6] | done |].
    rewrite (no_axican _ _ Hw1). exact Hax. }
  intros m w2 (rm & Ham & Hno & Hm).
  assert (at_config (<[Z.to_nat (cc_ch_id p) :=
    baud_config (setting_done strict (baud_valid p) rb) p c]> (w_configs w)) w w2) as Hw2.
  { by eapply at_config_net. }
  unfold wp. rewrite send_can_config_response_eq.
  2:{ eapply lock_free_below; [eapply held_below_eq; [apply (no_held _ _ Hw2)|exact Hb] | simpl; lia]. }
  exists rb, rm, w2. split_and!; [| | exact Hw2 |].
  - intros Hv. eapply answered_later; [by apply Hab | apply (no_extends _ _ Hno)].
  - intros Hv. eapply answered_before; [apply (no_extends _ _ Hw1) | by apply Ham].
  - unfold config_reply. rewrite Hb1, Hm.
    by destruct strict, (setting_done _ (baud_valid p) rb), (setting_done _ (mode_valid p) rm).
Qed.

Lemma config_tests data :
  48 <= zlen data ->
  let p : CanConfigParam := unpack data in
  config_accepted data =
    negb (cc_ch_id p >=? AXICAN_MAX) && negb (negb (cc_head p =? PC_STATUS_HEAD)) &&
    negb (negb (cc_xor_checksum p =? calculate_xor_checksum (pack p) (48 - 4))).
Proof.
  intros Hlen p. unfold config_accepted. fold p. change (48 - 4)%nat with 44%nat.
  assert (calculate_xor_checksum (pack p) 44 = calculate_xor_checksum data 44) as ->.
  { apply (checksum_pack_unpack (A := CanConfigParam));
      change (psize (A := CanConfigParam)) with 48%nat; unfold zlen in Hlen; lia. }
  rewrite !negb_involutive, Z.geb_leb, Z.leb_antisym, negb_involutive. done.
Qed.

Lemma config_wf_named i p c :
  config_wf i c -> cc_ch_id p = Z.of_nat i -> config_wf i (named_config p c).
Proof.
  intros (H1 & H2 & H3 & H4 & H5) Hi. unfold named_config.
  split_and!; simpl; try done. apply wrap_range. lia.
Qed.

Lemma config_wf_baud i p c stored :
  config_wf i c -> is_u32 (cc_baud_rate p) -> config_wf i (baud_config stored p c).
Proof. intros (H1 & H2 & H3 & H4 & H5) Hi. by destruct stored. Qed.

Lemma wp_config_upd_again i g c l (Q : unit -> world -> Prop) w :
  0 <= i -> (Z.to_nat i < length l)%nat ->
  Q tt (set_configs (<[Z.to_nat i := g c]> l) w) ->
  wp (config_upd i g) Q (set_configs (<[Z.to_nat i := c]> l) w).
Proof.
  intros Hi Hl HQ. eapply wp_config_upd; [done | by apply list_lookup_insert_eq|].
  simpl. by rewrite list_insert_insert_eq.
Qed.

Lemma param_wf {A} `{Packed A} (data : bytes) : sizeof A <= zlen data -> pwf (unpack data : A).
Proof. unfold sizeof, zlen. intros. apply unpack_wf. lia. Qed.

Lemma config_param_wf data :
  48 <= zlen data -> CanConfigParam_wf (unpack data).
Proof. exact (param_wf (A := CanConfigParam) data). Qed.

(** What the handler does with its payload. *)
Definition config_handled (data : bytes) (w w' : world) : Prop :=
  let p : CanConfigParam := unpack data in
  if config_accepted data then
    exists ax c, w_axican w !! Z.to_nat (cc_ch_id p) = Some ax /\
      w_configs w !! Z.to_nat (cc_ch_id p) = Some c /\
      let named := named_config p c in
      let wn := set_configs (<[Z.to_nat (cc_ch_id p) := named]> (w_configs w)) w in
      if (cc_type p =? 0) && ((cc_CAN_DATA_MODE p =? ALONG_MODE) || (cc_CAN_DATA_MODE p =? NORMAL_MODE))
      then config_post (cc_CAN_DATA_MODE p =? ALONG_MODE) p ax named wn w'
      else w' = err (str "Unsupported CAN data mode") wn
  else exists msg, w' = err msg w.

Lemma handle_can_config_spec sock req data w :
  held_below 4 w -> world_wf w -> 48 <= zlen data ->
  wp (handle_can_config sock req data) (fun _ w' => config_handled data w w') w.
Proof.
  intros Hb Hwf Hlen. unfold config_handled. set (p := unpack data : CanConfigParam).
  assert (held_below 6 w) as Hb6 by (eapply held_below_mono; [|exact Hb]; lia).
  unfold handle_can_config. apply wp_bind, wp_cast; [done|]. fold p.
  change (psize (A := CanConfigParam) - 4)%nat with (48 - 4)%nat. cbv zeta.
  pose proof (config_tests data Hlen) as Htests. cbv zeta in Htests. fold p in Htests.
  rewrite Htests.
  destruct (cc_ch_id p >=? AXICAN_MAX) eqn:Hch; [apply wp_error_event; [done | by eexists]|].
  destruct (negb (cc_head p =? PC_STATUS_HEAD)); [apply wp_error_event; [done | by eexists]|].
  destruct (negb (cc_xor_checksum p =? _)); [apply wp_error_event; [done | by eexists]|].
  simpl. assert (0 <= cc_ch_id p < 6) as Hid.
  { pose proof (config_param_wf data Hlen) as Hpw. fold p in Hpw. unfold CanConfigParam_wf in Hpw.
    destruct_and! Hpw. bool_prop. unfold AXICAN_MAX, in_range in *. lia. }
  destruct (axican_lookup _ w Hwf Hid) as [ax Hax].
  destruct (config_lookup _ w Hwf Hid) as (c & Hc & _).
  assert (Z.to_nat (cc_ch_id p) < length (w_configs w))%nat as Hlt by (by eapply lookup_lt_Some).
  wp_step. eapply wp_config_upd; [apply Hid | exact Hc |].
  wp_step. apply wp_config_upd_again; [apply Hid | exact Hlt |].
  wp_step. apply wp_config_upd_again; [apply Hid | exact Hlt |].
  fold (named_config p c). set (wn := set_configs _ w).
  assert (forall strict, wp (config_by strict p)
            (fun _ w' => config_post strict p ax (named_config p c) wn w') wn) as Hby.
  { intros strict. apply config_by_spec; [exact Hb | apply Hid | exact Hax |].
    by apply list_lookup_insert_eq. }
  assert (wp (error_event (str "Unsupported CAN data mode"))
    (fun _ w' => w' = err (str "Unsupported CAN data mode") wn) wn) as Hdef.
  { by apply wp_error_event. }
  destruct (Z.eqb_spec (cc_CAN_DATA_MODE p) ALONG_MODE) as [?|?];
    [|destruct (Z.eqb_spec (cc_CAN_DATA_MODE p) NORMAL_MODE) as [?|?]];
    destruct (cc_type p =? 0); simpl;
    (eapply wp_mono; [first [exact Hdef | exact (Hby true) | exact (Hby false)]|]);
    intros [] w' HT; by exists ax, c.
Qed.

Lemma config_handled_at data w w' :
  world_wf w -> 48 <= zlen data -> config_handled data w w' ->
  exists f, at_config f w w' /\ (configs_wf (w_configs w) -> configs_wf f).
Proof.
  intros Hwf Hlen. pose proof (config_param_wf data Hlen) as Hp.
  unfold config_handled. set (p := unpack data : CanConfigParam) in *.
  unfold CanConfigParam_wf in Hp. destruct_and! Hp.
  destruct (config_accepted data).
  2:{ intros [msg ->]. exists (w_configs w). split; [|done].
      eapply at_config_net; [apply at_config_refl | apply net_only_err]. }
  intros (ax & c & _ & Hc & Hr). pose proof (proj2 (ww_configs _ Hwf) _ _ Hc) as Hcw.
  assert (config_wf (Z.to_nat (cc_ch_id p)) (named_config p c)) as Hnamed.
  { apply config_wf_named; [done|]. unfold in_range in *. lia. }
  set (wn := set_configs _ w) in Hr.
  assert (at_config (w_configs wn) w wn) as Hwn by (eapply at_config_upd, at_config_refl).
  cbv zeta in Hr. destruct (_ && _)%bool.
  - destruct Hr as (rb & rm & w1 & _ & _ & Hat & ->).
    eexists. split; [eapply at_config_net; [eapply at_config_trans; [exact Hwn | exact Hat]
                                           | apply net_only_config_reply]|].
    intros Hf. simpl. rewrite list_insert_insert_eq. apply configs_wf_insert; [done|].
    by apply config_wf_baud.
  - subst w'. eexists. split; [eapply at_config_net; [exact Hwn | apply net_only_err]|].
    intros Hf. by apply configs_wf_insert.
Qed.

(** C37. Channel configuration: a request below 48 bytes never arrives; one
    with a bad channel, head or checksum changes nothing and raises one event.
    An accepted request names the channel, stores its data mode and, for the
    two supported modes, sends one reply after the driver calls.  In the
    stand-alone mode the reply is success exactly when the rate and the mode
    are valid and the driver took both, and the stored rate is the one the
    driver took.  In the normal mode only the values are judged: the reply is
    success, and the rate is stored, whatever the driver answered. *)
Theorem can_config_outcome sock req data w :
  held_below 4 w -> world_wf w -> 48 <= zlen data ->
  exists w', handle_can_config sock req data w = Some (tt, w') /\
    world_wf w' /\ cmd_frame w w' /\ w_bc w' = w_bc w /\ w_bufs w' = w_bufs w /\
    let p : CanConfigParam := unpack data in
    if config_accepted data then
      exists ax c, w_axican w !! Z.to_nat (cc_ch_id p) = Some ax /\
        w_configs w !! Z.to_nat (cc_ch_id p) = Some c /\
        let named := named_config p c in
        let wn := set_configs (<[Z.to_nat (cc_ch_id p) := named]> (w_configs w)) w in
        if (cc_type p =? 0) && ((cc_CAN_DATA_MODE p =? ALONG_MODE) || (cc_CAN_DATA_MODE p =? NORMAL_MODE))
        then exists rb rm w1,
          let strict := cc_CAN_DATA_MODE p =? ALONG_MODE in
          let stored := setting_done strict (baud_valid p) rb in
          let moded := setting_done strict (mode_valid p) rm in
          (baud_valid p = true ->
             answered (SysIoctlBaud (ax_rd_fd ax) (cc_baud_rate p)) rb wn w1) /\
          (mode_valid p = true -> answered (SysIoctlMode (ax_rd_fd ax) (cc_mode p)) rm wn w1) /\
          at_config (<[Z.to_nat (cc_ch_id p) := baud_config stored p named]> (w_configs wn)) wn w1 /\
          w' = config_reply (if stored && moded then 0 else 1) w1
        else w' = err (str "Unsupported CAN data mode") wn
    else exists msg, w' = err msg w.
Proof.
  intros Hb Hwf Hlen.
  destruct (proj1 (wp_exec _ _ _) (handle_can_config_spec sock req data w Hb Hwf Hlen))
    as ([] & w' & Hrun & Hr).
  destruct (config_handled_at data w w' Hwf Hlen Hr) as (f & Hat & Hf).
  pose proof (at_config_cmd_frame _ _ _ Hat Hf) as Hcm.
  exists w'. split; [exact Hrun|]. split; [by apply (cm_wf _ _ Hcm)|]. split; [exact Hcm|].
  split; [apply (no_bc _ _ Hat)|]. split; [apply (no_bufs _ _ Hat) | exact Hr].
Qed.
End Config.

(** A driver that refuses every call, with complete sends. *)
Definition refusing_os : OS := {|
  os_ret := fun _ c => match c with
    | SysSend _ d | SysWrite _ d => zlen d | SysIoctlBaud _ _ | SysIoctlMode _ _ => -1 | _ => 0 end;
  os_data := fun _ _ => [];
  os_clock := fun _ _ => (12, 345678901)
|}.

(** Channel 2, 250 kbit/s, loopback. *)
Definition sample_config (data_mode : Z) : bytes :=
  let p x := {| cc_head := PC_STATUS_HEAD; cc_direction := 0; cc_type := 0; cc_length := 48;
    cc_ch_id := 2; cc_total_count := 0; cc_ch_count := 0; cc_baud_rate := 250000;
    cc_mode := ZMUAV_XCAN_MODE_LOOPBACK; cc_auto_send := 0; cc_ier := 0; cc_Packet_Interval := 0;
    cc_CAN_DATA_MODE := data_mode; cc_reserved := replicate 6 x00; cc_timestamp := 0;
    cc_xor_checksum := x |} in
  pack (p (calculate_xor_checksum (pack (p 0)) 44)).

(** The normal mode answers success although the driver refused both calls. *)
Lemma can_config_outcome_witness :
  let w := connected_world in
  exists w', handle_can_config (H := refusing_os) 9 sample_request (sample_config NORMAL_MODE) w
               = Some (tt, w') /\
    world_wf w' /\ exists w1, w' = config_reply (H := refusing_os) 0 w1 /\
    (cf_baud_rate <$> w_configs w1 !! 2%nat) = Some 250000 /\
    exists rb, answered (H := refusing_os) (SysIoctlBaud 7 250000) rb w w1.
Proof.
  intros w.
  destruct (can_config_outcome (H := refusing_os) 9 sample_request (sample_config NORMAL_MODE) w)
    as (w' & Hrun & Hwf' & Hcm & _ & _ & Hr);
    [apply boot_world_held | apply connected_world_wf | by vm_compute |].
  exists w'. split; [exact Hrun|]. split; [exact Hwf'|].
  assert (config_accepted (sample_config NORMAL_MODE) = true) as Ha by by vm_compute.
  cbv zeta in Hr. rewrite Ha in Hr. destruct Hr as (ax & c & Hax & Hc & Hr).
  assert ((unpack (sample_config NORMAL_MODE) : CanConfigParam) =
    {| cc_head := PC_STATUS_HEAD; cc_direction := 0; cc_type := 0; cc_length := 48;
       cc_ch_id := 2; cc_total_count := 0; cc_ch_count := 0; cc_baud_rate := 250000;
       cc_mode := ZMUAV_XCAN_MODE_LOOPBACK; cc_auto_send := 0; cc_ier := 0; cc_Packet_Interval := 0;
       cc_CAN_DATA_MODE := NORMAL_MODE; cc_reserved := replicate 6 x00; cc_timestamp := 0;
       cc_xor_checksum := cc_xor_checksum (unpack (sample_config NORMAL_MODE)) |}) as Hp
    by (vm_compute; reflexivity).
  rewrite Hp in Hax, Hc, Hr. injection Hax as <-. injection Hc as <-.
  destruct Hr as (rb & rm & w1 & Hbaud & _ & Hat & ->).
  exists w1. split; [done|]. split.
  { rewrite (at_config_configs _ _ _ Hat). reflexivity. }
  exists rb. destruct (Hbaud eq_refl) as (h & n1 & n2 & H1 & H2 & H3). exists h, n1, n2. exact (conj H1 (conj H2 H3)).
Defined.

(** ** Start, stop and version *)

Section Simple.
Context `{OS}.
#[local] Open Scope c_scope.

Definition start_stop_reply (status : Z) (w : world) : world :=
  if data_upload_socket w =? -1 then count_up w
  else upload_result (pack (command_reply 0x0103 (data_counter w) status)) (count_up w).

Lemma net_only_start_stop_reply status w : net_only w (start_stop_reply status w).
Proof.
  unfold start_stop_reply. case_match; [apply net_only_count_up|].
  etransitivity; [apply net_only_count_up | apply net_only_upload].
Qed.

(** The state a start or stop request asks for. *)
Definition requested_state (data : bytes) : option CanState :=
  let host_data := ntohl (fld 4 4 data) in
  if host_data =? OPEN_CAN_DEVICE then Some CAN_STATE_OPENED
  else if host_data =? CLOSE_CAN_DEVICE then Some CAN_STATE_CLOSED else None.

Definition start_stop_configs (data : bytes) (l : list CanDeviceConfig) : list CanDeviceConfig :=
  match l !! Z.to_nat (fld 0 4 data), requested_state data with
  | Some c, Some s => <[Z.to_nat (fld 0 4 data) := set_cf_state s c]> l
  | _, _ => l
  end.

Lemma start_stop_configs_wf data l : configs_wf l -> configs_wf (start_stop_configs data l).
Proof.
  intros Hf. unfold start_stop_configs.
  destruct (_ !! _) as [c|] eqn:Hc; [|done]. destruct (requested_state data); [|done].
  apply configs_wf_insert; [done | exact (proj2 Hf _ _ Hc)].
Qed.

Definition start_stop_ok (data : bytes) : bool :=
  (fld 0 4 data <? AXICAN_MAX) && match requested_state data with Some _ => true | None => false end.

Lemma start_stop_spec sock req data w :
  held_below 4 w -> world_wf w -> 8 <= zlen data ->
  wp (handle_can_start_stop sock req data) (fun _ w' => exists w1,
    at_config (start_stop_configs data (w_configs w)) w w1 /\
    w' = start_stop_reply (if start_stop_ok data then 0 else 1) w1) w.
Proof.
  intros Hb Hwf Hlen.
  assert (held_below 6 w) as Hb6 by (eapply held_below_mono; [|exact Hb]; lia).
  assert (forall w1 status (Q : unit -> world -> Prop), w_held w1 = w_held w ->
    Q tt (start_stop_reply status w1) -> wp (send_start_stop_response status) Q w1) as Hreply.
  { intros w1 status Q Hh HQ. unfold wp. rewrite send_start_stop_response_eq; [done|].
    eapply lock_free_below; [eapply held_below_eq; [exact Hh | exact Hb] | simpl; lia]. }
  assert (0 <= fld 0 4 data) as Hid by apply (fld_range 0 4 data 32 eq_refl).
  unfold handle_can_start_stop. apply wp_bind, wp_cast; [done|].
  change (unpack data : CanStartStopParam) with (CanStartStopParam_unpack data). cbv zeta.
  cbn [CanStartStopParam_unpack ss_can_id ss_state]. unfold start_stop_configs, start_stop_ok.
  assert (w_configs w !! Z.to_nat (fld 0 4 data) = None \/ fld 0 4 data < 6 /\
    exists c, w_configs w !! Z.to_nat (fld 0 4 data) = Some c) as Hcfg.
  { destruct (decide (fld 0 4 data < 6)) as [Hlt|Hge].
    - destruct (config_lookup (fld 0 4 data) w Hwf) as (c & Hc & _); [done|]. eauto.
    - left. apply lookup_ge_None. rewrite (proj1 (ww_configs _ Hwf)). lia. }
  assert (at_config (w_configs w) w (err (str "Invalid CAN ID for start/stop") w) /\
          at_config (w_configs w) w (err (str "Invalid CAN state (expected open/close)") w)) as [He1 He2].
  { split; (eapply at_config_net; [apply at_config_refl | apply net_only_err]). }
  destruct (fld 0 4 data >=? AXICAN_MAX) eqn:Hge; bool_prop.
  - rewrite (proj2 (Z.ltb_ge _ _)) by done. destruct Hcfg as [->|[Hlt _]]; [|unfold AXICAN_MAX in *; lia].
    wp_step. apply wp_error_event; [done|]. apply Hreply; [apply (no_held _ _ He1)|].
    eexists. split; [exact He1 | done].
  - rewrite (proj2 (Z.ltb_lt _ _)) by done. destruct Hcfg as [Hn|[_ [c Hc]]].
    { apply lookup_ge_None in Hn. rewrite (proj1 (ww_configs _ Hwf)) in Hn.
      unfold AXICAN_MAX in *. lia. }
    rewrite Hc. unfold requested_state.
    destruct (_ =? OPEN_CAN_DEVICE); [|destruct (_ =? CLOSE_CAN_DEVICE)]; simpl.
    3: { wp_step. apply wp_error_event; [done|]. apply Hreply; [apply (no_held _ _ He2)|].
         eexists. split; [exact He2 | done]. }
    all: wp_step; eapply wp_config_upd; [done | exact Hc |]; apply Hreply; [done|];
      eexists; (split; [eapply at_config_upd, at_config_refl | done]).
Qed.

(** Start and stop: the request names a channel below six and the state
    0xAA or 0xBB in network order, and then exactly that channel takes the
    state and the reply is success; any other request changes no configuration
    and the reply is failure. *)
Theorem start_stop_outcome sock req data w :
  held_below 4 w -> world_wf w -> 8 <= zlen data ->
  exists w1 w', handle_can_start_stop sock req data w = Some (tt, w') /\
    world_wf w' /\ cmd_frame w w' /\ w_bc w' = w_bc w /\ w_bufs w' = w_bufs w /\
    w' = start_stop_reply (if start_stop_ok data then 0 else 1) w1 /\
    (start_stop_ok data = true <->
       fld 0 4 data < 6 /\ (ntohl (fld 4 4 data) = 0xAA \/ ntohl (fld 4 4 data) = 0xBB)) /\
    forall i c, w_configs w !! i = Some c -> exists c', w_configs w' !! i = Some c' /\
      c' = if decide (Z.of_nat i = fld 0 4 data)
           then match requested_state data with Some s => set_cf_state s c | None => c end
           else c.
Proof.
  intros Hb Hwf Hlen.
  destruct (proj1 (wp_exec _ _ _) (start_stop_spec sock req data w Hb Hwf Hlen))
    as ([] & w' & Hrun & w1 & Hat & ->).
  pose proof (at_config_net _ _ _ _ Hat (net_only_start_stop_reply (if start_stop_ok data then 0 else 1) w1)) as Hat'.
  assert (0 <= fld 0 4 data) as Hid by apply (fld_range 0 4 data 32 eq_refl).
  assert (cmd_frame w (start_stop_reply (if start_stop_ok data then 0 else 1) w1)) as Hcm.
  { eapply at_config_cmd_frame; [exact Hat' | apply start_stop_configs_wf]. }
  exists w1, (start_stop_reply (if start_stop_ok data then 0 else 1) w1).
  split; [exact Hrun|]. split; [by apply (cm_wf _ _ Hcm)|]. split; [exact Hcm|].
  split; [apply (no_bc _ _ Hat')|]. split; [apply (no_bufs _ _ Hat')|]. split; [done|]. split.
  - unfold start_stop_ok, requested_state, AXICAN_MAX, OPEN_CAN_DEVICE, CLOSE_CAN_DEVICE.
    destruct (Z.ltb_spec (fld 0 4 data) 6); [|split; [done | lia]].
    destruct (Z.eqb_spec (ntohl (fld 4 4 data)) 0xAA); [naive_solver|].
    destruct (Z.eqb_spec (ntohl (fld 4 4 data)) 0xBB); naive_solver.
  - intros i c Hc. rewrite (at_config_configs _ _ _ Hat'). unfold start_stop_configs.
    destruct (decide (Z.of_nat i = fld 0 4 data)) as [He|Hne].
    + rewrite <- He, Nat2Z.id, Hc. destruct (requested_state data); [|eauto].
      rewrite list_lookup_insert_eq by (by eapply lookup_lt_Some). eauto.
    + exists c. split; [|done]. destruct (w_configs w !! Z.to_nat (fld 0 4 data)); [|done].
      destruct (requested_state data); [|done].
      rewrite list_lookup_insert_ne; [done | lia].
Qed.
End Simple.

Lemma start_stop_outcome_witness :
  let data := pack (mk_CanStartStopParam 3 0xAA000000) in
  exists w1 w', handle_can_start_stop (H := quiet_os) 9 sample_request data connected_world = Some (tt, w') /\
    world_wf w' /\ start_stop_ok data = true /\ w' = start_stop_reply (H := quiet_os) 0 w1 /\
    cf_state <$> w_configs w' !! 3%nat = Some CAN_STATE_OPENED.
Proof.
  intros data.
  destruct (start_stop_outcome (H := quiet_os) 9 sample_request data connected_world)
    as (w1 & w' & Hrun & Hwf & _ & _ & _ & Hw' & _ & Hc);
    [apply boot_world_held | apply connected_world_wf | by vm_compute |].
  exists w1, w'. split; [exact Hrun|]. split; [exact Hwf|].
  assert (start_stop_ok data = true) as Hok by (vm_compute; reflexivity).
  split; [exact Hok|]. rewrite Hok in Hw'. split; [exact Hw'|].
  destruct (Hc 3%nat _ eq_refl) as (c' & Hl & ->). rewrite Hl. vm_compute. reflexivity.
Defined.

(** ** Queries *)

Section Queries.
Context `{OS}.
#[local] Open Scope c_scope.

Definition version_sent (counter version : Z) (w : world) : world :=
  if data_upload_socket w =? -1 then w else
  upload_result (pack (version_reply counter version)) w.

(** The version a query gets. *)
Definition version_answer (req : ReqPacket) (data : bytes) : Z :=
  if negb (reverse_4bytes (rq_data_len req) =? 4) then VERSION_QUERY_FAILED
  else if reverse_4bytes (fld 0 4 data) =? VERSION_QUERY_ARM then ARM_APP_VERSION
  else if reverse_4bytes (fld 0 4 data) =? VERSION_QUERY_ARM_PROGRAM then ARM_PROGRAM_TYPE
  else VERSION_QUERY_FAILED.

Lemma handle_version_query_eq sock req data w :
  held_below 4 w -> (reverse_4bytes (rq_data_len req) = 4 -> 4 <= zlen data) ->
  handle_version_query sock req data w =
    Some (tt, version_sent (rq_counter req) (version_answer req data) w).
Proof.
  intros Hb Hlen.
  assert (lock_free data_upload_mutex (w_held w) = true) as Hl
    by (eapply lock_free_below; [done | simpl; lia]).
  unfold handle_version_query, version_answer, version_sent.
  destruct (Z.eqb_spec (reverse_4bytes (rq_data_len req)) 4) as [Heq|]; simpl.
  - unfold read_u32. rewrite (proj2 (Z.leb_le _ _)) by auto. rewrite bind_ret_l.
    rewrite send_version_query_response_eq by done. do 4 f_equal.
    destruct (Z.eqb_spec (reverse_4bytes (fld 0 4 data)) VERSION_QUERY_ARM); [done|].
    destruct (Z.eqb_spec (reverse_4bytes (fld 0 4 data)) VERSION_QUERY_FPGA) as [->|]; done.
  - by rewrite send_version_query_response_eq.
Qed.

(** The space left in the buffers of a channel. *)
Definition free_space (n : buf_name) (ch : Z) (w : world) : Z :=
  buf_depth n - zlen (buf_queue n ch (w_bufs w)).

Definition remaining (w : world) (ch : Z) : CanBufRemainingResponse :=
  {| br_channel := ch; br_normal_buf_remaining := free_space Data ch w;
     br_pulse_buf_remaining := free_space BcastGroup ch w;
     br_sim_buf_remaining := free_space Simulator ch w; br_dmaddr_space := 0xFFFFFFFF;
     br_vfifo_space := 0xFFFFFFFF; br_axififo_space := 0xFFFFFFFF |}.

Lemma wp_broadcast_buffer_available ch (Q : Z -> world -> Prop) w :
  held_below 2 w -> bufs_wf (w_bufs w) -> 0 <= ch < 6 ->
  Q (free_space BcastGroup ch w) w -> wp (broadcast_buffer_available ch) Q w.
Proof.
  intros Hb Hbufs Hch HQ. unfold broadcast_buffer_available.
  wp_step. apply wp_lock; [by eapply lock_free_below|]. wp_step.
  apply wp_buf_avail; [done | lia |]. wp_step.
  eapply wp_unlock; [done|]. wp_step. simpl.
  assert (buf_chan_ok BcastGroup ch AXICAN_MAX = true) as ->
    by (unfold buf_chan_ok, AXICAN_MAX; simpl; apply andb_true_iff; lia).
  change (set_held (w_held w) _) with (set_held (w_held w) (set_held (bcast_state_mutex :: w_held w) w)).
  by rewrite set_held_restore.
Qed.

Lemma wp_buf_response ch w (Q : CanBufRemainingResponse -> world -> Prop) :
  held_below 2 w -> bufs_wf (w_bufs w) -> 0 <= ch < 6 ->
  Q (remaining w ch) w -> wp (buf_response ch) Q w.
Proof.
  intros Hb Hbufs Hch HQ.
  assert (buf_chan_ok Data ch 32 = true /\ buf_chan_ok Simulator ch 32 = true) as (H1 & H2).
  { unfold buf_chan_ok. simpl. split; apply andb_true_iff; lia. }
  unfold buf_response. wp_step. apply wp_buf_avail; [done | lia |]. rewrite H1.
  wp_step. apply wp_broadcast_buffer_available; [done..|]. wp_step.
  apply wp_buf_avail; [done | lia |]. rewrite H2. wp_step. exact HQ.
Qed.

Lemma wp_buf_responses l w (Q : list CanBufRemainingResponse -> world -> Prop) :
  held_below 2 w -> bufs_wf (w_bufs w) -> Forall (fun ch => 0 <= ch < 6) l ->
  Q (remaining w <$> l) w -> wp (buf_responses l) Q w.
Proof.
  intros Hb Hbufs Hl. revert Q. induction Hl as [|ch l Hch _ IH]; intros Q HQ; simpl.
  { by apply wp_ret. }
  wp_step. apply wp_buf_response; [done..|]. wp_step. apply IH. by wp_step.
Qed.

Definition buf_query_result (w : world) : world :=
  if data_upload_socket w =? -1 then w
  else upload_result (buf_query_packet (remaining w <$> channels_loop)) w.

Lemma handle_can_buf_query_eq sock req data w :
  held_below 1 w -> bufs_wf (w_bufs w) -> 4 <= zlen data ->
  handle_can_buf_query sock req data w =
    Some (tt, if fld 0 4 data =? 0xffffffff then buf_query_result w
              else err (str "Invalid buffer type (must be 1~3)") w).
Proof.
  intros Hb Hbufs Hlen.
  enough (wp (handle_can_buf_query sock req data) (fun _ w' => w' =
    if fld 0 4 data =? 0xffffffff then buf_query_result w
    else err (str "Invalid buffer type (must be 1~3)") w) w) as Hwp.
  { unfold wp in Hwp. destruct (handle_can_buf_query _ _ _ w) as [[[] w']|]; [by subst | done]. }
  unfold handle_can_buf_query. wp_step. apply wp_read_u32; [done|].
  destruct (fld 0 4 data =? 0xffffffff); cbv [negb].
  2: { apply wp_error_event; [by eapply held_below_mono; [|exact Hb]; lia | done]. }
  wp_step. apply wp_lock; [by eapply lock_free_below|]. wp_step.
  apply wp_buf_responses.
  { constructor; [simpl; lia|]. by eapply held_below_mono; [|exact Hb]; lia. }
  { done. }
  { apply channels_loop_ok. }
  wp_step. eapply wp_unlock; [done|].
  rewrite set_held_restore by done.
  change (remaining (set_held (buffer_mutex :: w_held w) w)) with (remaining w).
  unfold wp. rewrite (upload_section (upload_send (buf_query_packet (remaining w <$> channels_loop)))
    w (upload_result (buf_query_packet (remaining w <$> channels_loop)) w)).
  - done.
  - eapply lock_free_below; [exact Hb | simpl; lia].
  - intros _. by rewrite upload_send_eq, upload_result_held.
  - apply w_held_upload_result.
Qed.

Lemma free_space_range n ch w :
  world_wf w -> 0 <= ch < 6 -> 0 <= free_space n ch w <= buf_depth n.
Proof.
  intros Hwf Hch. assert (0 <= ch < buf_chans n) as Hn by (destruct n; simpl; lia).
  pose proof (buf_queue_bound n ch (w_bufs w) (ww_bufs _ Hwf) Hn).
  unfold free_space. unfold zlen in *. lia.
Qed.

Lemma remaining_wf w ch : world_wf w -> 0 <= ch < 6 -> pwf (remaining w ch).
Proof.
  intros Hwf Hch.
  pose proof (free_space_range Data ch w Hwf Hch) as H1.
  pose proof (free_space_range BcastGroup ch w Hwf Hch) as H2.
  pose proof (free_space_range Simulator ch w Hwf Hch) as H3. cbn [buf_depth] in *.
  change (CanBufRemainingResponse_wf (remaining w ch)).
  unfold CanBufRemainingResponse_wf, remaining, in_range. simpl. lia.
Qed.

Lemma buf_query_packet_bytes w :
  world_wf w ->
  let d := buf_query_packet (remaining w <$> channels_loop) in
  zlen d = 816 /\
  (forall ch, 0 <= ch < 6 -> unpack (drop (Z.to_nat (16 + 25 * ch)) d) = remaining w ch) /\
  take 16 d = replicate 16 x00 /\ drop 166 d = replicate 650 x00.
Proof.
  intros Hwf d.
  assert (Forall pwf (remaining w <$> channels_loop)) as Hf.
  { apply list.Forall_fmap. eapply list.Forall_impl; [apply channels_loop_ok|].
    intros ch Hch. by apply remaining_wf. }
  pose proof (bind_pack_length _ Hf) as Hl. change (psize (A := CanBufRemainingResponse)) with 25%nat in Hl.
  rewrite length_fmap in Hl. change (length channels_loop * 25)%nat with 150%nat in Hl.
  subst d. unfold buf_query_packet. set (body := (remaining w <$> channels_loop) ≫= pack) in *.
  split_and!.
  - unfold zlen. rewrite !length_app, !length_replicate, Hl. done.
  - intros ch Hch.
    replace (Z.to_nat (16 + 25 * ch)) with (16 + Z.to_nat ch * 25)%nat by lia.
    rewrite <- drop_drop, (drop_app_ge (replicate 16 x00)) by (rewrite length_replicate; lia).
    rewrite length_replicate, Nat.sub_diag, drop_0.
    change 25%nat with (psize (A := CanBufRemainingResponse)).
    unfold body. apply bind_pack_lookup; [done|].
    rewrite list_lookup_fmap. replace (channels_loop !! Z.to_nat ch) with (Some ch); [done|].
    assert (ch = 0 \/ ch = 1 \/ ch = 2 \/ ch = 3 \/ ch = 4 \/ ch = 5) as Hcases by lia.
    destruct_or! Hcases; by subst.
  - by rewrite take_app_le by (rewrite length_replicate; lia).
  - rewrite app_assoc, drop_app_ge; rewrite length_app, length_replicate, Hl; [done | lia].
Qed.

(** Buffer query: with a client, a query of 0xFFFFFFFF is answered by one
    816-byte packet whose entry for each of the six channels holds the free
    space of its download queue, its broadcast queue and its simulator queue
    at that moment, all other bytes being zero; the query takes no element
    out of a queue and leaves every mutex released. *)
Theorem buffer_query_reports_space sock req data w :
  held_below 1 w -> world_wf w -> 4 <= zlen data -> fld 0 4 data = 0xffffffff ->
  data_upload_socket w <> -1 ->
  exists w' d, handle_can_buf_query sock req data w = Some (tt, w') /\ net_only w w' /\
    w' = upload_result d w /\ zlen d = 816 /\
    (forall ch, 0 <= ch < 6 ->
       let r : CanBufRemainingResponse := unpack (drop (Z.to_nat (16 + 25 * ch)) d) in
       br_channel r = ch /\
       br_normal_buf_remaining r + zlen (buf_queue Data ch (w_bufs w)) = 131072 /\
       br_pulse_buf_remaining r + zlen (buf_queue BcastGroup ch (w_bufs w)) = 16 /\
       br_sim_buf_remaining r + zlen (buf_queue Simulator ch (w_bufs w)) = 32) /\
    take 16 d = replicate 16 x00 /\ drop 166 d = replicate 650 x00.
Proof.
  intros Hb Hwf Hlen Hq Hs.
  destruct (buf_query_packet_bytes w Hwf) as (Hl & Hch & H1 & H2).
  eexists _, _. split.
  { rewrite handle_can_buf_query_eq by (done || apply Hwf). rewrite Hq. simpl.
    unfold buf_query_result. by rewrite (proj2 (Z.eqb_neq _ _) Hs). }
  split; [apply net_only_upload|]. split; [done|]. split; [exact Hl|]. split; [|done].
  intros ch Hc. cbv zeta. rewrite Hch by done.
  unfold remaining, free_space. simpl. lia.
Qed.

(** Version query: a query that declares four bytes of payload gets the
    version of the application for 0xAA, the program type for 0xAC, and the
    failure value for everything else, FPGA included; a query of another
    length fails without its payload being read.  The reply echoes the counter
    of the request and changes nothing but the sockets. *)
Theorem version_query_answered sock req data w :
  held_below 4 w -> is_u32 (rq_data_len req) -> is_u16 (rq_counter req) ->
  zlen data = reverse_4bytes (rq_data_len req) ->
  exists w' v, handle_version_query sock req data w = Some (tt, w') /\ net_only w w' /\
    w' = version_sent (rq_counter req) v w /\
    v = (if decide (zlen data = 4) then
           if decide (data = [x00; x00; x00; xaa]) then 0x20260701
           else if decide (data = [x00; x00; x00; xac]) then 1 else 0xFFFFFFFF
         else 0xFFFFFFFF).
Proof.
  intros Hb Hr Hcnt Hlen. eexists _, (version_answer req data).
  split; [apply handle_version_query_eq; [done | lia]|].
  split; [unfold version_sent; case_match; [done | apply net_only_upload]|]. split; [done|].
  unfold version_answer. rewrite <- Hlen.
  destruct (Z.eqb_spec (zlen data) 4) as [H4|H4]; simpl;
    [rewrite decide_True by done | by rewrite decide_False by done].
  destruct data as [|b0 [|b1 [|b2 [|b3 [|]]]]]; unfold zlen in H4; simpl length in H4; try lia.
  change (fld 0 4 [b0; b1; b2; b3]) with (le_dec [b0; b1; b2; b3]).
  rewrite reverse_4bytes_le_dec.
  assert (forall l, length l = 4%nat -> (le_dec [b3; b2; b1; b0] =? le_dec (rev l)) =
            bool_decide ([b0; b1; b2; b3] = l)) as Heqb.
  { intros l Hl. apply eq_true_iff_eq. rewrite Z.eqb_eq, bool_decide_eq_true. split.
    - intros He. apply le_dec_inj in He; [|by rewrite length_rev].
      rewrite <- (rev_involutive l), <- He. done.
    - by intros <-. }
  change VERSION_QUERY_ARM with (le_dec (rev [x00; x00; x00; xaa])).
  change VERSION_QUERY_ARM_PROGRAM with (le_dec (rev [x00; x00; x00; xac])).
  rewrite !Heqb by done. unfold bool_decide. by repeat case_decide.
Qed.
End Queries.

Lemma buffer_query_reports_space_witness :
  let data := [xff; xff; xff; xff] in
  exists w' d, handle_can_buf_query (H := quiet_os) 9 sample_request data connected_world = Some (tt, w') /\
    net_only connected_world w' /\ w' = upload_result (H := quiet_os) d connected_world /\ zlen d = 816.
Proof.
  intros data.
  destruct (buffer_query_reports_space (H := quiet_os) 9 sample_request data connected_world)
    as (w' & d & Hrun & Hno & Hw & Hl & _);
    [apply boot_world_held | apply connected_world_wf | by vm_compute | by vm_compute | by vm_compute |].
  exists w', d. exact (conj Hrun (conj Hno (conj Hw Hl))).
Defined.

Lemma version_query_answered_witness :
  let data := [x00; x00; x00; xaa] in
  let req := mk_ReqPacket 0 (reverse_4bytes 4) 7 0 0 in
  exists w' v, handle_version_query (H := quiet_os) 9 req data connected_world = Some (tt, w') /\
    net_only connected_world w' /\ v = 0x20260701 /\ w' = version_sent (H := quiet_os) 7 v connected_world.
Proof.
  intros data req.
  destruct (version_query_answered (H := quiet_os) 9 req data connected_world)
    as (w' & v & Hrun & Hno & Hw & Hv);
    [apply boot_world_held | by vm_compute | by vm_compute | by vm_compute |].
  exists w', v. exact (conj Hrun (conj Hno (conj Hv Hw))).
Defined.

(** ** Information query *)

Section Info.
Context `{OS}.
#[local] Open Scope c_scope.

(** The entry for channel [i] of a state: the configuration of the channel, the
    advanced frame counter, and a checksum that closes. *)
Definition info_of (w : world) (i : Z) (d : CanConfigParam) : Prop :=
  exists c n, w_configs w !! Z.to_nat i = Some c /\ w_frame_count w !! Z.to_nat i = Some n /\
    pwf d /\ cc_head d = PC_STATUS_HEAD /\ cc_direction d = 1 /\ cc_length d = 48 /\
    cc_ch_id d = i /\ cc_type d = cf_can_type c /\ cc_CAN_DATA_MODE d = cf_can_type c /\
    cc_baud_rate d = cf_baud_rate c /\ cc_mode d = cf_mode c /\
    cc_ch_count d = (if n =? 2 ^ 32 - 1 then 0 else n + 1) /\
    cc_total_count d = data_counter w + 1 /\
    cc_xor_checksum d = calculate_xor_checksum (pack d) 44.

(** The frame counters of [l] advanced. *)
Definition counted (l : list Z) (counts : list Z) : list Z :=
  imap (fun i n => if decide (Z.of_nat i ∈ l) then next_count n else n) counts.

Lemma counted_nil counts : counted [] counts = counts.
Proof.
  apply list_eq. intros i. unfold counted. rewrite list_lookup_imap.
  by destruct (counts !! i).
Qed.

Lemma counted_cons i l counts n :
  0 <= i -> i ∉ l -> counts !! Z.to_nat i = Some n ->
  counted l (<[Z.to_nat i := next_count n]> counts) = counted (i :: l) counts.
Proof.
  intros Hi Hl Hn. apply list_eq. intros j. unfold counted. rewrite !list_lookup_imap.
  destruct (decide (j = Z.to_nat i)) as [->|Hne].
  - rewrite list_lookup_insert_eq, Hn by (by eapply lookup_lt_Some). simpl.
    rewrite Z2Nat.id by done. rewrite decide_False, decide_True; set_solver.
  - rewrite list_lookup_insert_ne by done. destruct (counts !! j); [|done]. simpl. f_equal.
    assert (Z.of_nat j <> i) by lia.
    destruct (decide (Z.of_nat j ∈ l)); [by rewrite decide_True by set_solver|].
    rewrite decide_False; [done | set_solver].
Qed.

Lemma info_checksum_spec p : pwf p ->
  pwf (info_checksum p) /\
  cc_xor_checksum (info_checksum p) = calculate_xor_checksum (pack (info_checksum p)) 44.
Proof.
  intros Hp. change (CanConfigParam_wf p) in Hp.
  assert (CanConfigParam_wf (info_checksum p)) as Hp'.
  { unfold CanConfigParam_wf in *. destruct_and! Hp. split_and!; try done.
    apply calculate_xor_checksum_range. }
  split; [exact Hp'|].
  assert (forall q : CanConfigParam, length (cc_reserved q) = 6%nat ->
    exists pre, length pre = 44%nat /\ pack q = pre ++ le_enc 4 (cc_xor_checksum q) /\
      pack (info_checksum q) = pre ++ le_enc 4 (cc_xor_checksum (info_checksum q))) as Hpre.
  { intros q Hq. with_strategy transparent [pack] change (@pack _ CanConfigParam_packed)
      with CanConfigParam_pack. unfold CanConfigParam_pack. eexists.
    split; [|split; [by rewrite !app_assoc | by rewrite !app_assoc]].
    rewrite !length_app, !length_le_enc, Hq. done. }
  destruct (Hpre p) as (pre & Hl & H1 & H2).
  { unfold CanConfigParam_wf in Hp. by destruct_and! Hp. }
  rewrite H2. rewrite calculate_xor_checksum_app by lia.
  simpl. rewrite H1. rewrite calculate_xor_checksum_app by lia. done.
Qed.

(** The state while the entries are collected. *)
Record collecting (l : list Z) (w w' : world) : Prop := {
  co_net : net_only w w';
  co_counts : w_frame_count w' = counted l (w_frame_count w);
  co_counter : data_counter w' = data_counter w;
  co_upload : data_upload_socket w' = data_upload_socket w
}.

Lemma wp_info_device i w (Q : CanConfigParam -> world -> Prop) :
  world_wf w -> 0 <= i < 6 ->
  (forall d n w', w_frame_count w !! Z.to_nat i = Some n -> info_of w i d ->
     w' = add_call (SysClock false) (set_frame_count (<[Z.to_nat i := next_count n]> (w_frame_count w)) w) ->
     Q d w') ->
  wp (info_device i) Q w.
Proof.
  intros Hwf Hi HQ. destruct (config_lookup i w Hwf Hi) as (c & Hc & Hid & Hbaud & Hmode & Hty & _).
  rewrite Z2Nat.id in Hid by lia.
  destruct (lookup_lt_is_Some_2 (w_frame_count w) (Z.to_nat i)) as [n Hn];
    [rewrite (ww_counts _ Hwf); lia|].
  pose proof (Forall_lookup_1 _ _ _ _ (ww_counts_u32 _ Hwf) Hn) as Hn32.
  pose proof (ww_counter _ Hwf) as Hdc.
  unfold info_device. wp_step. eapply wp_arr_get; [lia | exact Hc |]. wp_step. wp_step.
  rewrite Hid. wp_step. eapply wp_arr_upd; [lia | exact Hn |].
  wp_step. eapply wp_arr_get; [lia | simpl; apply list_lookup_insert_eq; by eapply lookup_lt_Some |].
  wp_step. eapply wp_arr_get; [lia | exact Hc |]. wp_step. apply wp_timestamp_us. wp_step.
  eapply HQ; [exact Hn | | done].
  assert ((data_counter w =? 0xFFFFFFFF) = false) as -> by (unfold in_range in Hdc; lia).
  match goal with |- info_of _ _ (info_checksum ?p0) => set (p := p0) end.
  assert (pwf p) as Hp.
  { change (CanConfigParam_wf p). pose proof (next_count_range n Hn32) as Hnc.
    unfold CanConfigParam_wf, p. simpl. split_and!; try done; unfold in_range in *; try lia;
    apply wrap_range; lia. }
  destruct (info_checksum_spec p Hp) as [Hp' Hx].
  exists c, n. split_and!; try done.
  simpl. unfold next_count. change 0xFFFFFFFF with (2 ^ 32 - 1).
  destruct (Z.eqb_spec n (2 ^ 32 - 1)); [done|]. apply wrap_small. unfold in_range in *. lia.
Qed.

Lemma info_devices_spec l w :
  world_wf w -> NoDup l -> Forall (fun i => 0 <= i < 6) l ->
  wp (info_devices l) (fun ds w' => Forall2 (info_of w) l ds /\ collecting l w w') w.
Proof.
  intros Hwf Hnd Hl. revert w Hwf. induction Hl as [|i l Hi Hl IH]; intros w Hwf; simpl.
  { wp_step. split; [constructor|]. split; try done. by rewrite counted_nil. }
  apply list.NoDup_cons in Hnd as [Hni Hnd].
  wp_step. apply wp_info_device; [done..|]. intros d n w1 Hn Hd ->.
  set (w1 := add_call _ _).
  assert (net_only w w1) as Hno.
  { etransitivity; [by apply net_only_next_count | apply net_only_add_call]. }
  wp_step. eapply wp_mono; [apply IH; [done | by eapply net_only_wf]|].
  intros ds w2 [Hds [Hno2 Hct Hdc Hup]]. wp_step. split.
  - constructor; [exact Hd|]. clear - Hds Hl Hni Hi. induction Hds as [|j e l ds Hj _ IH]; [done|].
    apply list.Forall_cons in Hl as [Hj6 Hl]. apply list.not_elem_of_cons in Hni as [Hne Hni].
    constructor; [|by apply IH]. destruct Hj as (c & m & Hc & Hm & Hrest).
    exists c, m. split; [exact Hc|]. split; [|exact Hrest].
    simpl in Hm. rewrite list_lookup_insert_ne in Hm; [done | lia].
  - split; [by etransitivity | | done | done].
    rewrite Hct. simpl. apply counted_cons; [lia | done | done].
Qed.

Definition info_ack : bytes := str "CAN info query processed, result sent via port 9010".

Definition info_answered (sock : Z) (ds : list CanConfigParam) (w1 : world) : world :=
  add_call (SysSend sock info_ack)
    (if data_upload_socket w1 =? -1 then w1 else info_result ds w1).

Lemma net_only_info_answered sock ds w1 : net_only w1 (info_answered sock ds w1).
Proof.
  unfold info_answered. etransitivity; [|apply net_only_add_call].
  case_match; [done | apply net_only_info].
Qed.

Lemma handle_can_info_query_spec sock req data w :
  held_below 4 w -> world_wf w -> 4 <= zlen data ->
  wp (handle_can_info_query sock req data) (fun _ w' =>
    if fld 0 4 data =? 0xffffffff then
      exists ds w1, Forall2 (info_of w) channels_loop ds /\ collecting channels_loop w w1 /\
        w' = info_answered sock ds w1
    else w' = err (str "RECEIVE DATA NOT 0XFFFFFFFF") w) w.
Proof.
  intros Hb Hwf Hlen. unfold handle_can_info_query. wp_step. apply wp_read_u32; [done|].
  destruct (fld 0 4 data =? 0xffffffff); cbv [negb].
  2: { apply wp_error_event; [by eapply held_below_mono; [|exact Hb]; lia | done]. }
  wp_step. eapply wp_mono; [apply info_devices_spec; [done | apply channels_loop_ok..]|].
  intros ds w1 [Hds Hco]. wp_step.
  assert (Forall pwf ds) as Hpwf.
  { clear - Hds. induction Hds as [|i d l ds (c & n & _ & _ & Hd & _) _ IH]; by constructor. }
  assert (zlen ds = AXICAN_MAX) as Hl.
  { apply Forall2_length in Hds. unfold zlen. by rewrite <- Hds. }
  unfold wp at 1. rewrite <- Hl. rewrite send_can_info_response_eq; [|by eapply held_below_eq;
    [apply (no_held _ _ (co_net _ _ _ Hco)) | exact Hb] | done].
  wp_step. apply wp_sys. wp_step. exists ds, w1. split; [exact Hds|]. by split.
Qed.

(** The reply holds the entries in the order of the channels. *)
Lemma info_reply_entries w counter ds :
  Forall2 (info_of w) channels_loop ds ->
  zlen (info_reply counter ds) = 304 /\
  forall i, 0 <= i < 6 ->
    info_of w i (unpack (drop (Z.to_nat (16 + 48 * i)) (info_reply counter ds))).
Proof.
  intros Hds.
  assert (Forall pwf ds) as Hpwf.
  { clear - Hds. induction Hds as [|i d l ds (c & n & _ & _ & Hd & _) _ IH]; by constructor. }
  assert (zlen ds = 6) as Hl by (apply Forall2_length in Hds; unfold zlen; by rewrite <- Hds).
  split; [rewrite info_reply_length, Hl by done; done|].
  intros i Hi. replace (Z.to_nat (16 + 48 * i)) with (16 + Z.to_nat i * 48)%nat by lia.
  rewrite <- drop_drop. unfold info_reply. cbv zeta.
  match goal with |- context [pack ?h ++ _] => set (hd := h) end.
  assert (length (pack hd) = 16%nat) as Hh.
  { pose proof (header_info_length counter (rr_Checksum hd) (rr_LENGTH hd)) as Hh.
    unfold zlen in Hh. unfold hd. simpl in *. lia. }
  rewrite (drop_app_ge (pack hd)) by lia. rewrite Hh, Nat.sub_diag, drop_0.
  rewrite <- (app_nil_r (ds ≫= pack)).
  destruct (lookup_lt_is_Some_2 ds (Z.to_nat i)) as [d Hd]; [unfold zlen in Hl; lia|].
  change 48%nat with (psize (A := CanConfigParam)).
  rewrite (bind_pack_lookup ds (Z.to_nat i) d []) by done.
  eapply Forall2_lookup_lr; [exact Hds | | exact Hd].
  assert (i = 0 \/ i = 1 \/ i = 2 \/ i = 3 \/ i = 4 \/ i = 5) as Hcases by lia.
  destruct_or! Hcases; by subst.
Qed.

(** Information query: a query of 0xFFFFFFFF advances the frame counter of
    every channel by one and builds one entry per channel, in the order of the
    channels, with the configuration of the channel and a checksum that
    closes.  With a client on port 9010 the reply is a 304-byte packet with
    the six entries, sent when its memory is granted; the command socket gets
    its acknowledgement in every case.  Another query changes nothing. *)
Theorem info_query_reports_channels sock req data w :
  held_below 4 w -> world_wf w -> 4 <= zlen data ->
  exists w', handle_can_info_query sock req data w = Some (tt, w') /\ net_only w w' /\
    if fld 0 4 data =? 0xffffffff then
      exists d w1 h, collecting channels_loop w w1 /\ zlen d = 304 /\
        (forall i, 0 <= i < 6 -> info_of w i (unpack (drop (Z.to_nat (16 + 48 * i)) d))) /\
        w_hist w' = SysSend sock info_ack :: h /\
        (data_upload_socket w <> -1 -> os_ret (w_hist w1) (SysMalloc 304) <> 0 ->
           exists h1, h = SysFree :: h1 /\
           w_hist (upload_result d (add_call (SysMalloc 304) w1)) = h1)
    else w' = err (str "RECEIVE DATA NOT 0XFFFFFFFF") w.
Proof.
  intros Hb Hwf Hlen.
  destruct (proj1 (wp_exec _ _ _) (handle_can_info_query_spec sock req data w Hb Hwf Hlen))
    as ([] & w' & Hrun & Hr).
  exists w'. split; [exact Hrun|]. destruct (fld 0 4 data =? 0xffffffff).
  2: { subst w'. split; [apply net_only_err | done]. }
  destruct Hr as (ds & w1 & Hds & Hco & ->).
  split; [etransitivity; [apply Hco | apply net_only_info_answered]|].
  set (d := info_reply (u16 (data_counter w1 + 1)) ds).
  destruct (info_reply_entries w (u16 (data_counter w1 + 1)) ds Hds) as [Hd He].
  assert (zlen ds = 6) as Hl by (apply Forall2_length in Hds; unfold zlen; by rewrite <- Hds).
  eexists d, w1, _. split; [exact Hco|]. split; [exact Hd|]. split; [exact He|]. split; [done|].
  intros Hs Hm. rewrite <- (co_upload _ _ _ Hco) in Hs.
  rewrite (proj2 (Z.eqb_neq _ _) Hs). unfold info_result. rewrite Hl.
  change (16 + 6 * 48) with 304. rewrite (proj2 (Z.eqb_neq _ _) Hm). fold d.
  eexists. split; [done|]. unfold upload_result. simpl. by destruct (_ =? zlen d).
Qed.
End Info.

Lemma info_query_reports_channels_witness :
  let data := [xff; xff; xff; xff] in
  exists w', handle_can_info_query (H := quiet_os) 9 sample_request data connected_world = Some (tt, w') /\
    net_only connected_world w' /\ w_frame_count w' = [1; 1; 1; 1; 1; 1].
Proof.
  intros data.
  pose proof (info_query_reports_channels (H := quiet_os) 9 sample_request data connected_world) as Hq.
  destruct Hq as (w' & Hrun & Hno & _);
    [apply boot_world_held | apply connected_world_wf | by vm_compute |].
  exists w'. split; [exact Hrun|]. split; [exact Hno|].
  destruct (proj1 (wp_exec _ _ _) (handle_can_info_query_spec (H := quiet_os) 9 sample_request data
    connected_world (boot_world_held _) connected_world_wf ltac:(by vm_compute)))
    as ([] & w2 & Hrun2 & ds & w1 & _ & Hco & Hw2).
  rewrite Hrun in Hrun2. injection Hrun2 as <-. rewrite Hw2.
  pose proof (co_counts _ _ _ Hco) as Hc. unfold info_answered, info_result, upload_result.
  transitivity (w_frame_count w1); [|rewrite Hc; reflexivity].
  destruct (data_upload_socket w1 =? -1); [done|]. destruct (os_ret _ _ =? 0); [done|].
  simpl. by destruct (_ =? _).
Defined.

(** ** Dispatch *)

Section Dispatch.
Context `{OS}.
#[local] Open Scope c_scope.

Lemma bc_frame_cmd_frame w w' : bc_frame w w' -> (world_wf w -> world_wf w') -> cmd_frame w w'.
Proof. intros [] Hwf. by split. Qed.

Lemma handle_broadcast_config_frame sock req data w :
  held_below 2 w -> world_wf w -> 40 <= zlen data ->
  wp (handle_broadcast_config sock req data) (fun _ w' => cmd_frame w w') w.
Proof.
  intros Hb Hwf Hlen.
  eapply wp_mono; [apply config_spec; [done | apply Hwf | apply (ww_bc _ Hwf) | done]|].
  intros [] w' [Hv Hnv]. destruct (decide (schedule_valid data)) as [V|V].
  - destruct (Hv V) as (b & -> & Hb' & Hq & Ho).
    destruct (scheduled_wf (unpack data) b w Hwf (schedule_sched_wf data Hlen V) Hb' Hq Ho)
      as [Hwf' Hf].
    etransitivity; [by apply bc_frame_cmd_frame | apply net_only_cmd_frame, net_only_bcast_reply].
  - destruct (Hnv V) as [msg ->]. apply net_only_cmd_frame. unfold refused.
    etransitivity; [apply net_only_event | apply net_only_bcast_reply].
Qed.

Lemma dispatch_frame sock req payload w :
  held_below 1 w -> world_wf w -> zlen payload = reverse_4bytes (rq_data_len req) ->
  wp (dispatch_command sock req payload) (fun _ w' => cmd_frame w w') w.
Proof.
  intros Hb Hwf Hpay.
  assert (held_below 4 w) as Hb4 by (by eapply held_below_mono; [|exact Hb]; lia).
  assert (held_below 2 w) as Hb2 by (by eapply held_below_mono; [|exact Hb]; lia).
  unfold dispatch_command. cbv zeta.
  destruct (zlen payload <? command_min_payload_size _) eqn:Hmin; [by wp_step|].
  unfold command_min_payload_size in Hmin. apply Z.ltb_ge in Hmin.
  destruct (_ =? 0x0101).
  { eapply wp_mono; [by apply handle_can_config_spec|]. intros [] w' Hr.
    destruct (config_handled_at payload w w' Hwf Hmin Hr) as (f & Hat & Hf).
    by eapply at_config_cmd_frame. }
  destruct (_ =? 0x0102).
  { eapply wp_mono; [by apply handle_can_info_query_spec|]. intros [] w' Hr.
    apply net_only_cmd_frame. case_match; [|subst; apply net_only_err].
    destruct Hr as (ds & w1 & _ & Hco & ->).
    etransitivity; [apply Hco | apply net_only_info_answered]. }
  destruct (_ =? 0x0100).
  { unfold wp. rewrite handle_can_buf_query_eq by (done || apply Hwf).
    apply net_only_cmd_frame. unfold buf_query_result. repeat case_match; auto with zmht; done. }
  destruct (_ =? 0x0103).
  { eapply wp_mono; [by apply start_stop_spec|]. intros [] w' (w1 & Hat & ->).
    eapply at_config_cmd_frame; [eapply at_config_net; [exact Hat | apply net_only_start_stop_reply]|].
    apply start_stop_configs_wf. }
  destruct (_ =? 0x0104); [by apply handle_broadcast_config_frame|].
  destruct (_ =? 0xFF05).
  { unfold wp. rewrite handle_version_query_eq by (done || lia).
    apply net_only_cmd_frame. unfold version_sent. case_match; auto with zmht; done. }
  apply wp_error_event; [by eapply held_below_mono; [|exact Hb]; lia|].
  apply net_only_cmd_frame, net_only_err.
Qed.
End Dispatch.

(** ** Framing *)

Lemma parse_success_len buffer :
  parse_request_packet buffer = PARSE_SUCCESS ->
  0 <= reverse_4bytes (rq_data_len (unpack buffer)) <= BUFFER_SIZE - 16 /\
  16 + reverse_4bytes (rq_data_len (unpack buffer)) <= zlen buffer.
Proof.
  unfold parse_request_packet. change (sizeof ReqPacket) with 16. cbv zeta.
  repeat case_match; try done; intros _. bool_prop.
  assert (16 <= zlen buffer) as H16 by lia.
  pose proof (param_wf (A := ReqPacket) buffer H16 : ReqPacket_wf (unpack buffer)) as (_ & Hl & _).
  pose proof (reverse_4bytes_range _ Hl). unfold in_range in *. lia.
Qed.

Lemma parse_need_more_len buffer :
  parse_request_packet buffer = PARSE_NEED_MORE -> zlen buffer < BUFFER_SIZE.
Proof.
  unfold parse_request_packet, BUFFER_SIZE. change (sizeof ReqPacket) with 16. cbv zeta.
  repeat case_match; try done; intros _; bool_prop; lia.
Qed.

Lemma unpack_app {A} `{Packed A} (a b : bytes) :
  sizeof A <= zlen a -> unpack (a ++ b) = (unpack a : A).
Proof.
  unfold sizeof, zlen. intros Hl. rewrite <- (unpack_take (a ++ b)), take_app_le by lia.
  apply unpack_take.
Qed.

Lemma fld_app off n (a b : bytes) : (off + n <= length a)%nat -> fld off n (a ++ b) = fld off n a.
Proof.
  intros Hl. rewrite <- (fld_take off n (length a)) by done.
  by rewrite take_app_length.
Qed.

(** More bytes change only the answer that asks for them. *)
Lemma parse_app a b :
  16 <= zlen a -> parse_request_packet a <> PARSE_NEED_MORE ->
  parse_request_packet (a ++ b) = parse_request_packet a.
Proof.
  intros Hl. unfold parse_request_packet. change (sizeof ReqPacket) with 16.
  rewrite (unpack_app (A := ReqPacket)) by done.
  rewrite !fld_app by (unfold zlen in Hl; lia). rewrite zlen_app. cbv zeta.
  pose proof (Zle_0_nat (length b)). fold (zlen b) in *.
  assert ((zlen a + zlen b <? 16) = false) as -> by lia. assert ((zlen a <? 16) = false) as -> by lia.
  repeat case_match; try done; bool_prop; lia.
Qed.

Section Loop.
Context `{OS}.
#[local] Open Scope c_scope.

(** What stays in the buffer: less than a header, or one incomplete packet. *)
Definition incomplete (rest : bytes) : Prop :=
  zlen rest < 16 \/ parse_request_packet rest = PARSE_NEED_MORE.

Lemma incomplete_len rest : incomplete rest -> zlen rest < BUFFER_SIZE.
Proof. intros [Hl|Hp]; [unfold BUFFER_SIZE; lia | by apply parse_need_more_len]. Qed.

(** The equations of the loop. *)
Lemma command_loop_stop f sock buffer :
  incomplete buffer -> command_loop (S f) sock buffer = ret buffer.
Proof.
  intros Hi. simpl. change (sizeof ReqPacket) with 16. destruct (zlen buffer >=? 16) eqn:Hl; [|done].
  bool_prop. destruct Hi as [Hi| ->]; [lia | done].
Qed.

Lemma command_loop_skip f sock buffer :
  16 <= zlen buffer -> parse_request_packet buffer <> PARSE_NEED_MORE ->
  parse_request_packet buffer <> PARSE_SUCCESS ->
  command_loop (S f) sock buffer = command_loop f sock (drop 1 buffer).
Proof.
  intros Hl Hp1 Hp2. simpl. change (sizeof ReqPacket) with 16.
  assert ((zlen buffer >=? 16) = true) as -> by lia. simpl.
  by destruct (parse_request_packet buffer).
Qed.

Definition packet_payload (buffer : bytes) : Z := reverse_4bytes (rq_data_len (unpack buffer)).

Lemma command_loop_packet f sock buffer :
  parse_request_packet buffer = PARSE_SUCCESS ->
  command_loop (S f) sock buffer =
    (dispatch_command sock (unpack buffer) (slice 16 (Z.to_nat (packet_payload buffer)) buffer) ;;
     command_loop f sock (drop (Z.to_nat (16 + packet_payload buffer)) buffer)).
Proof.
  intros Hp. destruct (parse_success_len buffer Hp) as [H1 H2].
  simpl. change (sizeof ReqPacket) with 16.
  assert ((zlen buffer >=? 16) = true) as -> by lia. rewrite Hp. simpl negb. cbv iota.
  fold (packet_payload buffer) in *. by rewrite mem_read_ok by lia.
Qed.

(** The command port as an instance of [Framing]. *)
Definition command_judge (buffer : bytes) : verdict :=
  if zlen buffer <? 16 then Wait else
  match parse_request_packet buffer with
  | PARSE_NEED_MORE => Wait
  | PARSE_SUCCESS => Packet (Z.to_nat (16 + packet_payload buffer))
  | _ => Skip
  end.

Lemma incomplete_judge buffer : incomplete buffer <-> command_judge buffer = Wait.
Proof.
  unfold incomplete, command_judge. destruct (Z.ltb_spec (zlen buffer) 16); [naive_solver|].
  destruct (parse_request_packet buffer); (split; [intros [?|?]; done || lia | by right]).
Qed.

(** The tests on the header alone. *)
Definition header_ok (buffer : bytes) : bool :=
  (reverse_4bytes (rq_sync_word (unpack buffer)) =? REQ_SYNC_WORD) &&
  (rq_checksum (unpack buffer) =?
     Z.lxor (Z.lxor (fld 0 4 buffer) (fld 4 4 buffer)) (fld 8 4 buffer)) &&
  (packet_payload buffer <=? BUFFER_SIZE - 16).

#[export] Instance command_header : Header 16 header_ok packet_payload.
Proof.
  split; [done | |].
  - intros a b Ha. unfold header_ok, packet_payload. rewrite (unpack_app (A := ReqPacket)) by done.
    by rewrite !fld_app by (unfold zlen in Ha; lia).
  - intros a Ha.
    pose proof (param_wf (A := ReqPacket) a Ha : ReqPacket_wf (unpack a)) as (_ & Hl & _).
    pose proof (reverse_4bytes_range _ Hl) as Hr. apply Hr.
Qed.

Lemma command_judge_eq buffer : command_judge buffer = header_judge 16 header_ok packet_payload buffer.
Proof.
  unfold command_judge, header_judge, parse_request_packet, header_ok, packet_payload.
  change (sizeof ReqPacket) with 16. cbv zeta.
  destruct (zlen buffer <? 16); [done|].
  destruct (_ =? REQ_SYNC_WORD); [simpl|done].
  destruct (_ =? Z.lxor _ _); [simpl|done].
  set (n := reverse_4bytes _).
  destruct (Z.leb_spec n (BUFFER_SIZE - 16)); simpl.
  - assert ((n >? BUFFER_SIZE - 16) = false) as -> by lia.
    destruct (Z.ltb_spec (zlen buffer) (16 + n)).
    + by assert ((n >? zlen buffer - 16) = true) as -> by lia.
    + by assert ((n >? zlen buffer - 16) = false) as -> by lia.
  - by assert ((n >? BUFFER_SIZE - 16) = true) as -> by lia.
Qed.

#[export] Instance command_framing : Framing command_judge.
Proof. eapply framing_ext; [exact command_judge_eq | apply _]. Qed.

(** The payload of a packet that was cut off. *)
Definition command_handle (sock : Z) (packet : bytes) : M world unit :=
  dispatch_command sock (unpack packet) (drop 16 packet).

Lemma command_loop_frames f sock buffer w :
  command_loop f sock buffer w = frame_loop command_judge (command_handle sock) f buffer w.
Proof.
  revert buffer w. induction f as [|f IH]; intros buffer w; [done|].
  simpl frame_loop. destruct (command_judge buffer) as [| |n] eqn:Hj.
  - by rewrite command_loop_stop by (by apply incomplete_judge).
  - unfold command_judge in Hj. destruct (Z.ltb_spec (zlen buffer) 16); [done|].
    rewrite command_loop_skip; [apply IH | done | |]; by destruct (parse_request_packet buffer).
  - unfold command_judge in Hj. destruct (Z.ltb_spec (zlen buffer) 16) as [|Hl]; [done|].
    destruct (parse_request_packet buffer) eqn:Hp; try done. injection Hj as <-.
    rewrite command_loop_packet by done. pose proof (header_plen (ok := header_ok) buffer Hl) as Hpos.
    destruct (parse_success_len buffer Hp) as [_ Hlen]. fold (packet_payload buffer) in Hlen.
    set (n := Z.to_nat (16 + _)). assert (16 <= n <= length buffer)%nat by (unfold zlen in *; lia).
    unfold command_handle. rewrite <- (unpack_app (A := ReqPacket) (take n buffer) (drop n buffer)).
    2: { unfold zlen. rewrite length_take. change (sizeof ReqPacket) with 16. lia. }
    rewrite take_drop, skipn_firstn_comm. unfold slice.
    replace (n - 16)%nat with (Z.to_nat (packet_payload buffer)) by lia.
    unfold bind. destruct (dispatch_command _ _ _ w) as [[[] w1]|]; [apply IH | done].
Qed.

(** The loop on what came so far and on what comes later. *)
Lemma command_loop_app f f' sock a b w :
  (length a < f)%nat -> (length (a ++ b) < f')%nat ->
  command_loop f' sock (a ++ b) w =
    (let* r := command_loop f sock a in command_loop (S (length (r ++ b))) sock (r ++ b)) w.
Proof.
  intros Hf Hf'. rewrite command_loop_frames, (frame_loop_app _ _ f) by done. unfold bind.
  rewrite command_loop_frames. destruct (frame_loop _ _ f a w) as [[r w1]|]; [|done].
  by rewrite command_loop_frames.
Qed.

(** The loop from a well-formed state, on any bytes. *)
Lemma command_loop_safe f sock buffer w :
  held_below 1 w -> world_wf w -> (length buffer < f)%nat ->
  wp (command_loop f sock buffer)
     (fun rest w' => incomplete rest /\ (exists used, buffer = used ++ rest) /\ cmd_frame w w') w.
Proof.
  intros Hb Hwf Hf. unfold wp. rewrite command_loop_frames.
  eapply wp_mono; [apply (frame_loop_safe _ _ (fun w => held_below 1 w /\ world_wf w) cmd_frame)|].
  - intros w1 w2 [Hb1 Hwf1] Hc. split; [|by apply (cm_wf _ _ Hc)].
    by eapply held_below_eq; [apply (cm_held _ _ Hc)|].
  - intros p w1 Hp [Hb1 Hwf1]. apply dispatch_frame; [done..|].
    rewrite command_judge_eq in Hp. apply header_judge_packet in Hp as [H16 Hp]; [|apply _].
    fold (packet_payload p). unfold zlen in *. rewrite length_drop. lia.
  - done.
  - done.
  - intros rest w' (Hr & Hu & Hc). by rewrite incomplete_judge.
Qed.
End Loop.

(** ** The connection *)

Section Connection.
Context `{OS}.
#[local] Open Scope c_scope.

Definition takes (a : recv_answer) : nat := match a with RecvSome _ => 1 | _ => 0 end.

(** A connection that never fails and always makes progress. *)
Definition delivering (a : recv_answer) : Prop :=
  match a with RecvSome n => 1 <= n | RecvIntr => True | RecvFailed => False end.

Lemma receive_spec sock buffered chunk w :
  held_below 1 w -> world_wf w ->
  wp (command_receive sock buffered chunk) (fun rest w' => incomplete rest /\ cmd_frame w w') w.
Proof.
  intros Hb Hwf. eapply wp_mono; [apply command_loop_safe; [done..|lia]|].
  intros rest w' (Hi & _ & Hc). done.
Qed.

Lemma cmd_frame_keeps w w' : cmd_frame w w' -> held_below 1 w -> world_wf w ->
  held_below 1 w' /\ world_wf w'.
Proof.
  intros Hc Hb Hwf. split; [eapply held_below_eq; [apply (cm_held _ _ Hc) | done] | by apply (cm_wf _ _ Hc)].
Qed.

Lemma connection_safe answers sock buffered stream w :
  held_below 1 w -> world_wf w -> incomplete buffered ->
  wp (tcp_client_handler_9009 answers sock buffered stream)
     (fun r w' => incomplete r.1 /\ cmd_frame w w') w.
Proof.
  revert buffered stream w. induction answers as [|[n| |] answers IH];
    intros buffered stream w Hb Hwf Hi; cbn [tcp_client_handler_9009].
  - by wp_step.
  - cbv zeta. destruct (zlen _ =? 0); [by wp_step|].
    wp_step. eapply wp_mono; [by apply receive_spec|]. intros rest w1 [Hi1 Hc].
    destruct (cmd_frame_keeps _ _ Hc Hb Hwf).
    eapply wp_mono; [by apply IH|]. intros r w2 [Hi2 Hc2]. split; [done | by etransitivity].
  - by apply IH.
  - wp_step. apply wp_error_event; [by eapply held_below_mono; [|exact Hb]; lia|]. wp_step.
    split; [done | apply net_only_cmd_frame, net_only_err].
Qed.

Lemma connection_whole answers sock buffered stream w :
  held_below 1 w -> world_wf w -> incomplete buffered ->
  Forall delivering answers -> (length stream <= sum_list_with takes answers)%nat ->
  tcp_client_handler_9009 answers sock buffered stream w =
    (let* rest := command_receive sock buffered stream in ret (rest, [])) w.
Proof.
  assert (forall buffered w, incomplete buffered ->
    (let* rest := command_receive sock buffered [] in ret (rest, [] : bytes)) w =
    Some ((buffered, []), w)) as Hnil.
  { intros b w0 Hi. unfold command_receive. rewrite app_nil_r. cbv zeta.
    by rewrite command_loop_stop by done. }
  intros Hb Hwf Hi Hd. revert buffered stream w Hb Hwf Hi.
  induction Hd as [|a answers Ha _ IH]; intros buffered stream w Hb Hwf Hi Hl.
  { destruct stream; simpl in Hl; [|lia]. by rewrite Hnil. }
  destruct a as [n| |]; cbn [tcp_client_handler_9009]; [| by apply IH | done].
  simpl in Ha. pose proof (incomplete_len _ Hi) as Hroom. cbv zeta.
  set (k := Z.to_nat _). assert (1 <= k)%nat as Hk by lia.
  destruct (Z.eqb_spec (zlen (take k stream)) 0) as [Hz|Hz].
  { destruct stream; [by rewrite Hnil|]. exfalso. unfold zlen in Hz. rewrite length_take in Hz.
    simpl length in Hz. lia. }
  assert (forall r w1, incomplete r -> held_below 1 w1 -> world_wf w1 ->
    tcp_client_handler_9009 answers sock r (drop k stream) w1 =
    (let* rest := command_receive sock r (drop k stream) in ret (rest, [])) w1) as IH'.
  { intros r w1 Hi1 Hb1 Hwf1. apply IH; try done. rewrite length_drop. simpl in Hl. lia. }
  clear IH. unfold command_receive at 2.
  pose proof (command_loop_app (S (length (buffered ++ take k stream)))
    (S (length (buffered ++ stream))) sock (buffered ++ take k stream) (drop k stream) w) as Happ.
  rewrite <- app_assoc, take_drop in Happ. specialize (Happ ltac:(lia) ltac:(lia)).
  unfold bind at 2. cbv zeta. rewrite Happ.
  fold (command_receive sock buffered (take k stream)).
  pose proof (receive_spec sock buffered (take k stream) w Hb Hwf) as Hr.
  apply wp_exec in Hr as (r & w1 & Hr & Hi1 & Hc). unfold bind. rewrite Hr.
  destruct (cmd_frame_keeps _ _ Hc Hb Hwf). by rewrite IH'.
Qed.

(** C11. Safety of the command port: whatever a client sends, in whatever
    pieces, with interrupted and failing calls, the handler of a connection is
    never stuck: it reads no byte outside a packet, takes the mutexes in order
    and releases them, keeps the state well formed, leaves the download queues
    and the simulator queues alone, and holds back less than the size of its
    buffer, so that the next receive always has room. *)
Theorem command_port_safe answers sock stream w :
  held_below 1 w -> world_wf w ->
  exists rest unread w',
    tcp_client_handler_9009 answers sock [] stream w = Some ((rest, unread), w') /\
    world_wf w' /\ cmd_frame w w' /\ zlen rest < BUFFER_SIZE /\
    (zlen rest < 16 \/ parse_request_packet rest = PARSE_NEED_MORE).
Proof.
  intros Hb Hwf. pose proof (connection_safe answers sock [] stream w Hb Hwf (or_introl eq_refl)) as Hs.
  apply wp_exec in Hs as ([rest unread] & w' & Hrun & Hi & Hc).
  exists rest, unread, w'. split; [done|]. split; [by apply (cm_wf _ _ Hc)|]. split; [done|].
  split; [by apply incomplete_len | exact Hi].
Qed.

(** C12. Segmentation: however the network cuts the stream of a client into
    receives of at least one byte, the whole stream is consumed, and the
    commands executed, their effects and the bytes held back are those of the
    stream received at once. *)
Theorem segmentation_independent answers sock stream w :
  held_below 1 w -> world_wf w -> Forall delivering answers ->
  (length stream <= sum_list_with takes answers)%nat ->
  exists rest w', command_loop (S (length stream)) sock stream w = Some (rest, w') /\
    tcp_client_handler_9009 answers sock [] stream w = Some ((rest, []), w').
Proof.
  intros Hb Hwf Hd Hl.
  pose proof (connection_whole answers sock [] stream w Hb Hwf (or_introl eq_refl) Hd Hl) as Hw.
  pose proof (receive_spec sock [] stream w Hb Hwf) as Hr.
  apply wp_exec in Hr as (rest & w' & Hr & _). exists rest, w'. split; [exact Hr|].
  rewrite Hw. unfold bind. by rewrite Hr.
Qed.
End Connection.

(** ** The packets of a client *)

Record request := mk_request {
  rm_noise : bytes; rm_command : Z; rm_counter : Z; rm_payload : bytes
}.

Definition request_header (r : request) : ReqPacket :=
  let h c := {| rq_sync_word := reverse_4bytes REQ_SYNC_WORD;
                rq_data_len := reverse_4bytes (zlen (rm_payload r));
                rq_counter := rm_counter r; rq_cmd_type := reverse_2bytes (rm_command r);
                rq_checksum := c |} in
  let b := pack (h 0) in
  h (Z.lxor (Z.lxor (fld 0 4 b) (fld 4 4 b)) (fld 8 4 b)).

(** Noise without the first byte of the synchronisation word, and a packet. *)
Definition request_bytes (r : request) : bytes :=
  rm_noise r ++ pack (request_header r) ++ rm_payload r.

Definition request_ok (r : request) : Prop :=
  (x03 ∉ rm_noise r) /\ is_u16 (rm_command r) /\ is_u16 (rm_counter r) /\
  zlen (rm_payload r) <= BUFFER_SIZE - 16.

Lemma request_header_wf r : request_ok r -> pwf (request_header r).
Proof.
  intros (_ & Hc & Hn & Hl). unfold BUFFER_SIZE in Hl. change (ReqPacket_wf (request_header r)).
  assert (forall off bs, is_u32 (fld off 4 bs)) as Hf by (intros; by apply fld_range).
  assert (is_u32 (zlen (rm_payload r))) by (unfold in_range, zlen in *; lia).
  unfold ReqPacket_wf, request_header. cbv zeta. simpl. split_and!; try done.
  - by apply reverse_4bytes_range.
  - by apply reverse_2bytes_range.
  - by repeat apply lxor_range.
Qed.

Lemma request_header_prefix (r : ReqPacket) :
  exists pre, length pre = 12%nat /\ pack r = pre ++ le_enc 4 (rq_checksum r) /\
    pre = le_enc 4 (rq_sync_word r) ++ le_enc 4 (rq_data_len r) ++ le_enc 2 (rq_counter r) ++
          le_enc 2 (rq_cmd_type r).
Proof.
  with_strategy transparent [pack] change (pack r) with (ReqPacket_pack r).
  eexists. split; [|split; [|done]]; [done|]. unfold ReqPacket_pack. by rewrite <- !app_assoc.
Qed.

Lemma parse_request r rest :
  request_ok r ->
  let buffer := pack (request_header r) ++ rm_payload r ++ rest in
  parse_request_packet buffer = PARSE_SUCCESS /\ unpack buffer = request_header r /\
  packet_payload buffer = zlen (rm_payload r).
Proof.
  intros Hok buffer. pose proof (request_header_wf r Hok) as Hwf.
  pose proof (pack_zlen _ Hwf) as Hlen. change (sizeof ReqPacket) with 16 in Hlen.
  assert (unpack buffer = request_header r) as Hu.
  { unfold buffer. rewrite unpack_app by (change (sizeof ReqPacket) with 16; lia).
    by apply unpack_pack. }
  assert (is_u32 (zlen (rm_payload r))) as H32.
  { destruct Hok as (_ & _ & _ & Hl). unfold BUFFER_SIZE, in_range, zlen in *. lia. }
  assert (packet_payload buffer = zlen (rm_payload r)) as Hp.
  { unfold packet_payload. rewrite Hu. simpl. by apply reverse_4bytes_involutive. }
  split; [|done]. unfold parse_request_packet. rewrite Hu. cbv zeta.
  change (sizeof ReqPacket) with 16.
  assert (zlen buffer = 16 + zlen (rm_payload r) + zlen rest) as Hb.
  { unfold buffer. rewrite !zlen_app. lia. }
  assert (0 <= zlen (rm_payload r) /\ 0 <= zlen rest) as [? ?] by (unfold zlen; lia).
  assert ((zlen buffer <? 16) = false) as -> by lia.
  assert ((reverse_4bytes (rq_sync_word (request_header r)) =? REQ_SYNC_WORD) = true) as ->
    by by vm_compute.
  assert ((rq_checksum (request_header r) =?
    Z.lxor (Z.lxor (fld 0 4 buffer) (fld 4 4 buffer)) (fld 8 4 buffer)) = true) as ->.
  { apply Z.eqb_eq. unfold buffer.
    destruct (request_header_prefix (request_header r)) as (pre & Hl & Hpk & Hpre).
    rewrite Hpk, <- !app_assoc, !(fld_app _ _ pre) by lia.
    unfold request_header at 1. cbv zeta. cbn [rq_checksum].
    match goal with |- context [pack ?h] => destruct (request_header_prefix h) as (pre' & Hl' & Hpk' & Hpre') end.
    rewrite Hpk', !(fld_app _ _ pre') by lia. by rewrite Hpre', Hpre. }
  fold (packet_payload buffer) in *. unfold packet_payload in Hp. rewrite Hu in Hp. rewrite Hp, Hb.
  destruct Hok as (_ & _ & _ & Hl).
  assert ((zlen (rm_payload r) >? BUFFER_SIZE - 16) = false) as -> by lia.
  by assert ((zlen (rm_payload r) >? 16 + zlen (rm_payload r) + zlen rest - 16) = false) as -> by lia.
Qed.

(** A byte that cannot begin a packet is skipped. *)
Lemma parse_noise b bs :
  b <> x03 -> 16 <= zlen (b :: bs) -> parse_request_packet (b :: bs) = PARSE_ERR_SYNC.
Proof.
  intros Hb Hl. unfold parse_request_packet. change (sizeof ReqPacket) with 16.
  assert ((zlen (b :: bs) <? 16) = false) as -> by lia. cbv zeta.
  destruct (Z.eqb_spec (reverse_4bytes (rq_sync_word (unpack (b :: bs)))) REQ_SYNC_WORD) as [He|];
    [|done].
  exfalso. apply Hb.
  destruct bs as [|b1 [|b2 [|b3 bs]]]; unfold zlen in Hl; simpl length in Hl; try lia.
  with_strategy transparent [unpack] change (rq_sync_word (unpack (b :: b1 :: b2 :: b3 :: bs)))
    with (le_dec [b; b1; b2; b3]) in He.
  rewrite reverse_4bytes_le_dec in He.
  change REQ_SYNC_WORD with (le_dec [xff; xf0; xcc; x03]) in He.
  apply le_dec_inj in He; [by injection He | done].
Qed.

Section Stream.
Context `{OS}.
#[local] Open Scope c_scope.

Definition run_request (sock : Z) (r : request) : M world unit :=
  dispatch_command sock (request_header r) (rm_payload r).

Lemma loop_noise f sock noise rest w :
  x03 ∉ noise -> 16 <= zlen rest -> (length (noise ++ rest) < f)%nat ->
  exists f', (length rest < f')%nat /\
    command_loop f sock (noise ++ rest) w = command_loop f' sock rest w.
Proof.
  revert f. induction noise as [|b noise IH]; intros f Hn Hl Hf; [by exists f|].
  apply list.not_elem_of_cons in Hn as [Hb Hn]. destruct f as [|f]; [lia|].
  assert (16 <= zlen ((b :: noise) ++ rest)) as H16 by (rewrite zlen_app; unfold zlen in *; lia).
  simpl app in *. rewrite command_loop_skip by (rewrite ?parse_noise; done).
  change (drop 1 (b :: noise ++ rest)) with (noise ++ rest).
  apply IH; [done | done |]. simpl in Hf. lia.
Qed.

(** C13. Framing: a stream of well-formed packets, each preceded by any noise
    without the first byte of the synchronisation word, is dispatched packet by
    packet, in order, each exactly once and with exactly its own payload, and
    nothing is left. *)
Theorem packets_dispatched_in_order f sock (rs : list request) w :
  Forall request_ok rs -> (length (rs ≫= request_bytes) < f)%nat ->
  command_loop f sock (rs ≫= request_bytes) w = (foreach rs (run_request sock) ;; ret []) w.
Proof.
  intros Hrs. revert f w. induction Hrs as [|r rs Hr _ IH]; intros f w Hf.
  { destruct f as [|f]; [lia|]. rewrite command_loop_stop; [done | by left]. }
  rewrite bind_cons in *. unfold request_bytes at 1. unfold request_bytes at 1 in Hf.
  rewrite <- !app_assoc in *. set (rest := rs ≫= request_bytes) in *.
  destruct (parse_request r rest Hr) as (Hp & Hu & Hpay).
  pose proof (pack_zlen _ (request_header_wf r Hr)) as Hh. change (sizeof ReqPacket) with 16 in Hh.
  set (buffer := pack (request_header r) ++ rm_payload r ++ rest) in *.
  destruct (loop_noise f sock (rm_noise r) buffer w) as (f' & Hf' & ->); [apply Hr | | done |].
  { unfold buffer. rewrite zlen_app. unfold zlen in *. lia. }
  destruct f' as [|f']; [lia|]. rewrite command_loop_packet by done. rewrite Hu, Hpay.
  assert (slice 16 (Z.to_nat (zlen (rm_payload r))) buffer = rm_payload r) as ->.
  { unfold slice, buffer. rewrite drop_app_ge by (unfold zlen in Hh; lia).
    replace (16 - length (pack (request_header r)))%nat with 0%nat by (unfold zlen in Hh; lia).
    rewrite drop_0. unfold zlen. by rewrite Nat2Z.id, take_app_length. }
  assert (drop (Z.to_nat (16 + zlen (rm_payload r))) buffer = rest) as ->.
  { unfold buffer. rewrite app_assoc. replace (Z.to_nat (16 + zlen (rm_payload r)))
      with (length (pack (request_header r) ++ rm_payload r)) by (rewrite length_app; unfold zlen in *; lia).
    by rewrite drop_app_length. }
  simpl foreach. rewrite bind_assoc. unfold run_request at 1. unfold bind at 1 2.
  destruct (dispatch_command _ _ _ w) as [[[] w1]|]; [|done]. apply IH.
  unfold buffer in Hf'. rewrite !length_app in Hf'. unfold zlen in Hh. lia.
Qed.
End Stream.

(** A start request for channel 3 behind two bytes of noise, and a version
    query. *)
Definition sample_requests : list request :=
  [ mk_request [xff; x00] 0x0103 1 (pack (mk_CanStartStopParam 3 0xAA000000));
    mk_request [] 0xFF05 2 [x00; x00; x00; xaa] ].

Lemma sample_requests_ok : Forall request_ok sample_requests.
Proof.
  repeat constructor; try (by vm_compute); intros Hin;
    repeat (apply list.elem_of_cons in Hin as [Hin|Hin]; [discriminate|]);
    by apply list.not_elem_of_nil in Hin.
Qed.

Definition sample_stream : bytes := sample_requests ≫= request_bytes.

Lemma command_port_safe_witness :
  let answers := [RecvSome 5; RecvIntr; RecvSome 100; RecvFailed] in
  exists rest unread w',
    tcp_client_handler_9009 (H := quiet_os) answers 9 [] sample_stream connected_world =
      Some ((rest, unread), w') /\
    world_wf w' /\ cmd_frame connected_world w' /\ zlen rest < BUFFER_SIZE /\
    (zlen rest < 16 \/ parse_request_packet rest = PARSE_NEED_MORE).
Proof.
  apply (command_port_safe (H := quiet_os)); [apply boot_world_held | apply connected_world_wf].
Defined.

Lemma segmentation_independent_witness :
  let answers := repeat (RecvSome 1) 46 in
  exists rest w', command_loop (H := quiet_os) (S (length sample_stream)) 9 sample_stream connected_world
      = Some (rest, w') /\
    tcp_client_handler_9009 (H := quiet_os) answers 9 [] sample_stream connected_world =
      Some ((rest, []), w').
Proof.
  apply (segmentation_independent (H := quiet_os) (repeat (RecvSome 1) 46));
    [apply boot_world_held | apply connected_world_wf | repeat constructor; done | vm_compute; lia].
Defined.

Lemma packets_dispatched_in_order_witness :
  command_loop (H := quiet_os) 60 9 sample_stream connected_world =
    (foreach sample_requests (run_request (H := quiet_os) 9) ;; ret [])%c connected_world.
Proof.
  apply (packets_dispatched_in_order (H := quiet_os)); [exact sample_requests_ok | vm_compute; lia].
Defined.
