(* ===== verification/Download.v ===== *)
(** * The download port 9012
    ([src/main18.c], [validate_48byte_can_payload] to
    [process_9012_can_payload_frames], [process_download_data_batch] and
    [tcp_client_handler_9012]).

    A batch is parsed as on port 9009, with its own header and a larger buffer.
    A payload of 48-byte frames is validated as a whole before anything is
    queued; the other payloads go to the buffer of their type.  Two threads can
    hold a connection; only the one that opened last may queue data. *)
From S2P Require Import Prelude Framing Words Ring RingSet Layout World Upload Broadcast Commands.
From Stdlib Require Import (notations) String.

Inductive DataType :=
  | DATA_TYPE_CAN | DATA_TYPE_SECOND_PULSE | DATA_TYPE_SIMULATOR | DATA_TYPE_DMA
  | DATA_TYPE_1553B | DATA_TYPE_MAX.

(** [sizeof(stream->bytes)] *)
Definition stream_size : Z := BUFFER_SIZE_1 * 2.

(** [sizeof(DownloadStream)]: the 4-byte [size_t] of the target, and the bytes. *)
Definition sizeof_DownloadStream : Z := 4 + stream_size.

Section Download.
Context `{OS}.
#[local] Open Scope c_scope.

(** ** Frames of 48 bytes *)

Definition validate_48byte_can_payload (frame : PC_ARM_DATA_DATA) : bool :=
  (pd_head frame =? PC_STATUS_HEAD) && (pd_length frame =? sizeof PC_ARM_DATA_DATA) &&
  (pd_xor_checksum frame =?
     calculate_xor_checksum (pack frame) (psize (A := PC_ARM_DATA_DATA) - 4)).

Definition enqueue_normal_can_payload (frame : PC_ARM_DATA_DATA) : M world Z :=
  let can_id := pd_ch_id frame in
  if can_id >=? AXICAN_MAX then ret (- EINVAL) else
  let* cfg := config_at can_id in
  if cf_valid cfg =? 0 then ret (- EINVAL) else
  let* avail := buf_avail Data can_id 32 in
  if avail =? 0 then error_event (str "normal CAN buffer full") ;; ret (- ENOMEM) else
  let* r := buf_put Data can_id (pack frame) 32 in
  ret (if r =? 1 then 0 else - ENOMEM).

(** The frames of a payload, read one by one. *)
Fixpoint read_frames (n : nat) (payload : bytes) : M world (list PC_ARM_DATA_DATA) :=
  match n with
  | O => ret []
  | S n' =>
    let* frame := cast PC_ARM_DATA_DATA payload in
    let* frames := read_frames n' (drop 48 payload) in
    ret (frame :: frames)
  end.

Definition process_9012_can_payload_frames (payload : bytes) (packet_channel : Z) : M world Z :=
  let payload_len := zlen payload in
  if (payload_len =? 0) || negb (payload_len mod 48 =? 0) then ret (- EINVAL) else
  let frame_count := payload_len / 48 in
  if (frame_count =? 0) || (frame_count >? BCAST_MAX_FRAMES_PER_GROUP) then ret (- EINVAL) else
  let* frames := read_frames (Z.to_nat frame_count) payload in
  if negb (forallb validate_48byte_can_payload frames) then ret (- EINVAL) else
  match frames with
  | [frame] =>
    if pd_type frame =? 0x01 then enqueue_normal_can_payload frame
    else if pd_type frame =? 0x02 then
      if packet_channel >=? AXICAN_MAX then ret (- EINVAL)
      else enqueue_broadcast_group packet_channel [frame]
    else ret (- EINVAL)
  | _ =>
    if negb (forallb (fun f => pd_type f =? 0x02) frames) then ret (- EINVAL) else
    if packet_channel >=? AXICAN_MAX then ret (- EINVAL)
    else enqueue_broadcast_group packet_channel frames
  end.

(** ** The other payloads *)

(** [case 0x0001]: the channel and the type, or an invalid payload. *)
Definition classify_can (payload : bytes) : M world (option (Z * DataType)) :=
  let payload_len := zlen payload in
  if payload_len <? sizeof PC_ARM_DATA_DATA then ret None else
  let* hdr := cast PC_ARM_DATA_DATA payload in
  if (pd_length hdr <? sizeof PC_ARM_DATA_DATA) || (pd_length hdr >? payload_len) ||
     negb (pd_length hdr mod 4 =? 0) then ret None else
  if negb (pd_head hdr =? PC_STATUS_HEAD) then ret None else
  let crc_range := pd_length hdr - 4 in
  let* crc_bytes := of_option (mem_read 0 crc_range payload) in
  if negb (pd_xor_checksum hdr =? calculate_xor_checksum crc_bytes (Z.to_nat crc_range))
  then ret None else
  if pd_ch_id hdr >=? AXICAN_MAX then ret None else
  let* cfg := config_at (pd_ch_id hdr) in
  if cf_valid cfg =? 0 then ret None else
  ret (Some (pd_ch_id hdr, DATA_TYPE_CAN)).

(** [case 0x0003] *)
Definition classify_simulator (payload : bytes) : M world (option (Z * DataType)) :=
  if zlen payload <? sizeof PC_ARM_SIMULATOR_DATA then ret None else
  let* sim := cast PC_ARM_SIMULATOR_DATA payload in
  let* set := gets (fun w => g_simulator_buf_set (w_bufs w)) in
  if (sd_channel_id sim >=? max_channel set) || (sd_send_len sim >? 256) then ret None else
  if negb (sd_head sim =? PC_STATUS_HEAD) then ret None else
  ret (Some (sd_channel_id sim, DATA_TYPE_SIMULATOR)).

(** [case 0x0002] *)
Definition classify_pulse (payload : bytes) : M world (option (Z * DataType)) :=
  ret (if zlen payload <? sizeof SecondPulseData then None else Some (0, DATA_TYPE_SECOND_PULSE)).

(** [case 0x0005] *)
Definition classify_dma (payload : bytes) : M world (option (Z * DataType)) :=
  if zlen payload <? sizeof PC_DMA_DATA then ret None else
  let* dma := cast PC_DMA_DATA payload in
  ret (Some (dm_DMA_CHINNEL dma, DATA_TYPE_DMA)).

Definition classify (command : Z) (payload : bytes) : M world (option (Z * DataType)) :=
  if command =? 0x0001 then classify_can payload
  else if command =? 0x0003 then classify_simulator payload
  else if command =? 0x0002 then classify_pulse payload
  else if command =? 0x0005 then classify_dma payload
  else ret None.

(** [target_buf] *)
Definition target_buf (t : DataType) : option buf_name :=
  match t with
  | DATA_TYPE_CAN => Some Data
  | DATA_TYPE_SIMULATOR => Some Simulator
  | DATA_TYPE_SECOND_PULSE => Some Pulse
  | _ => None
  end.

Definition enqueue_data (t : DataType) (can_id : Z) (payload : bytes) : M world unit :=
  match target_buf t with
  | None => ret tt
  | Some target =>
    let* available := buf_avail target can_id 32 in
    if available =? 0 then error_event (str "buffer full") else
    let* _ := buf_put target can_id payload 32 in
    ret tt
  end.

(** One complete packet of the batch. *)
Definition download_packet (req : DATA_ReqPacket) (payload : bytes) : M world unit :=
  let command := reverse_2bytes (dq_cmd_type req) in
  let packet_channel := reverse_4bytes (dq_channel req) in
  if ((command =? 0x0001) || (command =? 0x0002)) && (zlen payload >=? sizeof PC_ARM_DATA_DATA) &&
     (zlen payload mod sizeof PC_ARM_DATA_DATA =? 0)
  then (let* _ := process_9012_can_payload_frames payload packet_channel in ret tt)
  else
    let* c := classify command payload in
    match c with
    | None => ret tt
    | Some (can_id, t) => enqueue_data t can_id payload
    end.

(** ** The batch *)

(** The loop over the stream: the bytes that are left. *)
Fixpoint download_loop (fuel : nat) (buffer : bytes) : M world bytes :=
  match fuel with
  | O => stuck
  | S fuel' =>
    if negb (sizeof DATA_ReqPacket <=? zlen buffer) then ret buffer else
    let req : DATA_ReqPacket := unpack buffer in
    let payload_size := reverse_4bytes (dq_data_len req) in
    if negb (reverse_4bytes (dq_sync_word req) =? PC_ARM_DATA_WORD)
    then download_loop fuel' (drop 1 buffer) else
    if negb (dq_checksum req =? calculate_xor_checksum buffer 12) ||
       (payload_size >? stream_size - sizeof DATA_ReqPacket)
    then download_loop fuel' (drop 1 buffer) else
    let pkg_total_len := sizeof DATA_ReqPacket + payload_size in
    if pkg_total_len >? zlen buffer then ret buffer else
    let* payload := of_option (mem_read (sizeof DATA_ReqPacket) payload_size buffer) in
    download_packet req payload ;;
    download_loop fuel' (drop (Z.to_nat pkg_total_len) buffer)
  end.

(** [stream] is [stream->used] bytes of [stream->bytes]. *)
Definition process_download_data_batch (stream : bytes) : M world bytes :=
  if zlen stream >? stream_size then ret stream else
  download_loop (S (length stream)) stream.

(** ** Connections *)

(** A client connects: it replaces the client there was. *)
Definition download_open (sock : Z) : M world unit :=
  mutex_lock download_process_mutex ;;
  mutex_lock data_download_mutex ;;
  let* old := gets data_download_socket in
  when (negb (old =? -1)) (let* _ := sys (SysShutdown old) in ret tt) ;;
  modify (set_data_download_socket sock) ;;
  mutex_unlock data_download_mutex ;;
  mutex_unlock download_process_mutex.

(** After a receive of [chunk] behind the [used] bytes: what is kept, or
    nothing when the client was replaced. *)
Definition download_turn (sock : Z) (used chunk : bytes) : M world (option bytes) :=
  ensure (zlen used + zlen chunk <=? stream_size) ;;
  mutex_lock download_process_mutex ;;
  mutex_lock data_download_mutex ;;
  let* current := gets data_download_socket in
  let is_current := current =? sock in
  mutex_unlock data_download_mutex ;;
  let* rest :=
    (if is_current
     then let* r := process_download_data_batch (used ++ chunk) in ret (Some r)
     else ret None) in
  mutex_unlock download_process_mutex ;;
  ret rest.

Definition download_close (sock : Z) : M world unit :=
  mutex_lock data_download_mutex ;;
  let* current := gets data_download_socket in
  when (current =? sock) (modify (set_data_download_socket (-1))) ;;
  mutex_unlock data_download_mutex.

(** [while (running)]: [recv] asks for no more than the room and
    [BUFFER_SIZE_1]. *)
Fixpoint download_receive_loop (answers : list recv_answer) (sock : Z) (used stream : bytes)
    : M world unit :=
  match answers with
  | [] => ret tt
  | RecvIntr :: answers' => download_receive_loop answers' sock used stream
  | RecvFailed :: _ => ret tt
  | RecvSome n :: answers' =>
    let space := stream_size - zlen used in
    if space =? 0 then ret tt else
    let receive_size := if space <? BUFFER_SIZE_1 then space else BUFFER_SIZE_1 in
    let k := Z.to_nat (Z.min n receive_size) in
    let chunk := take k stream in
    if zlen chunk =? 0 then ret tt else
    let* rest := download_turn sock used chunk in
    match rest with
    | None => ret tt
    | Some used' => download_receive_loop answers' sock used' (drop k stream)
    end
  end.

Definition tcp_client_handler_9012 (answers : list recv_answer) (sock : Z) (stream : bytes)
    : M world unit :=
  let* block := sys (SysMalloc sizeof_DownloadStream) in
  if block =? 0 then ret tt else
  download_open sock ;;
  download_receive_loop answers sock [] stream ;;
  download_close sock ;;
  let* _ := sys SysFree in ret tt.
End Download.

(** ** What a download keeps *)

(** A downloaded answer of the simulator that passed the checks of the port: in
    particular its data fit into its own array. *)
Definition simulator_ok (x : bytes) : Prop :=
  zlen x = sizeof PC_ARM_SIMULATOR_DATA /\
  let sim : PC_ARM_SIMULATOR_DATA := unpack x in sd_head sim = PC_STATUS_HEAD /\ sd_send_len sim <= 256.

Definition simulators_ok (b : buffers) : Prop :=
  forall ch, 0 <= ch -> Forall simulator_ok (buf_queue Simulator ch b).

(** What is new in a queue after a download. *)
Definition new_ok (n : buf_name) (new : list bytes) : Prop :=
  (n = CanQueue \/ n = PollQueue -> new = []) /\ (n = Simulator -> Forall simulator_ok new).

Lemma new_ok_nil n : new_ok n [].
Proof. split; [done | intros _; constructor]. Qed.

Lemma new_ok_app n l1 l2 : new_ok n l1 -> new_ok n l2 -> new_ok n (l1 ++ l2).
Proof.
  intros [H1 S1] [H2 S2]. split; [intros Hn; by rewrite H1, H2 by done|].
  intros Hn. apply list.Forall_app. auto.
Qed.

#[export] Hint Resolve new_ok_nil new_ok_app : zmht.

(** Downloads append to the queues of the four download buffers and touch no
    configuration, no schedule and no socket but those of replies and events. *)
Record dl_frame (w w' : world) : Prop := {
  dl_wf : world_wf w -> world_wf w';
  dl_held : w_held w' = w_held w;
  dl_configs : w_configs w' = w_configs w;
  dl_axican : w_axican w' = w_axican w;
  dl_download : data_download_socket w' = data_download_socket w;
  dl_sched : sched_kept w w';
  dl_appends : forall n ch, 0 <= ch ->
    exists new, buf_queue n ch (w_bufs w') = buf_queue n ch (w_bufs w) ++ new /\ new_ok n new;
  dl_extends : extends w w'
}.

#[export] Instance dl_frame_preorder : PreOrder dl_frame.
Proof.
  split.
  - intros w. split; auto; try reflexivity; [by split|].
    intros n ch _. exists []. rewrite app_nil_r. auto with zmht.
  - intros w1 w2 w3 [? ? ? ? ? [] Ha1 ?] [? ? ? ? ? [] Ha2 ?].
    split; try congruence; try (by etransitivity); [by auto | split; congruence |].
    intros n ch Hch. destruct (Ha1 n ch Hch) as (l1 & Hq1 & E1), (Ha2 n ch Hch) as (l2 & Hq2 & E2).
    exists (l1 ++ l2). split; [by rewrite Hq2, Hq1, app_assoc | auto with zmht].
Qed.

Lemma net_only_dl_frame w w' : net_only w w' -> dl_frame w w'.
Proof.
  intros Hno. pose proof (net_only_wf _ _ Hno). destruct Hno.
  split; try done; [unfold sched_kept; by rewrite no_bc|].
  intros n ch _. exists []. rewrite app_nil_r, no_bufs. auto with zmht.
Qed.

(** One element appended to one queue of bytes. *)
Definition appended (n : buf_name) (ch : Z) (x : bytes) (w w' : world) : Prop :=
  bufs_only n ch (w_bufs w) (w_bufs w') /\
  buf_queue n ch (w_bufs w') = buf_queue n ch (w_bufs w) ++ [x].

Lemma appended_queues n ch x w w' m c :
  appended n ch x w w' -> 0 <= c -> new_ok n [x] ->
  exists new, buf_queue m c (w_bufs w') = buf_queue m c (w_bufs w) ++ new /\ new_ok m new.
Proof.
  intros [Ho Hq] Hc Hn. destruct (decide ((m, c) = (n, ch))) as [[= -> ->]|Hne].
  - by exists [x].
  - exists []. rewrite app_nil_r, Ho by done. auto with zmht.
Qed.

(** An element of another queue than the simulators' needs no check. *)
Lemma new_ok_other n x : n <> CanQueue -> n <> PollQueue -> n <> Simulator -> new_ok n [x].
Proof. intros H1 H2 H3. split; naive_solver. Qed.

Lemma put_dl_frame n ch x b' w :
  new_ok n [x] -> n <> BcastGroup -> bufs_wf b' ->
  appended n ch x w (set_bufs b' w) -> dl_frame w (set_bufs b' w).
Proof.
  intros Hn1 Hn3 Hb Ha. split; try done; [| by intros; eapply appended_queues | by exists []].
  intros Hwf. pose proof (ww_groups _ Hwf) as Hg. destruct Hwf. split; try done. intros c Hc.
  assert (chan_queue (buf_set BcastGroup b') c = chan_queue (buf_set BcastGroup (w_bufs w)) c) as Hq.
  { apply (proj1 Ha BcastGroup c Hc). congruence. }
  cbn [w_bufs set_bufs]. rewrite Hq. by apply Hg.
Qed.

(** A put into a queue that has room. *)
Lemma wp_put_room n ch data (Q : Z -> world -> Prop) w :
  world_wf w -> new_ok n [take (Z.to_nat (buf_esize n)) data] -> n <> BcastGroup -> 0 <= ch < 32 ->
  buf_esize n <= zlen data -> zlen (buf_queue n ch (w_bufs w)) < buf_depth n ->
  (forall w', appended n ch (take (Z.to_nat (buf_esize n)) data) w w' -> dl_frame w w' -> Q 1 w') ->
  wp (buf_put n ch data 32) Q w.
Proof.
  intros Hwf Hn1 Hn3 Hch Hd Hroom HQ. apply wp_buf_put; [apply Hwf | lia | done |].
  intros r b' Hb' Ho Hp.
  assert (n <> CanQueue /\ n <> PollQueue) as [Hn2 Hn4].
  { split; intros ->; destruct Hn1 as [Hn1 _]; by (discriminate Hn1; auto). }
  assert (buf_chan_ok n ch 32 = true) as Hok.
  { unfold buf_chan_ok. apply andb_true_iff. destruct n; simpl; try done; lia. }
  rewrite Hok in Hp. unfold Fifo.put in Hp.
  rewrite (proj2 (Z.ltb_lt _ _) Hroom) in Hp.
  injection Hp as -> Hq.
  assert (appended n ch (take (Z.to_nat (buf_esize n)) data) w (set_bufs b' w)) as Ha by done.
  apply HQ; [exact Ha | by eapply put_dl_frame].
Qed.

Lemma enqueue_post_frame `{OS} ch frames w r w' :
  enqueue_post ch frames w r w' -> dl_frame w w'.
Proof.
  intros (Hwf & [] & Hs & Hr). split; try done.
  intros n c Hc. destruct Hr as [(_ & _ & Ho & Hq) | (_ & _ & ->)].
  - eapply appended_queues; [by split | done | by apply new_ok_other].
  - exists []. rewrite app_nil_r. auto with zmht.
Qed.

(** ** Frames of 48 bytes *)

Section Frames.
Context `{OS}.
#[local] Open Scope c_scope.

Fixpoint frames_of (n : nat) (payload : bytes) : list PC_ARM_DATA_DATA :=
  match n with
  | O => []
  | S n' => unpack payload :: frames_of n' (drop 48 payload)
  end.

Lemma read_frames_eq n payload w :
  (48 * n <= length payload)%nat -> read_frames n payload w = Some (frames_of n payload, w).
Proof.
  revert payload. induction n as [|n IH]; intros payload Hl; [done|].
  cbn [read_frames frames_of]. unfold cast.
  rewrite (proj2 (Nat.leb_le _ _)) by (change (psize (A := PC_ARM_DATA_DATA)) with 48%nat; lia).
  rewrite bind_ret_l. unfold bind. by rewrite IH by (rewrite length_drop; lia).
Qed.

Lemma frames_of_wf n payload :
  (48 * n <= length payload)%nat -> Forall pwf (frames_of n payload).
Proof.
  revert payload. induction n as [|n IH]; intros payload Hl; constructor.
  - apply unpack_wf. change (psize (A := PC_ARM_DATA_DATA)) with 48%nat. lia.
  - apply IH. rewrite length_drop. lia.
Qed.

Lemma frames_of_length n payload : length (frames_of n payload) = n.
Proof. revert payload. induction n as [|n IH]; intros payload; simpl; [done | by rewrite IH]. Qed.

(** The payload is the concatenation of its frames. *)
Lemma frames_of_pack n payload :
  length payload = (48 * n)%nat -> payload = frames_of n payload ≫= pack.
Proof.
  revert payload. induction n as [|n IH]; intros payload Hl.
  { destruct payload; [done | simpl in Hl; lia]. }
  cbn [frames_of]. rewrite bind_cons, <- IH by (rewrite length_drop; lia).
  rewrite <- (unpack_take (A := PC_ARM_DATA_DATA)).
  rewrite (pack_unpack (A := PC_ARM_DATA_DATA)); [symmetry; apply take_drop|].
  rewrite length_take. change (psize (A := PC_ARM_DATA_DATA)) with 48%nat. lia.
Qed.

(** When the frame of a normal payload is let into the queue of its channel. *)
Definition normal_accepted (f : PC_ARM_DATA_DATA) (w : world) : Prop :=
  pd_ch_id f < 6 /\
  (exists c, w_configs w !! Z.to_nat (pd_ch_id f) = Some c /\ cf_valid c <> 0) /\
  zlen (buf_queue Data (pd_ch_id f) (w_bufs w)) < 131072.

Definition normal_post (f : PC_ARM_DATA_DATA) (w : world) (r : Z) (w' : world) : Prop :=
  dl_frame w w' /\
  (r = 0 /\ normal_accepted f w /\ appended Data (pd_ch_id f) (pack f) w w' \/
   r <> 0 /\ ~ normal_accepted f w /\ w_bufs w' = w_bufs w).

Lemma normal_refused f w r w' :
  r <> 0 -> ~ normal_accepted f w -> net_only w w' -> normal_post f w r w'.
Proof.
  intros Hr Hna Hno. split; [by apply net_only_dl_frame|]. right. split_and!; [done..|].
  by apply no_bufs.
Qed.

Lemma frame_id_nonneg (f : PC_ARM_DATA_DATA) : pwf f -> 0 <= pd_ch_id f.
Proof.
  intros Hf. change (PC_ARM_DATA_DATA_wf f) in Hf. unfold PC_ARM_DATA_DATA_wf in Hf.
  destruct_and! Hf. unfold in_range in *. lia.
Qed.

Lemma normal_spec f w :
  held_below 6 w -> world_wf w -> pwf f ->
  wp (enqueue_normal_can_payload f) (normal_post f w) w.
Proof.
  intros Hb Hwf Hf. pose proof (frame_id_nonneg f Hf) as Hid.
  unfold enqueue_normal_can_payload. cbv zeta.
  destruct (pd_ch_id f >=? AXICAN_MAX) eqn:Hge; unfold AXICAN_MAX in *; bool_prop.
  { wp_step. apply normal_refused; [done | intros (? & _); lia | done]. }
  destruct (config_lookup (pd_ch_id f) w Hwf) as (c & Hc & _); [lia|].
  wp_step. eapply wp_arr_get; [done | exact Hc |].
  destruct (Z.eqb_spec (cf_valid c) 0) as [Hv|Hv].
  { wp_step. apply normal_refused; [done | | done].
    intros (_ & (c' & Hc' & Hv') & _). congruence. }
  wp_step. apply wp_buf_avail; [apply Hwf | done |].
  assert (buf_chan_ok Data (pd_ch_id f) 32 = true) as ->.
  { unfold buf_chan_ok. apply andb_true_iff. simpl. lia. }
  change (buf_depth Data) with 131072.
  pose proof (buf_queue_bound Data (pd_ch_id f) (w_bufs w) (ww_bufs _ Hwf) ltac:(simpl; lia)) as Hbd.
  change (buf_depth Data) with 131072 in Hbd.
  destruct (Z.eqb_spec (131072 - zlen (buf_queue Data (pd_ch_id f) (w_bufs w))) 0) as [Hz|Hnz].
  { wp_step. apply wp_error_event; [done|]. wp_step.
    apply normal_refused; [done | intros (_ & _ & Hroom); lia | apply net_only_err]. }
  pose proof (pack_zlen f Hf) as Hpl. change (sizeof PC_ARM_DATA_DATA) with 48 in Hpl.
  wp_step. apply wp_put_room; [done | by apply new_ok_other | done | lia | by rewrite Hpl | simpl; lia |].
  intros w' Ha Hd. wp_step. split; [exact Hd|]. left. split; [done|].
  split; [split; [lia|]; split; [by exists c | lia]|].
  replace (take (Z.to_nat (buf_esize Data)) (pack f)) with (pack f) in Ha; [done|].
  symmetry. apply take_ge. change (Z.to_nat (buf_esize Data)) with 48%nat. unfold zlen in Hpl. lia.
Qed.

(** The frames of a payload. *)
Definition payload_frames (payload : bytes) : list PC_ARM_DATA_DATA :=
  frames_of (Z.to_nat (zlen payload / 48)) payload.

(** The payloads that are taken: whole frames, 1 to 128 of them, each valid;
    one normal frame its channel takes, or a broadcast group the channel of the
    packet takes. *)
Definition payload_valid (payload : bytes) : Prop :=
  zlen payload mod 48 = 0 /\ 1 <= zlen payload / 48 <= 128 /\
  Forall (fun f => validate_48byte_can_payload f = true) (payload_frames payload).

Definition single_normal (payload : bytes) (f : PC_ARM_DATA_DATA) : Prop :=
  payload_frames payload = [f] /\ pd_type f = 1.

Definition all_broadcast (payload : bytes) : Prop :=
  Forall (fun f => pd_type f = 2) (payload_frames payload).

Definition payload_accepted (payload : bytes) (ch : Z) (w : world) : Prop :=
  payload_valid payload /\
  ((exists f, single_normal payload f /\ normal_accepted f w) \/
   all_broadcast payload /\ group_accepted ch (payload_frames payload) w).

Definition payload_post (payload : bytes) (ch : Z) (w : world) (r : Z) (w' : world) : Prop :=
  dl_frame w w' /\
  (r = 0 /\ payload_accepted payload ch w /\
     ((exists f, single_normal payload f /\ appended Data (pd_ch_id f) (pack f) w w') \/
      all_broadcast payload /\
      appended BcastGroup ch (group_pack (make_group (next_id w) (payload_frames payload))) w w')
   \/ r <> 0 /\ ~ payload_accepted payload ch w /\ w_bufs w' = w_bufs w).

Lemma payload_refused payload ch r w :
  r <> 0 -> ~ payload_accepted payload ch w -> payload_post payload ch w r w.
Proof. intros Hr Hna. split; [done|]. by right. Qed.

(** A group of broadcast frames, on its way to its queue. *)
Lemma broadcast_spec payload ch w :
  held_below 2 w -> world_wf w -> 0 <= ch -> payload_valid payload ->
  Forall pwf (payload_frames payload) -> all_broadcast payload ->
  wp (if ch >=? AXICAN_MAX then ret (- EINVAL) else enqueue_broadcast_group ch (payload_frames payload))
     (payload_post payload ch w) w.
Proof.
  intros Hb Hwf Hch Hv Hpw Hall.
  assert (forall f, ~ single_normal payload f) as Hns.
  { intros f [Hf Ht]. unfold all_broadcast in Hall. rewrite Hf in Hall.
    apply list.Forall_cons in Hall as [Ht2 _]. lia. }
  destruct (ch >=? AXICAN_MAX) eqn:Hge; unfold AXICAN_MAX in Hge; bool_prop.
  { wp_step. apply payload_refused; [done|]. intros (_ & [(f & Hf & _) | (_ & _ & Hlt & _)]); [by eapply Hns | lia]. }
  eapply wp_mono; [by apply enqueue_spec|]. intros r w' Hpost.
  split; [by eapply enqueue_post_frame|].
  destruct Hpost as (_ & _ & _ & [(-> & Hacc & Ho & Hq) | (Hr & Hna & Hbufs)]); [left | right].
  - split; [done|]. split; [split; [done|]; by right|]. right. by split.
  - split; [done|]. split; [|done]. intros (_ & [(f & Hf & _) | (_ & Hacc)]); [by eapply Hns | done].
Qed.

Lemma process_frames_spec payload ch w :
  held_below 2 w -> world_wf w -> 0 <= ch ->
  wp (process_9012_can_payload_frames payload ch) (payload_post payload ch w) w.
Proof.
  intros Hb Hwf Hch. unfold process_9012_can_payload_frames. cbv zeta.
  pose proof (Z.div_mod (zlen payload) 48 ltac:(lia)) as Hdm.
  assert (0 <= zlen payload) by (unfold zlen; lia).
  destruct ((zlen payload =? 0) || negb (zlen payload mod 48 =? 0))%bool eqn:E1.
  { wp_step. apply payload_refused; [done|]. intros ((H1 & H2 & _) & _). bool_prop; [|done].
    lia. }
  unfold BCAST_MAX_FRAMES_PER_GROUP.
  destruct ((zlen payload / 48 =? 0) || (zlen payload / 48 >? 128))%bool eqn:E2.
  { wp_step. apply payload_refused; [done|]. intros ((H1 & H2 & _) & _). bool_prop; lia. }
  apply orb_false_iff in E1 as [_ E1]. apply orb_false_iff in E2 as [E2 E3]. bool_prop.
  assert (length payload = 48 * Z.to_nat (zlen payload / 48))%nat as Hlen by (unfold zlen in *; lia).
  wp_step. unfold wp at 1. rewrite read_frames_eq by lia. fold (payload_frames payload).
  assert (Forall pwf (payload_frames payload)) as Hpw by (apply frames_of_wf; lia).
  destruct (forallb validate_48byte_can_payload (payload_frames payload)) eqn:E4; cbv [negb].
  2: { wp_step. apply payload_refused; [done|]. intros ((_ & _ & Hv) & _).
       apply not_true_iff_false in E4. apply E4. apply forallb_forall.
       rewrite list.Forall_forall in Hv. intros f Hf. apply Hv. by apply list_elem_of_In. }
  assert (payload_valid payload) as Hvalid.
  { split; [done|]. split; [lia|]. rewrite forallb_forall in E4. apply list.Forall_forall.
    intros f Hf. apply E4. by apply list_elem_of_In. }
  destruct (payload_frames payload) as [|f [|f2 fs]] eqn:Hfs.
  - exfalso. pose proof (frames_of_length (Z.to_nat (zlen payload / 48)) payload) as Hl.
    unfold payload_frames in Hfs. rewrite Hfs in Hl. simpl in Hl. lia.
  - destruct (Z.eqb_spec (pd_type f) 1) as [Ht|Ht].
    { eapply wp_mono; [apply normal_spec; [by eapply held_below_mono; [|exact Hb]; lia | done |]|].
      { by apply list.Forall_cons in Hpw as [? _]. }
      intros r w' [Hd Hr]. split; [exact Hd|].
      destruct Hr as [(-> & Hacc & Ha) | (Hr & Hna & Hbufs)]; [left | right].
      - split; [done|]. split; [split; [done|]; left; by exists f|]. left. by exists f.
      - split; [done|]. split; [|done]. intros (_ & [(g & [Hg _] & Hacc) | (Hall & _)]).
        + rewrite Hfs in Hg. injection Hg as ->. done.
        + unfold all_broadcast in Hall. rewrite Hfs in Hall. apply list.Forall_cons in Hall as [Ht2 _]. lia. }
    destruct (Z.eqb_spec (pd_type f) 2) as [Ht2|Ht2].
    { rewrite <- Hfs. rewrite <- Hfs in Hpw. apply broadcast_spec; try done.
      unfold all_broadcast. rewrite Hfs. by constructor. }
    wp_step. apply payload_refused; [done|]. intros (_ & [(g & [Hg Hgt] & _) | (Hall & _)]).
    + rewrite Hfs in Hg. injection Hg as ->. done.
    + unfold all_broadcast in Hall. rewrite Hfs in Hall. by apply list.Forall_cons in Hall as [? _].
  - rewrite <- Hfs. rewrite <- Hfs in Hpw.
    destruct (forallb (fun f => pd_type f =? 2) (payload_frames payload)) eqn:E5; cbv [negb].
    + apply broadcast_spec; try done. unfold all_broadcast.
      rewrite forallb_forall in E5. apply list.Forall_forall. intros g Hg.
      apply Z.eqb_eq, E5. by apply list_elem_of_In.
    + wp_step. apply payload_refused; [done|]. intros (_ & [(g & [Hg Hgt] & _) | (Hall & _)]); [congruence|].
      apply not_true_iff_false in E5. apply E5. apply forallb_forall. intros g Hg.
      apply Z.eqb_eq. unfold all_broadcast in Hall. rewrite list.Forall_forall in Hall.
      apply Hall. by apply list_elem_of_In.
Qed.

(** C14. Payloads of frames: a payload is queued whole or not at all.  It is
    queued exactly when it consists of 1 to 128 valid frames and is either one
    normal frame for a configured channel with room, or frames that are all
    broadcast frames for a channel whose group queue takes them; then exactly
    one element, the frame or the group of all frames in their order, is
    appended to exactly that queue.  One invalid frame refuses the payload and
    leaves every buffer as it was. *)
Theorem payload_all_or_nothing payload ch w :
  held_below 2 w -> world_wf w -> 0 <= ch ->
  exists r w', process_9012_can_payload_frames payload ch w = Some (r, w') /\ world_wf w' /\
    dl_frame w w' /\
    (r = 0 /\ payload_accepted payload ch w /\
       payload = payload_frames payload ≫= pack /\
       ((exists f, single_normal payload f /\ appended Data (pd_ch_id f) (pack f) w w') \/
        all_broadcast payload /\
        appended BcastGroup ch (group_pack (make_group (next_id w) (payload_frames payload))) w w')
     \/ r <> 0 /\ ~ payload_accepted payload ch w /\ w_bufs w' = w_bufs w).
Proof.
  intros Hb Hwf Hch. pose proof (process_frames_spec payload ch w Hb Hwf Hch) as Hs.
  apply wp_exec in Hs as (r & w' & Hrun & Hd & Hr). exists r, w'.
  split; [done|]. split; [by apply (dl_wf _ _ Hd)|]. split; [done|].
  destruct Hr as [(Hr & Hacc & Hq) | Hr]; [left | by right].
  split; [done|]. split; [done|]. split; [|done]. destruct Hacc as [(Hm & Hn & _) _].
  apply frames_of_pack. pose proof (Z.div_mod (zlen payload) 48 ltac:(lia)).
  unfold zlen in *. lia.
Qed.
End Frames.

(** ** The other payloads and the batch *)

Section Batch.
Context `{OS}.
#[local] Open Scope c_scope.

(** A classified payload is long enough for the buffer of its type. *)
Definition classified (payload : bytes) (c : option (Z * DataType)) : Prop :=
  match c with
  | None => True
  | Some (ch, t) => 0 <= ch /\
      match target_buf t with
      | Some n => ch < 32 /\ buf_esize n <= zlen payload /\
          new_ok n [take (Z.to_nat (buf_esize n)) payload]
      | None => True
      end
  end.

Lemma classify_can_spec payload w :
  world_wf w -> wp (classify_can payload) (fun c w' => w' = w /\ classified payload c) w.
Proof.
  intros Hwf. unfold classify_can. change (sizeof PC_ARM_DATA_DATA) with 48. cbv zeta.
  destruct (Z.ltb_spec (zlen payload) 48) as [|Hl]; [by wp_step|].
  wp_step. apply wp_cast; [done|].
  pose proof (param_wf (A := PC_ARM_DATA_DATA) payload Hl) as Hpw.
  set (hdr := unpack payload : PC_ARM_DATA_DATA) in *.
  pose proof (frame_id_nonneg hdr Hpw) as Hid.
  destruct (_ || _)%bool eqn:Hlen; [by wp_step|].
  destruct (negb (pd_head hdr =? PC_STATUS_HEAD)); [by wp_step|].
  apply orb_false_iff in Hlen as [Hlen _]. apply orb_false_iff in Hlen as [H1 H2]. bool_prop.
  wp_step. rewrite mem_read_ok by lia. eapply wp_of_option; [done|].
  destruct (negb _); [by wp_step|].
  destruct (pd_ch_id hdr >=? AXICAN_MAX) eqn:Hge; [by wp_step|]. unfold AXICAN_MAX in Hge. bool_prop.
  destruct (config_lookup (pd_ch_id hdr) w Hwf) as (c & Hc & _); [lia|].
  wp_step. eapply wp_arr_get; [done | exact Hc |]. destruct (cf_valid c =? 0); wp_step; [done|].
  split; [done|]. cbn [classified target_buf]. change (buf_esize Data) with 48.
  split_and!; [lia | lia | lia | by apply new_ok_other].
Qed.

Lemma classify_simulator_spec payload w :
  world_wf w -> wp (classify_simulator payload) (fun c w' => w' = w /\ classified payload c) w.
Proof.
  intros Hwf. unfold classify_simulator.
  destruct (Z.ltb_spec (zlen payload) (sizeof PC_ARM_SIMULATOR_DATA)) as [|Hl]; [by wp_step|].
  wp_step. apply wp_cast; [done|].
  pose proof (param_wf (A := PC_ARM_SIMULATOR_DATA) payload Hl) as Hpw.
  set (sim := unpack payload : PC_ARM_SIMULATOR_DATA) in *.
  change (PC_ARM_SIMULATOR_DATA_wf sim) in Hpw. unfold PC_ARM_SIMULATOR_DATA_wf in Hpw.
  destruct_and! Hpw. wp_step. wp_step.
  destruct (ww_bufs _ Hwf Simulator) as (_ & Hm & _). simpl in Hm. rewrite Hm.
  destruct (_ || _)%bool eqn:Hch; [by wp_step|]. apply orb_false_iff in Hch as [Hch Hsl]. bool_prop.
  destruct (negb (sd_head sim =? PC_STATUS_HEAD)) eqn:Hh; wp_step; [done|]. bool_prop.
  split; [done|]. cbn [classified target_buf]. unfold in_range in *.
  change (buf_esize Simulator) with 288. change (sizeof PC_ARM_SIMULATOR_DATA) with 288 in *.
  split_and!; [lia | lia | lia |]. split; [by intros [?|?]|]. intros _. constructor; [|constructor].
  assert (unpack (take (Z.to_nat 288) payload) = sim) as Hu
    by exact (unpack_take (A := PC_ARM_SIMULATOR_DATA) payload).
  split; [change (sizeof PC_ARM_SIMULATOR_DATA) with 288; zlia|]. cbv zeta. rewrite Hu. lia.
Qed.

Lemma classify_spec command payload w :
  world_wf w -> wp (classify command payload) (fun c w' => w' = w /\ classified payload c) w.
Proof.
  intros Hwf. unfold classify.
  destruct (_ =? _); [by apply classify_can_spec|].
  destruct (_ =? _); [by apply classify_simulator_spec|].
  destruct (_ =? _).
  { unfold classify_pulse. wp_step. split; [done|].
    destruct (Z.ltb_spec (zlen payload) (sizeof SecondPulseData)); [done|].
    split; [done|]. split_and!; [done | done | by apply new_ok_other]. }
  destruct (_ =? _); [|by wp_step].
  unfold classify_dma.
  destruct (Z.ltb_spec (zlen payload) (sizeof PC_DMA_DATA)) as [|Hl]; [by wp_step|].
  wp_step. apply wp_cast; [done|]. wp_step. split; [done|]. simpl.
  pose proof (param_wf (A := PC_DMA_DATA) payload Hl) as Hpw.
  change (PC_DMA_DATA_wf (unpack payload)) in Hpw. unfold PC_DMA_DATA_wf, in_range in Hpw. lia.
Qed.

Lemma buf_chan_ok_download n ch :
  n <> CanQueue -> n <> PollQueue -> n <> BcastGroup -> ch < 32 -> buf_chan_ok n ch 32 = true.
Proof. intros. unfold buf_chan_ok. apply andb_true_iff. destruct n; simpl; try done; lia. Qed.

(** An element of a type with a buffer is queued when there is room. *)
Lemma enqueue_data_spec t ch payload w :
  held_below 6 w -> world_wf w -> classified payload (Some (ch, t)) ->
  wp (enqueue_data t ch payload) (fun _ w' => dl_frame w w' /\
    match target_buf t with
    | Some n =>
      if decide (zlen (buf_queue n ch (w_bufs w)) < buf_depth n)
      then appended n ch (take (Z.to_nat (buf_esize n)) payload) w w'
      else w_bufs w' = w_bufs w
    | None => w_bufs w' = w_bufs w
    end) w.
Proof.
  intros Hb Hwf [Hch Hcl]. unfold enqueue_data.
  destruct (target_buf t) as [n|] eqn:Ht; [|by wp_step].
  assert (n <> CanQueue /\ n <> PollQueue /\ n <> BcastGroup) as (H1 & H2 & H3).
  { by destruct t; simplify_eq/=. }
  destruct Hcl as (Hc32 & Hes & Hnew).
  assert (buf_chans n = 32) as Hn by (by destruct n).
  wp_step. apply wp_buf_avail; [apply Hwf | done |]. rewrite buf_chan_ok_download by (done || lia).
  pose proof (buf_queue_bound n ch (w_bufs w) (ww_bufs _ Hwf) ltac:(lia)) as Hbd.
  destruct (Z.eqb_spec (buf_depth n - zlen (buf_queue n ch (w_bufs w))) 0) as [Hz|Hnz].
  - apply wp_error_event; [done|]. split; [apply net_only_dl_frame, net_only_err|].
    rewrite decide_False by lia. apply (no_bufs _ _ (net_only_err _ _)).
  - wp_step. apply wp_put_room; [done | done | done | lia | lia | lia |].
    intros w' Ha Hd. wp_step. split; [done|]. by rewrite decide_True by lia.
Qed.

Lemma download_packet_frame req payload w :
  held_below 2 w -> world_wf w -> is_u32 (dq_channel req) ->
  wp (download_packet req payload) (fun _ w' => dl_frame w w') w.
Proof.
  intros Hb Hwf Hch. unfold download_packet. cbv zeta.
  destruct (_ && _)%bool.
  - wp_step. eapply wp_mono; [apply process_frames_spec; [done | done |]|].
    { apply (reverse_4bytes_range _ Hch). }
    intros r w' [Hd _]. by wp_step.
  - wp_step. eapply wp_mono; [by apply classify_spec|].
    intros [[ch t]|] w' [-> Hcl]; [|by wp_step].
    eapply wp_mono; [apply enqueue_data_spec; [by eapply held_below_mono; [|exact Hb]; lia | done..]|].
    by intros [] w' [Hd _].
Qed.
End Batch.

(** ** The batch *)

Definition download_payload (buffer : bytes) : Z :=
  reverse_4bytes (dq_data_len (unpack buffer)).

Definition download_header_ok (buffer : bytes) : bool :=
  (reverse_4bytes (dq_sync_word (unpack buffer)) =? PC_ARM_DATA_WORD) &&
  (dq_checksum (unpack buffer) =? calculate_xor_checksum buffer 12) &&
  (download_payload buffer <=? stream_size - 20).

#[export] Instance download_header : Header 20 download_header_ok download_payload.
Proof.
  split; [done | |].
  - intros a b Ha. unfold download_header_ok, download_payload.
    rewrite (unpack_app (A := DATA_ReqPacket)) by done.
    by rewrite calculate_xor_checksum_app by (unfold zlen in Ha; lia).
  - intros a Ha.
    pose proof (param_wf (A := DATA_ReqPacket) a Ha : DATA_ReqPacket_wf (unpack a)) as (_ & Hl & _).
    pose proof (reverse_4bytes_range _ Hl) as Hr. apply Hr.
Qed.

Definition download_judge : bytes -> verdict := header_judge 20 download_header_ok download_payload.

#[export] Instance download_framing : Framing download_judge := header_framing _ _ _ _.

Lemma download_wait_len rest : download_judge rest = Wait -> zlen rest < stream_size.
Proof.
  unfold download_judge, header_judge, download_header_ok.
  destruct (Z.ltb_spec (zlen rest) 20); [intros _; unfold stream_size, BUFFER_SIZE_1; lia|].
  destruct (_ =? PC_ARM_DATA_WORD); [simpl|done]. destruct (_ =? calculate_xor_checksum _ _); [simpl|done].
  destruct (Z.leb_spec (download_payload rest) (stream_size - 20)); [simpl|done].
  destruct (Z.ltb_spec (zlen rest) (20 + download_payload rest)); [lia | done].
Qed.

Section Stream.
Context `{OS}.
#[local] Open Scope c_scope.

Definition download_handle (packet : bytes) : M world unit :=
  download_packet (unpack packet) (drop 20 packet).

Lemma download_loop_frames f buffer w :
  download_loop f buffer w = frame_loop download_judge download_handle f buffer w.
Proof.
  revert buffer w. induction f as [|f IH]; intros buffer w; [done|].
  cbn [download_loop frame_loop]. unfold download_judge at 1, header_judge, download_header_ok.
  change (sizeof DATA_ReqPacket) with 20. cbv zeta. fold (download_payload buffer).
  rewrite Z.leb_antisym, negb_involutive.
  destruct (Z.ltb_spec (zlen buffer) 20) as [|Hl]; [done|].
  destruct (_ =? PC_ARM_DATA_WORD); [simpl | apply IH].
  destruct (_ =? calculate_xor_checksum _ _); [simpl | apply IH].
  rewrite Z.gtb_ltb, Z.ltb_antisym.
  destruct (Z.leb_spec (download_payload buffer) (stream_size - 20)) as [|Hbig]; [simpl | apply IH].
  rewrite Z.gtb_ltb.
  destruct (Z.ltb_spec (zlen buffer) (20 + download_payload buffer)) as [|Hn]; [done|].
  pose proof (header_plen (plen := download_payload) buffer Hl) as Hpos.
  rewrite mem_read_ok by lia. set (n := Z.to_nat (20 + _)).
  assert (20 <= n <= length buffer)%nat by (unfold zlen in *; lia).
  unfold download_handle. rewrite <- (unpack_app (A := DATA_ReqPacket) (take n buffer) (drop n buffer)).
  2: { unfold zlen. rewrite length_take. change (sizeof DATA_ReqPacket) with 20. lia. }
  rewrite take_drop, skipn_firstn_comm. unfold slice.
  replace (n - 20)%nat with (Z.to_nat (download_payload buffer)) by lia.
  unfold of_option. rewrite bind_ret_l.
  unfold bind. destruct (download_packet _ _ w) as [[[] w1]|]; [apply IH | done].
Qed.

Lemma dl_frame_keeps n w w' : dl_frame w w' -> held_below n w -> world_wf w ->
  held_below n w' /\ world_wf w'.
Proof.
  intros Hd Hb Hwf. split; [eapply held_below_eq; [apply (dl_held _ _ Hd) | done] | by apply (dl_wf _ _ Hd)].
Qed.

Lemma download_loop_safe f buffer w :
  held_below 2 w -> world_wf w -> (length buffer < f)%nat ->
  wp (download_loop f buffer) (fun rest w' => download_judge rest = Wait /\ dl_frame w w') w.
Proof.
  intros Hb Hwf Hf. unfold wp. rewrite download_loop_frames.
  eapply wp_mono; [apply (frame_loop_safe _ _ (fun w => held_below 2 w /\ world_wf w) dl_frame)|].
  - intros w1 w2 [Hb1 Hwf1] Hd. by apply (dl_frame_keeps 2 w1).
  - intros p w1 Hp [Hb1 Hwf1]. apply download_packet_frame; [done..|].
    apply header_judge_packet in Hp as [H20 _]; [|apply _].
    pose proof (param_wf (A := DATA_ReqPacket) p H20 : DATA_ReqPacket_wf (unpack p)) as Hpw.
    unfold DATA_ReqPacket_wf in Hpw. by destruct_and! Hpw.
  - done.
  - done.
  - by intros rest w' (Hr & _ & Hd).
Qed.

Lemma download_loop_app f f' a b w :
  (length a < f)%nat -> (length (a ++ b) < f')%nat ->
  download_loop f' (a ++ b) w =
    (let* r := download_loop f a in download_loop (S (length (r ++ b))) (r ++ b)) w.
Proof.
  intros Hf Hf'. rewrite download_loop_frames, (frame_loop_app _ _ f) by done. unfold bind.
  rewrite download_loop_frames. destruct (frame_loop _ _ f a w) as [[r w1]|]; [|done].
  by rewrite download_loop_frames.
Qed.

(** The state while a batch of [sock] is processed. *)
Definition processing (w : world) : world := set_held [download_process_mutex] w.

Lemma processing_wf w : world_wf w -> world_wf (processing w).
Proof. intros []. by split. Qed.

Lemma processing_below w : held_below 2 (processing w).
Proof. constructor; [simpl; lia | constructor]. Qed.

(** One turn of a connection. *)
Lemma download_turn_eq sock used chunk w :
  w_held w = [] -> zlen used + zlen chunk <= stream_size -> world_wf w ->
  download_turn sock used chunk w =
    if data_download_socket w =? sock then
      (let* r := download_loop (S (length (used ++ chunk))) (used ++ chunk) in
       modify (set_held []) ;; ret (Some r)) (processing w)
    else Some (None, w).
Proof.
  intros Hh Hl Hwf. unfold download_turn. rewrite (proj2 (Z.leb_le _ _)) by done.
  change (ensure true) with (ret (S := world) tt). rewrite bind_ret_l.
  unfold bind at 1. rewrite mutex_lock_eq by by rewrite Hh.
  unfold bind at 1. rewrite mutex_lock_eq by by (simpl; rewrite Hh).
  unfold bind at 1, gets. cbv zeta.
  unfold bind at 1. rewrite (mutex_unlock_eq _ (download_process_mutex :: w_held w)) by done.
  change (set_held (download_process_mutex :: w_held w) _) with (set_held (download_process_mutex :: w_held w) w).
  rewrite Hh. fold (processing w). change (data_download_socket (set_held _ _)) with (data_download_socket w).
  destruct (data_download_socket w =? sock).
  - unfold process_download_data_batch. rewrite zlen_app.
    assert ((zlen used + zlen chunk >? stream_size) = false) as -> by lia.
    rewrite bind_assoc. unfold bind at 1.
    pose proof (download_loop_safe (S (length (used ++ chunk))) (used ++ chunk) (processing w)
      (processing_below w) (processing_wf w Hwf) ltac:(lia)) as Hs.
    apply wp_exec in Hs as (r & w1 & Hr & _ & Hd). unfold bind. rewrite Hr.
    unfold ret at 1. rewrite (mutex_unlock_eq _ []); [done|]. apply (dl_held _ _ Hd).
  - unfold bind, ret at 1. rewrite (mutex_unlock_eq _ []) by done. unfold ret.
    unfold processing. by destruct w; simpl in *; subst.
Qed.
End Stream.

(** ** Connections *)

Section Connections.
Context `{OS}.
#[local] Open Scope c_scope.

Lemma processed_frame w w1 :
  w_held w = [] -> dl_frame (processing w) w1 -> dl_frame w (set_held [] w1).
Proof.
  intros Hh [Hwf Hheld Hc Ha Hd Hs Hap He]. split; try done.
  intros Hw. pose proof (Hwf (processing_wf w Hw)) as []. by split.
Qed.

Lemma download_turn_spec sock used chunk w :
  w_held w = [] -> zlen used + zlen chunk <= stream_size -> world_wf w ->
  wp (download_turn sock used chunk) (fun o w' => dl_frame w w' /\
    match o with
    | Some rest => data_download_socket w = sock /\ download_judge rest = Wait
    | None => data_download_socket w <> sock /\ w' = w
    end) w.
Proof.
  intros Hh Hl Hwf. unfold wp. rewrite download_turn_eq by done.
  destruct (Z.eqb_spec (data_download_socket w) sock) as [Hs|Hs]; [|done].
  change (wp (let* r := download_loop (S (length (used ++ chunk))) (used ++ chunk) in
       modify (set_held []) ;; ret (Some r)) (fun o w' => dl_frame w w' /\
    match o with
    | Some rest => data_download_socket w = sock /\ download_judge rest = Wait
    | None => data_download_socket w <> sock /\ w' = w
    end) (processing w)).
  wp_step. eapply wp_mono; [apply download_loop_safe; [apply processing_below | by apply processing_wf | lia]|].
  intros rest w1 [Hr Hd]. wp_step. wp_step. wp_step. split; [by apply processed_frame|]. done.
Qed.

(** The receive: never more than the room. *)
Definition received (n : Z) (used stream : bytes) : nat :=
  let space := stream_size - zlen used in
  Z.to_nat (Z.min n (if space <? BUFFER_SIZE_1 then space else BUFFER_SIZE_1)).

Lemma received_fits n used stream :
  download_judge used = Wait -> zlen used + zlen (take (received n used stream) stream) <= stream_size.
Proof.
  intros Hw. pose proof (download_wait_len _ Hw). unfold received. cbv zeta.
  unfold zlen in *. rewrite length_take. destruct (Z.ltb_spec (stream_size - Z.of_nat (length used)) BUFFER_SIZE_1); lia.
Qed.

Lemma receive_loop_safe answers sock used stream w :
  w_held w = [] -> world_wf w -> download_judge used = Wait ->
  wp (download_receive_loop answers sock used stream) (fun _ w' => dl_frame w w') w.
Proof.
  revert used stream w. induction answers as [|[n| |] answers IH];
    intros used stream w Hh Hwf Hw; cbn [download_receive_loop]; [by wp_step | | by apply IH | by wp_step].
  cbv zeta. destruct (_ =? 0); [by wp_step|]. fold (received n used stream).
  destruct (_ =? 0); [by wp_step|]. wp_step.
  eapply wp_mono; [apply download_turn_spec; [done | by apply received_fits | done]|].
  intros [rest|] w1 [Hd Hr]; [|by wp_step].
  eapply wp_mono; [apply IH; [by rewrite (dl_held _ _ Hd) | by apply (dl_wf _ _ Hd) | apply Hr]|].
  intros [] w2 Hd2. by etransitivity.
Qed.

(** What one connection, from open to close, may change of the queues. *)
Definition queues_grow (w w' : world) : Prop :=
  forall n ch, 0 <= ch -> exists new, buf_queue n ch (w_bufs w') = buf_queue n ch (w_bufs w) ++ new /\
    new_ok n new.

(** [dl_frame] without the socket of the connection. *)
Definition conn_frame (w w' : world) : Prop :=
  exists v, dl_frame (set_data_download_socket v w) w'.

Lemma set_download_wf v w : world_wf w -> world_wf (set_data_download_socket v w).
Proof. intros []. by split. Qed.

Lemma set_download_frame v w w' :
  dl_frame w w' -> dl_frame (set_data_download_socket v w) (set_data_download_socket v w').
Proof.
  intros [Hwf Hh Hc Ha Hd Hs Hap He]. split; try done.
  intros Hw. apply set_download_wf, Hwf. by destruct Hw.
Qed.

Lemma conn_frame_later w w1 w2 : conn_frame w w1 -> dl_frame w1 w2 -> conn_frame w w2.
Proof. intros [v H1] H2. exists v. by etransitivity. Qed.

Lemma conn_frame_set w w1 v : conn_frame w w1 -> conn_frame w (set_data_download_socket v w1).
Proof.
  intros [u H1]. exists v. apply (set_download_frame v) in H1. by destruct w.
Qed.

Lemma conn_frame_refl w : conn_frame w w.
Proof. exists (data_download_socket w). by destruct w. Qed.

Lemma conn_frame_keeps w w' : conn_frame w w' ->
  (world_wf w -> world_wf w') /\ w_held w' = w_held w /\ w_configs w' = w_configs w /\
  queues_grow w w' /\ sched_kept w w'.
Proof.
  intros [v [Hwf Hh Hc Ha Hd Hs Hap He]]. split_and!; try done.
  intros Hw. by apply Hwf, set_download_wf.
Qed.

Lemma download_open_spec sock w :
  w_held w = [] ->
  wp (download_open sock) (fun _ w' =>
    w' = set_data_download_socket sock
           (if data_download_socket w =? -1 then w
            else add_call (SysShutdown (data_download_socket w)) w)) w.
Proof.
  intros Hh. unfold download_open.
  wp_step. apply wp_lock; [by rewrite Hh|]. wp_step. apply wp_lock; [simpl; by rewrite Hh|].
  wp_step. wp_step. simpl. wp_step.
  apply (wp_mono _ (fun _ w1 => w1 = set_held [data_download_mutex; download_process_mutex]
    (if data_download_socket w =? -1 then w else add_call (SysShutdown (data_download_socket w)) w))).
  { apply wp_when; intros Hz; bool_prop.
    - wp_step. apply wp_sys. wp_step. rewrite (proj2 (Z.eqb_neq _ _) Hz), Hh. done.
    - rewrite (proj2 (Z.eqb_eq _ _) Hz), Hh. done. }
  intros [] w1 ->. wp_step. wp_step. wp_step. eapply wp_unlock; [done|]. eapply wp_unlock; [done|].
  destruct (_ =? -1); destruct w; simpl in *; by subst.
Qed.

Lemma download_close_spec sock w :
  w_held w = [] ->
  wp (download_close sock) (fun _ w' =>
    w' = if data_download_socket w =? sock then set_data_download_socket (-1) w else w) w.
Proof.
  intros Hh. unfold download_close.
  wp_step. apply wp_lock; [by rewrite Hh|]. wp_step. wp_step. simpl. wp_step.
  apply wp_when; intros Hz; rewrite Hz.
  - wp_step. eapply wp_unlock; [done|]. destruct w; simpl in *; by subst.
  - eapply wp_unlock; [done|]. destruct w; simpl in *; by subst.
Qed.

(** C15. Safety of the download port: whatever a client sends, in whatever
    pieces, a connection from open to close is never stuck: it reads no byte
    outside a packet or outside the payload the header declares, writes no
    byte outside its buffer, takes and releases the mutexes in order, keeps the
    state well formed, only appends to the download queues, leaves the receive
    queues alone, queues no simulator answer whose data do not fit into its
    array, and withdraws its socket at the end. *)
Theorem download_port_safe answers sock stream w :
  w_held w = [] -> world_wf w -> sock <> -1 ->
  exists w', tcp_client_handler_9012 answers sock stream w = Some (tt, w') /\
    world_wf w' /\ w_held w' = [] /\ w_configs w' = w_configs w /\ queues_grow w w' /\
    sched_kept w w' /\ (data_download_socket w <> sock -> data_download_socket w' <> sock).
Proof.
  intros Hh Hwf Hsock.
  enough (wp (tcp_client_handler_9012 answers sock stream) (fun _ w' => conn_frame w w' /\
    (data_download_socket w <> sock -> data_download_socket w' <> sock)) w) as Hwp.
  { apply wp_exec in Hwp as ([] & w' & Hrun & Hf & Hs). exists w'.
    destruct (conn_frame_keeps _ _ Hf) as (H1 & H2 & H3 & H4 & H5).
    split; [done|]. split; [by apply H1|]. split; [by rewrite H2|]. by split_and!. }
  unfold tcp_client_handler_9012. wp_step. apply wp_sys.
  assert (forall c w1, conn_frame w w1 -> conn_frame w (add_call c w1)) as Hcall.
  { intros c w1 Hf. eapply conn_frame_later; [exact Hf | apply net_only_dl_frame, net_only_add_call]. }
  pose proof (Hcall (SysMalloc sizeof_DownloadStream) w (conn_frame_refl w)) as H1.
  set (w1 := add_call _ w) in *. destruct (_ =? 0); [by wp_step|].
  wp_step. eapply wp_mono; [by apply download_open_spec|]. intros [] w2 ->.
  set (w2 := set_data_download_socket sock _).
  assert (conn_frame w w2) as H2.
  { apply conn_frame_set. case_match; [done | by apply Hcall]. }
  destruct (conn_frame_keeps _ _ H2) as (Hw2 & Hh2 & _).
  wp_step. eapply wp_mono; [apply receive_loop_safe; [by rewrite Hh2 | by apply Hw2 | done]|].
  intros [] w3 Hd. pose proof (conn_frame_later _ _ _ H2 Hd) as H3.
  destruct (conn_frame_keeps _ _ H3) as (_ & Hh3 & _).
  wp_step. eapply wp_mono; [apply download_close_spec; by rewrite Hh3|]. intros [] w4 ->.
  wp_step. apply wp_sys. wp_step. split.
  - apply Hcall. case_match; [by apply conn_frame_set | done].
  - intros _. destruct (Z.eqb_spec (data_download_socket w3) sock); simpl; [|done]. lia.
Qed.

Lemma processing_back w1 : w_held w1 = [download_process_mutex] -> processing (set_held [] w1) = w1.
Proof. unfold processing. intros Hh. by destruct w1; simpl in *; subst. Qed.

Lemma receive_whole answers sock used stream w :
  w_held w = [] -> world_wf w -> data_download_socket w = sock -> download_judge used = Wait ->
  Forall delivering answers -> (length stream <= sum_list_with takes answers)%nat ->
  download_receive_loop answers sock used stream w =
    (let* _ := download_loop (S (length (used ++ stream))) (used ++ stream) in
     modify (set_held [])) (processing w).
Proof.
  assert (forall used w, w_held w = [] -> download_judge used = Wait ->
    Some (tt, w) = (let* _ := download_loop (S (length (used ++ []))) (used ++ []) in
      modify (set_held [])) (processing w)) as Hnil.
  { intros u w0 Hh0 Hw0. rewrite app_nil_r. unfold bind. rewrite download_loop_frames. cbn [frame_loop].
    rewrite Hw0. unfold ret, modify, processing. by destruct w0; simpl in *; subst. }
  intros Hh Hwf Hs Hw Hd. revert used stream w Hh Hwf Hs Hw.
  induction Hd as [|a answers Ha _ IH]; intros used stream w Hh Hwf Hs Hw Hl.
  { destruct stream; simpl in Hl; [by apply Hnil | lia]. }
  destruct a as [n| |]; cbn [download_receive_loop]; [| by apply IH | done].
  simpl in Ha. pose proof (download_wait_len _ Hw) as Hroom. cbv zeta.
  rewrite (proj2 (Z.eqb_neq _ _)) by lia. fold (received n used stream).
  assert (1 <= received n used stream)%nat as Hk.
  { unfold received, BUFFER_SIZE_1. cbv zeta. case_match; lia. }
  pose proof (received_fits n used stream Hw) as Hfit.
  set (k := received n used stream) in *.
  destruct (Z.eqb_spec (zlen (take k stream)) 0) as [Hz|Hz].
  { destruct stream; [by apply Hnil|]. exfalso. unfold zlen in Hz. rewrite length_take in Hz.
    simpl length in Hz. lia. }
  unfold bind at 1. rewrite download_turn_eq by done. rewrite (proj2 (Z.eqb_eq _ _) Hs). unfold bind.
  pose proof (download_loop_app (S (length (used ++ take k stream))) (S (length (used ++ stream)))
    (used ++ take k stream) (drop k stream) (processing w)) as Happ.
  rewrite <- app_assoc, take_drop in Happ. specialize (Happ ltac:(lia) ltac:(lia)).
  unfold bind in Happ. rewrite Happ.
  pose proof (download_loop_safe (S (length (used ++ take k stream))) (used ++ take k stream)
    (processing w) (processing_below w) (processing_wf w Hwf) ltac:(lia)) as Hsafe.
  apply wp_exec in Hsafe as (r & w1 & Hr & Hw1 & Hd1).
  rewrite Hr. unfold modify at 1, ret at 1.
  pose proof (processed_frame _ _ Hh Hd1) as Hd2.
  rewrite IH; [| done | by apply (dl_wf _ _ Hd2) | by rewrite (dl_download _ _ Hd2) | done |].
  - by rewrite processing_back by apply (dl_held _ _ Hd1).
  - rewrite length_drop. simpl in Hl. lia.
Qed.

(** C33. Segmentation of downloads: a client that stays the current one has
    its whole stream processed, and what is queued, reported and kept is what
    one pass over the whole stream gives, however the network cuts it and
    however much larger than the buffer it is. *)
Theorem download_segmentation answers sock stream w :
  w_held w = [] -> world_wf w -> data_download_socket w = sock ->
  Forall delivering answers -> (length stream <= sum_list_with takes answers)%nat ->
  exists rest w', download_loop (S (length stream)) stream (processing w) = Some (rest, w') /\
    download_receive_loop answers sock [] stream w = Some (tt, set_held [] w').
Proof.
  intros Hh Hwf Hs Hd Hl.
  pose proof (receive_whole answers sock [] stream w Hh Hwf Hs eq_refl Hd Hl) as Hw.
  pose proof (download_loop_safe (S (length stream)) stream (processing w) (processing_below w)
    (processing_wf w Hwf) ltac:(lia)) as Hsafe.
  apply wp_exec in Hsafe as (rest & w' & Hr & _). exists rest, w'. split; [exact Hr|].
  rewrite Hw. unfold bind. rewrite app_nil_l, Hr. done.
Qed.

(** ** Interleaved connections

    Each transaction on the download socket is one step; the steps of the other
    threads may withdraw the socket but not set it. *)
Inductive dl_label := DOpen (sock : Z) | DTurn (sock : Z) | DClose (sock : Z) | DOther.

Inductive dl_step : world -> dl_label -> world -> Prop :=
  | dl_step_open s w w' : s <> -1 -> download_open s w = Some (tt, w') -> dl_step w (DOpen s) w'
  | dl_step_turn s used chunk o w w' :
      download_judge used = Wait -> zlen used + zlen chunk <= stream_size ->
      download_turn s used chunk w = Some (o, w') -> dl_step w (DTurn s) w'
  | dl_step_close s w w' : download_close s w = Some (tt, w') -> dl_step w (DClose s) w'
  | dl_step_other w w' :
      (world_wf w -> world_wf w') -> w_held w' = w_held w ->
      data_download_socket w' = data_download_socket w \/ data_download_socket w' = -1 ->
      dl_step w DOther w'.

Inductive dl_run : world -> list dl_label -> world -> Prop :=
  | dl_run_nil w : dl_run w [] w
  | dl_run_cons w l w1 ls w2 : dl_step w l w1 -> dl_run w1 ls w2 -> dl_run w (l :: ls) w2.

(** What a step keeps for a client that is not the current one. *)
Definition replaced (s : Z) (w : world) : Prop :=
  world_wf w /\ w_held w = [] /\ data_download_socket w <> s.

Lemma dl_step_replaced s w l w' :
  s <> -1 -> l <> DOpen s -> replaced s w -> dl_step w l w' -> replaced s w'.
Proof.
  intros Hs Hl (Hwf & Hh & Hd) Hstep. destruct Hstep as [s' w w' _ Hrun|s' used chunk o w w' Hw Hfit Hrun|s' w w' Hrun|w w' Hwf' Hh' Hd'].
  - pose proof (wp_result _ _ _ _ _ (download_open_spec s' w Hh) Hrun) as ->.
    assert (world_wf (if data_download_socket w =? -1 then w
              else add_call (SysShutdown (data_download_socket w)) w)) as Hwf1.
    { case_match; [done|]. eapply net_only_wf; [apply net_only_add_call | done]. }
    split; [by apply set_download_wf|]. split; [by case_match|]. simpl. congruence.
  - pose proof (wp_result _ _ _ _ _ (download_turn_spec s' used chunk w Hh Hfit Hwf) Hrun) as [Hf _].
    split; [by apply (dl_wf _ _ Hf)|]. rewrite (dl_held _ _ Hf), (dl_download _ _ Hf). done.
  - pose proof (wp_result _ _ _ _ _ (download_close_spec s' w Hh) Hrun) as ->.
    case_match; [|done]. split; [by apply set_download_wf|]. split; [done|]. simpl. lia.
  - split; [by apply Hwf'|]. split; [congruence|]. destruct Hd' as [->| ->]; [done | lia].
Qed.

(** C32. Replacement: once another client has opened the download port, a
    replaced client never queues a byte again, in any interleaving of turns,
    openings, closings and steps of the other threads in which it does not
    reconnect: each further turn of it changes nothing and ends it. *)
Theorem replaced_client_silent s s2 w0 w1 ls w :
  world_wf w0 -> w_held w0 = [] -> s <> -1 -> s2 <> s -> dl_step w0 (DOpen s2) w1 ->
  dl_run w1 ls w -> Forall (fun l => l <> DOpen s) ls ->
  forall used chunk, zlen used + zlen chunk <= stream_size ->
    download_turn s used chunk w = Some (None, w).
Proof.
  intros Hwf Hh Hs Hne Hopen Hrun Hls used chunk Hfit.
  assert (replaced s w1) as Hr.
  { inversion Hopen as [s' w' w'' _ Ho| | |]; subst.
    pose proof (wp_result _ _ _ _ _ (download_open_spec s2 w0 Hh) Ho) as ->.
    split; [apply set_download_wf; case_match; [done | eapply net_only_wf; [apply net_only_add_call | done]]|].
    split; [by case_match | done]. }
  clear Hopen Hwf Hh. revert Hr Hls. induction Hrun as [w|w l w1 ls w2 Hstep _ IH]; intros Hr Hls.
  - destruct Hr as (Hwf & Hh & Hd). rewrite download_turn_eq by done.
    by rewrite (proj2 (Z.eqb_neq _ _) Hd).
  - apply list.Forall_cons in Hls as [Hl Hls]. apply IH; [by eapply dl_step_replaced | done].
Qed.
End Connections.

(** ** Witnesses *)

(** A valid frame of a type, and the packet that carries frames. *)
Definition make_frame (type ch : Z) : PC_ARM_DATA_DATA :=
  let f x := {| pd_head := PC_STATUS_HEAD; pd_direction := 0; pd_type := type; pd_length := 48;
    pd_ch_id := ch; pd_total_count := 0; pd_ch_count := 0; pd_idr := 0x123; pd_drcr := 8;
    pd_dw1r := 1; pd_dw2r := 2; pd_packets_sum := 1; pd_packets_no := 1; pd_timestamp := 0;
    pd_xor_checksum := x |} in
  f (calculate_xor_checksum (pack (f 0)) 44).

Definition download_bytes (command channel : Z) (payload : bytes) : bytes :=
  let h x := {| dq_sync_word := reverse_4bytes PC_ARM_DATA_WORD;
    dq_data_len := reverse_4bytes (zlen payload); dq_counter := 0;
    dq_cmd_type := reverse_2bytes command; dq_checksum := x;
    dq_channel := reverse_4bytes channel |} in
  pack (h (calculate_xor_checksum (pack (h 0)) 12)) ++ payload.

Definition sample_download : bytes := download_bytes 1 3 (pack (make_frame 1 3)).

(** Every channel configured and a client on port 9012. *)
Definition downloading_world : world := set_data_download_socket 5 connected_world.

Lemma downloading_world_wf : world_wf downloading_world.
Proof. apply set_download_wf, connected_world_wf. Qed.

Lemma payload_all_or_nothing_witness :
  let payload := pack (make_frame 1 3) in
  exists w', process_9012_can_payload_frames (H := quiet_os) payload 3 downloading_world = Some (0, w') /\
    world_wf w' /\ appended Data 3 payload downloading_world w'.
Proof.
  intros payload.
  destruct (payload_all_or_nothing (H := quiet_os) payload 3 downloading_world)
    as (r & w' & Hrun & Hwf & _ & Hr); [apply boot_world_held | apply downloading_world_wf | done |].
  exists w'.
  assert (payload_frames payload = [make_frame 1 3]) as Hfs by (vm_compute; reflexivity).
  assert (payload_accepted (H := quiet_os) payload 3 downloading_world) as Hacc.
  { split; [split_and!; [by vm_compute | by vm_compute | by vm_compute |]|].
    - rewrite Hfs. constructor; [by vm_compute | constructor].
    - left. exists (make_frame 1 3). split; [split; [exact Hfs | done]|].
      split; [done|]. split; [eexists; split; [reflexivity | done]|].
      change (buf_queue Data _ (w_bufs downloading_world)) with (buf_queue Data 3 empty_buffers).
      by rewrite empty_buffers_queue. }
  destruct Hr as [(-> & _ & _ & [(f & [Hf _] & Ha) | (Hall & _)]) | (_ & Hna & _)]; [| |destruct (Hna Hacc)].
  - split; [exact Hrun|]. split; [exact Hwf|]. rewrite Hfs in Hf. injection Hf as <-. exact Ha.
  - exfalso. unfold all_broadcast in Hall. rewrite Hfs in Hall.
    apply list.Forall_cons in Hall as [Ht _]. discriminate Ht.
Defined.

Lemma download_port_safe_witness :
  exists w', tcp_client_handler_9012 (H := quiet_os) [RecvSome 30; RecvIntr; RecvSome 100] 5
      sample_download connected_world = Some (tt, w') /\
    world_wf w' /\ w_held w' = [] /\ queues_grow connected_world w'.
Proof.
  destruct (download_port_safe (H := quiet_os) [RecvSome 30; RecvIntr; RecvSome 100] 5
    sample_download connected_world) as (w' & Hrun & Hwf & Hh & _ & Hq & _);
    [reflexivity | apply connected_world_wf | done |].
  exists w'. exact (conj Hrun (conj Hwf (conj Hh Hq))).
Defined.

Lemma download_segmentation_witness :
  exists rest w', download_loop (H := quiet_os) (S (length sample_download)) sample_download
      (processing downloading_world) = Some (rest, w') /\
    download_receive_loop (H := quiet_os) (repeat (RecvSome 1) 68) 5 [] sample_download downloading_world =
      Some (tt, set_held [] w').
Proof.
  apply (download_segmentation (H := quiet_os));
    [reflexivity | apply downloading_world_wf | reflexivity | repeat constructor; done | vm_compute; lia].
Defined.

Lemma replaced_client_silent_witness :
  exists w1, dl_step (H := quiet_os) downloading_world (DOpen 6) w1 /\
    download_turn (H := quiet_os) 5 [] sample_download w1 = Some (None, w1).
Proof.
  destruct (proj1 (wp_exec _ _ _) (download_open_spec (H := quiet_os) 6 downloading_world eq_refl))
    as ([] & w1 & Hrun & _).
  assert (dl_step (H := quiet_os) downloading_world (DOpen 6) w1) as Hstep by (by constructor).
  exists w1. split; [exact Hstep|].
  apply (replaced_client_silent (H := quiet_os) 5 6 downloading_world w1 [] w1);
    [apply downloading_world_wf | reflexivity | done | done | exact Hstep | constructor | constructor
    | by vm_compute].
Defined.
