(* ===== verification/CanTx.v ===== *)
(** * Sending on the CAN channels
    ([src/main18.c], [send_single_frame], [ringbuffer_32ch_target_is_inited] and
    [axican_data_send_thread]).

    The thread of a channel takes one downloaded frame at a time.  A frame of a
    single packet is written at once; the packets of a longer message are kept
    until the message is complete, and then written one after the other.  The
    reassembly is a state machine of its own, [reassemble], that the thread
    refines; the theorems are about the thread: what it writes is complete
    messages ([written_messages_complete]), and a message that arrives whole
    and in time is written ([whole_message_written]). *)
From S2P Require Import Prelude Words Ring RingSet Layout World Upload Broadcast Commands.
From Stdlib Require Import (notations) String.

Definition DEQUEUE_BATCH_SIZE_1 : Z := 10.
Definition PACKET_TIMEOUT : Z := 1000.

(** A signed 32-bit counter on the target. *)
Definition s32 (z : Z) : Z := (z + 2 ^ 31) mod 2 ^ 32 - 2 ^ 31.

Lemma s32_small z : - 2 ^ 31 <= z < 2 ^ 31 -> s32 z = z.
Proof. intros Hz. unfold s32. rewrite Z.mod_small; lia. Qed.

(** [(current_time - last_receive_time) * 1000], on the target in a signed
    32-bit [time_t]. *)
Definition elapsed_ms (current_time last_receive_time : Z) : Z :=
  s32 (s32 (current_time - last_receive_time) * 1000).

Definition set_ax_w_count (v : Z) (a : axican) : axican :=
  mk_axican (ax_id a) (ax_rd_fd a) (ax_rd_flags a) (ax_wr_fd a) (ax_wr_flags a)
    (ax_rx_frame a) (ax_tx_frame a) (ax_count a) v.

Definition axican_upd (i : Z) (g : axican -> axican) : M world unit :=
  arr_upd w_axican set_axican i g.

Definition zero_payload : PC_ARM_DATA_DATA := mk_PC_ARM_DATA_DATA 0 0 0 0 0 0 0 0 0 0 0 0 0 0 0.

Record PacketBuffer := mk_packet {
  pb_frames : list PC_ARM_DATA_DATA; pb_total_packets : Z; pb_received_packets : Z;
  pb_is_active : bool; pb_last_receive_time : Z
}.

(** [memset(pkt_buf, 0, sizeof(PacketBuffer))] *)
Definition packet_zero : PacketBuffer :=
  mk_packet (replicate (Z.to_nat DEQUEUE_BATCH_SIZE_1) zero_payload) 0 0 false 0.

Section Send.
Context `{OS}.
#[local] Open Scope c_scope.

Definition tx_frame (frame : PC_ARM_DATA_DATA) (timestamp : Z) : axican_frame :=
  {| fr_can_id := pd_idr frame; fr_can_dlc := pd_drcr frame;
     fr_data0 := reverse_4bytes (pd_dw1r frame); fr_data1 := reverse_4bytes (pd_dw2r frame);
     fr_timestamp := timestamp |}.

Definition send_single_frame (id : Z) (curr_frame : PC_ARM_DATA_DATA) : M world unit :=
  let* (rc, sec, nsec) := clock_gettime false in
  let timestamp := if rc =? 0 then u64 (u64 sec * 1000 + nsec / 1000000) else 0 in
  let send_frame := tx_frame curr_frame timestamp in
  axican_upd id (fun a => set_ax_w_count (s32 (ax_w_count a + 1)) a) ;;
  mutex_lock (can_write_mutex id) ;;
  let* ax := arr_get w_axican id in
  let* rc := sys (SysWrite (ax_wr_fd ax) (pack send_frame)) in
  mutex_unlock (can_write_mutex id) ;;
  if negb (rc =? sizeof axican_frame) then
    send_can_transmit_response id 0x80 0 send_frame ;;
    error_event (str "CAN data send failed")
  else ret tt.

(** [None] is an access out of the bounds of the array of channels. *)
Definition ringbuffer_32ch_target_is_inited (set : option RingBuffer32ChSet)
    (target_ch expected_elem_size : Z) : option bool :=
  match set with
  | None => Some false
  | Some s =>
    if target_ch >=? 32 then Some false else
    if negb (elem_size s =? expected_elem_size) then Some false else
    chs ← channels s;
    p ← chs.2 !! Z.to_nat target_ch;
    match p with
    | None => Some false
    | Some (_, rb) =>
      match rb_data rb with
      | None => Some false
      | Some _ =>
        if negb (rb_esize rb =? expected_elem_size) then Some false else
        if u32 (rb_mask rb + 1) =? 0 then Some false else Some true
      end
    end
  end.

(** The frames of a complete message: [for (j = 0; j < total_packets; j++)]. *)
Fixpoint send_packets (n : nat) (j id : Z) (frames : list PC_ARM_DATA_DATA) : M world unit :=
  match n with
  | O => ret tt
  | S n' =>
    let* frame := of_option (frames !! Z.to_nat j) in
    send_single_frame id frame ;;
    send_packets n' (j + 1) id frames
  end.

(** One packet of a longer message, under [packet_mutex]. *)
Definition multi_packet (id : Z) (buf : PacketBuffer) (curr_frame : PC_ARM_DATA_DATA)
    : M world PacketBuffer :=
  let sequence := u8 (pd_packets_no curr_frame) in
  let total_packets := u8 (pd_packets_sum curr_frame) in
  mutex_lock packet_mutex ;;
  let* now := sys SysTime in
  let current_time := s32 now in
  let pkt_buf :=
    if pb_is_active buf && (elapsed_ms current_time (pb_last_receive_time buf) >? PACKET_TIMEOUT)
    then packet_zero else buf in
  if (sequence =? 0) && ((total_packets <=? 0) || (total_packets >? DEQUEUE_BATCH_SIZE_1))
  then mutex_unlock packet_mutex ;; ret pkt_buf else
  let pkt_buf :=
    if sequence =? 0
    then mk_packet (pb_frames packet_zero) total_packets 0 true 0 else pkt_buf in
  if negb (pb_is_active pkt_buf) || (sequence >=? pb_total_packets pkt_buf)
  then mutex_unlock packet_mutex ;; ret pkt_buf else
  if negb (sequence =? pb_received_packets pkt_buf)
  then mutex_unlock packet_mutex ;; ret packet_zero else
  ensure (Z.to_nat sequence <? length (pb_frames pkt_buf))%nat ;;
  let pkt_buf :=
    mk_packet (<[Z.to_nat sequence := curr_frame]> (pb_frames pkt_buf)) (pb_total_packets pkt_buf)
      (u8 (pb_received_packets pkt_buf + 1)) (pb_is_active pkt_buf) current_time in
  let* pkt_buf :=
    (if pb_received_packets pkt_buf =? pb_total_packets pkt_buf then
       send_packets (Z.to_nat (pb_total_packets pkt_buf)) 0 id (pb_frames pkt_buf) ;;
       ret packet_zero
     else ret pkt_buf) in
  mutex_unlock packet_mutex ;;
  ret pkt_buf.

(** One turn of [while (running)]; a turn that waits changes nothing. *)
Definition axican_data_send_turn (id : Z) (buf : PacketBuffer) : M world PacketBuffer :=
  let* cfg := config_at id in
  let* len := buf_len Data id 32 in
  if negb (bool_decide (cf_state cfg = CAN_STATE_OPENED)) || (len =? 0) then ret buf else
  let* (get_ret, curr) := buf_get Data id (replicate 48 x00) 32 in
  if negb (get_ret =? 1) then ret buf else
  let* curr_frame := cast PC_ARM_DATA_DATA curr in
  if negb (pd_head curr_frame =? PC_STATUS_HEAD)
  then error_event (str "Invalid sync word") ;; ret buf else
  if negb (pd_ch_id curr_frame =? id)
  then error_event (str "Channel mismatch") ;; ret buf else
  if u8 (pd_packets_sum curr_frame) =? 1
  then send_single_frame id curr_frame ;; ret buf
  else multi_packet id buf curr_frame.

(** The turns of the thread, after its check of the buffer. *)
Fixpoint send_turns (n : nat) (id : Z) (buf : PacketBuffer) : M world PacketBuffer :=
  match n with
  | O => ret buf
  | S n' => let* buf := axican_data_send_turn id buf in send_turns n' id buf
  end.

Definition axican_data_send_thread (n : nat) (id : Z) (buf : PacketBuffer) : M world PacketBuffer :=
  let* set := gets (fun w => g_data_buf_set (w_bufs w)) in
  let* ready := of_option (ringbuffer_32ch_target_is_inited (Some set) id (sizeof PC_ARM_DATA_DATA)) in
  if negb ready then ret buf else send_turns n id buf.
End Send.

(** ** The reassembly as a function *)

Definition sequence_of (f : PC_ARM_DATA_DATA) : Z := u8 (pd_packets_no f).
Definition total_of (f : PC_ARM_DATA_DATA) : Z := u8 (pd_packets_sum f).

Definition expired (buf : PacketBuffer) (now : Z) : PacketBuffer :=
  if pb_is_active buf && (elapsed_ms now (pb_last_receive_time buf) >? PACKET_TIMEOUT)
  then packet_zero else buf.

(** The buffer after a packet, and the complete message, if any. *)
Definition reassemble (buf : PacketBuffer) (now : Z) (f : PC_ARM_DATA_DATA)
    : PacketBuffer * list PC_ARM_DATA_DATA :=
  let buf := expired buf now in
  if (sequence_of f =? 0) && ((total_of f <=? 0) || (total_of f >? DEQUEUE_BATCH_SIZE_1))
  then (buf, []) else
  let buf := if sequence_of f =? 0
             then mk_packet (pb_frames packet_zero) (total_of f) 0 true 0 else buf in
  if negb (pb_is_active buf) || (sequence_of f >=? pb_total_packets buf) then (buf, []) else
  if negb (sequence_of f =? pb_received_packets buf) then (packet_zero, []) else
  let frames := <[Z.to_nat (sequence_of f) := f]> (pb_frames buf) in
  let received := u8 (pb_received_packets buf + 1) in
  if received =? pb_total_packets buf
  then (packet_zero, take (Z.to_nat (pb_total_packets buf)) frames)
  else (mk_packet frames (pb_total_packets buf) received (pb_is_active buf) now, []).

(** One dequeued frame of the thread of channel [id]. *)
Definition tx_step (id : Z) (buf : PacketBuffer) (now : Z) (f : PC_ARM_DATA_DATA)
    : PacketBuffer * list PC_ARM_DATA_DATA :=
  if negb (pd_head f =? PC_STATUS_HEAD) || negb (pd_ch_id f =? id) then (buf, []) else
  if total_of f =? 1 then (buf, [f]) else reassemble buf now f.

(** A run over dequeued frames with the times they were dequeued at: the buffer
    and the messages that were written. *)
Fixpoint tx_run (id : Z) (buf : PacketBuffer) (fs : list (Z * PC_ARM_DATA_DATA))
    : PacketBuffer * list (list PC_ARM_DATA_DATA) :=
  match fs with
  | [] => (buf, [])
  | (now, f) :: fs' =>
    let '(buf1, m) := tx_step id buf now f in
    let '(buf2, ms) := tx_run id buf1 fs' in
    (buf2, match m with [] => ms | _ => m :: ms end)
  end.

(** The packets received of the message that is not complete. *)
Definition pending_packets (buf : PacketBuffer) : list PC_ARM_DATA_DATA :=
  take (Z.to_nat (pb_received_packets buf)) (pb_frames buf).

(** The packets of a message in their order. *)
Definition in_sequence (fs : list PC_ARM_DATA_DATA) : Prop :=
  forall i f, fs !! i = Some f -> sequence_of f = Z.of_nat i.

Record packet_wf (buf : PacketBuffer) : Prop := {
  pw_frames : length (pb_frames buf) = 10%nat;
  pw_active : pb_is_active buf = true -> 2 <= pb_total_packets buf <= 10 /\
    0 <= pb_received_packets buf < pb_total_packets buf;
  pw_idle : pb_is_active buf = false -> pb_received_packets buf = 0;
  pw_sequence : in_sequence (pending_packets buf);
  pw_total : forall f, pending_packets buf !! 0%nat = Some f -> total_of f = pb_total_packets buf
}.

Lemma packet_zero_wf : packet_wf packet_zero.
Proof. split; try done; intros i f H; done. Qed.

Lemma expired_wf buf now : packet_wf buf -> packet_wf (expired buf now).
Proof. intros Hw. unfold expired. case_match; [apply packet_zero_wf | done]. Qed.

(** A written message: a single frame, or 2 to 10 packets in sequence, as many
    as the first of them announces. *)
Definition message_ok (m : list PC_ARM_DATA_DATA) : Prop :=
  exists f m', m = f :: m' /\ total_of f = zlen m /\ 1 <= zlen m <= 10 /\
    (zlen m = 1 \/ in_sequence m).

Lemma in_sequence_snoc fs f :
  in_sequence fs -> sequence_of f = zlen fs -> in_sequence (fs ++ [f]).
Proof.
  intros Hs Hf i g Hi. apply lookup_app_Some in Hi as [Hi|[Hl Hi]]; [by apply Hs|].
  destruct (i - length fs)%nat eqn:Hd; [|done]. injection Hi as <-. unfold zlen in Hf. rewrite Hf. lia.
Qed.

(** A step of the reassembly: what was pending, and the new packet or nothing,
    is now pending or written. *)
Lemma reassemble_spec buf now f :
  packet_wf buf -> total_of f <> 1 ->
  let '(buf', m) := reassemble buf now f in
  packet_wf buf' /\ (m = [] \/ message_ok m /\ buf' = packet_zero) /\
  (m ++ pending_packets buf') `sublist_of` (pending_packets buf ++ [f]).
Proof.
  intros Hw Hne. unfold reassemble. pose proof (expired_wf buf now Hw) as Hwe.
  assert (pending_packets (expired buf now) `sublist_of` pending_packets buf) as Hsub.
  { unfold expired. case_match; [apply sublist_nil_l | done]. }
  set (b := expired buf now) in *. clearbody b. unfold DEQUEUE_BATCH_SIZE_1.
  destruct (_ && _)%bool eqn:E1.
  { split; [done|]. split; [by left | by apply sublist_inserts_r]. }
  set (b1 := if sequence_of f =? 0 then _ else b).
  assert (packet_wf b1 /\ pending_packets b1 `sublist_of` pending_packets buf /\
    (sequence_of f = 0 -> pb_total_packets b1 = total_of f)) as (Hw1 & Hsub1 & Hnew).
  { subst b1. destruct (Z.eqb_spec (sequence_of f) 0) as [Hz|]; [|done].
    split; [|split; [apply sublist_nil_l | done]].
    apply andb_false_iff in E1 as [?|E1]; [done|]. apply orb_false_iff in E1 as [E1 E4]. bool_prop.
    split; [done | simpl; lia | done | by intros i g Hg | by intros g Hg]. }
  clearbody b1. clear Hwe Hsub b E1.
  destruct (_ || _)%bool eqn:E2.
  { split; [done|]. split; [by left | by apply sublist_inserts_r]. }
  apply orb_false_iff in E2 as [E2 E3]. bool_prop.
  destruct (pw_active _ Hw1 E2) as [Htot Hrec].
  destruct (Z.eqb_spec (sequence_of f) (pb_received_packets b1)) as [Hseq|]; simpl.
  2: { split; [apply packet_zero_wf|]. split; [by left | apply sublist_nil_l]. }
  rewrite (wrap_small 8) by (unfold in_range; lia).
  set (fs := <[_ := f]> (pb_frames b1)).
  pose proof (pw_frames _ Hw1) as Hlen.
  assert (take (Z.to_nat (pb_received_packets b1 + 1)) fs = pending_packets b1 ++ [f]) as Htake.
  { unfold fs, pending_packets. rewrite Hseq.
    replace (Z.to_nat (pb_received_packets b1 + 1)) with (S (Z.to_nat (pb_received_packets b1))) by lia.
    apply take_insert_snoc. lia. }
  assert (zlen (pending_packets b1) = pb_received_packets b1) as Hpl.
  { unfold pending_packets, zlen. rewrite length_take. lia. }
  assert (in_sequence (pending_packets b1 ++ [f])) as Hsq.
  { apply in_sequence_snoc; [apply Hw1 | lia]. }
  assert (forall g, (pending_packets b1 ++ [f]) !! 0%nat = Some g -> total_of g = pb_total_packets b1)
    as Hfirst.
  { intros g Hg. destruct (pending_packets b1) as [|h t] eqn:Hp.
    - injection Hg as <-. symmetry. apply Hnew. unfold zlen in Hpl. simpl in Hpl. lia.
    - injection Hg as <-. apply (pw_total _ Hw1). by rewrite Hp. }
  destruct (Z.eqb_spec (pb_received_packets b1 + 1) (pb_total_packets b1)) as [Hdone|Hmore].
  - rewrite <- Hdone, Htake. split; [apply packet_zero_wf|]. split; [right; split; [|done]|].
    + assert (exists g t, pending_packets b1 ++ [f] = g :: t) as (g & t & Hgt).
      { destruct (pending_packets b1); simpl; eauto. }
      exists g, t. split; [done|]. assert (zlen [f] = 1) as H1 by done. rewrite zlen_app, H1.
      rewrite (Hfirst g) by by rewrite Hgt.
      split; [lia|]. split; [lia | by right].
    + rewrite app_nil_r. by apply sublist_app.
  - assert (pending_packets (mk_packet fs (pb_total_packets b1) (pb_received_packets b1 + 1)
        (pb_is_active b1) now) = pending_packets b1 ++ [f]) as Hp by exact Htake.
    split; [|split; [by left | simpl; rewrite Hp; by apply sublist_app]].
    split; [by unfold fs; simpl; rewrite length_insert | simpl; lia | simpl; congruence
      | by rewrite Hp | by rewrite Hp].
Qed.

Lemma tx_step_spec id buf now f :
  packet_wf buf ->
  let '(buf', m) := tx_step id buf now f in
  packet_wf buf' /\ (m = [] \/ message_ok m) /\
  m ++ pending_packets buf' ⊆+ pending_packets buf ++ [f] /\
  m `sublist_of` pending_packets buf ++ [f] /\
  pending_packets buf' `sublist_of` pending_packets buf ++ [f].
Proof.
  intros Hw. unfold tx_step. destruct (_ || _)%bool.
  { split; [done|]. split; [by left|]. split_and!; simpl;
      [by apply submseteq_inserts_r | apply sublist_nil_l | by apply sublist_inserts_r]. }
  destruct (Z.eqb_spec (total_of f) 1) as [H1|H1].
  - split; [done|]. split; [|split_and!].
    + right. exists f, []. split; [done|]. split; [done|]. split; [by vm_compute | by left].
    + by rewrite (comm (++)).
    + by apply sublist_inserts_l.
    + by apply sublist_inserts_r.
  - pose proof (reassemble_spec buf now f Hw H1) as Hr.
    destruct (reassemble buf now f) as [buf' m]. destruct Hr as (Hw' & Hm & Hs).
    split; [done|]. split; [destruct Hm as [|[? _]]; auto|].
    split_and!; [by apply sublist_submseteq | |]; (etransitivity; [|exact Hs]);
      [by apply sublist_inserts_r | by apply sublist_inserts_l].
Qed.

Lemma tx_run_spec id buf fs :
  packet_wf buf ->
  let '(buf', ms) := tx_run id buf fs in
  let inputs := pending_packets buf ++ fs.*2 in
  packet_wf buf' /\ Forall message_ok ms /\
  mjoin ms ++ pending_packets buf' ⊆+ inputs /\
  Forall (fun m => m `sublist_of` inputs) ms /\ pending_packets buf' `sublist_of` inputs.
Proof.
  revert buf. induction fs as [|[now f] fs IH]; intros buf Hw; cbn [tx_run].
  { split; [done|]. split; [constructor|]. simpl. rewrite app_nil_r. by split_and!. }
  change (((now, f) :: fs).*2) with (f :: fs.*2).
  pose proof (tx_step_spec id buf now f Hw) as Hst. destruct (tx_step id buf now f) as [buf1 m].
  destruct Hst as (Hw1 & Hm & Hperm & Hsub & Hpend).
  specialize (IH buf1 Hw1). destruct (tx_run id buf1 fs) as [buf2 ms].
  destruct IH as (Hw2 & Hms & Hperm2 & Hsub2 & Hpend2).
  assert (pending_packets buf ++ f :: fs.*2 = (pending_packets buf ++ [f]) ++ fs.*2) as ->
    by by rewrite <- app_assoc.
  assert (pending_packets buf1 ++ fs.*2 `sublist_of` (pending_packets buf ++ [f]) ++ fs.*2) as Hlift
    by by apply sublist_app.
  assert (m ++ mjoin ms ++ pending_packets buf2 ⊆+ (pending_packets buf ++ [f]) ++ fs.*2) as Hp.
  { etransitivity; [apply submseteq_app; [reflexivity | exact Hperm2]|].
    rewrite app_assoc. by apply submseteq_app. }
  split; [done|].
  assert (Forall (fun m0 => m0 `sublist_of` (pending_packets buf ++ [f]) ++ fs.*2) ms) as Hms'.
  { eapply list.Forall_impl; [exact Hsub2|]. intros m0 H0. simpl in H0. by etransitivity. }
  assert (pending_packets buf2 `sublist_of` (pending_packets buf ++ [f]) ++ fs.*2) as Hp2
    by by etransitivity.
  destruct m as [|g m]; simpl; [by split_and!|].
  destruct Hm as [|Hm]; [done|]. split; [by constructor|].
  split; [by rewrite <- app_assoc|]. split; [|done]. constructor; [|done].
  by apply sublist_inserts_r.
Qed.

(** A run in two parts. *)
Lemma tx_run_app id buf fs1 fs2 :
  tx_run id buf (fs1 ++ fs2) =
    let '(buf1, ms1) := tx_run id buf fs1 in
    let '(buf2, ms2) := tx_run id buf1 fs2 in (buf2, ms1 ++ ms2).
Proof.
  revert buf. induction fs1 as [|[now f] fs1 IH]; intros buf; [simpl; by destruct (tx_run id buf fs2)|].
  simpl. destruct (tx_step id buf now f) as [buf0 m]. rewrite IH.
  destruct (tx_run id buf0 fs1) as [buf1 ms1]. destruct (tx_run id buf1 fs2) as [buf2 ms2].
  by destruct m.
Qed.

(** *** The packets a message is made of *)

(** The frames that bear on the reassembly of a message of [n] packets for
    channel [id]: for a single frame the single frames; for a longer message the
    packets with a number below [n], those numbered 0 only with a total that is
    allowed. The thread passes over any other frame. *)
Definition concerns (id n : Z) (f : PC_ARM_DATA_DATA) : bool :=
  (pd_head f =? PC_STATUS_HEAD) && (pd_ch_id f =? id) &&
  (if n =? 1 then total_of f =? 1
   else negb (total_of f =? 1) && (sequence_of f <? n) &&
        (negb (sequence_of f =? 0) || (0 <? total_of f) && (total_of f <=? DEQUEUE_BATCH_SIZE_1))).

(** [m] is what concerns it of a segment of [inputs]: between its packets only
    frames were taken that the thread passes over. *)
Definition gathered (id n : Z) (inputs m : list PC_ARM_DATA_DATA) : Prop :=
  exists before segment after, inputs = before ++ segment ++ after /\
    filter (fun f => concerns id n f = true) segment = m.

(** The same at the end of [inputs]. *)
Definition gathering (id n : Z) (inputs m : list PC_ARM_DATA_DATA) : Prop :=
  exists before segment, inputs = before ++ segment /\
    filter (fun f => concerns id n f = true) segment = m.

Lemma gathering_nil id n inputs : gathering id n inputs [].
Proof. exists inputs, []. by rewrite app_nil_r. Qed.

Lemma gathering_skip id n inputs m f :
  concerns id n f = false -> gathering id n inputs m -> gathering id n (inputs ++ [f]) m.
Proof.
  intros Hf (before & seg & -> & Hm). exists before, (seg ++ [f]). rewrite <- app_assoc. split; [done|].
  rewrite list.filter_app, Hm, list.filter_cons_False, list.filter_nil by by rewrite Hf. apply app_nil_r.
Qed.

Lemma gathering_take id n inputs m f :
  concerns id n f = true -> gathering id n inputs m -> gathering id n (inputs ++ [f]) (m ++ [f]).
Proof.
  intros Hf (before & seg & -> & Hm). exists before, (seg ++ [f]). rewrite <- app_assoc. split; [done|].
  rewrite list.filter_app, Hm, list.filter_cons_True, list.filter_nil by done. done.
Qed.

Lemma gathering_gathered id n inputs m more : gathering id n inputs m -> gathered id n (inputs ++ more) m.
Proof. intros (before & seg & -> & Hm). exists before, seg, more. by rewrite <- app_assoc. Qed.

Lemma idle_pending buf : packet_wf buf -> pb_is_active buf = false -> pending_packets buf = [].
Proof. intros Hw Ha. unfold pending_packets. rewrite (pw_idle _ Hw Ha). by rewrite take_0. Qed.

(** A frame the thread of channel [id] takes for a packet of a longer message. *)
Definition packet_for (id : Z) (f : PC_ARM_DATA_DATA) : Prop :=
  pd_head f = PC_STATUS_HEAD /\ pd_ch_id f = id /\ total_of f <> 1.

(** A step on a packet for the channel, after [inputs]. *)
Lemma reassemble_gathered id inputs buf now f :
  packet_wf buf -> packet_for id f -> gathering id (pb_total_packets buf) inputs (pending_packets buf) ->
  let '(buf', m) := reassemble buf now f in
  gathering id (pb_total_packets buf') (inputs ++ [f]) (pending_packets buf') /\
  (m = [] \/ gathering id (zlen m) (inputs ++ [f]) m).
Proof.
  intros Hw (Hhd & Hch & Hne) Hg. unfold reassemble. pose proof (expired_wf buf now Hw) as Hwe.
  assert (gathering id (pb_total_packets (expired buf now)) inputs (pending_packets (expired buf now))) as Hge.
  { unfold expired. case_match; [apply gathering_nil | done]. }
  set (b := expired buf now) in *. clearbody b. clear Hw Hg.
  assert (forall n, 2 <= n -> concerns id n f = true <->
    sequence_of f < n /\ (sequence_of f <> 0 \/ 0 < total_of f <= 10)) as Hcon.
  { intros n Hn. unfold concerns. rewrite Hhd, Hch, !Z.eqb_refl, (proj2 (Z.eqb_neq n 1)) by lia.
    rewrite (proj2 (Z.eqb_neq _ _) Hne). unfold DEQUEUE_BATCH_SIZE_1. cbn [negb andb].
    destruct (Z.eqb_spec (sequence_of f) 0); cbn [negb orb]; lia. }
  assert (forall b', packet_wf b' -> gathering id (pb_total_packets b') inputs (pending_packets b') ->
    (pb_is_active b' = true -> concerns id (pb_total_packets b') f = false) ->
    gathering id (pb_total_packets b') (inputs ++ [f]) (pending_packets b') /\
    (([] : list PC_ARM_DATA_DATA) = [] \/ gathering id (zlen (@nil PC_ARM_DATA_DATA)) (inputs ++ [f]) [])) as Hskip.
  { intros b' Hwb Hgb Hcb. split; [|by left]. destruct (pb_is_active b') eqn:Ha.
    - by apply gathering_skip; [apply Hcb|].
    - rewrite idle_pending by done. apply gathering_nil. }
  unfold DEQUEUE_BATCH_SIZE_1. destruct (_ && _)%bool eqn:E1.
  { apply Hskip; [done..|]. intros Ha. destruct (pw_active _ Hwe Ha). apply not_true_iff_false.
    rewrite Hcon by lia. bool_prop; lia. }
  set (b1 := if sequence_of f =? 0 then _ else b).
  assert (sequence_of f <> 0 \/ 0 < total_of f <= 10) as Hfirst.
  { destruct (Z.eqb_spec (sequence_of f) 0); [right | by left]. cbn [andb] in E1.
    apply orb_false_iff in E1 as [E1 E4]. bool_prop. lia. }
  assert (packet_wf b1 /\ gathering id (pb_total_packets b1) inputs (pending_packets b1)) as [Hw1 Hg1].
  { subst b1. destruct (Z.eqb_spec (sequence_of f) 0) as [Hz|]; [|done].
    split; [|apply gathering_nil].
    split; [done | simpl; lia | done | by intros i g Hgi | by intros g Hgi]. }
  clearbody b1. clear Hwe Hge E1 b.
  destruct (_ || _)%bool eqn:E2.
  { apply Hskip; [done..|]. intros Ha. destruct (pw_active _ Hw1 Ha). apply not_true_iff_false.
    rewrite Hcon by lia. rewrite Ha in E2. cbn [negb orb] in E2. bool_prop; lia. }
  apply orb_false_iff in E2 as [E2 E3]. bool_prop. destruct (pw_active _ Hw1 E2) as [Htot Hrec].
  assert (concerns id (pb_total_packets b1) f = true) as Hc.
  { apply Hcon; [lia | split; [lia | done]]. }
  apply (gathering_take _ _ _ _ f Hc) in Hg1.
  destruct (Z.eqb_spec (sequence_of f) (pb_received_packets b1)) as [Hseq|]; simpl; [|split; [apply gathering_nil | by left]].
  rewrite (wrap_small 8) by (unfold in_range; lia). pose proof (pw_frames _ Hw1) as Hlen.
  assert (take (Z.to_nat (pb_received_packets b1 + 1)) (<[Z.to_nat (sequence_of f) := f]> (pb_frames b1)) =
    pending_packets b1 ++ [f]) as Htake.
  { rewrite Hseq. replace (Z.to_nat (pb_received_packets b1 + 1)) with (S (Z.to_nat (pb_received_packets b1))) by lia.
    apply take_insert_snoc. lia. }
  destruct (Z.eqb_spec (pb_received_packets b1 + 1) (pb_total_packets b1)) as [Hdone|Hmore].
  - rewrite <- Hdone, Htake. split; [apply gathering_nil|]. right.
    assert (zlen (pending_packets b1 ++ [f]) = pb_total_packets b1) as ->; [|done].
    rewrite zlen_app. unfold pending_packets, zlen. rewrite length_take. simpl. lia.
  - split; [|by left]. unfold pending_packets at 1. simpl. by rewrite Htake.
Qed.

Lemma tx_step_gathered id inputs buf now f :
  packet_wf buf -> gathering id (pb_total_packets buf) inputs (pending_packets buf) ->
  let '(buf', m) := tx_step id buf now f in
  gathering id (pb_total_packets buf') (inputs ++ [f]) (pending_packets buf') /\
  (m = [] \/ gathering id (zlen m) (inputs ++ [f]) m).
Proof.
  intros Hw Hg. unfold tx_step.
  destruct (_ || _)%bool eqn:Er.
  { split; [|by left]. apply gathering_skip; [|done]. unfold concerns.
    destruct (pd_head f =? PC_STATUS_HEAD), (pd_ch_id f =? id); done. }
  apply orb_false_iff in Er as [Eh Ec]. apply negb_false_iff in Eh, Ec.
  destruct (total_of f =? 1) eqn:E1.
  - split.
    + destruct (pb_is_active buf) eqn:Ha; [|rewrite idle_pending by done; apply gathering_nil].
      destruct (pw_active _ Hw Ha). apply gathering_skip; [|done]. unfold concerns.
      rewrite Eh, Ec, E1, (proj2 (Z.eqb_neq (pb_total_packets buf) 1)) by lia. done.
    + right. apply (gathering_take id 1 inputs [] f); [|apply gathering_nil].
      unfold concerns. by rewrite Eh, Ec, E1.
  - bool_prop. by apply reassemble_gathered.
Qed.

Lemma tx_run_gathered id inputs buf fs :
  packet_wf buf -> gathering id (pb_total_packets buf) inputs (pending_packets buf) ->
  Forall (fun m => gathered id (zlen m) (inputs ++ fs.*2) m) (tx_run id buf fs).2.
Proof.
  revert inputs buf. induction fs as [|[now f] fs IH]; intros inputs buf Hw Hg; [constructor|]. cbn [tx_run].
  pose proof (tx_step_gathered id inputs buf now f Hw Hg) as Hst.
  pose proof (tx_step_spec id buf now f Hw) as Hsp. destruct (tx_step id buf now f) as [buf1 m].
  destruct Hst as [Hg1 Hm]. specialize (IH (inputs ++ [f]) buf1 (proj1 Hsp) Hg1).
  destruct (tx_run id buf1 fs) as [buf2 ms]. cbn [snd] in *.
  change (((now, f) :: fs).*2) with (f :: fs.*2).
  replace (inputs ++ f :: fs.*2) with ((inputs ++ [f]) ++ fs.*2) by by rewrite <- app_assoc.
  destruct m as [|g m]; [exact IH|]. destruct Hm as [|Hm]; [done|].
  constructor; [by apply gathering_gathered | exact IH].
Qed.

(** *** A message that arrives whole *)

(** The packets of one message for channel [id]. *)
Definition message_packets (id : Z) (m : list PC_ARM_DATA_DATA) : Prop :=
  2 <= zlen m <= 10 /\ in_sequence m /\
  Forall (fun f => total_of f = zlen m /\ pd_head f = PC_STATUS_HEAD /\ pd_ch_id f = id) m.

(** The buffer has the packets [pre] of a message of [n], the last at time [t]. *)
Record collecting (n : Z) (pre : list PC_ARM_DATA_DATA) (t : Z) (buf : PacketBuffer) : Prop := {
  co_frames : length (pb_frames buf) = 10%nat;
  co_pending : pending_packets buf = pre;
  co_total : pb_total_packets buf = n;
  co_received : pb_received_packets buf = zlen pre;
  co_active : pb_is_active buf = true;
  co_last : pb_last_receive_time buf = t
}.

Lemma prompt_not_expired buf t : 0 <= t - pb_last_receive_time buf <= 1 -> expired buf t = buf.
Proof.
  intros Ht. unfold expired, elapsed_ms, PACKET_TIMEOUT. rewrite (s32_small (t - _)), s32_small by lia.
  destruct (Z.gtb_spec ((t - pb_last_receive_time buf) * 1000) 1000); [lia|]. by rewrite andb_false_r.
Qed.

(** The next packet of a message: the first one, or one within a second of the
    one before. *)
Lemma next_packet id n pre buf now f :
  2 <= n <= 10 -> zlen pre < n -> sequence_of f = zlen pre -> total_of f = n ->
  pd_head f = PC_STATUS_HEAD -> pd_ch_id f = id ->
  (pre = [] \/ exists t, collecting n pre t buf /\ 0 <= now - t <= 1) ->
  if zlen pre + 1 =? n then tx_step id buf now f = (packet_zero, pre ++ [f])
  else exists buf', tx_step id buf now f = (buf', []) /\ collecting n (pre ++ [f]) now buf'.
Proof.
  intros Hn Hlt Hseq Htot Hhd Hch Hpre. unfold tx_step. rewrite Hhd, Hch, !Z.eqb_refl. cbn [negb orb].
  rewrite Htot, (proj2 (Z.eqb_neq n 1)) by lia. unfold reassemble. rewrite Htot.
  assert ((n <=? 0) || (n >? DEQUEUE_BATCH_SIZE_1) = false)%bool as -> by (unfold DEQUEUE_BATCH_SIZE_1; lia).
  rewrite andb_false_r. cbv zeta iota.
  set (b1 := if sequence_of f =? 0 then _ else _).
  assert (exists t, collecting n pre t b1) as (t & [Hf10 Hpend Hbt Hrec Hact Hlast]).
  { subst b1. destruct Hpre as [->|(t & Hc & Hnow)].
    - rewrite Hseq. exists 0. by split.
    - rewrite <- (co_last _ _ _ _ Hc) in Hnow. rewrite prompt_not_expired by done.
      destruct (Z.eqb_spec (sequence_of f) 0) as [Hz|]; [|by exists t].
      assert (pre = []) as -> by (destruct pre; [done | unfold zlen in *; simpl in *; lia]).
      exists 0. by split. }
  clearbody b1. rewrite Hact, Hbt, Hrec, Hseq, Z.eqb_refl. cbn [negb orb].
  rewrite Z.geb_leb, (proj2 (Z.leb_gt n (zlen pre))) by lia. cbv iota.
  rewrite (wrap_small 8) by (unfold in_range, zlen in *; lia).
  assert (take (S (length pre)) (<[Z.to_nat (zlen pre) := f]> (pb_frames b1)) = pre ++ [f]) as Htake.
  { unfold zlen. rewrite Nat2Z.id, take_insert_snoc by (unfold zlen in *; lia). f_equal.
    rewrite <- Hpend at 2. unfold pending_packets. rewrite Hrec. unfold zlen. by rewrite Nat2Z.id. }
  assert (Z.to_nat (zlen pre + 1) = S (length pre)) as Hnat by (unfold zlen; lia).
  destruct (Z.eqb_spec (zlen pre + 1) n) as [<-|Hmore].
  - by rewrite Hnat, Htake.
  - eexists. split; [done|]. split; try done.
    + simpl. by rewrite length_insert.
    + unfold pending_packets. simpl. by rewrite Hnat.
    + simpl. by rewrite zlen_app.
Qed.

(** ** What the thread does *)

Definition is_write (c : syscall) : bool := match c with SysWrite _ _ => true | _ => false end.

(** The writes to the CAN devices, the latest first. *)
Definition can_writes (w : world) : list syscall := filter (fun c => is_write c = true) (w_hist w).

Definition sent_as (fd : Z) (f : PC_ARM_DATA_DATA) (c : syscall) : Prop :=
  exists ts, c = SysWrite fd (pack (tx_frame f ts)).

(** What names a channel and its descriptors. *)
Definition ax_device (a : axican) : Z * Z * Z * Z * Z :=
  (ax_id a, ax_rd_fd a, ax_rd_flags a, ax_wr_fd a, ax_wr_flags a).

Lemma device_kept (l l' : list axican) i ax :
  ax_device <$> l' = ax_device <$> l -> l !! i = Some ax ->
  exists ax', l' !! i = Some ax' /\ ax_rd_fd ax' = ax_rd_fd ax /\ ax_wr_fd ax' = ax_wr_fd ax.
Proof.
  intros Hd Hax. apply (f_equal (fun l => l !! i)) in Hd. rewrite !list_lookup_fmap, Hax in Hd.
  destruct (l' !! i) as [ax'|]; [|done]. exists ax'. split; [done|]. by injection Hd.
Qed.

(** The frames [out] were written to [fd], in order, and nothing else was; the
    buffers, configurations, schedule and descriptors are as before. *)
Record sent (fd : Z) (out : list PC_ARM_DATA_DATA) (w w' : world) : Prop := {
  se_wf : world_wf w -> world_wf w';
  se_held : w_held w' = w_held w;
  se_configs : w_configs w' = w_configs w;
  se_bufs : w_bufs w' = w_bufs w;
  se_bc : w_bc w' = w_bc w;
  se_download : data_download_socket w' = data_download_socket w;
  se_device : ax_device <$> w_axican w' = ax_device <$> w_axican w;
  se_writes : exists ws, can_writes w' = ws ++ can_writes w /\ Forall2 (sent_as fd) (rev out) ws
}.

Lemma sent_refl fd w : sent fd [] w w.
Proof. split; try done. by exists []. Qed.

Lemma sent_trans fd o1 o2 w1 w2 w3 :
  sent fd o1 w1 w2 -> sent fd o2 w2 w3 -> sent fd (o1 ++ o2) w1 w3.
Proof.
  intros [Hwf1 ? ? ? ? ? Hfd1 (ws1 & He1 & Hs1)] [Hwf2 ? ? ? ? ? Hfd2 (ws2 & He2 & Hs2)].
  split; try congruence; [by auto|].
  exists (ws2 ++ ws1). split; [by rewrite He2, He1, app_assoc|].
  rewrite rev_app_distr. by apply Forall2_app.
Qed.

(** A [net_only] change without a write. *)
Lemma sent_net fd w w' : net_only w w' -> can_writes w' = can_writes w -> sent fd [] w w'.
Proof.
  intros Hno Hw. pose proof (net_only_wf _ _ Hno). destruct Hno. split; try done.
  - by rewrite no_axican.
  - by exists [].
Qed.

Section TxSpec.
Context `{OS}.
#[local] Open Scope c_scope.

Lemma can_writes_event level id msg w :
  can_writes (event_result level id msg w) = can_writes w.
Proof. unfold event_result, can_writes. by repeat case_match. Qed.

Lemma can_writes_upload data w : can_writes (upload_result data w) = can_writes w.
Proof. unfold upload_result, can_writes. by repeat case_match. Qed.

Lemma sent_err fd msg w : sent fd [] w (err msg w).
Proof. apply sent_net; [apply net_only_err | apply can_writes_event]. Qed.

Lemma sent_transmit fd id type status frame c w :
  w_frame_count w !! Z.to_nat id = Some c ->
  sent fd [] w (transmit_result id type status frame c w).
Proof.
  intros Hc. apply sent_net; [by apply net_only_transmit|].
  unfold transmit_result. by rewrite can_writes_upload.
Qed.

Lemma set_axican_wf l w : world_wf w -> length l = 6%nat -> world_wf (set_axican l w).
Proof. intros [] Hl. by split. Qed.

(** The state after the write of a frame. *)
Lemma sent_write id f ts ax c w :
  w_axican w !! Z.to_nat id = Some ax ->
  sent (ax_wr_fd ax) [f] w
    (add_call (SysWrite (ax_wr_fd ax) (pack (tx_frame f ts)))
       (set_axican (<[Z.to_nat id := set_ax_w_count c ax]> (w_axican w))
          (add_call (SysClock false) w))).
Proof.
  intros Hax. split; try done.
  - intros Hwf. destruct Hwf. split; try done. simpl. by rewrite length_insert.
  - simpl. rewrite list_fmap_insert. apply list_insert_id. by rewrite list_lookup_fmap, Hax.
  - exists [SysWrite (ax_wr_fd ax) (pack (tx_frame f ts))]. split; [done|].
    constructor; [by exists ts | constructor].
Qed.

Lemma send_single_spec id f ax w :
  held_below 3 w -> world_wf w -> 0 <= id < 6 -> w_axican w !! Z.to_nat id = Some ax ->
  wp (send_single_frame id f) (fun _ => sent (ax_wr_fd ax) [f] w) w.
Proof.
  intros Hb Hwf Hid Hax. unfold send_single_frame. wp_step. apply wp_clock. cbv zeta.
  set (ts := if _ =? 0 then _ else 0).
  wp_step. eapply wp_arr_upd; [lia | exact Hax |]. wp_step. apply wp_lock; [by eapply lock_free_below|].
  wp_step. eapply wp_arr_get; [lia | simpl; apply list_lookup_insert_eq; by eapply lookup_lt_Some |].
  wp_step. apply wp_sys. wp_step. eapply wp_unlock; [done|].
  match goal with |- wp _ _ ?w0 => set (w1 := w0) end.
  assert (sent (ax_wr_fd ax) [f] w w1) as Hs.
  { pose proof (sent_write id f ts ax (s32 (ax_w_count ax + 1)) w Hax) as Hs.
    assert (w1 = add_call (SysWrite (ax_wr_fd ax) (pack (tx_frame f ts)))
       (set_axican (<[Z.to_nat id := set_ax_w_count (s32 (ax_w_count ax + 1)) ax]> (w_axican w))
          (add_call (SysClock false) w))) as -> by (subst w1; by destruct w). exact Hs. }
  clearbody w1. destruct (negb _); [|by wp_step].
  pose proof (se_wf _ _ _ _ Hs Hwf) as Hwf1.
  assert (held_below 4 w1) as Hb1.
  { eapply held_below_mono; [|eapply held_below_eq; [apply (se_held _ _ _ _ Hs) | exact Hb]]. lia. }
  destruct (lookup_lt_is_Some_2 (w_frame_count w1) (Z.to_nat id)) as [n Hn];
    [rewrite (ww_counts _ Hwf1); lia|].
  wp_step. unfold wp at 1.
  rewrite (send_can_transmit_response_eq _ _ _ _ n) by (try done; try lia; by eapply lock_free_below).
  set (w2 := if _ =? -1 then w1 else _).
  assert (sent (ax_wr_fd ax) [] w1 w2) as Hs2.
  { subst w2. case_match; [apply sent_refl | by apply sent_transmit]. }
  apply wp_error_event.
  { eapply held_below_mono; [|eapply held_below_eq; [apply (se_held _ _ _ _ Hs2) | exact Hb1]]. lia. }
  rewrite <- (app_nil_r [f]). eapply sent_trans; [exact Hs|].
  rewrite <- (app_nil_r []). eapply sent_trans; [exact Hs2 | apply sent_err].
Qed.

Lemma send_packets_spec n j id frames ax w :
  held_below 3 w -> world_wf w -> 0 <= id < 6 -> w_axican w !! Z.to_nat id = Some ax ->
  0 <= j -> (Z.to_nat j + n <= length frames)%nat ->
  wp (send_packets n j id frames) (fun _ => sent (ax_wr_fd ax) (take n (drop (Z.to_nat j) frames)) w) w.
Proof.
  intros Hb Hwf Hid. revert j w ax Hb Hwf.
  induction n as [|n IH]; intros j w ax Hb Hwf Hax Hj Hlen; cbn [send_packets].
  { wp_step. apply sent_refl. }
  destruct (lookup_lt_is_Some_2 frames (Z.to_nat j)) as [f Hf]; [lia|].
  wp_step. eapply wp_of_option; [exact Hf|]. wp_step.
  eapply wp_mono; [by apply send_single_spec|]. intros [] w1 Hs.
  destruct (device_kept _ _ _ _ (se_device _ _ _ _ Hs) Hax) as (ax1 & Hax1 & _ & Hfd).
  eapply wp_mono; [apply (IH (j + 1) w1 ax1); [| | done | lia | lia]|].
  { eapply held_below_eq; [apply (se_held _ _ _ _ Hs) | done]. }
  { by apply (se_wf _ _ _ _ Hs). }
  intros [] w2 Hs2. rewrite (drop_S _ f) by done. cbn [take].
  change (f :: ?l) with ([f] ++ l). eapply sent_trans; [exact Hs|].
  rewrite Hfd in Hs2. by replace (Z.to_nat (j + 1)) with (S (Z.to_nat j)) in Hs2 by lia.
Qed.

Lemma set_held_wf l w : world_wf w -> world_wf (set_held l w).
Proof. intros []. by split. Qed.

Lemma sent_locked fd out l w w' :
  sent fd out (set_held (l :: w_held w) w) w' -> sent fd out w (set_held (w_held w) w').
Proof.
  intros [Hwf ? ? ? ? ? Hfd Hws]. split; try done.
  intros Hw. by apply set_held_wf, Hwf, set_held_wf.
Qed.

(** What [time] would answer now, as a [time_t]. *)
Definition time_now (w : world) : Z := s32 (os_ret (w_hist w) SysTime).

Lemma multi_packet_spec id buf f ax w :
  held_below 2 w -> world_wf w -> packet_wf buf -> 0 <= id < 6 ->
  w_axican w !! Z.to_nat id = Some ax ->
  wp (multi_packet id buf f) (fun buf' w' => exists out,
    reassemble buf (time_now w) f = (buf', out) /\ sent (ax_wr_fd ax) out w w' /\
    (out = [] -> w_hist w' = SysTime :: w_hist w)) w.
Proof.
  intros Hb Hwf Hw Hid Hax. unfold multi_packet. cbv zeta.
  wp_step. apply wp_lock; [by eapply lock_free_below|]. wp_step. apply wp_sys.
  match goal with |- context [s32 (os_ret ?h SysTime)] => change (s32 (os_ret h SysTime)) with (time_now w) end.
  set (now := time_now w). set (w1 := add_call SysTime _).
  assert (w_held w1 = packet_mutex :: w_held w) as Hh1 by done.
  assert (sent (ax_wr_fd ax) [] (set_held (packet_mutex :: w_held w) w) w1) as Hs1.
  { apply sent_net; [apply net_only_add_call | done]. }
  match goal with |- wp _ ?R _ => set (Q := R) end.
  assert (forall b out w2, sent (ax_wr_fd ax) out (set_held (packet_mutex :: w_held w) w) w2 ->
    w_held w2 = packet_mutex :: w_held w -> reassemble buf now f = (b, out) ->
    (out = [] -> w_hist w2 = SysTime :: w_hist w) ->
    wp (mutex_unlock packet_mutex ;; ret b) Q w2) as Hend.
  { intros b out w2 Hs Hh Hr Hq. wp_step. eapply wp_unlock; [exact Hh|]. wp_step.
    exists out. split; [exact Hr|]. split; [by eapply sent_locked | exact Hq]. }
  unfold reassemble in Hend. fold (expired buf now).
  change (u8 (pd_packets_no f)) with (sequence_of f). change (u8 (pd_packets_sum f)) with (total_of f).
  pose proof (expired_wf buf now Hw) as Hwe. set (b := expired buf now) in *.
  destruct (_ && _)%bool eqn:E1; [by eapply Hend|].
  set (b1 := if sequence_of f =? 0 then _ else b) in *.
  assert (length (pb_frames b1) = 10%nat) as Hl1.
  { subst b1. destruct (sequence_of f =? 0); [done | apply Hwe]. }
  assert (pb_is_active b1 = true -> 0 <= sequence_of f < pb_total_packets b1 ->
    pb_total_packets b1 <= 10) as Ht1.
  { subst b1. intros Ha _. destruct (Z.eqb_spec (sequence_of f) 0) as [Hz|].
    - simpl. apply andb_false_iff in E1 as [?|E1]; [done|]. apply orb_false_iff in E1 as [_ E1].
      unfold DEQUEUE_BATCH_SIZE_1 in E1. bool_prop. lia.
    - apply (pw_active _ Hwe Ha). }
  destruct (negb (pb_is_active b1) || (sequence_of f >=? pb_total_packets b1))%bool eqn:E2;
    [by eapply Hend|]. clear E1. apply orb_false_iff in E2 as [E2 E3]. bool_prop.
  assert (0 <= sequence_of f) as Hseq0 by (apply wrap_range; lia).
  specialize (Ht1 E2 ltac:(lia)).
  destruct (negb (sequence_of f =? pb_received_packets b1)) eqn:E4; [by eapply Hend|].
  wp_step. wp_step; [apply Nat.ltb_lt; lia|]. cbn [pb_received_packets pb_total_packets pb_frames].
  set (fs := <[_ := f]> (pb_frames b1)) in *.
  wp_step. destruct (_ =? pb_total_packets b1) eqn:E5; [|wp_step; by eapply Hend].
  wp_step. eapply wp_mono.
  { apply (send_packets_spec _ 0 id fs ax); [| | done | done | lia |].
    - constructor; [simpl; lia|]. by eapply held_below_mono; [|exact Hb]; lia.
    - apply (se_wf _ _ _ _ Hs1). by apply set_held_wf.
    - unfold fs. rewrite length_insert, Hl1. simpl. lia. }
  intros [] w2 Hs2. wp_step. rewrite drop_0 in Hs2.
  apply (Hend packet_zero (take (Z.to_nat (pb_total_packets b1)) fs)); [| |done|].
  - rewrite <- (app_nil_l (take _ _)). by eapply sent_trans.
  - by rewrite (se_held _ _ _ _ Hs2).
  - intros Ht. apply (f_equal length) in Ht. unfold fs in Ht.
    rewrite length_take, length_insert, Hl1 in Ht. simpl in Ht. lia.
Qed.

Lemma buf_chan_ok_data id : id < 32 -> buf_chan_ok Data id 32 = true.
Proof. intros. unfold buf_chan_ok. apply andb_true_iff. simpl. lia. Qed.

(** One turn: it waits on a closed channel or an empty queue; otherwise it takes
    the oldest frame and makes the step of the function. *)
Definition turn_post (id : Z) (buf : PacketBuffer) (ax : axican) (w : world)
    (buf' : PacketBuffer) (w' : world) : Prop :=
  let opened := match w_configs w !! Z.to_nat id with
                | Some c => bool_decide (cf_state c = CAN_STATE_OPENED) | None => false end in
  match (if opened then buf_queue Data id (w_bufs w) else []) with
  | [] => buf' = buf /\ w' = w
  | x :: q => exists b now out, bufs_wf b /\ bufs_only Data id (w_bufs w) b /\
      buf_queue Data id b = q /\ tx_step id buf now (unpack x) = (buf', out) /\
      sent (ax_wr_fd ax) out (set_bufs b w) w' /\
      (packet_for id (unpack x) -> now = time_now w /\ (out = [] -> w_hist w' = SysTime :: w_hist w))
  end.

Lemma get_wf id b w :
  world_wf w -> bufs_wf b -> bufs_only Data id (w_bufs w) b -> world_wf (set_bufs b w).
Proof. by apply set_bufs_wf. Qed.

Lemma send_turn_spec id buf ax w :
  held_below 2 w -> world_wf w -> packet_wf buf -> 0 <= id < 6 ->
  w_axican w !! Z.to_nat id = Some ax ->
  wp (axican_data_send_turn id buf) (turn_post id buf ax w) w.
Proof.
  intros Hb Hwf Hw Hid Hax. unfold axican_data_send_turn, turn_post.
  destruct (config_lookup id w Hwf) as (c & Hc & _); [lia|]. rewrite Hc.
  wp_step. eapply wp_arr_get; [lia | exact Hc |]. wp_step. apply wp_buf_len; [apply Hwf | lia |].
  assert (buf_chan_ok Data id 32 = true) as Hok by (apply buf_chan_ok_data; lia).
  rewrite Hok. destruct (bool_decide (cf_state c = CAN_STATE_OPENED)); [|by wp_step].
  destruct (buf_queue Data id (w_bufs w)) as [|x q] eqn:Hq; [by wp_step|].
  change (zlen (x :: q) =? 0) with false. cbn [negb orb].
  wp_step. apply wp_buf_get; [apply Hwf | lia | done |]. rewrite Hok, Hq.
  intros r dst b Hb' Ho (-> & Hqb & Hx & ->). change (negb (1 =? 1)) with false. cbv iota.
  change (buf_esize Data) with 48 in *.
  replace (x ++ drop (Z.to_nat 48) (replicate 48 x00)) with x by by rewrite app_nil_r.
  wp_step. apply wp_cast; [change (sizeof PC_ARM_DATA_DATA) with 48; lia|].
  set (f := unpack x : PC_ARM_DATA_DATA). set (w1 := set_bufs b w).
  assert (world_wf w1) as Hwf1 by by eapply get_wf.
  assert (held_below 6 w1) as Hb6 by (by eapply held_below_mono; [|exact Hb]; lia).
  assert (forall out buf' w', (forall now, tx_step id buf now f = (buf', out)) ->
    sent (ax_wr_fd ax) out w1 w' -> ~ packet_for id f ->
    exists b0 now out0, bufs_wf b0 /\ bufs_only Data id (w_bufs w) b0 /\ buf_queue Data id b0 = q /\
      tx_step id buf now f = (buf', out0) /\ sent (ax_wr_fd ax) out0 (set_bufs b0 w) w' /\
      (packet_for id f -> now = time_now w /\ (out0 = [] -> w_hist w' = SysTime :: w_hist w))) as Hpost.
  { intros out buf' w' Hst Hs Hn. by exists b, 0, out. }
  unfold tx_step in Hpost |- *. fold (total_of f). unfold packet_for in Hpost at 1.
  destruct (Z.eqb_spec (pd_head f) PC_STATUS_HEAD) as [Hhd|Hhd]; cbn [negb].
  2: { wp_step. apply wp_error_event; [done|]. wp_step. eapply Hpost; [done | apply sent_err | tauto]. }
  destruct (Z.eqb_spec (pd_ch_id f) id) as [Hch|Hch]; cbn [negb].
  2: { wp_step. apply wp_error_event; [done|]. wp_step. eapply Hpost; [done | apply sent_err | tauto]. }
  cbn [orb negb] in *. destruct (Z.eqb_spec (total_of f) 1) as [H1|H1].
  { wp_step. eapply wp_mono; [by apply send_single_spec; [eapply held_below_mono; [|exact Hb]; lia|..]|].
    intros [] w2 Hs. wp_step. eapply Hpost; [done | done | tauto]. }
  clear Hpost. eapply wp_mono; [by apply multi_packet_spec|].
  intros buf' w' (out & Hr & Hs & Hq'). by exists b, (time_now w1), out.
Qed.
End TxSpec.

(** ** The thread *)

(** [sent] while frames are taken from the queue. *)
Record wrote (fd : Z) (out : list PC_ARM_DATA_DATA) (w w' : world) : Prop := {
  wr_held : w_held w' = w_held w;
  wr_configs : w_configs w' = w_configs w;
  wr_bc : w_bc w' = w_bc w;
  wr_device : ax_device <$> w_axican w' = ax_device <$> w_axican w;
  wr_writes : exists ws, can_writes w' = ws ++ can_writes w /\ Forall2 (sent_as fd) (rev out) ws
}.

Lemma wrote_refl fd w : wrote fd [] w w.
Proof. split; try done. by exists []. Qed.

Lemma wrote_trans fd o1 o2 w1 w2 w3 :
  wrote fd o1 w1 w2 -> wrote fd o2 w2 w3 -> wrote fd (o1 ++ o2) w1 w3.
Proof.
  intros [? ? ? Hfd1 (ws1 & He1 & Hs1)] [? ? ? Hfd2 (ws2 & He2 & Hs2)].
  split; try congruence.
  exists (ws2 ++ ws1). split; [by rewrite He2, He1, app_assoc|].
  rewrite rev_app_distr. by apply Forall2_app.
Qed.

Lemma sent_wrote fd out b w w' : sent fd out (set_bufs b w) w' -> wrote fd out w w'.
Proof. intros []. by split. Qed.

Section Thread.
Context `{OS}.
#[local] Open Scope c_scope.

Definition channel_opened (id : Z) (w : world) : bool :=
  match w_configs w !! Z.to_nat id with
  | Some c => bool_decide (cf_state c = CAN_STATE_OPENED) | None => false end.

(** What [n] turns do: the elements taken from the queue, the times they were
    taken at, and the run of the reassembly over them. *)
Definition turns_post (n : nat) (id : Z) (buf : PacketBuffer) (ax : axican) (w : world)
    (buf' : PacketBuffer) (w' : world) : Prop :=
  world_wf w' /\ packet_wf buf' /\ bufs_only Data id (w_bufs w) (w_bufs w') /\
  exists taken nows ms,
    buf_queue Data id (w_bufs w) = taken ++ buf_queue Data id (w_bufs w') /\
    length nows = length taken /\
    length taken = (if channel_opened id w
                    then min n (length (buf_queue Data id (w_bufs w))) else 0%nat) /\
    tx_run id buf (zip nows (unpack <$> taken)) = (buf', ms) /\
    wrote (ax_wr_fd ax) (mjoin ms) w w'.

Lemma turn_taken id buf ax w buf' w' :
  world_wf w -> packet_wf buf -> turn_post id buf ax w buf' w' ->
  world_wf w' /\ packet_wf buf' /\ bufs_only Data id (w_bufs w) (w_bufs w') /\
  (buf' = buf /\ w' = w /\ (channel_opened id w = false \/ buf_queue Data id (w_bufs w) = []) \/
   channel_opened id w = true /\ exists x now out,
     buf_queue Data id (w_bufs w) = x :: buf_queue Data id (w_bufs w') /\
     tx_step id buf now (unpack x) = (buf', out) /\ wrote (ax_wr_fd ax) out w w').
Proof.
  intros Hwf Hw Ht. unfold turn_post in Ht. fold (channel_opened id w) in Ht.
  destruct (channel_opened id w) eqn:Ho.
  2: { destruct Ht as [-> ->]. split_and!; try done. left. by auto. }
  destruct (buf_queue Data id (w_bufs w)) as [|x q] eqn:Hq.
  { destruct Ht as [-> ->]. split_and!; try done. left. by auto. }
  destruct Ht as (b & now & out & Hb & Hon & Hqb & Hst & Hs & _).
  pose proof (tx_step_spec id buf now (unpack x) Hw) as Hsp. rewrite Hst in Hsp.
  pose proof (se_bufs _ _ _ _ Hs) as Hbufs. simpl in Hbufs.
  split; [apply (se_wf _ _ _ _ Hs); by eapply get_wf|]. split; [apply Hsp|].
  rewrite Hbufs. split; [done|]. right. split; [done|]. exists x, now, out.
  rewrite Hqb. split; [done|]. split; [done | by eapply sent_wrote].
Qed.

Lemma wrote_opened id fd out w w' : wrote fd out w w' -> channel_opened id w' = channel_opened id w.
Proof. intros Hw. unfold channel_opened. by rewrite (wr_configs _ _ _ _ Hw). Qed.

Lemma send_turns_spec n id buf ax w :
  held_below 2 w -> world_wf w -> packet_wf buf -> 0 <= id < 6 ->
  w_axican w !! Z.to_nat id = Some ax ->
  wp (send_turns n id buf) (turns_post n id buf ax w) w.
Proof.
  intros Hb Hwf Hw Hid. revert buf ax w Hb Hwf Hw.
  induction n as [|n IH]; intros buf ax w Hb Hwf Hw Hax; cbn [send_turns].
  { wp_step. split_and!; try done. exists [], [], []. split_and!; try done;
      [by case_match | apply wrote_refl]. }
  wp_step. eapply wp_mono; [by apply send_turn_spec|]. intros buf1 w1 Ht.
  destruct (turn_taken id buf ax w buf1 w1 Hwf Hw Ht) as (Hwf1 & Hw1 & Hon & Hcase).
  destruct Hcase as [(-> & -> & Hidle) | (Ho & x & now & out & Hq & Hst & Hwr)].
  - eapply wp_mono; [by apply IH|].
    intros buf' w' (Hwf' & Hw' & Hon' & taken & nows & ms & Hq & Hl & Hlt & Hrun & Hwr).
    split_and!; try done. exists taken, nows, ms. split_and!; try done.
    destruct Hidle as [Hi|Hi]; rewrite ?Hi in *; [done|]. rewrite Hlt. case_match; simpl; lia.
  - destruct (device_kept _ _ _ _ (wr_device _ _ _ _ Hwr) Hax) as (ax1 & Hax1 & _ & Hfd).
    eapply wp_mono; [apply IH; [| done | done | exact Hax1]|].
    { eapply held_below_eq; [apply (wr_held _ _ _ _ Hwr) | done]. }
    intros buf' w' (Hwf' & Hw' & Hon' & taken & nows & ms & Hq' & Hl & Hlt & Hrun & Hwr').
    split_and!; [done | done | by etransitivity|].
    exists (x :: taken), (now :: nows), (match out with [] => ms | _ => out :: ms end).
    rewrite (wrote_opened id _ _ _ _ Hwr), Ho in Hlt. rewrite Ho.
    split_and!; [by rewrite Hq, Hq' | simpl; by rewrite Hl | rewrite Hq; simpl; by rewrite Hlt | |].
    + change (zip (now :: nows) (unpack <$> x :: taken))
        with ((now, unpack x : PC_ARM_DATA_DATA) :: zip nows (unpack <$> taken)).
      cbn [tx_run]. by rewrite Hst, Hrun.
    + rewrite Hfd in Hwr'.
      replace (mjoin (match out with [] => ms | _ => out :: ms end)) with (out ++ mjoin ms)
        by by destruct out. by eapply wrote_trans.
Qed.

Lemma data_target_inited id w :
  world_wf w -> 0 <= id < 6 ->
  ringbuffer_32ch_target_is_inited (Some (g_data_buf_set (w_bufs w))) id (sizeof PC_ARM_DATA_DATA)
    = Some true.
Proof.
  intros Hwf Hid. destruct (ww_bufs _ Hwf Data) as ((l & chs & Hc & Hl & Hall) & Hm & He & Hcap).
  cbn [buf_set buf_chans buf_esize buf_depth] in *.
  unfold ringbuffer_32ch_target_is_inited.
  rewrite Z.geb_leb, (proj2 (Z.leb_gt _ _)) by lia. rewrite He, Z.eqb_refl. cbn [negb].
  rewrite Hc. cbn [mbind option_bind snd].
  destruct (lookup_lt_is_Some_2 chs (Z.to_nat id)) as [p Hp]; [unfold zlen in Hl; lia|].
  rewrite Hp. cbn [mbind option_bind].
  destruct (Forall_lookup_1 _ _ _ _ Hall Hp) as (l' & rb & -> & Hrb & Hes & Hmask).
  destruct (wf_data _ Hrb) as (l2 & d & Hd & _). rewrite Hd, Hes, He, Z.eqb_refl. cbn [negb].
  rewrite Hmask, Hcap. done.
Qed.

Lemma send_thread_wp n id buf ax w :
  held_below 2 w -> world_wf w -> packet_wf buf -> 0 <= id < 6 ->
  w_axican w !! Z.to_nat id = Some ax ->
  wp (axican_data_send_thread n id buf) (turns_post n id buf ax w) w.
Proof.
  intros Hb Hwf Hw Hid Hax. unfold axican_data_send_thread. wp_step. wp_step. wp_step.
  eapply wp_of_option; [by apply data_target_inited|]. by apply send_turns_spec.
Qed.

(** C16. The sending thread refines the reassembly: started on a well-formed
    state, it finds its buffer initialised and is never stuck; in [n] turns it
    takes the oldest [n] frames of the queue of its channel, or fewer when the
    queue runs empty, and none while the channel is closed; it touches no other
    queue; and it writes to the descriptor of its channel, in order, exactly
    the frames of the messages the reassembly gives for the frames taken. *)
Theorem send_thread_refines n id buf ax w :
  held_below 2 w -> world_wf w -> packet_wf buf -> 0 <= id < 6 ->
  w_axican w !! Z.to_nat id = Some ax ->
  exists buf' w', axican_data_send_thread n id buf w = Some (buf', w') /\
    world_wf w' /\ packet_wf buf' /\ bufs_only Data id (w_bufs w) (w_bufs w') /\
    exists taken nows ms,
      buf_queue Data id (w_bufs w) = taken ++ buf_queue Data id (w_bufs w') /\
      length nows = length taken /\
      length taken = (if channel_opened id w
                      then min n (length (buf_queue Data id (w_bufs w))) else 0%nat) /\
      tx_run id buf (zip nows (unpack <$> taken)) = (buf', ms) /\
      wrote (ax_wr_fd ax) (mjoin ms) w w'.
Proof.
  intros Hb Hwf Hw Hid Hax.
  destruct (proj1 (wp_exec _ _ _) (send_thread_wp n id buf ax w Hb Hwf Hw Hid Hax)) as (buf' & w' & Hrun & Hpost).
  by exists buf', w'.
Qed.

(** C17. What is written: whatever the queue of a channel holds and whatever
    [time] answers, in any number of turns of the sending thread, from its empty
    buffer on, what is written to the descriptor of the channel is a sequence of
    messages. Each is a single frame, or 2 to 10 packets numbered from zero
    without a gap, as many as the first of them announces; all carry the sync
    word and the number of the channel; the packets of a message were taken from
    the queue in their order, and between the first and the last of them only
    frames the thread passes over: no other packet of a longer message that the
    buffer could take; and no frame is written twice. *)
Theorem written_messages_complete n id ax w :
  held_below 2 w -> world_wf w -> 0 <= id < 6 -> w_axican w !! Z.to_nat id = Some ax ->
  exists buf' w' taken ms,
    axican_data_send_thread n id packet_zero w = Some (buf', w') /\
    buf_queue Data id (w_bufs w) = taken ++ buf_queue Data id (w_bufs w') /\
    length taken = (if channel_opened id w
                    then min n (length (buf_queue Data id (w_bufs w))) else 0%nat) /\
    wrote (ax_wr_fd ax) (mjoin ms) w w' /\
    Forall (fun m => message_ok m /\ gathered id (zlen m) (unpack <$> taken) m) ms /\
    mjoin ms ⊆+ (unpack <$> taken).
Proof.
  intros Hb Hwf Hid Hax.
  destruct (proj1 (wp_exec _ _ _) (send_thread_wp n id packet_zero ax w Hb Hwf packet_zero_wf Hid Hax))
    as (buf' & w' & Hrun & _ & _ & _ & taken & nows & ms & Hq & Hl & Hlt & Htx & Hwr).
  exists buf', w', taken, ms. do 4 (split; [done|]).
  set (fs := zip nows (unpack <$> taken)) in *.
  assert (fs.*2 = unpack <$> taken) as Hfs by (apply snd_zip; rewrite length_fmap; lia).
  pose proof (tx_run_spec id packet_zero fs packet_zero_wf) as Hs.
  pose proof (tx_run_gathered id [] packet_zero fs packet_zero_wf (gathering_nil _ _ _)) as Hg.
  rewrite Htx in Hs, Hg. cbn [snd] in Hg. rewrite !app_nil_l, Hfs in Hs, Hg.
  destruct Hs as (_ & Hok & Hperm & _). split; [by apply list.Forall_and|].
  etransitivity; [|exact Hperm]. by apply submseteq_inserts_r.
Qed.

(** What [time] would answer after [k] more calls of it. *)
Definition reading (k : nat) (w : world) : Z := s32 (os_ret (replicate k SysTime ++ w_hist w) SysTime).

(** For the next [n] calls the clock goes forward, by a second at most. *)
Definition steady_clock (n : nat) (w : world) : Prop :=
  forall k, (S k < n)%nat -> 0 <= reading (S k) w - reading k w <= 1.

Lemma reading_after k w w' : w_hist w' = SysTime :: w_hist w -> reading k w' = reading (S k) w.
Proof.
  intros Hh. unfold reading. rewrite Hh, replicate_S_end, <- app_assoc. done.
Qed.

(** The turns that complete a message of which [pre] has been taken. *)
Lemma message_turns id n q xs pre buf ax w :
  held_below 2 w -> world_wf w -> packet_wf buf -> 0 <= id < 6 ->
  w_axican w !! Z.to_nat id = Some ax -> channel_opened id w = true ->
  buf_queue Data id (w_bufs w) = xs ++ q -> 2 <= n <= 10 -> xs <> [] -> zlen pre + zlen xs = n ->
  in_sequence (pre ++ (unpack <$> xs)) ->
  Forall (fun f => total_of f = n /\ pd_head f = PC_STATUS_HEAD /\ pd_ch_id f = id) (unpack <$> xs) ->
  (pre = [] \/ exists t, collecting n pre t buf /\ 0 <= time_now w - t <= 1) ->
  steady_clock (length xs) w ->
  wp (send_turns (length xs) id buf) (fun buf' w' => buf' = packet_zero /\
    buf_queue Data id (w_bufs w') = q /\ wrote (ax_wr_fd ax) (pre ++ (unpack <$> xs)) w w') w.
Proof.
  intros Hb Hwf Hw Hid Hax Ho Hq Hn. revert pre buf ax w Hb Hwf Hw Hax Ho Hq.
  induction xs as [|x xs IH]; intros pre buf ax w Hb Hwf Hw Hax Ho Hq Hne Hlen Hseq Hall Hpre Hclock; [done|].
  rewrite fmap_cons in *. set (f := unpack x : PC_ARM_DATA_DATA) in *.
  apply list.Forall_cons in Hall as [(Hft & Hfh & Hfid) Hall].
  assert (zlen (x :: xs) = 1 + zlen xs /\ 0 <= zlen xs) as [Hxl Hx0] by (unfold zlen; simpl length; lia).
  assert (sequence_of f = zlen pre) as Hfs.
  { unfold zlen. apply Hseq. rewrite lookup_app_r by lia. by rewrite Nat.sub_diag. }
  cbn [length send_turns]. wp_step. eapply wp_mono; [by apply send_turn_spec|]. intros buf1 w1 Ht.
  destruct (turn_taken id buf ax w buf1 w1 Hwf Hw Ht) as (Hwf1 & Hw1 & _ & _).
  unfold turn_post in Ht. fold (channel_opened id w) in Ht. rewrite Ho, Hq in Ht. cbn [app] in Ht.
  destruct Ht as (b & now & out & _ & _ & Hqb & Hst & Hs & Hnow). fold f in Hst, Hnow.
  destruct (Hnow ltac:(unfold packet_for; split_and!; [done | done | lia])) as [-> Hquiet].
  pose proof (sent_wrote _ _ _ _ _ Hs) as Hwr. pose proof (se_bufs _ _ _ _ Hs) as Hbufs. simpl in Hbufs.
  pose proof (next_packet id n pre buf (time_now w) f Hn ltac:(lia) Hfs Hft Hfh Hfid Hpre) as Hnext.
  rewrite Hst in Hnext. destruct (Z.eqb_spec (zlen pre + 1) n) as [He|Hmore].
  - assert (xs = []) as -> by (destruct xs; [done | unfold zlen in *; simpl in *; lia]).
    injection Hnext as -> ->. cbn [length send_turns]. wp_step. rewrite Hbufs. by split_and!.
  - destruct Hnext as (buf2 & [= <- ->] & Hco). specialize (Hquiet eq_refl).
    destruct (device_kept _ _ _ _ (wr_device _ _ _ _ Hwr) Hax) as (ax1 & Hax1 & _ & Hfd).
    eapply wp_mono.
    { apply (IH (pre ++ [f]) buf1 ax1 w1); try done.
      - eapply held_below_eq; [apply (wr_held _ _ _ _ Hwr) | done].
      - by rewrite (wrote_opened id _ _ _ _ Hwr).
      - by rewrite Hbufs.
      - intros ->. unfold zlen in *. simpl in *. lia.
      - rewrite zlen_app. change (zlen [f]) with 1. lia.
      - by rewrite <- app_assoc.
      - right. exists (time_now w). split; [done|]. change (time_now w1) with (reading 0 w1).
        rewrite (reading_after 0 w w1 Hquiet). apply (Hclock 0%nat).
        destruct xs; [unfold zlen in *; simpl in *; lia | simpl; lia].
      - intros k Hk. rewrite !(reading_after _ w w1 Hquiet). apply Hclock. simpl. lia. }
    intros buf' w' (-> & Hq' & Hwr'). split; [done|]. split; [done|]. rewrite Hfd in Hwr'.
    rewrite <- app_assoc in Hwr'. rewrite <- (app_nil_l (pre ++ _)). by eapply wrote_trans.
Qed.

(** C18. Delivery: when the oldest frames in the queue of an open channel are
    the 2 to 10 packets of a message for the channel, in their order, and the
    clock goes forward by a second at most from one packet to the next, as many
    turns of the sending thread write the message whole to the descriptor of
    the channel and nothing else, whatever incomplete message the buffer held;
    they leave the buffer empty and take nothing else from the queue. *)
Theorem whole_message_written id buf ax xs q w :
  held_below 2 w -> world_wf w -> packet_wf buf -> 0 <= id < 6 ->
  w_axican w !! Z.to_nat id = Some ax -> channel_opened id w = true ->
  buf_queue Data id (w_bufs w) = xs ++ q -> message_packets id (unpack <$> xs) ->
  steady_clock (length xs) w ->
  exists w', axican_data_send_thread (length xs) id buf w = Some (packet_zero, w') /\
    buf_queue Data id (w_bufs w') = q /\ wrote (ax_wr_fd ax) (unpack <$> xs) w w'.
Proof.
  intros Hb Hwf Hw Hid Hax Ho Hq (Hlen & Hseq & Hall) Hclock.
  assert (zlen ((unpack : bytes -> PC_ARM_DATA_DATA) <$> xs) = zlen xs) as Hl by (unfold zlen; by rewrite length_fmap).
  rewrite Hl in Hlen, Hall.
  assert (wp (axican_data_send_thread (length xs) id buf) (fun buf' w' => buf' = packet_zero /\
    buf_queue Data id (w_bufs w') = q /\ wrote (ax_wr_fd ax) (unpack <$> xs) w w') w) as Hwp.
  { unfold axican_data_send_thread. wp_step. wp_step. wp_step.
    eapply wp_of_option; [by apply data_target_inited|].
    apply (message_turns id (zlen xs) q xs [] buf ax w); try done; [by intros ->; destruct Hlen | by left]. }
  apply wp_exec in Hwp as (buf' & w' & Hrun & -> & Hpost). by exists w'.
Qed.
End Thread.

(** A message broken off two seconds ago is dropped; but after 2147484 seconds
    the product wraps around, and it is taken for a recent one. *)
Definition broken_off : PacketBuffer := mk_packet (pb_frames packet_zero) 3 1 true 100.

Example old_message_dropped : expired broken_off 102 = packet_zero.
Proof. reflexivity. Qed.

Example stale_message_kept : expired broken_off (100 + 2147484) = broken_off.
Proof. reflexivity. Qed.

(** ** Witnesses *)

Definition packet_of (ch no sum : Z) : PC_ARM_DATA_DATA :=
  {| pd_head := PC_STATUS_HEAD; pd_direction := 0; pd_type := 1; pd_length := 48; pd_ch_id := ch;
     pd_total_count := 0; pd_ch_count := 0; pd_idr := 0x123; pd_drcr := 8; pd_dw1r := no;
     pd_dw2r := 2; pd_packets_sum := sum; pd_packets_no := no; pd_timestamp := 0;
     pd_xor_checksum := 0 |}.

Lemma queue_one f w q :
  world_wf w -> w_held w = [] -> buf_queue Data 2 (w_bufs w) = q -> zlen q < 100 ->
  length (pack f : bytes) = 48%nat -> exists w1, world_wf w1 /\ w_held w1 = [] /\
  w_axican w1 = w_axican w /\ channel_opened 2 w1 = channel_opened 2 w /\
  buf_queue Data 2 (w_bufs w1) = q ++ [pack (f : PC_ARM_DATA_DATA)].
Proof.
  intros Hwf Hh Hq Hl Hf.
  assert (wp (buf_put Data 2 (pack f) 32) (fun _ w1 => world_wf w1 /\ w_held w1 = [] /\
    w_axican w1 = w_axican w /\ channel_opened 2 w1 = channel_opened 2 w /\
    buf_queue Data 2 (w_bufs w1) = q ++ [pack f]) w) as Hwp.
  { apply wp_buf_put; [apply Hwf | lia | unfold zlen; rewrite Hf; change (buf_esize Data) with 48; lia |].
    intros r b Hb Ho Hp. rewrite take_ge in Hp by (rewrite Hf; change (buf_esize Data) with 48; lia).
    rewrite Hq in Hp. change (buf_chan_ok Data 2 32) with true in Hp. cbv iota in Hp.
    unfold Fifo.put in Hp. change (buf_depth Data) with 131072 in Hp.
    rewrite (proj2 (Z.ltb_lt _ _)) in Hp by lia. injection Hp as _ Hq'.
    split; [by apply (get_wf 2)|]. done. }
  destruct (proj1 (wp_exec _ _ _) Hwp) as (r & w1 & _ & H1). by exists w1.
Qed.

(** Frames in the queue of an open channel. *)
Lemma queued_world fs :
  (length fs < 100)%nat -> Forall (fun f : PC_ARM_DATA_DATA => length (pack f) = 48%nat) fs ->
  exists w1, world_wf w1 /\ w_held w1 = [] /\ w_axican w1 = w_axican opened_world /\
  channel_opened 2 w1 = true /\ buf_queue Data 2 (w_bufs w1) = pack <$> fs.
Proof.
  induction fs as [|f fs IH] using rev_ind; intros Hl Hall.
  { exists opened_world. split; [apply opened_world_wf|]. do 3 (split; [done|]).
    change (w_bufs opened_world) with empty_buffers. by rewrite empty_buffers_queue. }
  apply list.Forall_app in Hall as [Hall Hf]. apply list.Forall_singleton in Hf.
  rewrite length_app in Hl. simpl in Hl. destruct IH as (w & Hwf & Hh & Hax & Ho & Hq); [lia | done |].
  destruct (queue_one f w _ Hwf Hh Hq) as (w1 & Hwf1 & Hh1 & Hax1 & Ho1 & Hq1);
    [unfold zlen; rewrite length_fmap; lia | done |].
  exists w1. rewrite fmap_app, <- Hax, <- Ho. by split_and!.
Qed.

Lemma queued_frame_world : exists w1, world_wf w1 /\ w_held w1 = [] /\
  w_axican w1 = w_axican opened_world /\ channel_opened 2 w1 = true /\
  buf_queue Data 2 (w_bufs w1) = [pack (packet_of 2 0 1)].
Proof. apply (queued_world [packet_of 2 0 1]); [simpl; lia | by repeat constructor]. Qed.

(** Frames, one of which starts a message that is then broken off. *)
Definition mixed_frames : list PC_ARM_DATA_DATA :=
  [packet_of 2 0 5; packet_of 2 0 1; packet_of 2 0 3; packet_of 2 1 3; packet_of 2 2 3].

Lemma written_messages_complete_witness :
  exists w ax buf' w' taken ms, w_axican w !! 2%nat = Some ax /\
    axican_data_send_thread (H := quiet_os) 9 2 packet_zero w = Some (buf', w') /\
    length taken = 5%nat /\ wrote (ax_wr_fd ax) (mjoin ms) w w' /\
    Forall (fun m => message_ok m /\ gathered 2 (zlen m) (unpack <$> taken) m) ms.
Proof.
  destruct (queued_world mixed_frames) as (w & Hwf & Hh & _ & Ho & Hq);
    [simpl; lia | by repeat constructor |].
  destruct (axican_lookup 2 w Hwf ltac:(lia)) as [ax Hax].
  destruct (written_messages_complete (H := quiet_os) 9 2 ax w)
    as (buf' & w' & taken & ms & Hrun & _ & Hl & Hwr & Hms & _);
    [unfold held_below; rewrite Hh; constructor | exact Hwf | lia | exact Hax |].
  exists w, ax, buf', w', taken, ms. split; [exact Hax|]. split; [exact Hrun|].
  split; [rewrite Hl, Ho, Hq; reflexivity|]. split; [exact Hwr | exact Hms].
Defined.

(** A three-packet message and the frame after it. *)
Definition three_packets : list PC_ARM_DATA_DATA := [packet_of 2 0 3; packet_of 2 1 3; packet_of 2 2 3].

Lemma whole_message_written_witness :
  exists w ax w', w_axican w !! 2%nat = Some ax /\
    buf_queue Data 2 (w_bufs w) = pack <$> three_packets ++ [packet_of 2 0 1] /\
    axican_data_send_thread (H := quiet_os) 3 2 packet_zero w = Some (packet_zero, w') /\
    buf_queue Data 2 (w_bufs w') = [pack (packet_of 2 0 1)] /\ wrote (ax_wr_fd ax) three_packets w w'.
Proof.
  destruct (queued_world (three_packets ++ [packet_of 2 0 1])) as (w & Hwf & Hh & _ & Ho & Hq);
    [simpl; lia | by repeat constructor |].
  destruct (axican_lookup 2 w Hwf ltac:(lia)) as [ax Hax].
  assert ((unpack : bytes -> PC_ARM_DATA_DATA) <$> (pack <$> three_packets) = three_packets) as Hun.
  { unfold three_packets. cbn [fmap list_fmap]. rewrite !unpack_pack by (by vm_compute). reflexivity. }
  destruct (whole_message_written (H := quiet_os) 2 packet_zero ax (pack <$> three_packets) [pack (packet_of 2 0 1)] w)
    as (w' & Hrun & Hq' & Hwr).
  - unfold held_below. rewrite Hh. constructor.
  - exact Hwf.
  - exact packet_zero_wf.
  - lia.
  - exact Hax.
  - exact Ho.
  - rewrite Hq. reflexivity.
  - rewrite Hun. split; [by vm_compute|]. split.
    + intros i f Hi. do 3 (destruct i as [|i]; [injection Hi as <-; by vm_compute|]). done.
    + repeat constructor; by vm_compute.
  - intros k Hk. unfold reading. change (os_ret _ SysTime) with 0 at 1 2. by vm_compute.
  - rewrite Hun in Hwr. exists w, ax, w'. split; [exact Hax|]. split; [exact Hq|]. split; [exact Hrun|].
    split; [exact Hq' | exact Hwr].
Defined.

Lemma send_thread_refines_witness :
  exists w1 ax buf' w', buf_queue Data 2 (w_bufs w1) = [pack (packet_of 2 0 1)] /\
    axican_data_send_thread (H := quiet_os) 5 2 packet_zero w1 = Some (buf', w') /\ world_wf w' /\
    buf_queue Data 2 (w_bufs w') = [] /\ wrote (ax_wr_fd ax) [packet_of 2 0 1] w1 w'.
Proof.
  destruct queued_frame_world as (w1 & Hwf & Hh & Hax & Ho & Hq).
  destruct (axican_lookup 2 w1 Hwf ltac:(lia)) as [ax Hax2].
  destruct (send_thread_refines (H := quiet_os) 5 2 packet_zero ax w1)
    as (buf' & w' & Hrun & Hwf' & _ & _ & taken & nows & ms & Hq' & Hl & Hlt & Hrun' & Hwr);
    [unfold held_below; rewrite Hh; constructor | exact Hwf | exact packet_zero_wf | lia | exact Hax2 |].
  exists w1, ax, buf', w'. split; [exact Hq|]. split; [exact Hrun|]. split; [exact Hwf'|].
  rewrite Ho, Hq in Hlt. rewrite Hq in Hq'.
  destruct taken as [|x [|y taken]]; [discriminate Hlt | | discriminate Hlt].
  change ([pack (packet_of 2 0 1)] = x :: buf_queue Data 2 (w_bufs w')) in Hq'.
  assert (pack (packet_of 2 0 1) = x /\ [] = buf_queue Data 2 (w_bufs w')) as [Hx Hrest]
    by (injection Hq'; intros Hr He; exact (conj He Hr)). split; [exact (eq_sym Hrest)|].
  change (zip nows (unpack <$> [x])) with (zip nows [unpack x : PC_ARM_DATA_DATA]) in Hrun'.
  rewrite <- Hx in Hrun'.
  destruct nows as [|now [|? ?]]; [discriminate Hl | | discriminate Hl].
  change (zip [now] [unpack (pack (packet_of 2 0 1)) : PC_ARM_DATA_DATA])
    with [(now, unpack (pack (packet_of 2 0 1)) : PC_ARM_DATA_DATA)] in Hrun'.
  rewrite (unpack_pack (packet_of 2 0 1)) in Hrun' by (by vm_compute).
  injection Hrun' as _ Hms. rewrite <- Hms in Hwr. exact Hwr.
Defined.
