(* ===== verification/CanRx.v ===== *)
(** * Receiving from the CAN channels
    ([src/main18.c], [axican_read_data], [axican_data_recv_thread],
    [handle_normal_mode], [axican_data_process_thread], and the monitor of the
    sent frames: [axican_read_data_t], [send_data_tid_thread],
    [axican_data_process_thread_1]; [src/axican/axican.c]).

    Two pipelines of the same shape run on every channel: a thread reads the
    frames the driver holds into a queue, and another one takes them from the
    queue and reports them to the PC.  A full queue drops the new frame. *)
From S2P Require Import Prelude Words Ring RingSet Layout World Upload Broadcast Commands CanTx.
From Stdlib Require Import (notations) String.

Definition DEQUEUE_BATCH_SIZE : Z := 32.
Definition POLL_TIMEOUT_MS : Z := -1.

Definition set_ax_rx_frame (v : axican_frame) (a : axican) : axican :=
  mk_axican (ax_id a) (ax_rd_fd a) (ax_rd_flags a) (ax_wr_fd a) (ax_wr_flags a)
    v (ax_tx_frame a) (ax_count a) (ax_w_count a).
Definition set_ax_tx_frame (v : axican_frame) (a : axican) : axican :=
  mk_axican (ax_id a) (ax_rd_fd a) (ax_rd_flags a) (ax_wr_fd a) (ax_wr_flags a)
    (ax_rx_frame a) v (ax_count a) (ax_w_count a).
Definition set_ax_count (v : Z) (a : axican) : axican :=
  mk_axican (ax_id a) (ax_rd_fd a) (ax_rd_flags a) (ax_wr_fd a) (ax_wr_flags a)
    (ax_rx_frame a) (ax_tx_frame a) v (ax_w_count a).

(** The two directions: the queue the reading function of each fills, and the
    frame of [struct axican] its caller passes, [&rx_frame] or [&tx_frame]. *)
Inductive rx_path := Received | Monitored.

Definition rx_queue (p : rx_path) : buf_name :=
  match p with Received => CanQueue | Monitored => PollQueue end.
Definition set_path_frame (p : rx_path) (v : axican_frame) : axican -> axican :=
  match p with Received => set_ax_rx_frame v | Monitored => set_ax_tx_frame v end.

(** What a call of the driver leaves in the buffer it is given. *)
Definition fill (answer buffer : bytes) : bytes :=
  take (length buffer) answer ++ drop (length answer) buffer.

Definition zero_bytes : bytes := replicate 24 x00.

Section Rx.
Context `{OS}.
#[local] Open Scope c_scope.

Definition axican_get_frame_count (fd : Z) : M world Z :=
  let* (rc, count) := sys_data (SysIoctlCount fd) in
  if negb (rc =? 0) then ret 0 else ret (s32 (fld 0 4 count)).

Definition read_call (fd flags lenght : Z) : syscall :=
  if negb (flags =? 0) then SysRead fd lenght else SysIoctlFrame fd.

Definition axican_read (fd flags : Z) (buffer : bytes) (lenght : Z) : M world (Z * bytes) :=
  let* (rc, answer) := sys_data (read_call fd flags lenght) in
  ret (rc, fill answer buffer).

(** [for (i = 0; i < frame_count; i++)]; [n] is what is left of the count. *)
Fixpoint read_loop (p frame : rx_path) (n : nat) (i fd flags id frame_count max_channel : Z)
    : M world Z :=
  match n with
  | O => ret frame_count
  | S n' =>
    axican_upd id (set_path_frame frame zero_frame) ;;
    let* (rc, recv_frame) := axican_read fd flags zero_bytes (sizeof axican_frame) in
    axican_upd id (set_path_frame frame (unpack recv_frame)) ;;
    if negb (rc =? sizeof axican_frame) then ret i else
    let* put_result := buf_put (rx_queue p) id recv_frame max_channel in
    read_loop p frame n' (i + 1) fd flags id frame_count max_channel
  end.

(** The body of [axican_read_data] and of [axican_read_data_t], which differ in
    the queue they fill; [None] is a null pointer. *)
Definition axican_read_path (p : rx_path) (fd flags id : Z) (recv_frame : option rx_path)
    (buf_set : option buf_name) (max_channel : Z) : M world Z :=
  if (fd <? 0) || negb (bool_decide (is_Some recv_frame)) || negb (bool_decide (is_Some buf_set))
  then ret (-1) else
  if (id <? 0) || (id >=? max_channel) then ret (-1) else
  let* frame_count := axican_get_frame_count fd in
  if frame_count <=? 0 then ret 0 else
  let* frame := of_option recv_frame in
  read_loop p frame (Z.to_nat frame_count) 0 fd flags id frame_count max_channel.

Definition axican_read_data := axican_read_path Received.

(** The queue that is passed is only tested: the frames go to the monitor queue. *)
Definition axican_read_data_t := axican_read_path Monitored.

(** One turn of the receiving thread; it waits while the channel is closed. *)
Definition axican_data_recv_turn (can_id : Z) : M world unit :=
  let* cfg := config_at can_id in
  if negb (bool_decide (cf_state cfg = CAN_STATE_OPENED)) then ret tt else
  let* ax := arr_get w_axican can_id in
  let* poll_rc := axican_poll2 (ax_rd_fd ax) (ax_rd_flags ax) 100 in
  if poll_rc =? 0 then
    let* read_rc := axican_read_data (ax_rd_fd ax) (ax_rd_flags ax) can_id (Some Received) (Some CanQueue) AXICAN_MAX in
    let* sim_ready := buf_len CanQueue can_id 6 in
    ret tt
  else ret tt.

(** One turn of the monitor of the sent frames. *)
Definition send_data_turn (can_id : Z) : M world unit :=
  let* ax := arr_get w_axican can_id in
  let* rc := axican_poll2 (ax_wr_fd ax) (ax_wr_flags ax) POLL_TIMEOUT_MS in
  if rc =? 0 then
    let* read_count := axican_read_data_t (ax_wr_fd ax) (ax_wr_flags ax) can_id (Some Monitored) (Some CanQueue) AXICAN_MAX in
    axican_upd can_id (fun a => set_ax_count (s32 (ax_count a + read_count)) a)
  else ret tt.

(** ** Reporting to the PC *)

Definition upload_checksum (r : CAN_ARM_PC_DATA) (len : nat) : CAN_ARM_PC_DATA :=
  {| up_PC_ARM_DATE_HEAD := up_PC_ARM_DATE_HEAD r; up_PC_ARM_DATE_LENGTH := up_PC_ARM_DATE_LENGTH r;
     up_PC_ARM_DATE_COUNTER := up_PC_ARM_DATE_COUNTER r;
     up_PC_ARM_DATE_COMMAND := up_PC_ARM_DATE_COMMAND r;
     up_PC_ARM_DATE_CHECKSUM := up_PC_ARM_DATE_CHECKSUM r; up_PC_ARM_CHIND := up_PC_ARM_CHIND r;
     up_head := up_head r; up_direction := up_direction r; up_type := up_type r;
     up_length := up_length r; up_ch_id := up_ch_id r; up_total_count := up_total_count r;
     up_ch_count := up_ch_count r; up_idr := up_idr r; up_drcr := up_drcr r;
     up_dw1r := up_dw1r r; up_dw2r := up_dw2r r; up_status := up_status r;
     up_reserved1 := up_reserved1 r; up_reserved2 := up_reserved2 r;
     up_timestamp := up_timestamp r; up_xor_checksum := calculate_xor_checksum (pack r) len |}.

Definition normal_packet (can_id total_count ch_count : Z) (frame : axican_frame) : CAN_ARM_PC_DATA :=
  upload_checksum
    {| up_PC_ARM_DATE_HEAD := PC_ARM_STATUS_WORD;
       up_PC_ARM_DATE_LENGTH := reverse_4bytes (sizeof CAN_ARM_PC_DATA - 20);
       up_PC_ARM_DATE_COUNTER := 0; up_PC_ARM_DATE_COMMAND := 0; up_PC_ARM_DATE_CHECKSUM := 0;
       up_PC_ARM_CHIND := reverse_4bytes can_id; up_head := PC_STATUS_HEAD; up_direction := 1;
       up_type := 0x81; up_length := 0x30; up_ch_id := can_id; up_total_count := total_count;
       up_ch_count := ch_count; up_idr := fr_can_id frame;
       up_drcr := Z.shiftr (fr_can_dlc frame) 28;
       up_dw1r := fr_data0 frame; up_dw2r := fr_data1 frame; up_status := 0; up_reserved1 := 0;
       up_reserved2 := 0; up_timestamp := fr_timestamp frame; up_xor_checksum := 0 |}
    (psize (A := CAN_ARM_PC_DATA) - 4).

(** A failed and an incomplete send are treated alike, as in [upload_send]. *)
Definition handle_normal_mode (can_id : Z) (frame : axican_frame) : M world unit :=
  let* counter := gets data_counter in
  let total_count := if counter =? 0xFFFFFFFF then 0 else counter + 1 in
  modify (set_data_counter (u16 total_count)) ;;
  arr_upd w_frame_count set_frame_count can_id next_count ;;
  let* ch_count := arr_get w_frame_count can_id in
  let can_resp := normal_packet can_id total_count ch_count frame in
  mutex_lock data_upload_mutex ;;
  let* sock := gets data_upload_socket in
  if sock =? -1 then mutex_unlock data_upload_mutex else
  upload_send (pack can_resp) ;;
  mutex_unlock data_upload_mutex.

(** [for (i = 0; i < read_count; i++)] with its [break]: the frames taken. *)
Fixpoint dequeue_batch (q : buf_name) (n : nat) (can_id : Z) : M world (list axican_frame) :=
  match n with
  | O => ret []
  | S n' =>
    let* (get_result, data) := buf_get q can_id zero_bytes 6 in
    if negb (get_result =? 1) then ret [] else
    let* frame := cast axican_frame data in
    let* rest := dequeue_batch q n' can_id in
    ret (frame :: rest)
  end.

Definition read_batch (q : buf_name) (can_id : Z) : M world (list axican_frame) :=
  let* queued_frames := buf_len q can_id 6 in
  let read_count := if queued_frames <? DEQUEUE_BATCH_SIZE then queued_frames else DEQUEUE_BATCH_SIZE in
  dequeue_batch q (Z.to_nat read_count) can_id.

(** One turn of the thread that reports the received frames. *)
Definition axican_data_process_turn (can_id : Z) : M world unit :=
  let* cfg := config_at can_id in
  if (cf_can_type cfg =? NORMAL_MODE) && bool_decide (cf_state cfg = CAN_STATE_OPENED) then
    let* frames := read_batch CanQueue can_id in
    foreach frames (handle_normal_mode can_id)
  else ret tt.

(** One turn of the thread that reports the sent frames. *)
Definition axican_data_process_turn_1 (can_id : Z) : M world unit :=
  let* frames := read_batch PollQueue can_id in
  let* cfg := config_at can_id in
  when (cf_can_type cfg =? ALONG_MODE) (modify (set_can_data_type 0x82)) ;;
  when (negb (cf_can_type cfg =? ALONG_MODE) && (cf_can_type cfg =? NORMAL_MODE))
    (modify (set_can_data_type 0x80)) ;;
  foreach frames (fun frame =>
    let* can_data_type := gets can_data_type in
    send_can_transmit_response can_id can_data_type 1 frame).
End Rx.

(** ** What the device hands over

    The frames a device gives in a row of [n] reads that starts after the calls
    [h]: the frames read whole before the first read that is not, and the calls
    made. *)
Fixpoint device_frames `{OS} (n : nat) (fd flags : Z) (h : list syscall)
    : list bytes * list syscall :=
  match n with
  | O => ([], h)
  | S n' =>
    let c := read_call fd flags (sizeof axican_frame) in
    if os_ret h c =? sizeof axican_frame then
      let '(fs, h') := device_frames n' fd flags (c :: h) in
      (fill (os_data h c) zero_bytes :: fs, h')
    else ([], c :: h)
  end.

Lemma device_frames_length `{OS} n fd flags h : (length (device_frames n fd flags h).1 <= n)%nat.
Proof.
  revert h. induction n as [|n IH]; intros h; [done|]. cbn [device_frames].
  case_match; simpl; [|lia]. specialize (IH (read_call fd flags (sizeof axican_frame) :: h)).
  destruct (device_frames n fd flags _) as [fs h']. simpl in *. lia.
Qed.

(** A queue of [cap] elements that is offered the elements [xs] keeps as many
    as it has room for. *)
Definition room (cap : Z) (q : list bytes) : nat := Z.to_nat cap - length q.
Definition offer (cap : Z) (q xs : list bytes) : list bytes := q ++ take (room cap q) xs.

Lemma offer_nil cap q : offer cap q [] = q.
Proof. unfold offer. by rewrite take_nil, app_nil_r. Qed.

Lemma offer_cons cap q x xs :
  0 <= cap -> offer cap q (x :: xs) = offer cap (Fifo.put cap q x).2 xs.
Proof.
  intros Hc. unfold offer, room, Fifo.put. destruct (Z.ltb_spec (zlen q) cap) as [Hl|Hl]; unfold zlen in Hl; simpl.
  - rewrite length_app. simpl. replace (Z.to_nat cap - length q)%nat
      with (S (Z.to_nat cap - (length q + 1))) by lia. cbn [take]. by rewrite <- app_assoc.
  - replace (Z.to_nat cap - length q)%nat with 0%nat by lia. by rewrite !take_0.
Qed.

(** A report of channel [id] on the wire: 68 bytes, type 0x81. *)
Definition report_of (id : Z) (c : syscall) : option CAN_ARM_PC_DATA :=
  match c with
  | SysSend _ d =>
    let r := unpack d in
    if (zlen d =? 68) && (up_type r =? 0x81) && (up_ch_id r =? id) then Some r else None
  | _ => None
  end.

(** The reports of a channel so far, the first one first. *)
Definition reports (id : Z) (w : world) : list CAN_ARM_PC_DATA := rev (omap (report_of id) (w_hist w)).

Lemma reports_call id c w :
  reports id (add_call c w) = reports id w ++ match report_of id c with Some r => [r] | None => [] end.
Proof.
  unfold reports. simpl. destruct (report_of id c); simpl; [done|]. by rewrite app_nil_r.
Qed.

Lemma device_frames_reports `{OS} n fd flags h ch :
  omap (report_of ch) (device_frames n fd flags h).2 = omap (report_of ch) h.
Proof.
  revert h. induction n as [|n IH]; intros h; [done|]. cbn [device_frames].
  set (c := read_call fd flags (sizeof axican_frame)).
  assert (omap (report_of ch) (c :: h) = omap (report_of ch) h) as Hc.
  { unfold c, read_call. by case_match. }
  case_match; [|exact Hc]. specialize (IH (c :: h)). rewrite Hc in IH.
  by destruct (device_frames n fd flags (c :: h)).
Qed.

(** Only the queue of the path, the frame buffer and counter of the channels
    and the list of calls may differ. *)
Record rx_frame (p : rx_path) (id : Z) (w w' : world) : Prop := {
  rx_wf : world_wf w -> world_wf w';
  rx_held : w_held w' = w_held w;
  rx_configs : w_configs w' = w_configs w;
  rx_device : ax_device <$> w_axican w' = ax_device <$> w_axican w;
  rx_bufs : bufs_only (rx_queue p) id (w_bufs w) (w_bufs w');
  rx_bc : w_bc w' = w_bc w;
  rx_counts : w_frame_count w' = w_frame_count w;
  rx_counter : data_counter w' = data_counter w;
  rx_upload : data_upload_socket w' = data_upload_socket w;
  rx_download : data_download_socket w' = data_download_socket w;
  rx_extends : extends w w'
}.

#[export] Instance rx_frame_preorder p id : PreOrder (rx_frame p id).
Proof.
  split.
  - intros w. by split.
  - intros w1 w2 w3 [] []. split; try congruence; [by auto | by etransitivity..].
Qed.

Lemma rx_frame_call p id c w : rx_frame p id w (add_call c w).
Proof. split; try done; [by intros [] | by exists [c]]. Qed.

Lemma rx_frame_axican p id g a w :
  (forall a, ax_device (g a) = ax_device a) -> w_axican w !! Z.to_nat id = Some a ->
  rx_frame p id w (set_axican (<[Z.to_nat id := g a]> (w_axican w)) w).
Proof.
  intros Hg Ha. split; try done.
  - intros Hwf. apply set_axican_wf; [done|]. rewrite length_insert. apply Hwf.
  - simpl. rewrite list_fmap_insert, Hg. apply list_insert_id. by rewrite list_lookup_fmap, Ha.
  - by exists [].
Qed.

Lemma rx_queue_eq p : buf_chans (rx_queue p) = 6 /\ buf_esize (rx_queue p) = 24 /\
  buf_depth (rx_queue p) = 32768 /\ rx_queue p <> BcastGroup.
Proof. by destruct p. Qed.

Lemma rx_chan_ok p id : id < 6 -> buf_chan_ok (rx_queue p) id 6 = true.
Proof. intros Hid. unfold buf_chan_ok. destruct (rx_queue_eq p) as (-> & _). lia. Qed.

Lemma rx_frame_queue p id b w :
  world_wf w -> bufs_wf b -> bufs_only (rx_queue p) id (w_bufs w) b ->
  rx_frame p id w (set_bufs b w).
Proof.
  intros Hwf Hb Ho. split; try done; [intros _ | by exists []].
  eapply set_bufs_wf; [apply (rx_queue_eq p) | done..].
Qed.

Lemma fill_length a b : length (fill a b) = length b.
Proof. unfold fill. rewrite length_app, length_take, length_drop. lia. Qed.

Section RxSpec.
Context `{OS}.
#[local] Open Scope c_scope.

Lemma set_path_device p v a : ax_device (set_path_frame p v a) = ax_device a.
Proof. by destruct p. Qed.

Lemma wp_frame_buffer p frame id v (Q : unit -> world -> Prop) w :
  world_wf w -> 0 <= id < 6 ->
  (forall w', rx_frame p id w w' -> w_bufs w' = w_bufs w -> w_hist w' = w_hist w -> Q tt w') ->
  wp (axican_upd id (set_path_frame frame v)) Q w.
Proof.
  intros Hwf Hid HQ. destruct (axican_lookup id w Hwf Hid) as [a Ha].
  eapply wp_arr_upd; [lia | exact Ha |]. apply HQ; [|done..].
  apply rx_frame_axican; [apply set_path_device | done].
Qed.

(** What [read_loop] has done when it returns [r]. *)
Definition loop_post (p : rx_path) (fd flags id : Z) (n : nat) (h : list syscall) (w : world)
    (w' : world) : Prop :=
  let '(fs, h') := device_frames n fd flags h in
  rx_frame p id w w' /\ w_hist w' = h' /\
  buf_queue (rx_queue p) id (w_bufs w') = offer 32768 (buf_queue (rx_queue p) id (w_bufs w)) fs.

Lemma read_loop_spec p frame n i fd flags id fc w :
  world_wf w -> 0 <= id < 6 -> fc = i + Z.of_nat n ->
  wp (read_loop p frame n i fd flags id fc 6) (fun r w' =>
    r = i + zlen (device_frames n fd flags (w_hist w)).1 /\
    loop_post p fd flags id n (w_hist w) w w') w.
Proof.
  intros Hwf Hid. revert i w Hwf. induction n as [|n IH]; intros i w Hwf Hfc; cbn [read_loop].
  { wp_step. split; [unfold zlen; simpl; lia|]. unfold loop_post. simpl. by rewrite offer_nil. }
  wp_step. apply (wp_frame_buffer p); [done..|]. intros w1 Hf1 Hb1 Hh1.
  wp_step. unfold axican_read. wp_step. apply wp_sys_data. rewrite Hh1. wp_step.
  set (c := read_call fd flags (sizeof axican_frame)). set (d := fill _ _).
  set (w2 := add_call c w1).
  assert (rx_frame p id w w2) as Hf2 by (etransitivity; [exact Hf1 | apply rx_frame_call]).
  pose proof (rx_wf _ _ _ _ Hf2 Hwf) as Hwf2.
  wp_step. apply (wp_frame_buffer p); [done..|]. intros w3 Hf3 Hb3 Hh3.
  assert (rx_frame p id w w3) as Hf by by etransitivity.
  assert (w_hist w3 = c :: w_hist w) as Hh by (rewrite Hh3; simpl; by rewrite Hh1).
  assert (w_bufs w3 = w_bufs w) as Hb by (rewrite Hb3; simpl; exact Hb1).
  pose proof (rx_wf _ _ _ _ Hf Hwf) as Hwf3. unfold loop_post. cbn [device_frames]. fold c.
  destruct (os_ret (w_hist w) c =? sizeof axican_frame) eqn:Hrc; cbn [negb].
  2: { wp_step. split; [unfold zlen; simpl; lia|]. by rewrite Hb, offer_nil. }
  destruct (rx_queue_eq p) as (_ & He & Hd & _).
  assert (length d = 24%nat) as Hdl by (unfold d; by rewrite fill_length).
  wp_step. apply wp_buf_put; [apply Hwf3 | lia | rewrite He; unfold zlen; lia |].
  rewrite (rx_chan_ok p) by lia. rewrite He, Hd. rewrite (take_ge d) by lia.
  intros r b Hbw Ho Hput. pose proof (f_equal snd Hput) as Hq. cbn [snd] in Hq.
  eapply wp_mono; [apply (IH (i + 1)); [|lia]|].
  { by apply (rx_wf p id w3); [apply rx_frame_queue|]. }
  intros r' w' (Hr & Hpost). unfold loop_post in Hpost. simpl w_hist in *. rewrite Hh in Hr, Hpost.
  destruct (device_frames n fd flags (c :: w_hist w)) as [fs h'].
  destruct Hpost as (Hf' & Hh' & Hq'). cbn [fst] in *.
  split; [unfold zlen in *; simpl; lia|]. split.
  { etransitivity; [exact Hf|]. etransitivity; [|exact Hf']. by apply rx_frame_queue. }
  split; [done|]. rewrite Hq'. simpl w_bufs. rewrite Hq, Hb. symmetry. by apply offer_cons.
Qed.

(** The number of frames the driver of a device says it holds. *)
Definition device_count (fd : Z) (h : list syscall) : nat :=
  if os_ret h (SysIoctlCount fd) =? 0
  then Z.to_nat (s32 (fld 0 4 (os_data h (SysIoctlCount fd)))) else 0.

(** The frames a reading function gets, and the calls after it. *)
Definition device_batch (fd flags : Z) (h : list syscall) : list bytes * list syscall :=
  device_frames (device_count fd h) fd flags (SysIoctlCount fd :: h).

Definition read_post (p : rx_path) (fd flags id : Z) (w : world) (r : Z) (w' : world) : Prop :=
  let '(fs, h') := device_batch fd flags (w_hist w) in
  r = zlen fs /\ rx_frame p id w w' /\ w_hist w' = h' /\
  buf_queue (rx_queue p) id (w_bufs w') = offer 32768 (buf_queue (rx_queue p) id (w_bufs w)) fs.

Lemma read_path_spec p frame fd flags id w :
  world_wf w -> 0 <= id < 6 -> 0 <= fd ->
  wp (axican_read_path p fd flags id (Some frame) (Some CanQueue) AXICAN_MAX) (read_post p fd flags id w) w.
Proof.
  intros Hwf Hid Hfd. unfold axican_read_path, AXICAN_MAX.
  assert ((fd <? 0) = false) as -> by lia. assert ((id <? 0) = false) as -> by lia.
  assert ((id >=? 6) = false) as -> by lia. cbn [orb negb].
  rewrite !bool_decide_true by done. cbn [negb orb]. cbv iota.
  wp_step. unfold axican_get_frame_count. wp_step. apply wp_sys_data.
  set (w1 := add_call _ w).
  assert (rx_frame p id w w1) as Hf by apply rx_frame_call.
  assert (forall Q : Z -> world -> Prop, (forall r w', read_post p fd flags id w r w' -> Q r w') ->
    device_count fd (w_hist w) = 0%nat -> Q 0 w1) as Hzero.
  { intros Q HQ Hc. apply HQ. unfold read_post, device_batch. rewrite Hc. simpl.
    by rewrite offer_nil. }
  unfold device_count in Hzero. destruct (_ =? 0) eqn:Hrc; cbn [negb]; cbv iota.
  2: { wp_step. change (0 <=? 0) with true. cbv iota. wp_step. apply (Hzero (read_post p fd flags id w)); auto. }
  wp_step. set (count := s32 _) in *. destruct (Z.leb_spec count 0).
  { wp_step. apply (Hzero (read_post p fd flags id w)); [auto | lia]. }
  wp_step. eapply wp_of_option; [done|].
  eapply wp_mono; [apply read_loop_spec; [by apply (rx_wf _ _ _ _ Hf) | done | lia]|].
  intros r w' [Hr Hpost]. unfold read_post, device_batch, device_count, loop_post in *.
  rewrite Hrc. cbv iota. fold count. change (w_hist w1) with (SysIoctlCount fd :: w_hist w) in *.
  destruct (device_frames (Z.to_nat count) fd flags (SysIoctlCount fd :: w_hist w)) as [fs h'].
  destruct Hpost as (Hf' & Hh & Hq).
  split; [simpl in Hr; lia|]. split; [by etransitivity|]. by split.
Qed.

(** What a turn of a reading thread does: it polls the device of its direction
    and, when the device answers, reads a batch. *)
Definition turn_frames (fd flags timeout : Z) (h : list syscall) : list bytes :=
  if ((flags =? 0) || (flags =? 1)) && (os_ret h (SysPoll fd flags timeout) >? 0)
  then (device_batch fd flags (SysPoll fd flags timeout :: h)).1 else [].

Lemma wp_poll fd flags timeout (Q : Z -> world -> Prop) w :
  (if (flags =? 0) || (flags =? 1)
   then Q (if os_ret (w_hist w) (SysPoll fd flags timeout) >? 0 then 0 else -1)
          (add_call (SysPoll fd flags timeout) w)
   else Q (-1) w) ->
  wp (axican_poll2 fd flags timeout) Q w.
Proof.
  intros HQ. unfold axican_poll2. rewrite <- negb_orb.
  destruct ((flags =? 0) || (flags =? 1))%bool; cbn [negb]; cbv iota; [|by wp_step].
  wp_step. apply wp_sys. by case_match; wp_step.
Qed.

Definition received_turn_frames (id : Z) (w : world) : list bytes :=
  match w_axican w !! Z.to_nat id with
  | Some ax => if channel_opened id w then turn_frames (ax_rd_fd ax) (ax_rd_flags ax) 100 (w_hist w) else []
  | None => []
  end.

(** The turns: the queue of the path is offered the frames of the device. *)
Definition turn_offers (p : rx_path) (id : Z) (fs : list bytes) (w w' : world) : Prop :=
  rx_frame p id w w' /\ (forall ch, reports ch w' = reports ch w) /\
  buf_queue (rx_queue p) id (w_bufs w') = offer 32768 (buf_queue (rx_queue p) id (w_bufs w)) fs.

Lemma turn_offers_nil p id w w' :
  rx_frame p id w w' -> (forall ch, reports ch w' = reports ch w) -> w_bufs w' = w_bufs w ->
  turn_offers p id [] w w'.
Proof. intros Hf He Hb. split; [done|]. split; [done|]. by rewrite Hb, offer_nil. Qed.

(** Polling and then reading, as both reading threads do. *)
Lemma poll_read_spec p frame id fd flags timeout w (k : Z -> M world unit) (Q : unit -> world -> Prop) :
  world_wf w -> 0 <= id < 6 -> 0 <= fd ->
  (forall r w', turn_offers p id (turn_frames fd flags timeout (w_hist w)) w w' ->
     wp (k r) Q w') ->
  (forall w', turn_offers p id (turn_frames fd flags timeout (w_hist w)) w w' -> Q tt w') ->
  wp (let* rc := axican_poll2 fd flags timeout in
      if rc =? 0 then
        let* r := axican_read_path p fd flags id (Some frame) (Some CanQueue) AXICAN_MAX in k r
      else ret tt) Q w.
Proof.
  intros Hwf Hid Hfd Hk HQ. wp_step. apply wp_poll. unfold turn_frames in *.
  destruct ((flags =? 0) || (flags =? 1))%bool; cbn [andb] in *.
  2: { change (-1 =? 0) with false. cbv iota. wp_step. apply HQ. by apply turn_offers_nil. }
  set (w1 := add_call _ w).
  assert (rx_frame p id w w1) as Hf by apply rx_frame_call.
  assert (forall ch, reports ch w1 = reports ch w) as He by done.
  destruct (_ >? 0).
  2: { change (-1 =? 0) with false. cbv iota. wp_step. apply HQ. by apply turn_offers_nil. }
  change (0 =? 0) with true. cbv iota. wp_step.
  eapply wp_mono; [apply read_path_spec; [by apply (rx_wf _ _ _ _ Hf) | done..]|].
  intros r w' Hr. apply Hk. unfold read_post in Hr.
  change (w_hist w1) with (SysPoll fd flags timeout :: w_hist w) in Hr.
  unfold device_batch in *.
  set (h1 := SysIoctlCount fd :: _) in *. set (n := device_count _ _) in *.
  pose proof (fun ch => device_frames_reports n fd flags h1 ch) as Hrep.
  destruct (device_frames n fd flags h1) as [fs h']. destruct Hr as (_ & Hf' & Hh & Hq).
  split; [by etransitivity|]. split; [|done].
  intros ch. unfold reports. rewrite Hh. f_equal. apply Hrep.
Qed.

Lemma recv_turn_spec id w ax :
  world_wf w -> 0 <= id < 6 -> w_axican w !! Z.to_nat id = Some ax -> 0 <= ax_rd_fd ax ->
  wp (axican_data_recv_turn id)
    (fun _ w' => turn_offers Received id (received_turn_frames id w) w w') w.
Proof.
  intros Hwf Hid Hax Hfd. unfold axican_data_recv_turn, received_turn_frames, channel_opened.
  destruct (config_lookup id w Hwf) as (c & Hc & _); [lia|]. rewrite Hax, Hc.
  wp_step. eapply wp_arr_get; [lia | exact Hc |].
  destruct (bool_decide _); cbn [negb]; cbv iota.
  2: { wp_step. by apply turn_offers_nil. }
  wp_step. eapply wp_arr_get; [lia | exact Hax |].
  apply poll_read_spec; [done..| | done].
  intros r w' Ht. pose proof (rx_wf _ _ _ _ (proj1 Ht) Hwf) as Hwf'.
  wp_step. apply wp_buf_len; [apply Hwf' | lia |]. by wp_step.
Qed.

Lemma monitor_turn_spec id w ax :
  world_wf w -> 0 <= id < 6 -> w_axican w !! Z.to_nat id = Some ax -> 0 <= ax_wr_fd ax ->
  wp (send_data_turn id)
    (fun _ w' => turn_offers Monitored id
       (turn_frames (ax_wr_fd ax) (ax_wr_flags ax) POLL_TIMEOUT_MS (w_hist w)) w w') w.
Proof.
  intros Hwf Hid Hax Hfd. unfold send_data_turn. wp_step. eapply wp_arr_get; [lia | exact Hax |].
  apply poll_read_spec; [done..| | done].
  intros r w' (Hf & He & Hq). pose proof (rx_wf _ _ _ _ Hf Hwf) as Hwf'.
  destruct (axican_lookup id w' Hwf' Hid) as [a Ha].
  eapply wp_arr_upd; [lia | exact Ha |]. split; [|by split].
  etransitivity; [exact Hf|]. by apply rx_frame_axican.
Qed.
End RxSpec.

(** ** Reporting the received frames *)

(** What a report tells the PC of a frame, and its number. *)
Definition frame_view (f : axican_frame) : Z * Z * Z * Z * Z :=
  (fr_can_id f, Z.shiftr (fr_can_dlc f) 28, fr_data0 f, fr_data1 f, fr_timestamp f).
Definition packet_view (r : CAN_ARM_PC_DATA) : Z * (Z * Z * Z * Z * Z) :=
  (up_ch_count r, (up_idr r, up_drcr r, up_dw1r r, up_dw2r r, up_timestamp r)).

(** The frames of a channel, numbered from its counter [c]. *)
Fixpoint numbered (c : Z) (fs : list axican_frame) : list (Z * (Z * Z * Z * Z * Z)) :=
  match fs with
  | [] => []
  | f :: fs' => (next_count c, frame_view f) :: numbered (next_count c) fs'
  end.

(** The checksum of a report makes its words xor to zero. *)
Definition upload_prefix (r : CAN_ARM_PC_DATA) : bytes :=
  le_enc 4 (up_PC_ARM_DATE_HEAD r) ++ le_enc 4 (up_PC_ARM_DATE_LENGTH r) ++
  le_enc 2 (up_PC_ARM_DATE_COUNTER r) ++ le_enc 2 (up_PC_ARM_DATE_COMMAND r) ++
  le_enc 4 (up_PC_ARM_DATE_CHECKSUM r) ++ le_enc 4 (up_PC_ARM_CHIND r) ++
  le_enc 4 (up_head r) ++ le_enc 1 (up_direction r) ++ le_enc 1 (up_type r) ++
  le_enc 1 (up_length r) ++ le_enc 1 (up_ch_id r) ++ le_enc 4 (up_total_count r) ++
  le_enc 4 (up_ch_count r) ++ le_enc 4 (up_idr r) ++ le_enc 4 (up_drcr r) ++
  le_enc 4 (up_dw1r r) ++ le_enc 4 (up_dw2r r) ++ le_enc 1 (up_status r) ++
  le_enc 1 (up_reserved1 r) ++ le_enc 2 (up_reserved2 r) ++ le_enc 8 (up_timestamp r).

Lemma upload_pack_prefix r : pack r = upload_prefix r ++ le_enc 4 (up_xor_checksum r).
Proof.
  with_strategy transparent [pack] change (pack r) with (CAN_ARM_PC_DATA_pack r).
  unfold CAN_ARM_PC_DATA_pack, upload_prefix. by rewrite <- !app_assoc.
Qed.

Lemma upload_checksum_closed r : calculate_xor_checksum (pack (upload_checksum r 64)) 68 = 0.
Proof.
  assert (length (upload_prefix r) = 64%nat) as Hl
    by (unfold upload_prefix; by rewrite !length_app, !length_le_enc).
  rewrite upload_pack_prefix. change (upload_prefix (upload_checksum r 64)) with (upload_prefix r).
  assert (up_xor_checksum (upload_checksum r 64) = calculate_xor_checksum (upload_prefix r) 64) as ->.
  { simpl. rewrite upload_pack_prefix. apply calculate_xor_checksum_app. by rewrite Hl. }
  change 68%nat with (64 + 4)%nat. rewrite <- Hl.
  apply calculate_xor_checksum_closed; [by rewrite Hl | done].
Qed.

Lemma normal_packet_wf id total c f :
  is_u8 id -> is_u32 total -> is_u32 c -> pwf f -> pwf (normal_packet id total c f).
Proof.
  intros Hid Ht Hc (Hf1 & Hf2 & Hf3 & Hf4 & Hf5).
  assert (is_u32 id) as Hid32 by (unfold in_range in *; lia).
  pose proof (reverse_4bytes_range _ Hid32).
  assert (is_u32 (Z.shiftr (fr_can_dlc f) 28)) as Hdlc.
  { unfold in_range in *. rewrite Z.shiftr_div_pow2 by lia.
    split; [apply Z.div_pos; lia | apply Z.div_lt_upper_bound; lia]. }
  split_and!; simpl; try done. apply calculate_xor_checksum_range.
Qed.

Section Report.
Context `{OS}.
#[local] Open Scope c_scope.

(** The state after a report; a report is counted whether or not it is sent. *)
Definition counted (id c : Z) (w : world) : world :=
  set_frame_count (<[Z.to_nat id := next_count c]> (w_frame_count w))
    (set_data_counter (u16 (data_counter w + 1)) w).

Definition normal_result (id : Z) (frame : axican_frame) (c : Z) (w : world) : world :=
  if data_upload_socket w =? -1 then counted id c w
  else upload_result (pack (normal_packet id (data_counter w + 1) (next_count c) frame))
         (counted id c w).

Lemma handle_normal_mode_eq id frame c w :
  lock_free data_upload_mutex (w_held w) = true -> is_u16 (data_counter w) ->
  0 <= id -> w_frame_count w !! Z.to_nat id = Some c ->
  handle_normal_mode id frame w = Some (tt, normal_result id frame c w).
Proof.
  intros Hl Hdc Hid Hc. unfold handle_normal_mode. unfold bind at 1, gets at 1.
  assert ((data_counter w =? 0xFFFFFFFF) = false) as -> by (unfold in_range in Hdc; lia).
  cbv zeta. unfold bind at 1, modify. unfold bind at 1, arr_upd.
  rewrite (proj2 (Z.ltb_ge _ _)) by done. simpl w_frame_count. rewrite Hc. cbn [mbind option_bind].
  unfold bind at 1, arr_get. rewrite (proj2 (Z.ltb_ge _ _)) by done. simpl w_frame_count.
  rewrite list_lookup_insert_eq by (by eapply lookup_lt_Some). cbn [mbind option_bind].
  fold (counted id c w).
  erewrite (upload_section _ (counted id c w)); [| done | | apply w_held_upload_result].
  - unfold normal_result. simpl data_upload_socket. by case_match.
  - intros _. by rewrite upload_send_eq, upload_result_held.
Qed.

Lemma wp_handle_normal id f c (Q : unit -> world -> Prop) w :
  world_wf w -> held_below 4 w -> 0 <= id < 6 -> w_frame_count w !! Z.to_nat id = Some c ->
  Q tt (normal_result id f c w) -> wp (handle_normal_mode id f) Q w.
Proof.
  intros Hwf Hb Hid Hc HQ. unfold wp.
  erewrite handle_normal_mode_eq; [exact HQ | by eapply lock_free_below | apply Hwf | lia | done].
Qed.

Lemma net_only_counted id c w : w_frame_count w !! Z.to_nat id = Some c -> net_only w (counted id c w).
Proof.
  intros Hc. unfold counted.
  etransitivity; [apply (net_only_count_up w)|]. 
  by apply (net_only_next_count _ _ (count_up w)).
Qed.

Lemma net_only_normal id f c w :
  w_frame_count w !! Z.to_nat id = Some c -> net_only w (normal_result id f c w).
Proof.
  intros Hc. unfold normal_result. case_match; [by apply net_only_counted|].
  etransitivity; [by apply net_only_counted | apply net_only_upload].
Qed.

Lemma frame_count_upload d w : w_frame_count (upload_result d w) = w_frame_count w.
Proof. unfold upload_result. by case_match. Qed.

Lemma frame_count_normal id f c w :
  w_frame_count w !! Z.to_nat id = Some c ->
  w_frame_count (normal_result id f c w) !! Z.to_nat id = Some (next_count c).
Proof.
  intros Hc. assert (w_frame_count (normal_result id f c w)
    = <[Z.to_nat id := next_count c]> (w_frame_count w)) as ->.
  { unfold normal_result. case_match; rewrite ?frame_count_upload; done. }
  apply list_lookup_insert_eq. by eapply lookup_lt_Some.
Qed.

(** The client of port 9010 takes every packet. *)
Definition client_takes (sock : Z) : Prop :=
  sock <> -1 /\ forall h d, os_ret h (SysSend sock d) = zlen d.

(** A report with a client is one send of a packet that shows the frame. *)
Lemma normal_report id f c w :
  world_wf w -> 0 <= id < 6 -> pwf f -> w_frame_count w !! Z.to_nat id = Some c ->
  data_upload_socket w <> -1 ->
  let w' := normal_result id f c w in
  (exists r, reports id w' = reports id w ++ [r] /\ packet_view r = (next_count c, frame_view f)) /\
  (client_takes (data_upload_socket w) -> data_upload_socket w' = data_upload_socket w).
Proof.
  intros Hwf Hid Hf Hc Hs. cbv zeta. unfold normal_result.
  rewrite (proj2 (Z.eqb_neq _ _)) by done.
  set (r := normal_packet id (data_counter w + 1) (next_count c) f).
  pose proof (Forall_lookup_1 _ _ _ _ (ww_counts_u32 _ Hwf) Hc) as Hc32.
  pose proof (ww_counter _ Hwf) as Hdc.
  assert (pwf r) as Hr.
  { apply normal_packet_wf; [| | by apply next_count_range | done]; unfold in_range in *; lia. }
  assert (zlen (pack r) = 68) as Hl by apply (pack_zlen _ Hr).
  set (call := SysSend (data_upload_socket (counted id c w)) (pack r)).
  assert (report_of id call = Some r) as Hcall.
  { unfold call, report_of. rewrite Hl, (unpack_pack _ Hr). cbv zeta.
    change (up_type r) with 0x81. change (up_ch_id r) with id. by rewrite !Z.eqb_refl. }
  split.
  - exists r. split; [|done]. unfold upload_result. fold call.
    assert (reports id (add_call call (counted id c w)) = reports id w ++ [r]) as Hrep.
    { rewrite reports_call, Hcall. done. }
    case_match; [done|]. rewrite <- Hrep. unfold reports. simpl. done.
  - intros [_ Ht]. unfold upload_result. fold call. unfold call.
    simpl (data_upload_socket (counted id c w)). rewrite Ht, Z.eqb_refl. done.
Qed.

(** What reporting the frames [fs] does. *)
Definition reported (id : Z) (fs : list axican_frame) (w w' : world) : Prop :=
  net_only w w' /\ exists c rs, w_frame_count w !! Z.to_nat id = Some c /\
    reports id w' = reports id w ++ rs /\ packet_view <$> rs `prefix_of` numbered c fs /\
    (client_takes (data_upload_socket w) ->
       length rs = length fs /\ data_upload_socket w' = data_upload_socket w).

Lemma reports_disconnected id fs w :
  world_wf w -> held_below 4 w -> 0 <= id < 6 -> data_upload_socket w = -1 ->
  wp (foreach fs (handle_normal_mode id)) (fun _ w' => net_only w w' /\ reports id w' = reports id w) w.
Proof.
  intros Hwf Hb Hid Hs. revert w Hwf Hb Hs. induction fs as [|f fs IH]; intros w Hwf Hb Hs.
  { cbn [foreach]. by wp_step. }
  destruct (lookup_lt_is_Some_2 (w_frame_count w) (Z.to_nat id)) as [c Hc];
    [rewrite (ww_counts _ Hwf); lia|].
  cbn [foreach]. wp_step. eapply wp_handle_normal; [done.. | exact Hc |].
  pose proof (net_only_normal id f c w Hc) as Hn.
  assert (normal_result id f c w = counted id c w) as E.
  { unfold normal_result. by rewrite Hs. }
  rewrite E in *.
  eapply wp_mono; [apply IH; [by eapply net_only_wf | eapply held_below_eq; [apply Hn | done] | done]|].
  intros [] w' [Hn' Hr]. split; [by etransitivity|]. by rewrite Hr.
Qed.

Lemma foreach_reported id fs w :
  world_wf w -> held_below 4 w -> 0 <= id < 6 -> Forall pwf fs ->
  wp (foreach fs (handle_normal_mode id)) (fun _ => reported id fs w) w.
Proof.
  intros Hwf Hb Hid Hfs. revert w Hwf Hb.
  induction Hfs as [|f fs Hf Hfs IH]; intros w Hwf Hb;
    (destruct (lookup_lt_is_Some_2 (w_frame_count w) (Z.to_nat id)) as [c Hc];
      [rewrite (ww_counts _ Hwf); lia|]).
  { cbn [foreach]. wp_step. split; [done|]. exists c, []. rewrite app_nil_r.
    by split_and!. }
  destruct (decide (data_upload_socket w = -1)) as [Hs|Hs].
  { eapply wp_mono; [by apply reports_disconnected|]. intros [] w' [Hn Hr].
    split; [done|]. exists c, []. rewrite app_nil_r. split_and!; [done | done | apply prefix_nil |].
    intros [Ht _]. done. }
  cbn [foreach]. wp_step. eapply wp_handle_normal; [done.. | exact Hc |].
  pose proof (net_only_normal id f c w Hc) as Hn.
  destruct (normal_report id f c w Hwf Hid Hf Hc Hs) as [(r & Hr & Hv) Hkeep].
  pose proof (frame_count_normal id f c w Hc) as Hc1. set (w1 := normal_result id f c w) in *.
  eapply wp_mono; [apply IH; [by eapply net_only_wf | eapply held_below_eq; [apply Hn | done]]|].
  intros [] w' (Hn' & c' & rs & Hc' & Hrs & Hp & Ht). rewrite Hc1 in Hc'. injection Hc' as <-.
  split; [by etransitivity|]. exists c, (r :: rs). split; [done|].
  split; [by rewrite Hrs, Hr, <- app_assoc|]. split.
  - cbn [fmap list_fmap numbered]. rewrite Hv. by apply prefix_cons.
  - intros Hct. specialize (Hkeep Hct). rewrite Hkeep in Ht. destruct (Ht Hct) as [Hl Hs'].
    split; [simpl; by rewrite Hl | done].
Qed.
End Report.

(** ** The turns of the reporting threads *)

Section Turns.
Context `{OS}.
#[local] Open Scope c_scope.

(** A batch: the elements taken from the front of the queue, and the frames. *)
Definition batch_taken (p : rx_path) (id : Z) (n : nat) (w : world) (fs : list axican_frame)
    (w' : world) : Prop :=
  exists b taken, w' = set_bufs b w /\ rx_frame p id w w' /\
    buf_queue (rx_queue p) id (w_bufs w) = taken ++ buf_queue (rx_queue p) id b /\
    length taken = n /\ fs = unpack <$> taken /\ Forall pwf fs.

Lemma dequeue_batch_spec p n id w :
  world_wf w -> 0 <= id < 6 -> (n <= length (buf_queue (rx_queue p) id (w_bufs w)))%nat ->
  wp (dequeue_batch (rx_queue p) n id) (batch_taken p id n w) w.
Proof.
  intros Hwf Hid. revert w Hwf. induction n as [|n IH]; intros w Hwf Hn; cbn [dequeue_batch].
  { wp_step. exists (w_bufs w), []. destruct w. by split_and!. }
  destruct (rx_queue_eq p) as (_ & He & _ & _).
  wp_step. apply wp_buf_get; [apply Hwf | lia | by rewrite He |].
  rewrite (rx_chan_ok p), He by lia.
  destruct (buf_queue (rx_queue p) id (w_bufs w)) as [|x q] eqn:Hq; [simpl in Hn; lia|].
  intros r dst b Hb Ho (-> & Hqb & Hx & ->). cbv [negb]. change (1 =? 1) with true. cbv iota.
  replace (x ++ drop (Z.to_nat 24) zero_bytes) with x by by rewrite app_nil_r.
  wp_step. apply wp_cast; [change (sizeof axican_frame) with 24; lia|].
  pose proof (rx_frame_queue p id b w Hwf Hb Ho) as Hf.
  wp_step. eapply wp_mono; [apply IH; [by apply (rx_wf _ _ _ _ Hf)|]|].
  { simpl w_bufs. rewrite Hqb. simpl in Hn. lia. }
  intros fs w' (b' & taken & -> & Hf' & Hq' & Hl & -> & Hp). wp_step.
  exists b', (x :: taken). split; [done|]. split; [by etransitivity|].
  simpl w_bufs in Hq'. rewrite Hqb in Hq'. split; [simpl; by rewrite Hq, Hq'|].
  split; [simpl; by rewrite Hl|]. split; [done|]. constructor; [|done].
  apply unpack_wf. change (psize (A := axican_frame)) with 24%nat. unfold zlen in Hx. lia.
Qed.

Lemma read_batch_spec p id w :
  world_wf w -> 0 <= id < 6 ->
  wp (read_batch (rx_queue p) id)
    (batch_taken p id (min 32 (length (buf_queue (rx_queue p) id (w_bufs w)))) w) w.
Proof.
  intros Hwf Hid. unfold read_batch. wp_step. apply wp_buf_len; [apply Hwf | lia |].
  rewrite (rx_chan_ok p) by lia. unfold DEQUEUE_BATCH_SIZE.
  set (q := buf_queue _ _ _).
  replace (Z.to_nat (if zlen q <? 32 then zlen q else 32)) with (min 32 (length q))
    by (unfold zlen; case_match; lia).
  apply dequeue_batch_spec; [done..|]. fold q. lia.
Qed.

(** The channel is open and in the normal mode. *)
Definition reporting (id : Z) (w : world) : bool :=
  match w_configs w !! Z.to_nat id with
  | Some c => (cf_can_type c =? NORMAL_MODE) && bool_decide (cf_state c = CAN_STATE_OPENED)
  | None => false
  end.

Definition turn_reports (id : Z) (w w' : world) : Prop :=
  exists taken c rs, bufs_only CanQueue id (w_bufs w) (w_bufs w') /\
    buf_queue CanQueue id (w_bufs w) = taken ++ buf_queue CanQueue id (w_bufs w') /\
    length taken = (if reporting id w then min 32 (length (buf_queue CanQueue id (w_bufs w))) else 0%nat) /\
    w_frame_count w !! Z.to_nat id = Some c /\
    reports id w' = reports id w ++ rs /\ packet_view <$> rs `prefix_of` numbered c (unpack <$> taken) /\
    (client_takes (data_upload_socket w) ->
       length rs = length taken /\ data_upload_socket w' = data_upload_socket w).

Lemma process_turn_spec id w :
  held_below 4 w -> world_wf w -> 0 <= id < 6 ->
  wp (axican_data_process_turn id)
    (fun _ w' => (world_wf w' /\ w_held w' = w_held w /\ w_axican w' = w_axican w /\ extends w w' /\
       w_bc w' = w_bc w) /\ turn_reports id w w') w.
Proof.
  intros Hb Hwf Hid. unfold axican_data_process_turn, turn_reports, reporting.
  destruct (config_lookup id w Hwf) as (cf & Hcf & _); [lia|]. rewrite Hcf.
  destruct (lookup_lt_is_Some_2 (w_frame_count w) (Z.to_nat id)) as [c Hc];
    [rewrite (ww_counts _ Hwf); lia|].
  wp_step. eapply wp_arr_get; [lia | exact Hcf |].
  destruct ((cf_can_type cf =? NORMAL_MODE) && bool_decide (cf_state cf = CAN_STATE_OPENED))%bool.
  2: { wp_step. split; [by split_and!|]. exists [], c, []. rewrite !app_nil_r. by split_and!. }
  wp_step. eapply wp_mono; [apply (read_batch_spec Received); done|].
  intros fs w1 (b & taken & -> & Hf & Hq & Hl & -> & Hp).
  eapply wp_mono; [apply foreach_reported; [by apply (rx_wf _ _ _ _ Hf) | done..]|].
  intros [] w' (Hn & c' & rs & Hc' & Hr & Hpre & Ht). simpl in Hc'. rewrite Hc in Hc'. injection Hc' as <-.
  split.
  { split; [eapply net_only_wf; [exact Hn | by apply (rx_wf _ _ _ _ Hf)]|].
    rewrite (no_held _ _ Hn), (no_axican _ _ Hn), (no_bc _ _ Hn). split; [done|]. split; [done|].
    split; [exact (no_extends _ _ Hn) | done]. }
  exists taken, c, rs. rewrite (no_bufs _ _ Hn). simpl w_bufs.
  split; [apply (rx_bufs _ _ _ _ Hf)|]. split; [done|]. split; [done|]. split; [done|].
  split; [done|]. split; [done|]. intros Hct. specialize (Ht Hct).
  by rewrite length_fmap in Ht.
Qed.

(** The state after one status frame of the monitor, and after several. *)
Definition monitored (id type : Z) (w : world) (f : axican_frame) : world :=
  match w_frame_count w !! Z.to_nat id with
  | Some c => if data_upload_socket w =? -1 then w else transmit_result id type 1 f c w
  | None => w
  end.

(** The type byte of the mode of a channel; the other modes keep the last one. *)
Definition monitor_type (id : Z) (w : world) : Z :=
  match w_configs w !! Z.to_nat id with
  | Some c => if cf_can_type c =? ALONG_MODE then 0x82
              else if cf_can_type c =? NORMAL_MODE then 0x80 else can_data_type w
  | None => can_data_type w
  end.

Lemma net_only_monitored id type w f :
  world_wf w -> 0 <= id < 6 -> net_only w (monitored id type w f).
Proof.
  intros Hwf Hid. unfold monitored.
  destruct (w_frame_count w !! Z.to_nat id) as [c|] eqn:Hc; [|done].
  apply net_only_if; [done | by apply net_only_transmit].
Qed.

Lemma can_data_type_monitored id type w f : can_data_type (monitored id type w f) = can_data_type w.
Proof. unfold monitored, transmit_result, upload_result. by repeat case_match. Qed.

Lemma foreach_monitored id fs w :
  world_wf w -> held_below 4 w -> 0 <= id < 6 ->
  wp (foreach fs (fun frame =>
        let* t := gets can_data_type in send_can_transmit_response id t 1 frame))
    (fun _ w' => w' = foldl (monitored id (can_data_type w)) w fs /\ net_only w w') w.
Proof.
  intros Hwf Hb Hid. revert w Hwf Hb. induction fs as [|f fs IH]; intros w Hwf Hb.
  { cbn [foreach]. by wp_step. }
  destruct (lookup_lt_is_Some_2 (w_frame_count w) (Z.to_nat id)) as [c Hc];
    [rewrite (ww_counts _ Hwf); lia|].
  cbn [foreach]. wp_step. wp_step. wp_step. unfold wp at 1.
  erewrite send_can_transmit_response_eq; [| by eapply lock_free_below | lia | exact Hc].
  pose proof (net_only_monitored id (can_data_type w) w f Hwf Hid) as Hn.
  pose proof (can_data_type_monitored id (can_data_type w) w f) as Ht.
  assert ((if data_upload_socket w =? -1 then w else transmit_result id (can_data_type w) 1 f c w)
    = monitored id (can_data_type w) w f) as ->. { unfold monitored. by rewrite Hc. }
  eapply wp_mono; [apply IH; [by eapply net_only_wf | eapply held_below_eq; [apply Hn | done]]|].
  intros [] w' [-> Hn']. rewrite Ht in *. split; [done | etransitivity; [exact Hn | exact Hn']].
Qed.

Lemma set_data_type_wf v w : world_wf w -> world_wf (set_can_data_type v w).
Proof. intros []. by split. Qed.

Lemma process_turn_1_spec id w :
  held_below 4 w -> world_wf w -> 0 <= id < 6 ->
  wp (axican_data_process_turn_1 id) (fun _ w' => world_wf w' /\ exists b taken,
    bufs_only PollQueue id (w_bufs w) b /\
    buf_queue PollQueue id (w_bufs w) = taken ++ buf_queue PollQueue id b /\
    length taken = min 32 (length (buf_queue PollQueue id (w_bufs w))) /\
    w_bufs w' = b /\
    w' = foldl (monitored id (monitor_type id w))
           (set_can_data_type (monitor_type id w) (set_bufs b w)) (unpack <$> taken)) w.
Proof.
  intros Hb Hwf Hid. unfold axican_data_process_turn_1, monitor_type.
  destruct (config_lookup id w Hwf) as (cf & Hcf & _); [lia|]. rewrite Hcf.
  wp_step. eapply wp_mono; [apply (read_batch_spec Monitored); done|].
  intros fs w1 (b & taken & -> & Hf & Hq & Hl & -> & Hp).
  wp_step. eapply wp_arr_get; [lia | exact Hcf |].
  set (ty := if cf_can_type cf =? ALONG_MODE then _ else _).
  set (w2 := set_can_data_type ty (set_bufs b w)).
  assert (world_wf w2) as Hwf2 by exact (set_data_type_wf _ _ (rx_wf _ _ _ _ Hf Hwf)).
  assert (wp (foreach (unpack <$> taken) (fun frame =>
      let* t := gets can_data_type in send_can_transmit_response id t 1 frame))
    (fun _ w' => world_wf w' /\ w_bufs w' = b /\ w' = foldl (monitored id ty) w2 (unpack <$> taken)) w2)
    as Hend.
  { eapply wp_mono; [by apply foreach_monitored|]. intros [] w' [-> Hn].
    split; [by eapply net_only_wf|]. split; [by rewrite (no_bufs _ _ Hn) | done]. }
  assert (set_can_data_type (can_data_type w) (set_bufs b w) = set_bufs b w) as Hsame by by destruct w.
  assert (wp (when (cf_can_type cf =? ALONG_MODE) (modify (set_can_data_type 0x82)) ;;
    when (negb (cf_can_type cf =? ALONG_MODE) && (cf_can_type cf =? NORMAL_MODE))
      (modify (set_can_data_type 0x80))) (fun _ w' => w' = w2) (set_bufs b w)) as Hset.
  { subst w2 ty. wp_step. destruct (cf_can_type cf =? ALONG_MODE) eqn:E1; cbn [when negb andb].
    - by wp_step.
    - wp_step. destruct (cf_can_type cf =? NORMAL_MODE); cbn [when]; wp_step; done. }
  apply wp_bind_inv in Hset. wp_step. eapply wp_mono; [exact Hset|].
  intros [] w3 H3. wp_step. eapply wp_mono; [exact H3|]. intros [] w4 ->.
  eapply wp_mono; [exact Hend|]. intros [] w' (Hwf' & Hb' & Hw').
  split; [done|]. exists b, taken. split_and!; try done. apply (rx_bufs _ _ _ _ Hf).
Qed.
End Turns.

(** ** The theorems *)

Section Claims.
Context `{OS}.
#[local] Open Scope c_scope.

(** C19. Reading a channel: on either path, with a valid descriptor and
    channel, a frame to read into and a queue, the reading function is never stuck; it asks the driver for its
    count and reads that many frames, stopping at the first read that is not
    whole; it returns how many frames it got; the queue of its path keeps what
    it held and gets those frames in order, as many as there is room for, and
    nothing else of the state changes.  With an invalid descriptor or channel, or
    a null frame or queue, it returns -1 and does nothing. *)
Theorem device_frames_queued p fd flags id frame set w :
  world_wf w ->
  exists r w', axican_read_path p fd flags id frame set AXICAN_MAX w = Some (r, w') /\
    (if (fd <? 0) || negb (bool_decide (is_Some frame)) || negb (bool_decide (is_Some set)) || (id <? 0) || (id >=? AXICAN_MAX)
     then r = -1 /\ w' = w
     else let '(fs, h') := device_batch fd flags (w_hist w) in
       r = zlen fs /\ w_hist w' = h' /\ rx_frame p id w w' /\
       let q := buf_queue (rx_queue p) id (w_bufs w) in
       buf_queue (rx_queue p) id (w_bufs w') = q ++ take (room 32768 q) fs).
Proof.
  intros Hwf. unfold AXICAN_MAX. 
  destruct ((fd <? 0) || negb (bool_decide (is_Some frame)) || negb (bool_decide (is_Some set)))%bool eqn:E1.
  { exists (-1), w. unfold axican_read_path. by rewrite E1. }
  destruct ((id <? 0) || (id >=? 6))%bool eqn:E2.
  { exists (-1), w. unfold axican_read_path. rewrite E1, E2. split; [done|].
    apply orb_true_iff in E2 as [E2|E2]; rewrite E2; cbn [orb]; rewrite ?orb_true_r; done. }
  apply orb_false_iff in E1 as [E1 E1'], E2 as [E2 E2']. apply orb_false_iff in E1 as [E1 E1''].
  rewrite E2, E2'. cbn [orb]. destruct set as [n|], frame as [frame|]; try done.
  change (axican_read_path p fd flags id (Some frame) (Some n))
    with (axican_read_path p fd flags id (Some frame) (Some CanQueue)).
  assert (wp (axican_read_path p fd flags id (Some frame) (Some CanQueue) AXICAN_MAX) (read_post p fd flags id w) w)
    as Hwp by (apply read_path_spec; [done | lia | lia]).
  apply wp_exec in Hwp as (r & w' & Hrun & Hpost). exists r, w'. split; [exact Hrun|].
  unfold read_post in Hpost. destruct (device_batch fd flags (w_hist w)) as [fs h'].
  destruct Hpost as (Hr & Hf & Hh & Hq). by split_and!.
Qed.

(** C20. Reporting a channel: a turn of the reporting thread is never stuck; on
    an open channel in the normal mode it takes the oldest frames of its queue,
    at most 32, and otherwise none; each report it sends is one 68-byte packet
    of the channel that shows the next taken frame, numbered by the next value
    of the counter of the channel; and when the client takes every packet, all
    the taken frames are reported and the client is kept. *)
Theorem report_turn_in_order id w :
  held_below 4 w -> world_wf w -> 0 <= id < AXICAN_MAX ->
  exists w', axican_data_process_turn id w = Some (tt, w') /\ world_wf w' /\
  exists taken c rs, bufs_only CanQueue id (w_bufs w) (w_bufs w') /\
    buf_queue CanQueue id (w_bufs w) = taken ++ buf_queue CanQueue id (w_bufs w') /\
    length taken = (if reporting id w then min 32 (length (buf_queue CanQueue id (w_bufs w))) else 0%nat) /\
    w_frame_count w !! Z.to_nat id = Some c /\
    reports id w' = reports id w ++ rs /\ packet_view <$> rs `prefix_of` numbered c (unpack <$> taken) /\
    (client_takes (data_upload_socket w) ->
       length rs = length taken /\ data_upload_socket w' = data_upload_socket w).
Proof.
  intros Hb Hwf Hid. pose proof (process_turn_spec id w Hb Hwf Hid) as Hwp.
  apply wp_exec in Hwp as ([] & w' & Hrun & (Hwf' & _) & Hpost). by exists w'.
Qed.

(** The queue of received frames of a channel. *)
Definition received_queue (id : Z) (w : world) : list bytes := buf_queue CanQueue id (w_bufs w).

(** What other threads do between the turns of the channel: anything that
    leaves its queue, its reports and its descriptors alone. *)
Definition other_step (id : Z) (w w' : world) : Prop :=
  world_wf w' /\ w_held w' = [] /\ received_queue id w' = received_queue id w /\
  reports id w' = reports id w /\ ax_device <$> w_axican w' = ax_device <$> w_axican w.

(** An interleaving of the turns of the receiving and the reporting thread of a
    channel and of other threads, with the frames accepted into the queue and
    the frames taken for a report. *)
Inductive uplink_run (id : Z) (w0 : world) : list bytes -> list bytes -> world -> Prop :=
| UpStart : uplink_run id w0 [] [] w0
| UpReceive acc up w w' :
    uplink_run id w0 acc up w -> axican_data_recv_turn id w = Some (tt, w') ->
    uplink_run id w0
      (acc ++ take (room 32768 (received_queue id w)) (received_turn_frames id w)) up w'
| UpReport acc up w w' :
    uplink_run id w0 acc up w -> axican_data_process_turn id w = Some (tt, w') ->
    uplink_run id w0 acc
      (up ++ if reporting id w then take 32 (received_queue id w) else []) w'
| UpOther acc up w w' :
    uplink_run id w0 acc up w -> other_step id w w' -> uplink_run id w0 acc up w'.

Lemma numbered_views c fs : (numbered c fs).*2 = frame_view <$> fs.
Proof. revert c. induction fs as [|f fs IH]; intros c; [done|]. simpl. by rewrite IH. Qed.

Lemma prefix_views (rs : list CAN_ARM_PC_DATA) c fs :
  packet_view <$> rs `prefix_of` numbered c fs ->
  (packet_view <$> rs).*2 `sublist_of` (frame_view <$> fs).
Proof.
  intros [k Hk]. rewrite <- (numbered_views c), Hk, fmap_app. by apply sublist_inserts_r.
Qed.

Lemma taken_front {A} n (l t r : list A) :
  l = t ++ r -> length t = min n (length l) -> take n l = t.
Proof.
  intros -> Hl. rewrite length_app in Hl. rewrite take_app.
  rewrite (take_ge t) by lia. destruct r as [|a r]; [by rewrite take_nil, app_nil_r|].
  simpl in Hl. replace (n - length t)%nat with 0%nat by lia. by rewrite app_nil_r.
Qed.

Lemma device_lookup id w w' ax :
  ax_device <$> w_axican w' = ax_device <$> w_axican w ->
  w_axican w !! Z.to_nat id = Some ax ->
  exists ax', w_axican w' !! Z.to_nat id = Some ax' /\ ax_rd_fd ax' = ax_rd_fd ax.
Proof.
  intros Hd Hax. apply (f_equal (fun l => l !! Z.to_nat id)) in Hd.
  rewrite !list_lookup_fmap, Hax in Hd.
  destruct (w_axican w' !! Z.to_nat id) as [ax'|]; [|done].
  exists ax'. split; [done|]. injection Hd. done.
Qed.

(** What holds in every state of a run. *)
Definition uplink_inv (id : Z) (w0 : world) (fd : Z) (acc up : list bytes) (w : world) : Prop :=
  (world_wf w /\ w_held w = [] /\ exists ax, w_axican w !! Z.to_nat id = Some ax /\ ax_rd_fd ax = fd) /\
  received_queue id w0 ++ acc = up ++ received_queue id w /\
  exists rs, reports id w = reports id w0 ++ rs /\
    (packet_view <$> rs).*2 `sublist_of` (frame_view ∘ unpack <$> up).

Lemma uplink_inv_holds id w0 fd ax0 acc up w :
  world_wf w0 -> w_held w0 = [] -> 0 <= id < 6 -> 0 <= fd ->
  w_axican w0 !! Z.to_nat id = Some ax0 -> ax_rd_fd ax0 = fd ->
  uplink_run id w0 acc up w -> uplink_inv id w0 fd acc up w.
Proof.
  intros Hwf0 Hh0 Hid Hfd Hax0 Hfd0.
  induction 1 as [|acc up w w' _ IH Hrun|acc up w w' _ IH Hrun|acc up w w' _ IH Hother].
  - split; [by eauto|]. rewrite !app_nil_r. split; [done|]. exists []. by rewrite app_nil_r.
  - destruct IH as ((Hwf & Hh & ax & Hax & Hfa) & Hq & rs & Hr & Hs).
    pose proof (recv_turn_spec id w ax Hwf Hid Hax ltac:(lia)) as Hwp.
    unfold wp in Hwp. rewrite Hrun in Hwp. destruct Hwp as (Hf & Hrep & Hqw).
    destruct (device_lookup id w w' ax) as (ax' & Hax' & Hfd'); [apply Hf | done|].
    split; [split; [by apply (rx_wf _ _ _ _ Hf)|]; split; [by rewrite (rx_held _ _ _ _ Hf)|]|].
    { exists ax'. split; [done | congruence]. }
    split; [|exists rs; by rewrite Hrep].
    unfold received_queue in *. cbn [rx_queue] in Hqw. rewrite Hqw. unfold offer.
    by rewrite !app_assoc, Hq.
  - destruct IH as ((Hwf & Hh & ax & Hax & Hfa) & Hq & rs & Hr & Hs).
    assert (held_below 4 w) as Hb by (unfold held_below; rewrite Hh; constructor).
    pose proof (process_turn_spec id w Hb Hwf Hid) as Hwp.
    unfold wp in Hwp. rewrite Hrun in Hwp.
    destruct Hwp as ((Hwf' & Hh' & Ha' & _) & taken & c & rs' & Ho & Hqw & Hl & Hc & Hr' & Hp & _).
    split; [split; [done|]; split; [congruence|]; exists ax; by rewrite Ha'|].
    assert ((if reporting id w then take 32 (received_queue id w) else []) = taken) as ->.
    { unfold received_queue. destruct (reporting id w); [|by destruct taken].
      by eapply taken_front. }
    split; [unfold received_queue in *; by rewrite Hq, Hqw, app_assoc|].
    exists (rs ++ rs'). split; [by rewrite Hr', Hr, app_assoc|].
    rewrite !fmap_app. apply sublist_app; [done|].
    rewrite list_fmap_compose. by eapply prefix_views.
  - destruct IH as ((Hwf & Hh & ax & Hax & Hfa) & Hq & rs & Hr & Hs).
    destruct Hother as (Hwf' & Hh' & Hq' & Hr' & Hd).
    destruct (device_lookup id w w' ax Hd Hax) as (ax' & Hax' & Hfd').
    split; [split; [done|]; split; [done|]; exists ax'; split; [done | congruence]|].
    rewrite Hq'. split; [done|]. exists rs. by rewrite Hr'.
Qed.

(** The uplink of a channel: in every interleaving of the turns of its
    receiving and its reporting thread and of other threads, from a well-formed
    state, the frames accepted from the device are, in order, those taken for a
    report followed by those still queued; the reports sent to the PC show taken
    frames only, in their order and each at most once; and neither thread is
    ever stuck. *)
Theorem uplink_in_order id w0 ax acc up w :
  world_wf w0 -> w_held w0 = [] -> 0 <= id < AXICAN_MAX ->
  w_axican w0 !! Z.to_nat id = Some ax -> 0 <= ax_rd_fd ax ->
  uplink_run id w0 acc up w ->
  received_queue id w0 ++ acc = up ++ received_queue id w /\
  (exists rs, reports id w = reports id w0 ++ rs /\
    (packet_view <$> rs).*2 `sublist_of` (frame_view ∘ unpack <$> up)) /\
  (exists w1, axican_data_recv_turn id w = Some (tt, w1)) /\
  (exists w2, axican_data_process_turn id w = Some (tt, w2)).
Proof.
  intros Hwf Hh Hid Hax Hfd Hrun.
  destruct (uplink_inv_holds id w0 _ ax acc up w Hwf Hh Hid Hfd Hax eq_refl Hrun)
    as ((Hwf' & Hh' & ax' & Hax' & Hfd') & Hq & Hr).
  split; [done|]. split; [done|]. split.
  - assert (0 <= ax_rd_fd ax') as Hfd2 by by rewrite Hfd'.
    pose proof (recv_turn_spec id w ax' Hwf' Hid Hax' Hfd2) as Hwp.
    apply wp_exec in Hwp as ([] & w1 & Hw1 & _). by exists w1.
  - assert (held_below 4 w) as Hb by (unfold held_below; rewrite Hh'; constructor).
    pose proof (process_turn_spec id w Hb Hwf' Hid) as Hwp.
    apply wp_exec in Hwp as ([] & w2 & Hw2 & _). by exists w2.
Qed.

(** The monitor of the sent frames: a turn of its reporting thread is never
    stuck; it takes the oldest monitored frames, at most 32, and reports each
    with one transmit status frame, in order, of type 0x82 on a channel in the
    stand-alone mode, 0x80 in the normal mode and of the last type otherwise. *)
Theorem monitored_frames_reported id w :
  held_below 4 w -> world_wf w -> 0 <= id < AXICAN_MAX ->
  exists w', axican_data_process_turn_1 id w = Some (tt, w') /\ world_wf w' /\
  exists b taken, w_bufs w' = b /\ bufs_only PollQueue id (w_bufs w) b /\
    buf_queue PollQueue id (w_bufs w) = taken ++ buf_queue PollQueue id b /\
    length taken = min 32 (length (buf_queue PollQueue id (w_bufs w))) /\
    w' = foldl (monitored id (monitor_type id w))
           (set_can_data_type (monitor_type id w) (set_bufs b w)) (unpack <$> taken).
Proof.
  intros Hb Hwf Hid. pose proof (process_turn_1_spec id w Hb Hwf Hid) as Hwp.
  apply wp_exec in Hwp as ([] & w' & Hrun & Hwf' & b & taken & Ho & Hq & Hl & Hb' & Hw').
  exists w'. split; [done|]. split; [done|]. by exists b, taken.
Qed.
End Claims.

(** ** Witnesses *)

Definition received_frame : axican_frame := mk_axican_frame 0x123 (Z.shiftl 8 28) 0x11223344 0x55667788 99.

(** An environment whose CAN devices hold two frames each time they are asked. *)
Definition frames_os : OS := {|
  os_ret := fun _ c =>
    match c with
    | SysSend _ d | SysWrite _ d => zlen d | SysRead _ len => len | SysPoll _ _ _ => 1 | _ => 0
    end;
  os_data := fun _ c =>
    match c with SysIoctlCount _ => le_enc 4 2 | SysRead _ _ => pack received_frame | _ => [] end;
  os_clock := fun _ _ => (12, 345678901)
|}.

Definition two_frames : list bytes := [pack received_frame; pack received_frame].

(** The gateway with a client and its channels open in the normal mode. *)
Definition normal_world : world :=
  set_configs ((fun c => set_cf_can_type NORMAL_MODE (set_cf_state CAN_STATE_OPENED c))
                 <$> w_configs boot_world) connected_world.

Lemma normal_world_wf : world_wf normal_world.
Proof.
  destruct connected_world_wf. split; try done. split; [done|].
  intros i c Hc. do 6 (destruct i as [|i]; [injection Hc as <-; done|]). done.
Qed.

Definition normal_axican : axican := mk_axican 2 7 1 8 0 zero_frame zero_frame 0 0.

Lemma normal_world_axican : w_axican normal_world !! Z.to_nat 2 = Some normal_axican.
Proof. reflexivity. Qed.

Lemma normal_queue_nil n : buf_queue n 2 (w_bufs normal_world) = [].
Proof. exact (empty_buffers_queue n 2). Qed.

Lemma two_frames_fit : take (room 32768 []) two_frames = two_frames.
Proof.
  apply take_ge. unfold room. change (length two_frames) with 2%nat. change (length []) with 0%nat. lia.
Qed.

Lemma two_views : frame_view ∘ unpack <$> two_frames = [frame_view received_frame; frame_view received_frame].
Proof. by vm_compute. Qed.

Lemma frames_batch : device_batch (H := frames_os) 7 1 [] =
  (two_frames, [SysRead 7 24; SysRead 7 24; SysIoctlCount 7]).
Proof. by vm_compute. Qed.

Lemma device_frames_queued_witness :
  exists r w', axican_read_data (H := frames_os) 7 1 2 (Some Received) (Some CanQueue) AXICAN_MAX normal_world
      = Some (r, w') /\ r = 2 /\ buf_queue CanQueue 2 (w_bufs w') = two_frames.
Proof.
  destruct (device_frames_queued (H := frames_os) Received 7 1 2 (Some Received) (Some CanQueue) normal_world normal_world_wf)
    as (r & w' & Hrun & Hpost).
  exists r, w'. split; [exact Hrun|].
  change ((7 <? 0) || negb (bool_decide (is_Some (Some Received))) || negb (bool_decide (is_Some (Some CanQueue))) || (2 <? 0) || (2 >=? AXICAN_MAX))%bool
    with false in Hpost. cbv iota in Hpost.
  change (w_hist normal_world) with (@nil syscall) in Hpost. rewrite frames_batch in Hpost.
  destruct Hpost as (Hr & _ & _ & Hq). split; [exact Hr|].
  cbv zeta in Hq. cbn [rx_queue] in Hq. rewrite normal_queue_nil, app_nil_l in Hq.
  rewrite two_frames_fit in Hq. exact Hq.
Defined.

(** Two frames in the queue of an open channel. *)
Lemma received_world : exists w1, axican_data_recv_turn (H := frames_os) 2 normal_world = Some (tt, w1) /\
  world_wf w1 /\ w_held w1 = [] /\ received_queue 2 w1 = two_frames /\ reporting 2 w1 = true /\
  data_upload_socket w1 = 7.
Proof.
  pose proof (recv_turn_spec (H := frames_os) 2 normal_world normal_axican normal_world_wf
    ltac:(lia) normal_world_axican ltac:(simpl; lia)) as Hwp.
  destruct (proj1 (wp_exec _ _ _) Hwp) as ([] & w1 & Hrun & Hf & _ & Hq). exists w1.
  split; [exact Hrun|]. split; [exact (rx_wf _ _ _ _ Hf normal_world_wf)|].
  split; [exact (rx_held _ _ _ _ Hf)|]. split; [|split; [|exact (rx_upload _ _ _ _ Hf)]].
  - cbn [rx_queue] in Hq. rewrite normal_queue_nil in Hq. unfold received_queue. rewrite Hq.
    unfold offer. rewrite app_nil_l.
    change (received_turn_frames (H := frames_os) 2 normal_world) with two_frames.
    exact two_frames_fit.
  - unfold reporting. rewrite (rx_configs _ _ _ _ Hf). reflexivity.
Qed.

Lemma report_turn_in_order_witness :
  exists w1 w' rs, received_queue 2 w1 = two_frames /\
    axican_data_process_turn (H := frames_os) 2 w1 = Some (tt, w') /\
    received_queue 2 w' = [] /\ reports 2 w' = reports 2 w1 ++ rs /\ length rs = 2%nat.
Proof.
  destruct received_world as (w1 & _ & Hwf & Hh & Hq & Hrep & Hs).
  destruct (report_turn_in_order (H := frames_os) 2 w1)
    as (w' & Hrun & _ & taken & c & rs & _ & Hqw & Hl & _ & Hr & _ & Ht);
    [unfold held_below; rewrite Hh; constructor | exact Hwf | unfold AXICAN_MAX; lia |].
  exists w1, w', rs. split; [exact Hq|]. split; [exact Hrun|].
  unfold received_queue in *. rewrite Hrep, Hq in Hl. rewrite Hq in Hqw.
  apply (f_equal length) in Hqw as Hll. rewrite length_app, Hl in Hll. simpl in Hll.
  split; [apply nil_length_inv; lia|]. split; [exact Hr|].
  rewrite Hs in Ht. destruct Ht as [Ht _]; [split; [done | reflexivity]|]. rewrite Ht, Hl. reflexivity.
Defined.

Lemma uplink_in_order_witness :
  exists w, uplink_run (H := frames_os) 2 normal_world two_frames two_frames w /\
    received_queue 2 w = [] /\
    exists rs, reports 2 w = reports 2 normal_world ++ rs /\
      (packet_view <$> rs).*2 `sublist_of` [frame_view received_frame; frame_view received_frame].
Proof.
  destruct received_world as (w1 & Hrun1 & Hwf & Hh & Hq & Hrep & Hs).
  destruct (proj1 (wp_exec _ _ _) (process_turn_spec (H := frames_os) 2 w1
    ltac:(unfold held_below; rewrite Hh; constructor) Hwf ltac:(lia))) as ([] & w2 & Hrun2 & _).
  assert (uplink_run (H := frames_os) 2 normal_world two_frames two_frames w2) as Hup.
  { pose proof (UpReceive (H := frames_os) 2 normal_world [] [] normal_world w1
      (UpStart (H := frames_os) 2 normal_world) Hrun1) as H1.
    unfold received_queue in H1. rewrite normal_queue_nil, app_nil_l in H1.
    change (received_turn_frames (H := frames_os) 2 normal_world) with two_frames in H1.
    rewrite two_frames_fit in H1.
    pose proof (UpReport (H := frames_os) 2 normal_world two_frames [] w1 w2 H1 Hrun2) as H2.
    rewrite Hrep, Hq in H2. exact H2. }
  exists w2. split; [exact Hup|].
  destruct (uplink_in_order (H := frames_os) 2 normal_world normal_axican two_frames two_frames w2
    normal_world_wf eq_refl ltac:(unfold AXICAN_MAX; lia) normal_world_axican ltac:(simpl; lia) Hup)
    as (Hqe & (rs & Hr & Hsub) & _ & _).
  unfold received_queue in *. rewrite normal_queue_nil in Hqe.
  split; [apply (app_inv_head two_frames); rewrite app_nil_r; symmetry; exact Hqe|].
  exists rs. split; [exact Hr|].
  rewrite two_views in Hsub. exact Hsub.
Defined.

Lemma monitored_frames_reported_witness :
  exists w', axican_data_process_turn_1 (H := frames_os) 2 normal_world = Some (tt, w') /\
    world_wf w' /\ can_data_type w' = 0x80.
Proof.
  destruct (monitored_frames_reported (H := frames_os) 2 normal_world)
    as (w' & Hrun & Hwf & b & taken & _ & _ & _ & Hl & Hw');
    [constructor | exact normal_world_wf | unfold AXICAN_MAX; lia |].
  exists w'. split; [exact Hrun|]. split; [exact Hwf|].
  rewrite normal_queue_nil in Hl. destruct taken; [|discriminate Hl]. rewrite Hw'.
  cbn [fmap list_fmap foldl can_data_type set_can_data_type]. reflexivity.
Defined.
