(* ===== verification/Wire.v ===== *)
(** * The bytes on the wire
    ([src/main18.c], [axican_data_send_thread], [send_single_frame],
    [axican_data_process_thread], [handle_normal_mode];
    [src/axican/zmuav_axican.h], [struct axican_frame]).

    The other files speak of packed structures through their fields. Here both
    directions are stated on bytes at their offsets: which bytes of a downloaded
    48-byte element reach the CAN device, and which bytes of a 24-byte frame of
    the device reach the client, where and in which byte order. *)
From S2P Require Import Prelude Words Ring RingSet Layout World Upload Broadcast Commands CanTx CanRx.
From Stdlib Require Import (notations) String.

(** The 48 bytes of a downloaded single frame for channel [id]: the sync word,
    direction, type and length, the channel, two counters, the identifier, the
    length word, the two data words, the number of packets, 1 in its low byte,
    and the packet number, time and checksum. *)
Definition single_element (id : Z) (idr drcr dw1 dw2 x : bytes) : Prop :=
  length idr = 4%nat /\ length drcr = 4%nat /\ length dw1 = 4%nat /\ length dw2 = 4%nat /\
  exists kind counters high rest, length kind = 3%nat /\ length counters = 8%nat /\ length rest = 14%nat /\
    x = [xd2; x02; x96; x49] ++ kind ++ le_enc 1 id ++ counters ++ idr ++ drcr ++ dw1 ++ dw2 ++
        [x01; high] ++ rest.

(** The 68 bytes of the report of a received frame: the 24-byte header, which
    is big-endian in its length and channel, then the record in the byte order
    of the machine, with the frame's bytes as the device gave them but for the
    length word, of which the top four bits are kept. *)
Definition report_bytes (id total count : Z) (can_id dlc data0 data1 timestamp checksum : bytes) : bytes :=
  [x01; xcc; xf0; xff] ++ [x00; x00; x00; x30] ++ replicate 8 x00 ++ [x00; x00; x00] ++ le_enc 1 id ++
  [xd2; x02; x96; x49] ++ [x01; x81; x30] ++ le_enc 1 id ++ le_enc 4 total ++ le_enc 4 count ++
  can_id ++ le_enc 4 (Z.shiftr (le_dec dlc) 28) ++ data0 ++ data1 ++ replicate 4 x00 ++ timestamp ++ checksum.

(** Takes apart the byte lists whose length is known. *)
Ltac split_bytes :=
  repeat match goal with
  | H : length ?l = S _ |- _ =>
    is_var l; destruct l as [|? l]; [discriminate H | apply (f_equal Nat.pred) in H; cbn [length Nat.pred] in H]
  | H : length ?l = 0%nat |- _ => is_var l; destruct l; [clear H | discriminate H]
  end.

Lemma enc4 b0 b1 b2 b3 : le_enc 4 (le_dec [b0; b1; b2; b3]) = [b0; b1; b2; b3].
Proof. exact (le_enc_dec [b0; b1; b2; b3]). Qed.

Lemma enc8 b0 b1 b2 b3 b4 b5 b6 b7 :
  le_enc 8 (le_dec [b0; b1; b2; b3; b4; b5; b6; b7]) = [b0; b1; b2; b3; b4; b5; b6; b7].
Proof. exact (le_enc_dec [b0; b1; b2; b3; b4; b5; b6; b7]). Qed.

Lemma enc1_byte z : exists b, le_enc 1 z = [b] /\ le_dec [b] = u8 z.
Proof.
  destruct (le_enc 1 z) as [|b [|? ?]] eqn:E; try by pose proof (length_le_enc 1 z) as H; rewrite E in H.
  exists b. split; [done|]. rewrite <- E. apply le_dec_enc.
Qed.

Lemma low_byte_one b : u8 (le_dec [x01; b]) = 1.
Proof. by destruct b. Qed.

Lemma single_element_spec id idr drcr dw1 dw2 x ts :
  0 <= id < 6 -> single_element id idr drcr dw1 dw2 x ->
  let f := unpack x : PC_ARM_DATA_DATA in
  pd_head f = PC_STATUS_HEAD /\ pd_ch_id f = id /\ total_of f = 1 /\
  pack (tx_frame f ts) = idr ++ drcr ++ rev dw1 ++ rev dw2 ++ le_enc 8 ts.
Proof.
  intros Hid (Hi & Hr & H1 & H2 & kind & counters & high & rest & Hk & Hc & Hre & ->).
  destruct (enc1_byte id) as (ch & Hch & Hdec). rewrite Hch. split_bytes. cbn [app]. cbv zeta.
  set (x := _ :: _). set (f := unpack x : PC_ARM_DATA_DATA).
  with_strategy transparent [unpack] change f with (PC_ARM_DATA_DATA_unpack x).
  with_strategy transparent [pack] change (pack ?g) with (axican_frame_pack g).
  unfold axican_frame_pack, total_of. cbn [PC_ARM_DATA_DATA_unpack tx_frame pd_head pd_ch_id pd_packets_sum
    pd_idr pd_drcr pd_dw1r pd_dw2r fr_can_id fr_can_dlc fr_data0 fr_data1 fr_timestamp].
  unfold fld. subst x. cbn [take drop]. rewrite Hdec, !reverse_4bytes_le_dec, !enc4.
  split; [done|]. split; [apply wrap_small; unfold in_range; lia|]. split; [apply low_byte_one | done].
Qed.

(** A frame of the device as its 24 bytes. *)
Definition frame_bytes (can_id dlc data0 data1 timestamp y : bytes) : Prop :=
  length can_id = 4%nat /\ length dlc = 4%nat /\ length data0 = 4%nat /\ length data1 = 4%nat /\
  length timestamp = 8%nat /\ y = can_id ++ dlc ++ data0 ++ data1 ++ timestamp.

Lemma report_spec id total count can_id dlc data0 data1 timestamp y :
  0 <= id < 6 -> frame_bytes can_id dlc data0 data1 timestamp y ->
  exists checksum, length checksum = 4%nat /\
    pack (normal_packet id total count (unpack y)) =
      report_bytes id total count can_id dlc data0 data1 timestamp checksum /\
    calculate_xor_checksum (report_bytes id total count can_id dlc data0 data1 timestamp checksum) 68 = 0.
Proof.
  intros Hid (Hi & Hd & H0 & H1 & Ht & ->). set (y := can_id ++ _).
  set (r := normal_packet id total count (unpack y)). exists (le_enc 4 (up_xor_checksum r)).
  assert (pack r = report_bytes id total count can_id dlc data0 data1 timestamp (le_enc 4 (up_xor_checksum r))) as Hr.
  { rewrite upload_pack_prefix. unfold report_bytes. rewrite !app_assoc. f_equal. rewrite <- !app_assoc.
    unfold upload_prefix, r, normal_packet, upload_checksum.
    cbn [up_PC_ARM_DATE_HEAD up_PC_ARM_DATE_LENGTH up_PC_ARM_DATE_COUNTER up_PC_ARM_DATE_COMMAND
      up_PC_ARM_DATE_CHECKSUM up_PC_ARM_CHIND up_head up_direction up_type up_length up_ch_id up_total_count
      up_ch_count up_idr up_drcr up_dw1r up_dw2r up_status up_reserved1 up_reserved2 up_timestamp].
    assert (le_enc 4 (reverse_4bytes id) = [x00; x00; x00] ++ le_enc 1 id) as ->.
    { assert (id = 0 \/ id = 1 \/ id = 2 \/ id = 3 \/ id = 4 \/ id = 5) as Hc by lia.
      destruct Hc as [->|[->|[->|[->|[->| ->]]]]]; reflexivity. }
    with_strategy transparent [unpack] change (unpack y : axican_frame) with (axican_frame_unpack y).
    cbn [axican_frame_unpack fr_can_id fr_can_dlc fr_data0 fr_data1 fr_timestamp].
    split_bytes. subst y. unfold fld. cbn [app take drop]. rewrite !enc4, enc8. reflexivity. }
  split; [apply length_le_enc|]. split; [exact Hr|]. rewrite <- Hr. apply upload_checksum_closed.
Qed.

Section Wire.
Context `{OS}.
#[local] Open Scope c_scope.

(** A reporting turn with one frame in the queue. *)
Lemma one_report id y c w :
  held_below 4 w -> world_wf w -> 0 <= id < 6 -> reporting id w = true ->
  w_frame_count w !! Z.to_nat id = Some c -> buf_queue CanQueue id (w_bufs w) = [y] ->
  wp (axican_data_process_turn id) (fun _ w' => buf_queue CanQueue id (w_bufs w') = [] /\
    exists b, w' = normal_result id (unpack y) c (set_bufs b w)) w.
Proof.
  intros Hb Hwf Hid Hrep Hc Hq. unfold axican_data_process_turn, reporting in *.
  destruct (config_lookup id w Hwf) as (cf & Hcf & _); [lia|]. rewrite Hcf in Hrep.
  wp_step. eapply wp_arr_get; [lia | exact Hcf |]. rewrite Hrep.
  wp_step. eapply wp_mono; [apply (read_batch_spec Received); done|].
  intros fs w1 (b & taken & -> & Hf & Hq' & Hl & -> & Hp). cbn [rx_queue] in *. rewrite Hq in Hq', Hl.
  destruct taken as [|x [|? ?]]; try discriminate Hl. cbn [app] in Hq'. injection Hq' as <- Hq'.
  rewrite fmap_cons. cbn [fmap list_fmap foreach]. wp_step.
  pose proof (rx_wf _ _ _ _ Hf Hwf) as Hwf1.
  eapply wp_handle_normal; [done | done | done | exact Hc |]. wp_step. split; [|by exists b].
  rewrite (no_bufs _ _ (net_only_normal id (unpack y) c (set_bufs b w) Hc)). by symmetry.
Qed.

(** C39. The bytes on the wire. Downwards: when the oldest frame in the queue of
    an open channel is a single frame for it, a turn of its sending thread takes
    it and makes one write, of 24 bytes, to the descriptor of the channel: the
    bytes of the identifier and of the length word as they were downloaded,
    those of each data word in the reverse order, and the time. Upwards: when
    one frame is in the queue of a channel that reports and a client is
    connected, a turn of the reporting thread takes it and sends one packet of
    68 bytes: the header, the record with the bytes of the frame at their
    offsets, in the order the device gave them, the top four bits of the length
    word, and a checksum that makes the 32-bit words of the packet xor to zero. *)
Theorem wire_bytes id w :
  held_below 2 w -> world_wf w -> 0 <= id < 6 ->
  (forall buf ax x q idr drcr dw1 dw2, packet_wf buf -> w_axican w !! Z.to_nat id = Some ax ->
     channel_opened id w = true -> buf_queue Data id (w_bufs w) = x :: q ->
     single_element id idr drcr dw1 dw2 x ->
     exists w' ts, axican_data_send_turn id buf w = Some (buf, w') /\ buf_queue Data id (w_bufs w') = q /\
       can_writes w' = SysWrite (ax_wr_fd ax) (idr ++ drcr ++ rev dw1 ++ rev dw2 ++ le_enc 8 ts) :: can_writes w) /\
  (forall c y can_id dlc data0 data1 timestamp, w_frame_count w !! Z.to_nat id = Some c ->
     reporting id w = true -> data_upload_socket w <> -1 -> buf_queue CanQueue id (w_bufs w) = [y] ->
     frame_bytes can_id dlc data0 data1 timestamp y ->
     exists w' checksum later, axican_data_process_turn id w = Some (tt, w') /\
       buf_queue CanQueue id (w_bufs w') = [] /\ length checksum = 4%nat /\
       let packet := report_bytes id (data_counter w + 1) (next_count c) can_id dlc data0 data1 timestamp checksum in
       calculate_xor_checksum packet 68 = 0 /\
       w_hist w' = later ++ SysSend (data_upload_socket w) packet :: w_hist w /\
       (later = [] \/ later = [SysShutdown (data_upload_socket w)])).
Proof.
  intros Hb Hwf Hid. split.
  - intros buf ax x q idr drcr dw1 dw2 Hw Hax Ho Hq Hx.
    destruct (proj1 (wp_exec _ _ _) (send_turn_spec id buf ax w Hb Hwf Hw Hid Hax)) as (buf' & w' & Hrun & Ht).
    unfold turn_post in Ht. fold (channel_opened id w) in Ht. rewrite Ho, Hq in Ht.
    destruct Ht as (b & now & out & _ & _ & Hqb & Hst & Hs & _).
    pose proof (fun ts => single_element_spec id idr drcr dw1 dw2 x ts Hid Hx) as Hsp. cbv zeta in Hsp.
    destruct (Hsp 0) as (Hhd & Hch & H1 & _). unfold tx_step in Hst.
    rewrite Hhd, Hch, H1, !Z.eqb_refl in Hst. cbn [negb orb] in Hst. change (1 =? 1) with true in Hst.
    cbv iota in Hst. injection Hst as <- <-.
    destruct (se_writes _ _ _ _ Hs) as (ws & Hws & Hf2). cbn [rev app] in Hf2.
    apply Forall2_cons_inv_l in Hf2 as (c & ws' & (ts & ->) & Hnil & ->).
    apply Forall2_nil_inv_l in Hnil as ->. exists w', ts. split; [done|].
    split; [by rewrite (se_bufs _ _ _ _ Hs)|]. rewrite Hws. destruct (Hsp ts) as (_ & _ & _ & <-). done.
  - intros c y can_id dlc data0 data1 timestamp Hc Hrep Hsock Hq Hy.
    assert (held_below 4 w) as Hb4 by (by eapply held_below_mono; [|exact Hb]; lia).
    destruct (proj1 (wp_exec _ _ _) (one_report id y c w Hb4 Hwf Hid Hrep Hc Hq)) as ([] & w' & Hrun & Hq' & b & ->).
    destruct (report_spec id (data_counter w + 1) (next_count c) _ _ _ _ _ y Hid Hy) as (ck & Hl & Hpk & Hx).
    set (w' := normal_result id (unpack y) c (set_bufs b w)) in *.
    assert (exists later, w_hist w' = later ++ SysSend (data_upload_socket w)
        (pack (normal_packet id (data_counter w + 1) (next_count c) (unpack y))) :: w_hist w /\
      (later = [] \/ later = [SysShutdown (data_upload_socket w)])) as (later & Hh & Hlater).
    { subst w'. unfold normal_result. simpl data_upload_socket. rewrite (proj2 (Z.eqb_neq _ _) Hsock).
      unfold upload_result. case_match; [exists [] | exists [SysShutdown (data_upload_socket w)]]; auto. }
    rewrite Hpk in Hh. by exists w', ck, later.
Qed.
End Wire.

(** ** Witnesses *)

(** The gateway with a client, a downloaded single frame and a received one. *)
Lemma wire_world : exists w, world_wf w /\ w_held w = [] /\ w_axican w !! 2%nat = Some normal_axican /\
  channel_opened 2 w = true /\ reporting 2 w = true /\ data_upload_socket w = 7 /\
  w_frame_count w !! 2%nat = Some 0 /\
  buf_queue Data 2 (w_bufs w) = [pack (packet_of 2 0 1)] /\
  buf_queue CanQueue 2 (w_bufs w) = [pack received_frame].
Proof.
  assert (wp (let* _ := buf_put Data 2 (pack (packet_of 2 0 1)) 32 in buf_put CanQueue 2 (pack received_frame) 6)
    (fun _ w => world_wf w /\ w_held w = [] /\ w_axican w !! 2%nat = Some normal_axican /\
      channel_opened 2 w = true /\ reporting 2 w = true /\ data_upload_socket w = 7 /\
      w_frame_count w !! 2%nat = Some 0 /\
      buf_queue Data 2 (w_bufs w) = [pack (packet_of 2 0 1)] /\
      buf_queue CanQueue 2 (w_bufs w) = [pack received_frame]) normal_world)%c as Hwp.
  { wp_step. apply wp_buf_put; [apply normal_world_wf | done | by vm_compute |]. intros r b Hb Ho Hp.
    rewrite normal_queue_nil in Hp. injection Hp as _ Hq.
    pose proof (get_wf 2 b normal_world normal_world_wf Hb Ho) as Hwf.
    apply wp_buf_put; [exact Hb | done | by vm_compute |]. intros r' b' Hb' Ho' Hp'.
    change (w_bufs (set_bufs b normal_world)) with b in *.
    rewrite (Ho CanQueue 2 ltac:(lia) ltac:(done)), normal_queue_nil in Hp'. injection Hp' as _ Hq'.
    split; [by eapply (set_bufs_wf CanQueue 2 b')|]. do 6 (split; [done|]).
    split; [|exact Hq']. change (w_bufs (set_bufs b' _)) with b'. rewrite (Ho' Data 2 ltac:(lia) ltac:(done)). exact Hq. }
  destruct (proj1 (wp_exec _ _ _) Hwp) as (r & w & _ & Hw). by exists w.
Qed.

Lemma wire_bytes_witness : exists w w1 w2 ts checksum,
  axican_data_send_turn (H := frames_os) 2 packet_zero w = Some (packet_zero, w1) /\
  can_writes w1 = SysWrite 8 ([x23; x01; x00; x00] ++ [x08; x00; x00; x00] ++ [x00; x00; x00; x00] ++
    [x00; x00; x00; x02] ++ le_enc 8 ts) :: can_writes w /\
  axican_data_process_turn (H := frames_os) 2 w = Some (tt, w2) /\
  SysSend 7 (report_bytes 2 (data_counter w + 1) 1 [x23; x01; x00; x00] [x00; x00; x00; x80]
    [x44; x33; x22; x11] [x88; x77; x66; x55] [x63; x00; x00; x00; x00; x00; x00; x00] checksum) ∈ w_hist w2.
Proof.
  destruct wire_world as (w & Hwf & Hh & Hax & Ho & Hrep & Hsock & Hc & Hq & Hq').
  destruct (wire_bytes (H := frames_os) 2 w) as [Hdown Hup];
    [unfold held_below; rewrite Hh; constructor | exact Hwf | lia |].
  destruct (Hdown packet_zero normal_axican _ [] [x23; x01; x00; x00] [x08; x00; x00; x00] [x00; x00; x00; x00]
    [x02; x00; x00; x00] packet_zero_wf Hax Ho Hq) as (w1 & ts & Hrun1 & _ & Hw1).
  { do 4 (split; [reflexivity|]). exists [x00; x01; x30], (replicate 8 x00), x00, (replicate 14 x00).
    do 3 (split; [reflexivity|]). vm_compute. reflexivity. }
  destruct (Hup 0 _ [x23; x01; x00; x00] [x00; x00; x00; x80] [x44; x33; x22; x11] [x88; x77; x66; x55]
    [x63; x00; x00; x00; x00; x00; x00; x00] Hc Hrep ltac:(rewrite Hsock; discriminate) Hq')
    as (w2 & checksum & later & Hrun2 & _ & _ & _ & Hh2 & _).
  { do 5 (split; [reflexivity|]). vm_compute. reflexivity. }
  exists w, w1, w2, ts, checksum. split; [exact Hrun1|]. split; [exact Hw1|]. split; [exact Hrun2|].
  rewrite Hh2, Hsock. apply elem_of_app. right. left.
Defined.
