(* ===== verification/Along.v ===== *)
(** * The stand-alone simulator
    ([src/main18.c], [determine_response_frames], [process_and_send_response] and
    [along_data_tid_thread]).

    In the stand-alone mode the gateway answers the commands it receives on a
    channel by itself.  The thread of a channel first loads the downloaded
    answers, and then looks every received frame up among them; a command of
    several frames is collected before it is answered.  The collection is a
    state machine of its own, [along_step], that the thread refines. *)
From S2P Require Import Prelude Words Ring RingSet Layout World Upload Broadcast Commands Download CanTx CanRx.
From Stdlib Require Import (notations) String.

Definition CAN_FRAME_DATA_LEN : Z := 16.
Definition MAX_WAIT_FRAMES : Z := 6.
Definition MAX_SIMULATOR_FRAMES : Z := 32.

Definition determine_response_frames (frame : option PC_ARM_SIMULATOR_DATA) : Z :=
  match frame with
  | None => 0
  | Some f => sd_rcv_len f / 8 - 1
  end.

(** The variables of the thread. *)
Record along := mk_along {
  al_buffer_frames : list PC_ARM_SIMULATOR_DATA;
  al_wait_cmd_frames : list axican_frame;
  al_wait_frame_count : Z;
  al_target_wait_frames : Z;
  al_is_waiting : bool;
  al_matched : option PC_ARM_SIMULATOR_DATA
}.

Definition no_cmd_frames : list axican_frame := replicate (Z.to_nat MAX_WAIT_FRAMES) zero_frame.

Definition along_start (buffer_frames : list PC_ARM_SIMULATOR_DATA) : along :=
  mk_along buffer_frames no_cmd_frames 0 0 false None.

(** [memcpy] of 16 bytes into a zeroed frame, and the time stamp. *)
Definition response_frame (data : bytes) (timestamp : Z) : axican_frame :=
  let f : axican_frame := unpack (data ++ replicate 8 x00) in
  mk_axican_frame (fr_can_id f) (fr_can_dlc f) (fr_data0 f) (fr_data1 f) timestamp.

(** The first loaded answer for a frame: the high 11 bits of the identifier and
    the first data word. *)
Definition answers_to (frame : axican_frame) (sim : PC_ARM_SIMULATOR_DATA) : bool :=
  (Z.land (Z.shiftr (fr_can_id frame) 21) 0x7FF =? sd_can_id sim) && (fr_data0 frame =? sd_data_type sim).

Fixpoint find_match (frame : axican_frame) (sims : list PC_ARM_SIMULATOR_DATA)
    : option PC_ARM_SIMULATOR_DATA :=
  match sims with
  | [] => None
  | sim :: sims' => if answers_to frame sim then Some sim else find_match frame sims'
  end.

Section AlongCode.
Context `{OS}.
#[local] Open Scope c_scope.

(** [for (frame_idx = 0; frame_idx < total_frames; frame_idx++)] *)
Fixpoint response_loop (n : nat) (frame_idx can_id fd : Z) (match_frame : PC_ARM_SIMULATOR_DATA)
    : M world unit :=
  match n with
  | O => ret tt
  | S n' =>
    let* data := of_option (mem_read (frame_idx * 16) 16 (sd_send_data match_frame)) in
    let* (rc, sec, nsec) := clock_gettime false in
    let timestamp := if rc =? 0 then u64 (u64 sec * 1000 + nsec / 1000000) else 0 in
    mutex_lock (can_write_mutex can_id) ;;
    let* rc := sys (SysWrite fd (pack (response_frame data timestamp))) in
    mutex_unlock (can_write_mutex can_id) ;;
    when (negb (rc =? sizeof axican_frame)) (error_event (str "CAN along data send failed")) ;;
    response_loop n' (frame_idx + 1) can_id fd match_frame
  end.

Definition process_and_send_response (can_id fd flags : Z) (match_frame : option PC_ARM_SIMULATOR_DATA)
    : M world Z :=
  match match_frame with
  | None => ret (-1)
  | Some frame =>
    if fd <? 0 then ret (-1) else
    let total_frames := sd_send_len frame / CAN_FRAME_DATA_LEN in
    response_loop (Z.to_nat total_frames) 0 can_id fd frame ;;
    ret 0
  end.

(** The load loop: [for (i = 0; i < counter && i < 32; i++)] with its [break]. *)
Fixpoint load_frames (n : nat) (can_id : Z) : M world (list PC_ARM_SIMULATOR_DATA) :=
  match n with
  | O => ret []
  | S n' =>
    let* (get_ret, data) := buf_get Simulator can_id (replicate 288 x00) 32 in
    if negb (get_ret =? 1) then ret [] else
    let* frame := cast PC_ARM_SIMULATOR_DATA data in
    let* rest := load_frames n' can_id in
    ret (frame :: rest)
  end.

(** The thread before its main loop; [None] while it waits for the stand-alone
    mode and for at least seven answers. *)
Definition along_load (can_id : Z) : M world (option along) :=
  let* cfg := config_at can_id in
  let* len := buf_len Simulator can_id 32 in
  if negb ((cf_can_type cfg =? ALONG_MODE) && (len >=? 7)) then ret None else
  let* counter := buf_len Simulator can_id 32 in
  let* frames := load_frames (Z.to_nat (Z.min counter MAX_SIMULATOR_FRAMES)) can_id in
  ret (Some (along_start frames)).

(** [wait_cmd_frames[wait_frame_count] = *current_frame], with the count. *)
Definition cache_frame (st : along) (frame : axican_frame) : M world along :=
  ensure ((0 <=? al_wait_frame_count st) && (al_wait_frame_count st <? MAX_WAIT_FRAMES)) ;;
  ret (mk_along (al_buffer_frames st)
         (<[Z.to_nat (al_wait_frame_count st) := frame]> (al_wait_cmd_frames st))
         (al_wait_frame_count st + 1) (al_target_wait_frames st) (al_is_waiting st) (al_matched st)).

(** A frame while a command is collected; the loop over the batch ends after it. *)
Definition along_waiting (can_id fd flags : Z) (st : along) (frame : axican_frame) : M world along :=
  let* st := cache_frame st frame in
  if negb (al_wait_frame_count st >=? al_target_wait_frames st) then ret st else
  (match al_matched st with
   | Some sim => let* _ := process_and_send_response can_id fd flags (Some sim) in ret tt
   | None => ret tt
   end) ;;
  foreach (take (Z.to_nat (al_wait_frame_count st)) (al_wait_cmd_frames st))
    (fun f => send_can_transmit_response can_id 0x83 1 f) ;;
  ret (along_start (al_buffer_frames st)).

(** A frame that may start a command. *)
Definition along_matching (can_id fd flags : Z) (st : along) (frame : axican_frame) : M world along :=
  match find_match frame (al_buffer_frames st) with
  | None =>
    ret (mk_along (al_buffer_frames st) (al_wait_cmd_frames st) (al_wait_frame_count st) 0 false None)
  | Some sim =>
    let target := determine_response_frames (Some sim) in
    let st := mk_along (al_buffer_frames st) (al_wait_cmd_frames st) (al_wait_frame_count st)
                target false (Some sim) in
    if target =? 0 then
      send_can_transmit_response can_id 0x83 1 frame ;;
      let* _ := process_and_send_response can_id fd flags (Some sim) in
      ret st
    else if (target >? 0) && (target <=? MAX_WAIT_FRAMES) then
      cache_frame (mk_along (al_buffer_frames st) (al_wait_cmd_frames st) (al_wait_frame_count st)
                     target true (Some sim)) frame
    else ret st
  end.

(** [for (i = 0; i < queue_frame_count; i++)]: the frame that ends or continues
    a collection leaves the loop, and the rest of the batch is dropped. *)
Fixpoint along_batch (can_id fd flags : Z) (st : along) (frames : list axican_frame) : M world along :=
  match frames with
  | [] => ret st
  | frame :: frames' =>
    if al_is_waiting st then along_waiting can_id fd flags st frame
    else
      let* st := along_matching can_id fd flags st frame in
      along_batch can_id fd flags st frames'
  end.

(** Frames that arrive one at a time: each is a batch of its own. *)
Fixpoint along_batches (can_id fd flags : Z) (st : along) (frames : list axican_frame) : M world along :=
  match frames with
  | [] => ret st
  | frame :: frames' =>
    let* st := along_batch can_id fd flags st [frame] in along_batches can_id fd flags st frames'
  end.

(** One turn of the main loop. *)
Definition along_turn (can_id fd flags : Z) (st : along) : M world along :=
  let* frames := read_batch CanQueue can_id in
  along_batch can_id fd flags st frames.
End AlongCode.

(** ** The collection as a function *)

(** What the thread does: it answers with a downloaded answer, or reports a
    received frame to the PC. *)
Inductive along_out := Answer (sim : PC_ARM_SIMULATOR_DATA) | Report (frame : axican_frame).

Definition along_keep (st : along) (frame : axican_frame) (target : Z) (sim : option PC_ARM_SIMULATOR_DATA)
    : along :=
  mk_along (al_buffer_frames st)
    (<[Z.to_nat (al_wait_frame_count st) := frame]> (al_wait_cmd_frames st))
    (al_wait_frame_count st + 1) target true sim.

Definition collect (st : along) (frame : axican_frame) : along * list along_out :=
  let st1 := along_keep st frame (al_target_wait_frames st) (al_matched st) in
  if al_wait_frame_count st + 1 >=? al_target_wait_frames st then
    (along_start (al_buffer_frames st),
     match al_matched st with Some sim => [Answer sim] | None => [] end ++
     (Report <$> take (Z.to_nat (al_wait_frame_count st + 1)) (al_wait_cmd_frames st1)))
  else (st1, []).

Definition begin (st : along) (frame : axican_frame) : along * list along_out :=
  match find_match frame (al_buffer_frames st) with
  | None =>
    (mk_along (al_buffer_frames st) (al_wait_cmd_frames st) (al_wait_frame_count st) 0 false None, [])
  | Some sim =>
    let target := determine_response_frames (Some sim) in
    let st1 := mk_along (al_buffer_frames st) (al_wait_cmd_frames st) (al_wait_frame_count st)
                 target false (Some sim) in
    if target =? 0 then (st1, [Report frame; Answer sim])
    else if (target >? 0) && (target <=? MAX_WAIT_FRAMES)
    then (along_keep st frame target (Some sim), []) else (st1, [])
  end.

Fixpoint along_step (st : along) (frames : list axican_frame) : along * list along_out :=
  match frames with
  | [] => (st, [])
  | f :: frames' =>
    if al_is_waiting st then collect st f
    else
      let '(st1, o1) := begin st f in
      let '(st2, o2) := along_step st1 frames' in (st2, o1 ++ o2)
  end.

(** ** What the thread keeps *)

Definition sim_wf (sim : PC_ARM_SIMULATOR_DATA) : Prop := pwf sim /\ sd_send_len sim <= 256.

Record along_wf (st : along) : Prop := {
  aw_cmds : length (al_wait_cmd_frames st) = 6%nat;
  aw_frames : Forall sim_wf (al_buffer_frames st);
  aw_idle : al_is_waiting st = false -> al_wait_frame_count st = 0;
  aw_waiting : al_is_waiting st = true ->
    1 <= al_wait_frame_count st <= 5 /\ 1 <= al_target_wait_frames st <= 6 /\
    (al_wait_frame_count st = 1 \/ al_wait_frame_count st < al_target_wait_frames st) /\
    exists sim, al_matched st = Some sim /\ sim ∈ al_buffer_frames st
}.

Lemma along_start_wf sims : Forall sim_wf sims -> along_wf (along_start sims).
Proof. intros Hs. by split. Qed.

Lemma find_match_elem f sims sim : find_match f sims = Some sim -> sim ∈ sims.
Proof.
  induction sims as [|s sims IH]; cbn [find_match]; intros Hs; [discriminate Hs|].
  apply elem_of_cons. destruct (answers_to f s); [left; congruence | right; by apply IH].
Qed.

Lemma collect_wf st f : along_wf st -> al_is_waiting st = true -> along_wf (collect st f).1.
Proof.
  intros Hw Hwait. destruct (aw_waiting _ Hw Hwait) as (Hc & Ht & _ & Hm). unfold collect.
  destruct (Z.geb_spec (al_wait_frame_count st + 1) (al_target_wait_frames st)) as [|Hlt];
    [apply along_start_wf, Hw|].
  split; simpl; [by rewrite length_insert, (aw_cmds _ Hw) | apply Hw | done |].
  intros _. split_and!; try lia. done.
Qed.

Lemma begin_wf st f : along_wf st -> al_is_waiting st = false -> along_wf (begin st f).1.
Proof.
  intros Hw Hidle. pose proof (aw_idle _ Hw Hidle) as Hc. unfold begin.
  destruct (find_match f (al_buffer_frames st)) as [sim|] eqn:Hm; [|by destruct Hw; split].
  cbv zeta. destruct (_ =? 0); [by destruct Hw; split|].
  destruct (_ && _)%bool eqn:Ht; [|by destruct Hw; split]. unfold MAX_WAIT_FRAMES in Ht. bool_prop.
  split; simpl; [by rewrite length_insert, (aw_cmds _ Hw) | apply Hw | done |].
  intros _. rewrite Hc. simpl in *. split_and!; try lia.
  exists sim. split; [done | by eapply find_match_elem].
Qed.

Lemma along_step_wf st fs : along_wf st -> along_wf (along_step st fs).1.
Proof.
  revert st. induction fs as [|f fs IH]; intros st Hw; [done|]. cbn [along_step].
  destruct (al_is_waiting st) eqn:E; [by apply collect_wf|].
  pose proof (begin_wf st f Hw E) as Hb. destruct (begin st f) as [st1 o1].
  specialize (IH st1 Hb). by destruct (along_step st1 fs).
Qed.

(** ** What the outputs do to the state *)

Definition written_as (fd : Z) (data : bytes) (c : syscall) : Prop :=
  exists ts, c = SysWrite fd (pack (response_frame data ts)).

(** The frames of an answer: its data in pieces of 16 bytes. *)
Definition answer_pieces (sim : PC_ARM_SIMULATOR_DATA) : list bytes :=
  (fun i => slice (16 * i) 16 (sd_send_data sim)) <$> seq 0 (Z.to_nat (sd_send_len sim / 16)).

(** The pieces were written to [fd], in order; only events may have been sent
    besides. *)
Record answered (fd : Z) (pieces : list bytes) (w w' : world) : Prop := {
  an_net : net_only w w';
  an_counts : w_frame_count w' = w_frame_count w;
  an_writes : exists ws, can_writes w' = ws ++ can_writes w /\ Forall2 (written_as fd) (rev pieces) ws
}.

Lemma answered_nil fd w : answered fd [] w w.
Proof. split; [done | done |]. by exists []. Qed.

Lemma answered_app fd p1 p2 w1 w2 w3 :
  answered fd p1 w1 w2 -> answered fd p2 w2 w3 -> answered fd (p1 ++ p2) w1 w3.
Proof.
  intros [H1 C1 (ws1 & E1 & F1)] [H2 C2 (ws2 & E2 & F2)].
  split; [by etransitivity | congruence |]. exists (ws2 ++ ws1). split; [by rewrite E2, E1, app_assoc|].
  rewrite rev_app_distr. by apply Forall2_app.
Qed.

Section Performs.
Context `{OS}.

Fixpoint performs (id fd : Z) (outs : list along_out) (w w' : world) : Prop :=
  match outs with
  | [] => w' = w
  | Report f :: outs' => performs id fd outs' (monitored id 0x83 w f) w'
  | Answer sim :: outs' => exists w1, answered fd (answer_pieces sim) w w1 /\ performs id fd outs' w1 w'
  end.

Lemma performs_app id fd o1 o2 w1 w2 w3 :
  performs id fd o1 w1 w2 -> performs id fd o2 w2 w3 -> performs id fd (o1 ++ o2) w1 w3.
Proof.
  revert w1. induction o1 as [|[sim|f] o1 IH]; intros w1; cbn [performs app].
  - by intros ->.
  - intros (w & Ha & Hp) H2. exists w. split; [done | by apply IH].
  - intros Hp H2. by apply IH.
Qed.

Lemma performs_net id fd outs w w' :
  world_wf w -> 0 <= id < 6 -> performs id fd outs w w' -> net_only w w'.
Proof.
  intros Hwf Hid. revert w Hwf. induction outs as [|[sim|f] outs IH]; intros w Hwf; cbn [performs].
  - by intros ->.
  - intros (w1 & [Hn _] & Hp). etransitivity; [exact Hn|].
    apply IH; [by eapply net_only_wf | done].
  - intros Hp. pose proof (net_only_monitored id 0x83 w f Hwf Hid) as Hn.
    etransitivity; [exact Hn|]. apply IH; [by eapply net_only_wf | done].
Qed.
End Performs.

Section AlongSpec.
Context `{OS}.
#[local] Open Scope c_scope.

Lemma wp_transmit id type f (Q : unit -> world -> Prop) w :
  world_wf w -> held_below 4 w -> 0 <= id < 6 -> Q tt (monitored id type w f) ->
  wp (send_can_transmit_response id type 1 f) Q w.
Proof.
  intros Hwf Hb Hid HQ.
  destruct (lookup_lt_is_Some_2 (w_frame_count w) (Z.to_nat id)) as [c Hc];
    [rewrite (ww_counts _ Hwf); lia|].
  unfold wp. erewrite send_can_transmit_response_eq; [| by eapply lock_free_below | lia | exact Hc].
  unfold monitored in HQ. by rewrite Hc in HQ.
Qed.

Lemma wp_reports id fs w :
  world_wf w -> held_below 4 w -> 0 <= id < 6 ->
  wp (foreach fs (fun f => send_can_transmit_response id 0x83 1 f))
    (fun _ w' => forall fd, performs id fd (Report <$> fs) w w') w.
Proof.
  intros Hwf Hb Hid. revert w Hwf Hb. induction fs as [|f fs IH]; intros w Hwf Hb.
  { cbn [foreach]. by wp_step. }
  cbn [foreach]. wp_step. apply wp_transmit; [done..|].
  pose proof (net_only_monitored id 0x83 w f Hwf Hid) as Hn.
  apply IH; [by eapply net_only_wf | eapply held_below_eq; [apply Hn | done]].
Qed.

(** One piece is written, and a failed write gives an event. *)
Lemma answered_err fd msg w : answered fd [] w (err msg w).
Proof.
  split; [apply net_only_err | | exists []; split; [apply can_writes_event | constructor]].
  unfold err, event_result. by repeat case_match.
Qed.

Lemma answered_piece fd data ts w :
  answered fd [data] w (add_call (SysWrite fd (pack (response_frame data ts))) (add_call (SysClock false) w)).
Proof.
  split; [etransitivity; apply net_only_add_call | done |].
  exists [SysWrite fd (pack (response_frame data ts))]. split; [done|].
  constructor; [by exists ts | constructor].
Qed.

Lemma response_loop_spec n i id fd sim w :
  held_below 3 w -> world_wf w -> 0 <= i -> length (sd_send_data sim) = 256%nat -> i + Z.of_nat n <= 16 ->
  wp (response_loop n i id fd sim)
    (fun _ => answered fd ((fun j => slice (16 * j) 16 (sd_send_data sim)) <$> seq (Z.to_nat i) n) w) w.
Proof.
  intros Hb Hwf Hi Hl. revert i w Hb Hwf Hi. induction n as [|n IH]; intros i w Hb Hwf Hi Hn;
    cbn [response_loop]; [by wp_step; apply answered_nil|].
  wp_step. rewrite mem_read_ok by (unfold zlen; lia). eapply wp_of_option; [done|].
  replace (Z.to_nat (i * 16)) with (16 * Z.to_nat i)%nat by lia.
  change (Z.to_nat 16) with 16%nat. set (data := slice _ _ _).
  wp_step. apply wp_clock. cbv zeta. set (ts := if _ =? 0 then _ else 0).
  wp_step. apply wp_lock; [by eapply lock_free_below|]. wp_step. apply wp_sys.
  wp_step. eapply wp_unlock; [done|].
  match goal with |- wp _ _ ?w0 => set (w1 := w0) end.
  assert (answered fd [data] w w1) as Ha.
  { pose proof (answered_piece fd data ts w) as Ha. subst w1. by destruct w. }
  clearbody w1. pose proof (net_only_wf _ _ (an_net _ _ _ _ Ha) Hwf) as Hwf1.
  assert (held_below 3 w1) as Hb1 by (eapply held_below_eq; [apply (an_net _ _ _ _ Ha) | done]).
  assert (forall w2, answered fd [] w1 w2 -> wp (response_loop n (i + 1) id fd sim)
    (fun _ => answered fd ((fun j => slice (16 * j) 16 (sd_send_data sim)) <$> seq (Z.to_nat i) (S n)) w) w2)
    as Hrest.
  { intros w2 H2. eapply wp_mono; [apply (IH (i + 1)); [| | lia | lia]|].
    - eapply held_below_eq; [apply (an_net _ _ _ _ H2) | done].
    - by eapply net_only_wf; [apply (an_net _ _ _ _ H2)|].
    - intros [] w3 H3. replace (Z.to_nat (i + 1)) with (S (Z.to_nat i)) in H3 by lia.
      cbn [seq fmap list_fmap]. eapply (answered_app _ [data]); [exact Ha|].
      by eapply (answered_app _ []). }
  wp_step. apply wp_when; intros _; [|apply Hrest, answered_nil].
  apply wp_error_event; [by eapply held_below_mono; [|exact Hb1]; lia|].
  apply Hrest, answered_err.
Qed.

Lemma response_spec id fd flags sim w :
  held_below 3 w -> world_wf w -> 0 <= fd -> sim_wf sim ->
  wp (process_and_send_response id fd flags (Some sim)) (fun _ => answered fd (answer_pieces sim) w) w.
Proof.
  intros Hb Hwf Hfd [Hp Hs]. unfold process_and_send_response.
  rewrite (proj2 (Z.ltb_ge _ _)) by done. cbv zeta. unfold CAN_FRAME_DATA_LEN.
  change (PC_ARM_SIMULATOR_DATA_wf sim) in Hp. unfold PC_ARM_SIMULATOR_DATA_wf in Hp. destruct_and! Hp.
  unfold in_range in *. pose proof (Z.div_mod (sd_send_len sim) 16 ltac:(lia)).
  pose proof (Z.mod_pos_bound (sd_send_len sim) 16 ltac:(lia)).
  wp_step. eapply wp_mono; [apply response_loop_spec; [done | done | lia | done | lia]|].
  intros [] w' Ha. wp_step. exact Ha.
Qed.

Lemma wp_cache st f (Q : along -> world -> Prop) w :
  0 <= al_wait_frame_count st <= 5 ->
  Q (mk_along (al_buffer_frames st)
       (<[Z.to_nat (al_wait_frame_count st) := f]> (al_wait_cmd_frames st))
       (al_wait_frame_count st + 1) (al_target_wait_frames st) (al_is_waiting st) (al_matched st)) w ->
  wp (cache_frame st f) Q w.
Proof.
  intros Hc HQ. unfold cache_frame, MAX_WAIT_FRAMES. wp_step. wp_step; [lia|]. by wp_step.
Qed.

(** A part of the loop does what the function says. *)
Definition along_does (id fd : Z) (r : along * list along_out) (w : world) (st' : along) (w' : world)
    : Prop := st' = r.1 /\ performs id fd r.2 w w'.

Lemma waiting_spec id fd flags st f w :
  held_below 3 w -> world_wf w -> 0 <= id < 6 -> 0 <= fd -> along_wf st -> al_is_waiting st = true ->
  wp (along_waiting id fd flags st f) (along_does id fd (collect st f) w) w.
Proof.
  intros Hb Hwf Hid Hfd Hw Hwait. destruct (aw_waiting _ Hw Hwait) as (Hc & _ & _ & sim & Hm & Hin).
  pose proof (proj1 (list.Forall_forall _ _) (aw_frames _ Hw) sim Hin) as Hsim.
  unfold along_waiting, collect. wp_step. apply wp_cache; [lia|]. cbn [al_wait_frame_count al_target_wait_frames].
  rewrite Hwait. destruct (_ >=? _); cbn [negb]; cbv iota; [|by wp_step].
  cbn [al_matched al_buffer_frames al_wait_cmd_frames along_keep]. rewrite Hm.
  wp_step. wp_step. eapply wp_mono; [by apply (response_spec id fd flags sim)|]. intros r w1 Ha. wp_step.
  pose proof (net_only_wf _ _ (an_net _ _ _ _ Ha) Hwf) as Hwf1.
  assert (held_below 3 w1) as Hb1 by (eapply held_below_eq; [apply (an_net _ _ _ _ Ha) | done]).
  wp_step. eapply wp_mono; [apply wp_reports; [done | by eapply held_below_mono; [|exact Hb1]; lia | done]|].
  intros [] w2 Hp. wp_step. split; [done|]. exists w1. split; [done | apply Hp].
Qed.

Lemma matching_spec id fd flags st f w :
  held_below 3 w -> world_wf w -> 0 <= id < 6 -> 0 <= fd -> along_wf st -> al_is_waiting st = false ->
  wp (along_matching id fd flags st f) (along_does id fd (begin st f) w) w.
Proof.
  intros Hb Hwf Hid Hfd Hw Hidle. unfold along_matching, begin.
  destruct (find_match f (al_buffer_frames st)) as [sim|] eqn:Hm; [|by wp_step].
  pose proof (proj1 (list.Forall_forall _ _) (aw_frames _ Hw) sim (find_match_elem _ _ _ Hm)) as Hsim.
  cbv zeta. destruct (_ =? 0).
  - wp_step. apply wp_transmit; [done | by eapply held_below_mono; [|exact Hb]; lia | done |].
    pose proof (net_only_monitored id 0x83 w f Hwf Hid) as Hn. set (w1 := monitored id 0x83 w f) in *.
    assert (held_below 3 w1) as Hb1 by (eapply held_below_eq; [apply Hn | done]).
    wp_step. eapply wp_mono; [apply (response_spec id fd flags sim); [done | by eapply net_only_wf | done..]|].
    intros r w2 Ha. wp_step. split; [done|]. by exists w2.
  - destruct (_ && _)%bool; [|by wp_step].
    apply wp_cache; [by rewrite (aw_idle _ Hw Hidle)|]. done.
Qed.

Lemma along_batch_spec id fd flags st fs w :
  held_below 3 w -> world_wf w -> 0 <= id < 6 -> 0 <= fd -> along_wf st ->
  wp (along_batch id fd flags st fs) (along_does id fd (along_step st fs) w) w.
Proof.
  intros Hb Hwf Hid Hfd. revert st w Hb Hwf.
  induction fs as [|f fs IH]; intros st w Hb Hwf Hw; cbn [along_batch along_step]; [by wp_step|].
  destruct (al_is_waiting st) eqn:E; [by apply waiting_spec|].
  wp_step. eapply wp_mono; [by apply matching_spec|]. intros st1 w1 [-> Hp].
  pose proof (begin_wf st f Hw E) as Hw1. destruct (begin st f) as [st1 o1]. cbn [fst snd] in *.
  pose proof (performs_net _ _ _ _ _ Hwf Hid Hp) as Hn.
  eapply wp_mono; [apply IH; [eapply held_below_eq; [apply Hn | done] | by eapply net_only_wf | done]|].
  intros st2 w2 [-> Hp2]. destruct (along_step st1 fs) as [st2 o2].
  split; [done|]. by eapply performs_app.
Qed.

(** A turn takes a batch from the queue of received frames. *)
Definition along_turn_post (id fd : Z) (st : along) (w : world) (st' : along) (w' : world) : Prop :=
  exists b taken, bufs_wf b /\ bufs_only CanQueue id (w_bufs w) b /\ w_bufs w' = b /\
    buf_queue CanQueue id (w_bufs w) = taken ++ buf_queue CanQueue id b /\
    length taken = min 32 (length (buf_queue CanQueue id (w_bufs w))) /\
    st' = (along_step st (unpack <$> taken)).1 /\
    performs id fd (along_step st (unpack <$> taken)).2 (set_bufs b w) w'.

Lemma along_turn_spec id fd flags st w :
  held_below 3 w -> world_wf w -> 0 <= id < 6 -> 0 <= fd -> along_wf st ->
  wp (along_turn id fd flags st)
    (fun st' w' => (world_wf w' /\ along_wf st' /\ w_held w' = w_held w) /\
       along_turn_post id fd st w st' w') w.
Proof.
  intros Hb Hwf Hid Hfd Hw. unfold along_turn. wp_step.
  eapply wp_mono; [apply (read_batch_spec Received); done|].
  intros fs w1 (b & taken & -> & Hf & Hq & Hl & -> & Hp).
  pose proof (rx_wf _ _ _ _ Hf Hwf) as Hwf1.
  eapply wp_mono; [by apply along_batch_spec|]. intros st' w' [-> Hd].
  pose proof (performs_net _ _ _ _ _ Hwf1 Hid Hd) as Hn.
  split; [split_and!; [by eapply net_only_wf | by apply along_step_wf | by rewrite (no_held _ _ Hn)]|].
  exists b, taken. split; [apply Hwf1|]. split; [apply (rx_bufs _ _ _ _ Hf)|].
  by rewrite (no_bufs _ _ Hn).
Qed.

(** Loading takes the answers from the queue of the simulators. *)
Lemma load_frames_spec n id w :
  world_wf w -> 0 <= id < 6 -> Forall simulator_ok (buf_queue Simulator id (w_bufs w)) ->
  (n <= length (buf_queue Simulator id (w_bufs w)))%nat ->
  wp (load_frames n id) (fun fs w' => exists b taken, w' = set_bufs b w /\ world_wf w' /\
    bufs_only Simulator id (w_bufs w) b /\
    buf_queue Simulator id (w_bufs w) = taken ++ buf_queue Simulator id b /\
    length taken = n /\ fs = unpack <$> taken /\ Forall sim_wf fs) w.
Proof.
  intros Hwf Hid. revert w Hwf. induction n as [|n IH]; intros w Hwf Hsim Hn; cbn [load_frames].
  { wp_step. exists (w_bufs w), []. destruct w. by split_and!. }
  wp_step. apply wp_buf_get; [apply Hwf | lia | done |].
  assert (buf_chan_ok Simulator id 32 = true) as -> by (unfold buf_chan_ok; simpl; lia).
  destruct (buf_queue Simulator id (w_bufs w)) as [|x q] eqn:Hq; [simpl in Hn; lia|].
  intros r dst b Hb Ho (-> & Hqb & Hx & ->). change (negb (1 =? 1)) with false. cbv iota.
  apply list.Forall_cons in Hsim as [[Hxl [_ Hsl]] Hsim].
  change (buf_esize Simulator) with 288 in *.
  replace (x ++ drop (Z.to_nat 288) (replicate 288 x00)) with x by by rewrite app_nil_r.
  wp_step. apply wp_cast; [lia|].
  assert (world_wf (set_bufs b w)) as Hwf1 by by eapply (set_bufs_wf Simulator).
  wp_step. eapply wp_mono; [apply (IH (set_bufs b w)); [done|..]; simpl w_bufs; rewrite Hqb; [done | simpl in Hn; lia]|].
  intros fs w' (b' & taken & -> & Hwf' & Ho' & Hq' & Hl & -> & Hs). wp_step.
  exists b', (x :: taken). split; [done|]. split; [by destruct Hwf'|]. split; [by etransitivity|].
  simpl w_bufs in Hq'. rewrite Hqb in Hq'. split; [simpl; by rewrite Hq'|].
  split; [simpl; by rewrite Hl|]. split; [done|]. constructor; [|done]. split; [|done].
  apply unpack_wf. change (psize (A := PC_ARM_SIMULATOR_DATA)) with 288%nat.
  change (sizeof PC_ARM_SIMULATOR_DATA) with 288 in Hxl. unfold zlen in Hxl. lia.
Qed.

Definition along_load_post (id : Z) (w : world) (o : option along) (w' : world) : Prop :=
  let q := buf_queue Simulator id (w_bufs w) in
  world_wf w' /\ w' = set_bufs (w_bufs w') w /\ bufs_only Simulator id (w_bufs w) (w_bufs w') /\
  match w_configs w !! Z.to_nat id with
  | Some c =>
    if (cf_can_type c =? ALONG_MODE) && (7 <=? zlen q) then
      exists taken, q = taken ++ buf_queue Simulator id (w_bufs w') /\
        length taken = min 32 (length q) /\ o = Some (along_start (unpack <$> taken)) /\
        along_wf (along_start (unpack <$> taken))
    else o = None /\ w' = w
  | None => False
  end.

Lemma along_load_spec id w :
  world_wf w -> 0 <= id < 6 -> Forall simulator_ok (buf_queue Simulator id (w_bufs w)) ->
  wp (along_load id) (along_load_post id w) w.
Proof.
  intros Hwf Hid Hsim. unfold along_load, along_load_post.
  destruct (config_lookup id w Hwf) as (c & Hc & _); [lia|]. rewrite Hc.
  wp_step. eapply wp_arr_get; [lia | exact Hc |].
  assert (buf_chan_ok Simulator id 32 = true) as Hok by (unfold buf_chan_ok; simpl; lia).
  wp_step. apply wp_buf_len; [apply Hwf | lia |]. rewrite Hok. rewrite Z.geb_leb.
  destruct (_ && _)%bool; cbn [negb]; cbv iota; [|wp_step; by destruct w].
  wp_step. apply wp_buf_len; [apply Hwf | lia |]. rewrite Hok. unfold MAX_SIMULATOR_FRAMES.
  wp_step. set (q := buf_queue Simulator id (w_bufs w)) in *.
  eapply wp_mono; [apply load_frames_spec; [done | done | done |]; fold q; unfold zlen; lia|].
  intros fs w' (b & taken & -> & Hwf' & Ho & Hq & Hl & -> & Hs). wp_step.
  split; [done|]. split; [done|]. split; [done|]. exists taken. split; [done|].
  split; [unfold zlen in Hl; lia|]. split; [done | by apply along_start_wf].
Qed.
End AlongSpec.

(** ** How many frames a command takes *)

(** The thread fed with frames that arrive one at a time. *)
Fixpoint along_feed (st : along) (fs : list axican_frame) : along * list along_out :=
  match fs with
  | [] => (st, [])
  | f :: fs' =>
    let '(st1, o1) := along_step st [f] in
    let '(st2, o2) := along_feed st1 fs' in (st2, o1 ++ o2)
  end.

(** The frames of the command of an answer, by its length field, and the number
    of frames after which the answer is given. *)
Definition command_frames (sim : PC_ARM_SIMULATOR_DATA) : Z := sd_rcv_len sim / 8.
Definition answered_after (n : Z) : Z := if n =? 1 then 1 else Z.max 2 (n - 1).

Lemma feed_collect sim t pre rest st :
  al_is_waiting st = true -> al_matched st = Some sim -> al_target_wait_frames st = t -> 1 <= t <= 6 ->
  length (al_wait_cmd_frames st) = 6%nat -> al_wait_frame_count st = zlen pre -> 1 <= zlen pre ->
  take (length pre) (al_wait_cmd_frames st) = pre -> rest <> [] -> zlen pre + zlen rest = Z.max 2 t ->
  along_feed st rest = (along_start (al_buffer_frames st), Answer sim :: (Report <$> pre ++ rest)).
Proof.
  intros Hwait Hm Ht Hb. revert pre st Hwait Hm Ht.
  induction rest as [|f rest IH]; intros pre st Hwait Hm Ht Hl Hc Hp Hpre Hne Hlen; [done|].
  assert (zlen (f :: rest) = 1 + zlen rest) as Hfr by (unfold zlen; simpl; lia).
  assert (0 <= zlen rest) by (unfold zlen; lia).
  assert (take (S (length pre)) (<[length pre := f]> (al_wait_cmd_frames st)) = pre ++ [f]) as Htake.
  { rewrite take_insert_snoc, Hpre; [done|]. unfold zlen in *. lia. }
  cbn [along_feed along_step]. rewrite Hwait. unfold collect. rewrite Ht, Hc.
  cbn [al_wait_cmd_frames along_keep]. rewrite Hc. replace (Z.to_nat (zlen pre)) with (length pre) by (unfold zlen; lia).
  replace (Z.to_nat (zlen pre + 1)) with (S (length pre)) by (unfold zlen; lia).
  destruct (Z.geb_spec (zlen pre + 1) t) as [Hge|Hlt].
  - assert (rest = []) as -> by (destruct rest; [done | unfold zlen in *; simpl in *; lia]).
    rewrite Hm, Htake. cbn [along_feed]. by rewrite app_nil_r.
  - rewrite (IH (pre ++ [f])); cbn [along_keep al_is_waiting al_matched al_target_wait_frames
      al_wait_cmd_frames al_wait_frame_count al_buffer_frames]; try done.
    + by rewrite <- app_assoc.
    + by rewrite length_insert.
    + rewrite zlen_app. change (zlen [f]) with 1. lia.
    + rewrite zlen_app. change (zlen [f]) with 1. lia.
    + rewrite length_app, Hc. simpl. rewrite Nat.add_1_r.
      by replace (Z.to_nat (zlen pre)) with (length pre) by (unfold zlen; lia).
    + intros ->. unfold zlen in *. simpl in *. lia.
    + rewrite zlen_app. change (zlen [f]) with 1. lia.
Qed.

(** Nothing is done before the command is complete. *)
Lemma feed_quiet rest st :
  al_is_waiting st = true -> rest = [] \/ al_wait_frame_count st + zlen rest < al_target_wait_frames st ->
  (along_feed st rest).2 = [].
Proof.
  revert st. induction rest as [|f rest IH]; intros st Hwait Hlt; [done|].
  destruct Hlt as [|Hlt]; [done|].
  assert (zlen (f :: rest) = 1 + zlen rest /\ 0 <= zlen rest) as [Hfr H0] by (unfold zlen; simpl length; lia).
  cbn [along_feed along_step]. rewrite Hwait. unfold collect.
  rewrite Z.geb_leb, (proj2 (Z.leb_gt _ _)) by lia.
  specialize (IH (along_keep st f (al_target_wait_frames st) (al_matched st)) eq_refl).
  destruct (along_feed _ rest) as [st2 o2]. apply IH. right. cbn. lia.
Qed.

Lemma begin_collect st f sim :
  along_wf st -> al_is_waiting st = false -> find_match f (al_buffer_frames st) = Some sim ->
  2 <= command_frames sim <= 7 ->
  begin st f = (along_keep st f (command_frames sim - 1) (Some sim), []).
Proof.
  intros Hw Hidle Hm Hn. unfold begin, determine_response_frames. rewrite Hm. cbv zeta.
  fold (command_frames sim). rewrite (proj2 (Z.eqb_neq _ _)) by lia.
  unfold MAX_WAIT_FRAMES. assert (((command_frames sim - 1 >? 0) && (command_frames sim - 1 <=? 6))%bool = true)
    as -> by lia. done.
Qed.

(** A command of one frame is answered at once. *)
Lemma feed_single st first sim :
  al_is_waiting st = false -> find_match first (al_buffer_frames st) = Some sim ->
  command_frames sim = 1 ->
  exists st', along_feed st [first] = (st', [Report first; Answer sim]) /\ al_is_waiting st' = false.
Proof.
  intros Hidle Hm Hn. cbn [along_feed along_step]. rewrite Hidle.
  unfold begin, determine_response_frames. rewrite Hm. cbv zeta. fold (command_frames sim).
  rewrite Hn. eexists. by split.
Qed.

Lemma feed_several st first rest sim :
  along_wf st -> al_is_waiting st = false -> find_match first (al_buffer_frames st) = Some sim ->
  2 <= command_frames sim <= 7 -> 1 + zlen rest = Z.max 2 (command_frames sim - 1) ->
  along_feed st (first :: rest) =
    (along_start (al_buffer_frames st), Answer sim :: (Report <$> first :: rest)).
Proof.
  intros Hw Hidle Hm Hn Hlen. pose proof (aw_idle _ Hw Hidle) as Hc. pose proof (aw_cmds _ Hw) as H6.
  cbn [along_feed along_step]. rewrite Hidle, (begin_collect _ _ sim) by done. cbn [app].
  rewrite (feed_collect sim (command_frames sim - 1) [first]);
    cbn [along_keep al_is_waiting al_matched al_target_wait_frames al_wait_cmd_frames
      al_wait_frame_count al_buffer_frames]; try done; rewrite ?Hc, ?length_insert; try done; try lia.
  - by destruct (al_wait_cmd_frames st).
  - intros ->. unfold zlen in Hlen. simpl in Hlen. lia.
Qed.

Section AlongClaims.
Context `{OS}.
#[local] Open Scope c_scope.

Lemma along_feed_wf st fs : along_wf st -> along_wf (along_feed st fs).1.
Proof.
  revert st. induction fs as [|f fs IH]; intros st Hw; [done|]. cbn [along_feed].
  pose proof (along_step_wf st [f] Hw) as Hw1. destruct (along_step st [f]) as [st1 o1].
  specialize (IH st1 Hw1). by destruct (along_feed st1 fs).
Qed.

Lemma along_batches_spec id fd flags st fs w :
  held_below 3 w -> world_wf w -> 0 <= id < 6 -> 0 <= fd -> along_wf st ->
  wp (along_batches id fd flags st fs) (along_does id fd (along_feed st fs) w) w.
Proof.
  intros Hb Hwf Hid Hfd. revert st w Hb Hwf.
  induction fs as [|f fs IH]; intros st w Hb Hwf Hw; cbn [along_batches along_feed]; [by wp_step|].
  wp_step. eapply wp_mono; [by apply along_batch_spec|]. intros st1 w1 [-> Hp].
  pose proof (along_step_wf st [f] Hw) as Hw1. destruct (along_step st [f]) as [st1 o1]. cbn [fst snd] in *.
  pose proof (performs_net _ _ _ _ _ Hwf Hid Hp) as Hn.
  eapply wp_mono; [apply IH; [eapply held_below_eq; [apply Hn | done] | by eapply net_only_wf | done]|].
  intros st2 w2 [-> Hp2]. destruct (along_feed st1 fs) as [st2 o2].
  split; [done|]. by eapply performs_app.
Qed.

(** A batch ends with the frame that follows the start of a command. *)
Lemma batch_dropped id fd flags st first second more sim w :
  held_below 3 w -> world_wf w -> 0 <= id < 6 -> 0 <= fd -> along_wf st -> al_is_waiting st = false ->
  find_match first (al_buffer_frames st) = Some sim -> 2 <= command_frames sim <= 7 ->
  along_batch id fd flags st (first :: second :: more) w = along_batch id fd flags st [first; second] w.
Proof.
  intros Hb Hwf Hid Hfd Hw Hidle Hm Hn. cbn [along_batch]. rewrite Hidle. unfold bind.
  destruct (proj1 (wp_exec _ _ _) (matching_spec id fd flags st first w Hb Hwf Hid Hfd Hw Hidle))
    as (st1 & w1 & -> & -> & _). by rewrite (begin_collect _ _ sim).
Qed.

(** C21. The simulator refines its collection machine: from a well-formed state
    of the thread, a turn is never stuck, so it stays inside the array of the
    cached frames and inside the data of the answer; it takes the oldest
    received frames, at most 32, and changes no other queue; its state becomes
    the one the machine gives; and it does what the machine outputs, in order:
    an answer writes the data of the matched download to the descriptor of the
    channel in pieces of 16 bytes, and a report sends one transmit status frame
    of type 0x83. *)
Theorem along_turn_refines id fd flags st w :
  held_below 3 w -> world_wf w -> 0 <= id < AXICAN_MAX -> 0 <= fd -> along_wf st ->
  exists st' w', along_turn id fd flags st w = Some (st', w') /\ world_wf w' /\ along_wf st' /\
  exists b taken, bufs_wf b /\ bufs_only CanQueue id (w_bufs w) b /\ w_bufs w' = b /\
    buf_queue CanQueue id (w_bufs w) = taken ++ buf_queue CanQueue id b /\
    length taken = min 32 (length (buf_queue CanQueue id (w_bufs w))) /\
    st' = (along_step st (unpack <$> taken)).1 /\
    performs id fd (along_step st (unpack <$> taken)).2 (set_bufs b w) w'.
Proof.
  intros Hb Hwf Hid Hfd Hw. pose proof (along_turn_spec id fd flags st w Hb Hwf Hid Hfd Hw) as Hwp.
  apply wp_exec in Hwp as (st' & w' & Hrun & (Hwf' & Hw' & _) & Hpost). by exists st', w'.
Qed.

(** C23. When a command is answered: from a state of the thread that collects
    nothing, when frames arrive one at a time and the first of them matches a
    loaded answer whose command has [n] frames by its length field, the thread
    does nothing until one frame has arrived when [n] is one, and until two or
    [n - 1] frames have, whichever is more, when [n] is 2 to 7; with that frame
    it gives the answer, reports the frames of the command and is ready for the
    next one. When more than two frames arrive in one batch and [n] is not one,
    those after the second are dropped. *)
Theorem command_answered id fd flags st first rest sim w :
  held_below 3 w -> world_wf w -> 0 <= id < AXICAN_MAX -> 0 <= fd ->
  along_wf st -> al_is_waiting st = false ->
  find_match first (al_buffer_frames st) = Some sim -> 1 <= command_frames sim <= 7 ->
  zlen (first :: rest) = answered_after (command_frames sim) ->
  (exists st' w', along_batches id fd flags st (first :: rest) w = Some (st', w') /\
     al_is_waiting st' = false /\
     performs id fd (if command_frames sim =? 1 then [Report first; Answer sim]
                     else Answer sim :: (Report <$> first :: rest)) w w') /\
  (forall k, (k < length (first :: rest))%nat ->
     exists st', along_batches id fd flags st (take k (first :: rest)) w = Some (st', w)) /\
  (2 <= command_frames sim -> forall second more,
     along_batch id fd flags st (first :: second :: more) w = along_batch id fd flags st [first; second] w).
Proof.
  intros Hb Hwf Hid Hfd Hw Hidle Hm Hn Hlen. unfold answered_after in Hlen.
  assert (zlen (first :: rest) = 1 + zlen rest) as Hfr by (unfold zlen; simpl; lia).
  pose proof (fun fs => along_batches_spec id fd flags st fs w Hb Hwf Hid Hfd Hw) as Hrun.
  split; [|split].
  - destruct (proj1 (wp_exec _ _ _) (Hrun (first :: rest))) as (st' & w' & Hr & -> & Hp).
    eexists _, w'. split; [exact Hr|]. destruct (Z.eqb_spec (command_frames sim) 1) as [H1|H1].
    + assert (rest = []) as -> by (destruct rest; [done | unfold zlen in *; simpl in *; lia]).
      destruct (feed_single st first sim Hidle Hm H1) as (st' & Hf & Hst). rewrite Hf in *. by split.
    + rewrite (feed_several st first rest sim) in * by (done || lia). by split.
  - intros k Hk. destruct (proj1 (wp_exec _ _ _) (Hrun (take k (first :: rest)))) as (st' & w' & Hr & _ & Hp).
    exists st'. rewrite Hr. f_equal. f_equal.
    assert ((along_feed st (take k (first :: rest))).2 = []) as Hq; [|by rewrite Hq in Hp].
    destruct k as [|k]; [done|]. simpl in Hk.
    assert (zlen rest = Z.of_nat (length rest)) as Hrl by done.
    destruct (Z.eqb_spec (command_frames sim) 1) as [H1|H1]; [lia|].
    cbn [take along_feed along_step]. rewrite Hidle, (begin_collect _ _ sim) by (done || lia).
    set (st1 := along_keep _ _ _ _). pose proof (feed_quiet (take k rest) st1 eq_refl) as Hquiet.
    destruct (along_feed st1 (take k rest)) as [st2 o2]. apply Hquiet. destruct k as [|k]; [by left|]. right.
    cbn. rewrite (aw_idle _ Hw Hidle). unfold zlen. rewrite length_take. lia.
  - intros Hn2 second more. apply (batch_dropped id fd flags st first second more sim w); try done; lia.
Qed.

(** The descriptors and data of the run: downloads, the loading of the answers,
    the turns of the thread, and anything else that leaves the queues of the
    simulators alone, in any order. *)
Inductive sim_run (id fd flags : Z) : option along -> world -> Prop :=
| SimStart w :
    world_wf w -> w_held w = [] -> simulators_ok (w_bufs w) -> sim_run id fd flags None w
| SimDownload al w sock used chunk r w' :
    sim_run id fd flags al w -> zlen used + zlen chunk <= stream_size ->
    download_turn sock used chunk w = Some (r, w') -> sim_run id fd flags al w'
| SimLoad w al w' :
    sim_run id fd flags None w -> along_load id w = Some (al, w') -> sim_run id fd flags al w'
| SimTurn st w st' w' :
    sim_run id fd flags (Some st) w -> along_turn id fd flags st w = Some (st', w') ->
    sim_run id fd flags (Some st') w'
| SimOther al w w' :
    sim_run id fd flags al w -> world_wf w' -> w_held w' = [] ->
    (forall ch, 0 <= ch -> buf_queue Simulator ch (w_bufs w') = buf_queue Simulator ch (w_bufs w)) ->
    sim_run id fd flags al w'.

Definition sim_inv (al : option along) (w : world) : Prop :=
  world_wf w /\ w_held w = [] /\ simulators_ok (w_bufs w) /\
  match al with Some st => along_wf st | None => True end.

Lemma simulators_ok_other b b' :
  (forall ch, 0 <= ch -> buf_queue Simulator ch b' = buf_queue Simulator ch b) ->
  simulators_ok b -> simulators_ok b'.
Proof. intros He Hs ch Hch. rewrite He by done. by apply Hs. Qed.

Lemma simulators_ok_download w w' : dl_frame w w' -> simulators_ok (w_bufs w) -> simulators_ok (w_bufs w').
Proof.
  intros Hd Hs ch Hch. destruct (dl_appends _ _ Hd Simulator ch Hch) as (new & -> & _ & Hn).
  apply list.Forall_app. split; [by apply Hs | by apply Hn].
Qed.

Lemma simulators_ok_load id w o w' : along_load_post id w o w' -> simulators_ok (w_bufs w) ->
  simulators_ok (w_bufs w') /\ match o with Some st => along_wf st | None => True end.
Proof.
  intros (_ & _ & Ho & Hl) Hs. destruct (w_configs w !! Z.to_nat id); [|done].
  destruct (_ && _)%bool; [|by destruct Hl as [-> ->]].
  destruct Hl as (taken & Hq & _ & -> & Hw). split; [|done]. intros ch Hch.
  destruct (decide (ch = id)) as [->|Hne]; [|rewrite Ho by (done || congruence); by apply Hs].
  specialize (Hs id Hch). rewrite Hq in Hs. by apply list.Forall_app in Hs as [_ Hs].
Qed.

Lemma sim_run_inv id fd flags al w :
  0 <= id < 6 -> 0 <= fd -> sim_run id fd flags al w -> sim_inv al w.
Proof.
  intros Hid Hfd. induction 1 as [w Hwf Hh Hs|al w sock used chunk r w' _ IH Hl Hrun|w al w' _ IH Hrun
    |st w st' w' _ IH Hrun|al w w' _ IH Hwf Hh Hq]; [by split_and!|..].
  - destruct IH as (Hwf & Hh & Hs & Ha).
    pose proof (download_turn_spec sock used chunk w Hh Hl Hwf) as Hwp.
    unfold wp in Hwp. rewrite Hrun in Hwp. destruct Hwp as [Hd _].
    split; [by apply (dl_wf _ _ Hd)|]. split; [by rewrite (dl_held _ _ Hd)|].
    split; [by eapply simulators_ok_download | done].
  - destruct IH as (Hwf & Hh & Hs & _).
    pose proof (along_load_spec id w Hwf Hid (Hs id (proj1 Hid))) as Hwp.
    unfold wp in Hwp. rewrite Hrun in Hwp.
    destruct (simulators_ok_load id w al w' Hwp Hs) as [Hs' Ha].
    split; [apply Hwp|]. split; [by rewrite (proj1 (proj2 Hwp)); simpl | done].
  - destruct IH as (Hwf & Hh & Hs & Ha).
    assert (held_below 3 w) as Hb by (unfold held_below; rewrite Hh; constructor).
    pose proof (along_turn_spec id fd flags st w Hb Hwf Hid Hfd Ha) as Hwp.
    unfold wp in Hwp. rewrite Hrun in Hwp.
    destruct Hwp as ((Hwf' & Hw' & Hh') & b & taken & _ & Ho & Hbw & _).
    split; [done|]. split; [congruence|]. split; [|done].
    apply (simulators_ok_other (w_bufs w)); [|done]. intros ch Hch. rewrite Hbw. by apply Ho.
  - destruct IH as (_ & _ & Hs & Ha). split; [done|]. split; [done|]. split; [|done].
    by apply (simulators_ok_other (w_bufs w)).
Qed.

(** C22. The simulator against its downloads: in every interleaving of download
    turns with arbitrary bytes, of the loading of the answers, of turns of the
    thread and of other threads, a further turn of a download connection and
    of the thread is never stuck; in particular the thread never reads past the
    data of a loaded answer, whatever length its download declared, nor writes
    past the array of cached frames. *)
Theorem simulator_never_stuck id fd flags al w :
  0 <= id < AXICAN_MAX -> 0 <= fd -> sim_run id fd flags al w ->
  (forall sock used chunk, zlen used + zlen chunk <= stream_size ->
     exists r w', download_turn sock used chunk w = Some (r, w')) /\
  match al with
  | None => exists al' w', along_load id w = Some (al', w')
  | Some st => (exists st' w', along_turn id fd flags st w = Some (st', w')) /\
      Forall (fun sim => sd_send_len sim <= 256) (al_buffer_frames st) /\
      0 <= al_wait_frame_count st < MAX_WAIT_FRAMES
  end.
Proof.
  intros Hid Hfd Hrun. destruct (sim_run_inv id fd flags al w Hid Hfd Hrun) as (Hwf & Hh & Hs & Ha).
  split.
  { intros sock used chunk Hl. pose proof (download_turn_spec sock used chunk w Hh Hl Hwf) as Hwp.
    apply wp_exec in Hwp as (r & w' & Hr & _). by exists r, w'. }
  destruct al as [st|].
  - assert (held_below 3 w) as Hb by (unfold held_below; rewrite Hh; constructor).
    pose proof (along_turn_spec id fd flags st w Hb Hwf Hid Hfd Ha) as Hwp.
    apply wp_exec in Hwp as (st' & w' & Hr & _). split; [by exists st', w'|].
    split; [eapply list.Forall_impl; [apply (aw_frames _ Ha)|]; by intros sim [_ ?]|].
    unfold MAX_WAIT_FRAMES. destruct (al_is_waiting st) eqn:E.
    + pose proof (aw_waiting _ Ha E). lia.
    + rewrite (aw_idle _ Ha E). lia.
  - pose proof (along_load_spec id w Hwf Hid (Hs id (proj1 Hid))) as Hwp.
    apply wp_exec in Hwp as (al' & w' & Hr & _). by exists al', w'.
Qed.
End AlongClaims.

(** ** Witnesses *)

(** An answer to the sample frame, for a command of [n] frames, with two frames. *)
Definition sample_answer (n : Z) : PC_ARM_SIMULATOR_DATA :=
  mk_PC_ARM_SIMULATOR_DATA PC_STATUS_HEAD 0 2 288 2 0 0 0 0 0x11223344 (8 * n) 32 0 (replicate 256 x5a).

Lemma sample_answer_wf : sim_wf (sample_answer 1) /\ sim_wf (sample_answer 4).
Proof. split; split; by vm_compute. Qed.

Lemma command_answered_witness :
  let st := along_start [sample_answer 4] in let f := received_frame in
  exists st' w', along_batches (H := frames_os) 2 8 0 st [f; f; f] normal_world = Some (st', w') /\
    al_is_waiting st' = false /\
    performs (H := frames_os) 2 8 [Answer (sample_answer 4); Report f; Report f; Report f] normal_world w'.
Proof.
  intros st f.
  destruct (command_answered (H := frames_os) 2 8 0 st f [f; f] (sample_answer 4) normal_world) as (Hrun & _).
  - constructor.
  - exact normal_world_wf.
  - unfold AXICAN_MAX. lia.
  - lia.
  - apply along_start_wf. repeat constructor; apply sample_answer_wf.
  - reflexivity.
  - by vm_compute.
  - split; by vm_compute.
  - by vm_compute.
  - exact Hrun.
Defined.

Lemma along_turn_refines_witness :
  exists w1 st' w', received_queue 2 w1 = two_frames /\
    along_turn (H := frames_os) 2 8 0 (along_start [sample_answer 1]) w1 = Some (st', w') /\
    world_wf w' /\ along_wf st' /\ received_queue 2 w' = [].
Proof.
  destruct received_world as (w1 & _ & Hwf & Hh & Hq & _).
  destruct (along_turn_refines (H := frames_os) 2 8 0 (along_start [sample_answer 1]) w1)
    as (st' & w' & Hrun & Hwf' & Hw' & b & taken & _ & _ & Hb & Hqw & Hl & _);
    [unfold held_below; rewrite Hh; constructor | exact Hwf | unfold AXICAN_MAX; lia | lia
      | apply along_start_wf; constructor; [apply sample_answer_wf | constructor] |].
  exists w1, st', w'. split; [exact Hq|]. split; [exact Hrun|]. split; [exact Hwf'|]. split; [exact Hw'|].
  unfold received_queue in *. rewrite Hq in Hl, Hqw. rewrite Hb.
  apply (f_equal length) in Hqw. rewrite length_app, Hl in Hqw. simpl in Hqw.
  apply nil_length_inv. lia.
Defined.

Lemma simulator_never_stuck_witness :
  sim_run (H := frames_os) 2 8 0 None normal_world /\
  (exists al w', along_load 2 normal_world = Some (al, w')) /\
  (exists r w', download_turn (H := frames_os) 9 [] [x00; x01] normal_world = Some (r, w')).
Proof.
  assert (sim_run (H := frames_os) 2 8 0 None normal_world) as Hrun.
  { apply SimStart; [exact normal_world_wf | exact eq_refl |]. intros ch Hch.
    assert (buf_queue Simulator ch (w_bufs normal_world) = []) as -> by exact (empty_buffers_queue Simulator ch).
    constructor. }
  split; [exact Hrun|].
  destruct (simulator_never_stuck (H := frames_os) 2 8 0 None normal_world) as [Hd Hl];
    [unfold AXICAN_MAX; lia | lia | exact Hrun |].
  split; [exact Hl|]. apply Hd. unfold stream_size, BUFFER_SIZE_1, zlen. simpl. lia.
Defined.
