(* ===== verification/Ports.v ===== *)
(** * The ports: listeners, the clients of ports 9010 and 9011, and the report
    of the buffers
    ([src/main18.c], [configure_tcp_keepalive], [tcp_listen_thread_9009] to
    [tcp_listen_thread_9012], [tcp_client_handler_9010],
    [tcp_client_handler_9011] and [buffer_report_thread]).

    A client of port 9010 or 9011 only listens; its thread publishes the socket
    in a global variable, which every sender uses under a mutex.  The thread is
    the only one that closes the socket; a sender or a new client that gives
    the socket up shuts it down and withdraws it. *)
From S2P Require Import Prelude Words Ring RingSet Layout World Upload Broadcast Commands Download CanTx CanRx.
From Stdlib Require Import (notations) String.

(** ** Constants of the code and of the target *)

Definition TCP_PORT1 : Z := 9009.
Definition TCP_PORT2 : Z := 9010.
Definition TCP_PORT3 : Z := 9011.
Definition TCP_PORT4 : Z := 9012.
Definition MAX_CLIENTS : Z := 5.
Definition TCP_KEEPALIVE_IDLE_SEC : Z := 60.
Definition TCP_KEEPALIVE_INTERVAL_SEC : Z := 10.
Definition TCP_KEEPALIVE_PROBES : Z := 3.
Definition SOL_SOCKET : Z := 1.
Definition SO_REUSEADDR : Z := 2.
Definition SO_KEEPALIVE : Z := 9.
Definition IPPROTO_TCP : Z := 6.
Definition TCP_KEEPIDLE : Z := 4.
Definition TCP_KEEPINTVL : Z := 5.
Definition TCP_KEEPCNT : Z := 6.

(** The two ports whose clients only listen. *)
Inductive client_port := UploadPort | EventPort.

Definition port_number (p : client_port) : Z :=
  match p with UploadPort => TCP_PORT2 | EventPort => TCP_PORT3 end.
Definition port_mutex (p : client_port) : lock :=
  match p with UploadPort => data_upload_mutex | EventPort => event_sock_mutex end.
Definition port_socket (p : client_port) : world -> Z :=
  match p with UploadPort => data_upload_socket | EventPort => event_socket end.
Definition set_port_socket (p : client_port) : Z -> world -> world :=
  match p with UploadPort => set_data_upload_socket | EventPort => set_event_socket end.

Section PortCode.
Context `{OS}.
#[local] Open Scope c_scope.

Definition configure_tcp_keepalive (sock port : Z) : M world unit :=
  let* rc := sys (SysSetsockopt sock SOL_SOCKET SO_KEEPALIVE 1) in
  if rc <? 0 then ret tt else
  let* _ := sys (SysSetsockopt sock IPPROTO_TCP TCP_KEEPIDLE TCP_KEEPALIVE_IDLE_SEC) in
  let* _ := sys (SysSetsockopt sock IPPROTO_TCP TCP_KEEPINTVL TCP_KEEPALIVE_INTERVAL_SEC) in
  let* _ := sys (SysSetsockopt sock IPPROTO_TCP TCP_KEEPCNT TCP_KEEPALIVE_PROBES) in
  ret tt.

(** The handler up to its receive loop: it replaces the client there was. *)
Definition port_open (p : client_port) (sock : Z) : M world unit :=
  let* _ := sys SysFree in
  configure_tcp_keepalive sock (port_number p) ;;
  mutex_lock (port_mutex p) ;;
  let* old := gets (port_socket p) in
  when (negb (old =? -1)) (let* _ := sys (SysShutdown old) in ret tt) ;;
  modify (set_port_socket p sock) ;;
  mutex_unlock (port_mutex p).

(** [while (running)] with its [recv] of one byte: the results are an input. *)
Fixpoint port_wait (answers : list Z) : M world unit :=
  match answers with
  | [] => ret tt
  | a :: answers' => if a <=? 0 then ret tt else port_wait answers'
  end.

Definition port_close (p : client_port) (sock : Z) : M world unit :=
  mutex_lock (port_mutex p) ;;
  let* current := gets (port_socket p) in
  when (current =? sock) (modify (set_port_socket p (-1))) ;;
  mutex_unlock (port_mutex p) ;;
  let* _ := sys (SysClose sock) in
  ret tt.

(** [tcp_client_handler_9010] and [tcp_client_handler_9011]. *)
Definition tcp_client_handler (p : client_port) (answers : list Z) (sock : Z) : M world unit :=
  port_open p sock ;;
  port_wait answers ;;
  port_close p sock.

Definition tcp_client_handler_9010 := tcp_client_handler UploadPort.
Definition tcp_client_handler_9011 := tcp_client_handler EventPort.

(** ** Listening *)

(** The server socket of a listening thread, or nothing when it gives up. *)
Definition listen_setup (port : Z) : M world (option Z) :=
  let* _ := sys SysFree in
  let* server_fd := sys SysSocket in
  if server_fd =? 0 then ret None else
  let* rc := sys (SysSetsockopt server_fd SOL_SOCKET SO_REUSEADDR 1) in
  if negb (rc =? 0) then (let* _ := sys (SysClose server_fd) in ret None) else
  let* rc := sys (SysBind server_fd port) in
  if rc <? 0 then (let* _ := sys (SysClose server_fd) in ret None) else
  let* rc := sys (SysListen server_fd MAX_CLIENTS) in
  if rc <? 0 then (let* _ := sys (SysClose server_fd) in ret None) else
  ret (Some server_fd).

Definition sizeof_int : Z := 4.

(** One turn of the accept loop.  [client_tid] is the thread the variable names,
    or nothing while no [pthread_create] has set it; it is detached after a
    failed [pthread_create] too, and reading it before it was ever set is
    undefined. *)
Definition listen_turn (port server_fd : Z) (client_tid : option thread) : M world (option thread) :=
  let* block := sys (SysMalloc sizeof_int) in
  if block =? 0 then ret client_tid else
  let* new_socket := sys (SysAccept server_fd) in
  if new_socket <? 0 then (let* _ := sys SysFree in ret client_tid) else
  let* rc := sys (SysThread (ClientThread port new_socket)) in
  let client_tid := if rc =? 0 then Some (ClientThread port new_socket) else client_tid in
  when (negb (rc =? 0))
    (let* _ := sys (SysClose new_socket) in let* _ := sys SysFree in ret tt) ;;
  let* tid := of_option client_tid in
  let* _ := sys (SysDetach tid) in
  ret client_tid.

Fixpoint listen_loop (n : nat) (port server_fd : Z) (client_tid : option thread) : M world unit :=
  match n with
  | O => ret tt
  | S n' => let* client_tid := listen_turn port server_fd client_tid in listen_loop n' port server_fd client_tid
  end.

(** A listening thread that makes [n] turns before the program ends. *)
Definition tcp_listen_thread (n : nat) (port : Z) : M world unit :=
  let* server_fd := listen_setup port in
  match server_fd with
  | None => ret tt
  | Some server_fd =>
    listen_loop n port server_fd None ;;
    let* _ := sys (SysClose server_fd) in ret tt
  end.

Definition tcp_listen_thread_9009 (n : nat) := tcp_listen_thread n TCP_PORT1.
Definition tcp_listen_thread_9010 (n : nat) := tcp_listen_thread n TCP_PORT2.
Definition tcp_listen_thread_9011 (n : nat) := tcp_listen_thread n TCP_PORT3.
Definition tcp_listen_thread_9012 (n : nat) := tcp_listen_thread n TCP_PORT4.

(** ** The report of the buffers, port 9012 *)

(** [ringbuffer_avail(set.channels[ch])]; stuck when there is no such channel. *)
Definition chan_avail (n : buf_name) (ch : Z) : M world Z := fun w =>
  rb ← channel_at (buf_set n (w_bufs w)) ch; Some (ringbuffer_avail rb, w).

Definition report_response (ch : Z) : M world CanBufRemainingResponse :=
  let* normal := chan_avail Data ch in
  let* pulse := broadcast_buffer_available ch in
  let* sim := chan_avail Simulator ch in
  ret {| br_channel := ch; br_normal_buf_remaining := normal; br_pulse_buf_remaining := pulse;
         br_sim_buf_remaining := sim; br_dmaddr_space := 0xFFFFFFFF;
         br_vfifo_space := 0xFFFFFFFF; br_axififo_space := 0xFFFFFFFF |}.

Fixpoint report_responses (l : list Z) : M world (list CanBufRemainingResponse) :=
  match l with
  | [] => ret []
  | ch :: l' => let* r := report_response ch in let* rs := report_responses l' in ret (r :: rs)
  end.

(** The entry of a channel the gateway does not have. *)
Definition absent_response (ch : Z) : CanBufRemainingResponse :=
  {| br_channel := ch; br_normal_buf_remaining := 0xFFFFFFFF; br_pulse_buf_remaining := 0xFFFFFFFF;
     br_sim_buf_remaining := 0xFFFFFFFF; br_dmaddr_space := 0xFFFFFFFF;
     br_vfifo_space := 0xFFFFFFFF; br_axififo_space := 0xFFFFFFFF |}.

(** The four fields of the header before its checksum, and the header. *)
Definition report_fields : bytes :=
  le_enc 4 (reverse_4bytes ACK_SYNC_WORD) ++
  le_enc 4 (reverse_4bytes (32 * sizeof CanBufRemainingResponse)) ++
  le_enc 2 0 ++ le_enc 2 (reverse_2bytes 0x0100).

Definition report_packet (rs : list CanBufRemainingResponse) : bytes :=
  report_fields ++ le_enc 4 (calculate_xor_checksum report_fields 12) ++
  ((rs ++ (absent_response <$> seqZ AXICAN_MAX (MAX_CHANNELS - AXICAN_MAX))) ≫= pack).

(** One turn of the reporting thread. *)
Definition buffer_report_turn : M world unit :=
  mutex_lock tcp_buffer_mutex ;;
  let* tcp_buf_total := gets g_tcp_buffer_total in
  mutex_unlock tcp_buffer_mutex ;;
  mutex_lock tcp_buffer_mutex ;;
  let* current_tcp_used := gets g_tcp_buffer_used in
  mutex_unlock tcp_buffer_mutex ;;
  let* rs := report_responses (seqZ 0 AXICAN_MAX) in
  let upload_data := report_packet rs in
  mutex_lock data_download_mutex ;;
  let* sock := gets data_download_socket in
  when (negb (sock =? -1))
    (let* sock := gets data_download_socket in
     let* n := sys (SysSend sock upload_data) in
     when (negb (n =? zlen upload_data))
       (let* sock := gets data_download_socket in
        let* _ := sys (SysShutdown sock) in
        modify (set_data_download_socket (-1)))) ;;
  mutex_unlock data_download_mutex.
End PortCode.

(** ** The report *)

Section Report.
Context `{OS}.
#[local] Open Scope c_scope.

Lemma wp_chan_avail n ch (Q : Z -> world -> Prop) w :
  bufs_wf (w_bufs w) -> 0 <= ch < buf_chans n -> Q (free_space n ch w) w -> wp (chan_avail n ch) Q w.
Proof.
  intros Hb Hch HQ. destruct (Hb n) as (Hwf & Hm & He & Hc).
  destruct (channel_at_wf (buf_set n (w_bufs w)) ch) as (l & rb & Hat & Hrb & He' & Hm'); [done | lia |].
  unfold wp, chan_avail. rewrite Hat. cbn [mbind option_bind].
  rewrite ringbuffer_avail_spec by done. unfold free_space, buf_queue, chan_queue in HQ.
  rewrite Hat in HQ. cbn [mbind option_bind] in HQ. by rewrite Hm', Hc.
Qed.

Lemma wp_report_responses l (Q : list CanBufRemainingResponse -> world -> Prop) w :
  held_below 2 w -> bufs_wf (w_bufs w) -> Forall (fun ch => 0 <= ch < 6) l ->
  Q (remaining w <$> l) w -> wp (report_responses l) Q w.
Proof.
  intros Hb Hbufs Hl. revert Q. induction Hl as [|ch l Hch _ IH]; intros Q HQ; simpl.
  { by apply wp_ret. }
  wp_step. unfold report_response. wp_step. apply wp_chan_avail; [done | simpl; lia |].
  wp_step. apply wp_broadcast_buffer_available; [done | done | done |].
  wp_step. apply wp_chan_avail; [done | simpl; lia |]. wp_step. wp_step. apply IH. by wp_step.
Qed.
Definition report_entries (w : world) : list CanBufRemainingResponse :=
  (remaining w <$> seqZ 0 AXICAN_MAX) ++ (absent_response <$> seqZ AXICAN_MAX (MAX_CHANNELS - AXICAN_MAX)).

Lemma report_entries_wf w : world_wf w -> Forall pwf (report_entries w).
Proof.
  intros Hwf. apply list.Forall_app. split; apply list.Forall_fmap, list.Forall_forall; intros ch Hch%elem_of_seqZ.
  - apply remaining_wf; [done | unfold AXICAN_MAX in *; lia].
  - change (CanBufRemainingResponse_wf (absent_response ch)).
    unfold CanBufRemainingResponse_wf, absent_response, in_range, AXICAN_MAX, MAX_CHANNELS in *. simpl. lia.
Qed.

Lemma report_entries_lookup w ch :
  0 <= ch < 32 ->
  report_entries w !! Z.to_nat ch = Some (if ch <? 6 then remaining w ch else absent_response ch).
Proof.
  intros Hch. unfold report_entries, AXICAN_MAX, MAX_CHANNELS. destruct (Z.ltb_spec ch 6).
  - rewrite lookup_app_l by (rewrite length_fmap, length_seqZ; lia).
    rewrite list_lookup_fmap, lookup_seqZ_lt by lia. simpl. do 2 f_equal. lia.
  - rewrite lookup_app_r by (rewrite length_fmap, length_seqZ; lia).
    rewrite length_fmap, length_seqZ, list_lookup_fmap, lookup_seqZ_lt by lia. simpl. do 2 f_equal. lia.
Qed.

Definition report_of (w : world) : bytes := report_packet (remaining w <$> seqZ 0 AXICAN_MAX).

Lemma report_of_bytes w :
  world_wf w ->
  zlen (report_of w) = 816 /\
  fld 0 4 (report_of w) = reverse_4bytes ACK_SYNC_WORD /\
  fld 4 4 (report_of w) = reverse_4bytes 800 /\
  fld 8 2 (report_of w) = 0 /\ fld 10 2 (report_of w) = reverse_2bytes 0x0100 /\
  verifies 12 (report_of w) /\
  (forall ch, 0 <= ch < 32 -> unpack (drop (Z.to_nat (16 + 25 * ch)) (report_of w)) =
     (if ch <? 6 then remaining w ch else absent_response ch)).
Proof.
  intros Hwf. pose proof (report_entries_wf w Hwf) as Hf.
  pose proof (bind_pack_length _ Hf) as Hl.
  change (psize (A := CanBufRemainingResponse)) with 25%nat in Hl.
  assert (length (report_entries w) = 32%nat) as H32.
  { unfold report_entries. rewrite length_app, !length_fmap, !length_seqZ. done. }
  rewrite H32 in Hl. unfold report_of, report_packet. fold (report_entries w).
  assert (length report_fields = 12%nat) as Hr by reflexivity.
  set (c := calculate_xor_checksum report_fields 12).
  set (body := report_entries w ≫= pack) in *.
  assert (forall off n, (off + n <= 12)%nat ->
    fld off n (report_fields ++ le_enc 4 c ++ body) = fld off n report_fields) as Hfld.
  { intros off n Hn. by rewrite <- (fld_take off n 12), take_app_length' by (done || lia). }
  split_and!; try (rewrite Hfld by lia; reflexivity).
  - unfold zlen. by rewrite !length_app, Hl, Hr, length_le_enc.
  - unfold verifies. rewrite calculate_xor_checksum_app by (rewrite Hr; lia). fold c.
    rewrite (fld_skip 12 4 report_fields) by (rewrite Hr; lia). rewrite Hr.
    rewrite fld_here. apply wrap_small. apply calculate_xor_checksum_range.
  - intros ch Hch. replace (Z.to_nat (16 + 25 * ch)) with (16 + Z.to_nat ch * 25)%nat by lia.
    rewrite <- drop_drop, app_assoc, drop_app_length'
      by (rewrite length_app, Hr, length_le_enc; done).
    change 25%nat with (psize (A := CanBufRemainingResponse)).
    rewrite <- (app_nil_r body). apply bind_pack_lookup; [done|]. by apply report_entries_lookup.
Qed.

(** The state after the report [d] is sent to the client of port 9012. *)
Definition report_result (d : bytes) (w : world) : world :=
  let sock := data_download_socket w in
  if sock =? -1 then w else
  let w1 := add_call (SysSend sock d) w in
  if os_ret (w_hist w) (SysSend sock d) =? zlen d then w1
  else set_data_download_socket (-1) (add_call (SysShutdown sock) w1).

Lemma buffer_report_turn_eq w :
  held_below 2 w -> bufs_wf (w_bufs w) ->
  buffer_report_turn w = Some (tt, report_result (report_of w) w).
Proof.
  intros Hb Hbufs.
  assert (forall l, (2 <= lock_rank l)%nat -> lock_free l (w_held w) = true) as Hl
    by (intros l Hl; by eapply lock_free_below).
  enough (wp buffer_report_turn (fun _ w' => w' = report_result (report_of w) w) w) as Hwp.
  { unfold wp in Hwp. destruct (buffer_report_turn w) as [[[] w']|]; [by subst | done]. }
  unfold buffer_report_turn. do 2 (wp_step; apply wp_lock; [apply Hl; simpl; lia|]; wp_step; wp_step;
    wp_step; eapply wp_unlock; [done|]; rewrite set_held_restore by done).
  wp_step. apply wp_report_responses; [done | done | |].
  { apply list.Forall_forall. intros ch Hch%elem_of_seqZ. unfold AXICAN_MAX in Hch. lia. }
  fold (report_of w). wp_step. apply wp_lock; [apply Hl; simpl; lia|]. wp_step. wp_step. wp_step.
  unfold report_result. simpl data_download_socket. generalize (report_of w). intros d.
  destruct (data_download_socket w =? -1); cbn [negb when].
  { wp_step. eapply wp_unlock; [done|]. by rewrite set_held_restore. }
  wp_step. wp_step. wp_step. apply wp_sys. simpl.
  destruct (os_ret _ _ =? zlen d); cbn [negb when].
  - wp_step. eapply wp_unlock; [done|]. by destruct w.
  - wp_step. wp_step. wp_step. apply wp_sys. wp_step. eapply wp_unlock; [done|]. by destruct w.
Qed.

(** The periodic report: with a client on port 9012, a turn of the
    reporting thread sends it exactly one packet of 816 bytes, whose checksum
    is that of its first three words and which declares 800 bytes of payload;
    the entry of each of the six channels holds the free space of its
    download, broadcast and simulator queues at that moment, and the entry of
    a channel the gateway does not have holds all ones.  A client that does not
    take the whole packet is shut down and withdrawn; without a client nothing
    is sent.  No queue changes and no mutex stays held. *)
Theorem periodic_report w :
  held_below 2 w -> world_wf w ->
  exists d, buffer_report_turn w = Some (tt, report_result d w) /\
  w_held (report_result d w) = w_held w /\ w_bufs (report_result d w) = w_bufs w /\
  zlen d = 816 /\ fld 0 4 d = reverse_4bytes ACK_SYNC_WORD /\ fld 4 4 d = reverse_4bytes 800 /\
  verifies 12 d /\
  (forall ch, 0 <= ch < 6 ->
     let r : CanBufRemainingResponse := unpack (drop (Z.to_nat (16 + 25 * ch)) d) in
     br_channel r = ch /\
     br_normal_buf_remaining r + zlen (buf_queue Data ch (w_bufs w)) = 131072 /\
     br_pulse_buf_remaining r + zlen (buf_queue BcastGroup ch (w_bufs w)) = 16 /\
     br_sim_buf_remaining r + zlen (buf_queue Simulator ch (w_bufs w)) = 32) /\
  (forall ch, 6 <= ch < 32 -> unpack (drop (Z.to_nat (16 + 25 * ch)) d) = absent_response ch).
Proof.
  intros Hb Hwf. destruct (report_of_bytes w Hwf) as (Hl & H0 & H4 & _ & _ & Hv & Hch).
  exists (report_of w). split; [apply buffer_report_turn_eq; [done | apply Hwf]|].
  generalize dependent (report_of w). intros d Hl H0 H4 Hv Hch.
  split; [unfold report_result; by repeat case_match|].
  split; [unfold report_result; by repeat case_match|].
  do 4 (split; [done|]). split; intros ch Hc.
  - cbv zeta. rewrite Hch by lia. rewrite (proj2 (Z.ltb_lt _ _)) by lia.
    unfold remaining, free_space. simpl. lia.
  - rewrite Hch by lia. by rewrite (proj2 (Z.ltb_ge _ _)) by lia.
Qed.

End Report.

Lemma periodic_report_witness :
  exists d, @buffer_report_turn quiet_os boot_world = Some (tt, @report_result quiet_os d boot_world) /\
    zlen d = 816.
Proof.
  destruct (@periodic_report quiet_os boot_world (boot_world_held 2) boot_world_wf)
    as (d & Hrun & _ & _ & Hl & _).
  exists d. split; [exact Hrun | exact Hl].
Defined.

(** ** The listeners *)

(** The calls on record, read as accounts; the latest call is the first. *)
Section Accounts.
Context `{OS}.

(** The sockets accepted, handed to a thread and closed. *)
Fixpoint accepted (h : list syscall) : list Z :=
  match h with
  | [] => []
  | c :: h' =>
    match c with
    | SysAccept _ => if os_ret h' c <? 0 then accepted h' else os_ret h' c :: accepted h'
    | _ => accepted h'
    end
  end.

Fixpoint handed (h : list syscall) : list Z :=
  match h with
  | [] => []
  | c :: h' =>
    match c with
    | SysThread (ClientThread _ s) => if os_ret h' c =? 0 then s :: handed h' else handed h'
    | _ => handed h'
    end
  end.

Fixpoint closed (h : list syscall) : list Z :=
  match h with
  | [] => []
  | SysClose s :: h' => s :: closed h'
  | _ :: h' => closed h'
  end.

(** The blocks allocated and not freed. *)
Fixpoint blocks (h : list syscall) : Z :=
  match h with
  | [] => 0
  | c :: h' =>
    match c with
    | SysMalloc _ => if os_ret h' c =? 0 then blocks h' else blocks h' + 1
    | SysFree => blocks h' - 1
    | _ => blocks h'
    end
  end.

(** Every accepted socket is handed over or closed, and the blocks in use are
    those of the threads that run. *)
Definition balanced (w w' : world) : Prop :=
  exists acc han clo, accepted (w_hist w') = acc ++ accepted (w_hist w) /\
    handed (w_hist w') = han ++ handed (w_hist w) /\
    closed (w_hist w') = clo ++ closed (w_hist w) /\
    acc ≡ₚ han ++ clo /\ blocks (w_hist w') = blocks (w_hist w) + zlen han.

#[export] Instance balanced_preorder : PreOrder balanced.
Proof.
  split.
  - intros w. exists [], [], []. split_and!; try done. unfold zlen. simpl. lia.
  - intros w1 w2 w3 (a1 & h1 & c1 & A1 & H1 & C1 & P1 & B1) (a2 & h2 & c2 & A2 & H2 & C2 & P2 & B2).
    exists (a2 ++ a1), (h2 ++ h1), (c2 ++ c1).
    split_and!; [by rewrite A2, A1, app_assoc | by rewrite H2, H1, app_assoc
      | by rewrite C2, C1, app_assoc | | rewrite B2, B1, zlen_app; lia].
    rewrite P1, P2, <- !app_assoc. apply Permutation_app_head.
    rewrite !app_assoc. apply Permutation_app_tail, Permutation_app_comm.
Qed.

(** Only the calls on record change. *)
Definition calls_only (w w' : world) : Prop := exists h, w' = set_hist h w.

Lemma calls_only_refl w : calls_only w w.
Proof. exists (w_hist w). by destruct w. Qed.

Lemma calls_only_call c w w' : calls_only w w' -> calls_only w (add_call c w').
Proof. intros [h ->]. by eexists. Qed.

Lemma calls_only_trans w1 w2 w3 : calls_only w1 w2 -> calls_only w2 w3 -> calls_only w1 w3.
Proof. intros [h ->] [h' ->]. by exists h'. Qed.
End Accounts.

#[export] Hint Resolve calls_only_refl calls_only_call : zmht.

Section Listening.
Context `{OS}.
#[local] Open Scope c_scope.

(** The turn fails to start its thread, and no turn before started one. *)
Definition first_create_fails (port fd : Z) (client_tid : option thread) (w : world) : bool :=
  let h1 := SysMalloc sizeof_int :: w_hist w in
  let sock := os_ret h1 (SysAccept fd) in
  negb (os_ret (w_hist w) (SysMalloc sizeof_int) =? 0) && (0 <=? sock) &&
  negb (os_ret (SysAccept fd :: h1) (SysThread (ClientThread port sock)) =? 0) &&
  match client_tid with Some _ => false | None => true end.

(** A turn is stuck exactly then: it detaches a thread that was never set. *)
Lemma listen_turn_spec port fd tid w :
  wp_or (first_create_fails port fd tid w = true) (listen_turn port fd tid)
    (fun _ w' => first_create_fails port fd tid w = false /\ balanced w w' /\ calls_only w w') w.
Proof.
  unfold listen_turn, first_create_fails. cbv zeta. apply wp_or_seq, wp_sys.
  destruct (os_ret (w_hist w) (SysMalloc sizeof_int) =? 0) eqn:Hm; cbn [negb andb].
  { split; [done|]. split; [|auto with zmht]. exists [], [], []. simpl. rewrite Hm. split_and!; try done.
    unfold zlen. simpl. lia. }
  apply wp_or_seq, wp_sys. simpl w_hist.
  set (s := os_ret _ (SysAccept fd)). rewrite Z.leb_antisym. destruct (s <? 0) eqn:Ha; cbn [negb andb].
  { split; [done|]. split; [|auto with zmht]. exists [], [], []. simpl.
    fold s. rewrite Ha, Hm. split_and!; try done. unfold zlen. simpl. lia. }
  apply wp_or_seq, wp_sys. simpl w_hist. set (c := SysThread (ClientThread port s)).
  destruct (os_ret (SysAccept fd :: _) c =? 0) eqn:Ht; cbn [negb when andb].
  - split; [done|]. split; [|auto 10 with zmht]. exists [s], [s], []. simpl in *.
    fold s c. rewrite Ha, Hm, Ht. split_and!; try done; unfold zlen; simpl; lia.
  - destruct tid as [tid|]; [|done]. split; [done|]. split; [|auto 10 with zmht].
    exists [s], [], [s]. simpl in *. fold s c. rewrite Ha, Hm, Ht.
    split_and!; try done; unfold zlen; simpl; lia.
Qed.

Definition some_create_fails (port : Z) : Prop :=
  exists h sock, os_ret h (SysThread (ClientThread port sock)) <> 0.

Lemma first_create_some port fd tid w : first_create_fails port fd tid w = true -> some_create_fails port.
Proof.
  unfold first_create_fails. cbv zeta. rewrite !andb_true_iff. intros [[_ Hc] _].
  apply negb_true_iff, Z.eqb_neq in Hc. by eexists _, _.
Qed.

Lemma listen_loop_spec n port fd tid w :
  wp_or (some_create_fails port) (listen_loop n port fd tid) (fun _ w' => balanced w w' /\ calls_only w w') w.
Proof.
  revert tid w. induction n as [|n IH]; intros tid w; cbn [listen_loop].
  { split; [done | auto with zmht]. }
  apply wp_or_bind. eapply wp_or_mono; [apply listen_turn_spec | apply first_create_some |].
  intros tid1 w1 (_ & Hb1 & Hc1). eapply wp_or_mono; [apply IH | done |]. intros [] w2 [Hb2 Hc2].
  split; [by etransitivity | by eapply calls_only_trans].
Qed.

(** Setting up gives the server socket or closes it. *)
Lemma listen_setup_spec port w :
  let fd := os_ret (SysFree :: w_hist w) SysSocket in
  wp (listen_setup port) (fun o w' => calls_only w w' /\
    accepted (w_hist w') = accepted (w_hist w) /\ handed (w_hist w') = handed (w_hist w) /\
    blocks (w_hist w') = blocks (w_hist w) - 1 /\
    match o with
    | Some s => s = fd /\ fd <> 0 /\ closed (w_hist w') = closed (w_hist w)
    | None => closed (w_hist w') = (if fd =? 0 then [] else [fd]) ++ closed (w_hist w)
    end) w.
Proof.
  cbv zeta. unfold listen_setup. wp_step. apply wp_sys. wp_step. apply wp_sys. simpl w_hist.
  set (fd := os_ret _ SysSocket). destruct (Z.eqb_spec fd 0) as [Hz|Hz].
  { wp_step. split_and!; auto with zmht. }
  wp_step. apply wp_sys. destruct (negb _).
  { wp_step. apply wp_sys. wp_step. split_and!; auto with zmht. }
  wp_step. apply wp_sys. destruct (_ <? 0).
  { wp_step. apply wp_sys. wp_step. split_and!; auto 10 with zmht. }
  wp_step. apply wp_sys. destruct (_ <? 0).
  { wp_step. apply wp_sys. wp_step. split_and!; auto 10 with zmht. }
  wp_step. split_and!; auto 10 with zmht.
Qed.

(** A listening thread leaks nothing: whatever the system answers, a
    listening thread that makes any number of turns hands every socket it
    accepted to one client thread or closes it, and never both; it closes its
    server socket exactly once, on every path; and every block it allocated is
    freed again or belongs to a client thread that was started.  It is stuck
    only when a client thread cannot be started. *)
Theorem listener_hands_over n port w :
  wp_or (some_create_fails port) (tcp_listen_thread n port) (fun _ w' => calls_only w w' /\
  exists acc han clo, accepted (w_hist w') = acc ++ accepted (w_hist w) /\
    handed (w_hist w') = han ++ handed (w_hist w) /\
    acc ≡ₚ han ++ clo /\
    blocks (w_hist w') = blocks (w_hist w) - 1 + zlen han /\
    let fd := os_ret (SysFree :: w_hist w) SysSocket in
    closed (w_hist w') = (if fd =? 0 then [] else [fd]) ++ clo ++ closed (w_hist w)) w.
Proof.
  unfold tcp_listen_thread. apply wp_or_seq. eapply wp_mono; [apply listen_setup_spec|]. cbv zeta.
  set (fd := os_ret _ SysSocket). intros [s|] w1 (Hc1 & Ha & Hh & Hb & Hcl).
  - destruct Hcl as (-> & Hz & Hcl). rewrite (proj2 (Z.eqb_neq _ _)) by done.
    apply wp_or_bind. eapply wp_or_mono; [apply listen_loop_spec | done |].
    intros [] w2 [(acc & han & clo & A & Hn & C & P & B) Hc2]. apply wp_or_seq, wp_sys. split.
    { apply calls_only_call. by eapply calls_only_trans. }
    exists acc, han, clo. simpl. rewrite A, Hn, C, B, Ha, Hh, Hb, Hcl. done.
  - split; [done|]. exists [], [], []. simpl. rewrite Ha, Hh, Hb.
    split_and!; try done. unfold zlen. simpl. lia.
Qed.
End Listening.

(** ** The life of a client socket *)

Section Lifecycle.
Context `{OS}.
#[local] Open Scope c_scope.

(** The functions that send on a port. *)
Inductive port_user :=
  | UseReply (r : reply)
  | UseTransmit (id type status : Z) (frame : axican_frame)
  | UseNormal (id : Z) (frame : axican_frame)
  | UseEvent (level : EventLevel) (id : EventID) (msg : bytes).

Definition run_user (u : port_user) : M world unit :=
  match u with
  | UseReply r => run_reply r
  | UseTransmit id type status frame => send_can_transmit_response id type status frame
  | UseNormal id frame => handle_normal_mode id frame
  | UseEvent level id msg => send_event level id msg
  end.

Definition user_port (u : port_user) : client_port :=
  match u with UseEvent _ _ _ => EventPort | _ => UploadPort end.
Definition user_ok (u : port_user) : Prop :=
  match u with UseTransmit id _ _ _ | UseNormal id _ => 0 <= id < 6 | _ => True end.

(** A call uses only the sockets [live] and closes none. *)
Definition on_live (live : list Z) (c : syscall) : Prop :=
  match c with
  | SysSend s _ | SysShutdown s | SysSetsockopt s _ _ _ => s ∈ live
  | SysClose _ => False
  | _ => True
  end.

(** The calls from [w] to [w'] use live sockets and close none. *)
Definition calls_live (live : list Z) (w w' : world) : Prop :=
  exists new, w_hist w' = new ++ w_hist w /\ Forall (on_live live) new.

#[export] Instance calls_live_preorder live : PreOrder (calls_live live).
Proof.
  split; [intros w; by exists []|].
  intros w1 w2 w3 (n1 & E1 & F1) (n2 & E2 & F2). exists (n2 ++ n1).
  split; [by rewrite E2, E1, app_assoc | by apply list.Forall_app].
Qed.

Lemma calls_live_call live c w : on_live live c -> calls_live live w (add_call c w).
Proof. intros Hc. exists [c]. split; [done | by constructor]. Qed.

Lemma calls_live_same live w w' : w_hist w' = w_hist w -> calls_live live w w'.
Proof. intros Hh. exists []. by split. Qed.

(** The socket of the port is withdrawn or kept. *)
Definition kept_or_withdrawn (p : client_port) (w w' : world) : Prop :=
  port_socket p w' = port_socket p w \/ port_socket p w' = -1.

#[export] Instance kept_or_withdrawn_refl p : Reflexive (kept_or_withdrawn p).
Proof. intros w. by left. Qed.

(** What a sender may do: calls on live sockets, and withdrawing a socket. *)
Definition sender_step (live : list Z) (w w' : world) : Prop :=
  net_only w w' /\ calls_live live w w' /\ forall p, kept_or_withdrawn p w w'.

#[export] Instance sender_step_refl live : Reflexive (sender_step live).
Proof. intros w. split_and!; done. Qed.

Lemma upload_sender live d w w0 :
  net_only w0 w -> calls_live live w0 w ->
  event_socket w = event_socket w0 -> data_upload_socket w = data_upload_socket w0 ->
  data_upload_socket w0 ∈ live -> sender_step live w0 (upload_result d w).
Proof.
  intros Hn Hc He Hs Hin.
  assert (data_upload_socket w ∈ live) as Hl by (by rewrite Hs).
  split; [etransitivity; [exact Hn | apply net_only_upload]|].
  unfold upload_result. case_match; simpl.
  - split; [etransitivity; [exact Hc | by apply calls_live_call]|]. intros []; by left.
  - split; [|intros []; [by right | by left]].
    do 2 (etransitivity; [| by apply calls_live_call]). etransitivity; [exact Hc|].
    by apply calls_live_same.
Qed.

Lemma user_step u live w :
  held_below 4 w -> world_wf w -> user_ok u ->
  (port_socket (user_port u) w = -1 \/ port_socket (user_port u) w ∈ live) ->
  wp (run_user u) (fun _ w' => sender_step live w w') w.
Proof.
  intros Hb Hwf Hu Hin.
  assert (forall id, 0 <= id < 6 -> exists c, w_frame_count w !! Z.to_nat id = Some c) as Hcount.
  { intros id Hid. apply lookup_lt_is_Some_2. rewrite (ww_counts _ Hwf). lia. }
  destruct u as [r|id ty st f|id f|lv id msg]; cbn [run_user user_port user_ok port_socket] in *; unfold wp.
  - rewrite run_reply_eq by done. cbv zeta. destruct (Z.eqb_spec (data_upload_socket w) (-1)) as [He|He].
    { destruct (counts r w); [|done]. split; [apply net_only_count_up|].
      split; [by apply calls_live_same | intros []; by left]. }
    destruct Hin as [|Hin]; [done|].
    destruct (counts r w); apply upload_sender; try done; [apply net_only_count_up | by apply calls_live_same].
  - destruct (Hcount id Hu) as [c Hc].
    erewrite send_can_transmit_response_eq; [|by eapply lock_free_below | lia | done].
    destruct (Z.eqb_spec (data_upload_socket w) (-1)) as [He|He]; [done|].
    destruct Hin as [|Hin]; [done|]. unfold transmit_result. apply upload_sender; try done.
    + etransitivity; [by apply net_only_next_count | apply net_only_add_call].
    + etransitivity; [| by apply calls_live_call]. by apply calls_live_same.
  - destruct (Hcount id Hu) as [c Hc].
    erewrite handle_normal_mode_eq; [|by eapply lock_free_below | apply Hwf | lia | done].
    pose proof (net_only_normal id f c w Hc) as Hno. unfold normal_result in *.
    destruct (Z.eqb_spec (data_upload_socket w) (-1)) as [He|He].
    { split; [done|]. split; [by apply calls_live_same | intros []; by left]. }
    destruct Hin as [|Hin]; [done|]. apply upload_sender; try done.
    + by apply net_only_counted.
    + by apply calls_live_same.
  - rewrite send_event_eq by (eapply lock_free_below; [exact Hb | simpl; lia]).
    split; [apply net_only_event|]. unfold event_result.
    destruct (Z.eqb_spec (event_socket w) (-1)) as [He|He]; [done|].
    assert (event_socket w ∈ live) as Hl by naive_solver.
    case_match; simpl; (split; [|intros []; (by left) || (by right)]);
      repeat (first [done | etransitivity; [| by apply calls_live_call]]); by apply calls_live_same.
Qed.

(** ** The handlers' own steps *)

Lemma keepalive_eq sock port w :
  exists new, configure_tcp_keepalive sock port w = Some (tt, set_hist (new ++ w_hist w) w) /\
    forall live, sock ∈ live -> Forall (on_live live) new.
Proof.
  unfold configure_tcp_keepalive, bind, sys, ret. destruct (_ <? 0).
  - eexists [_]. split; [reflexivity|]. intros live Hl. by repeat constructor.
  - eexists [_; _; _; _]. split; [reflexivity|]. intros live Hl. by repeat constructor.
Qed.

Definition other_port (p : client_port) : client_port :=
  match p with UploadPort => EventPort | EventPort => UploadPort end.

Lemma port_cases p p' : p' = p \/ p' = other_port p.
Proof. destruct p, p'; auto. Qed.

(** Accepting a client publishes its socket. *)
Lemma port_open_spec p sock live w :
  w_held w = [] -> sock ∈ live -> (port_socket p w = -1 \/ port_socket p w ∈ live) ->
  exists w', port_open p sock w = Some (tt, w') /\ (world_wf w -> world_wf w') /\ w_held w' = [] /\
    calls_live live w w' /\ port_socket p w' = sock /\
    port_socket (other_port p) w' = port_socket (other_port p) w.
Proof.
  intros Hh Hin Hpub. unfold port_open. destruct (keepalive_eq sock (port_number p) (add_call SysFree w))
    as (new & Hk & Hnew). specialize (Hnew live Hin).
  unfold bind at 1, sys at 1. unfold bind at 1. rewrite Hk. clear Hk.
  set (w1 := set_hist _ _). assert (calls_live live w w1) as Hc1.
  { exists (new ++ [SysFree]). split; [by rewrite <- app_assoc|]. apply list.Forall_app. split; [done|].
    by constructor. }
  assert (world_wf w -> world_wf w1) as Hwf1 by (by intros []).
  assert (w_held w1 = []) as Hh1 by done.
  assert (port_socket p w1 = port_socket p w) as Hs1 by (by destruct p).
  assert (port_socket (other_port p) w1 = port_socket (other_port p) w) as Ho1 by (by destruct p).
  clearbody w1. unfold bind at 1. rewrite mutex_lock_eq by (by rewrite Hh1). rewrite Hh1.
  unfold bind at 1, gets. rewrite <- Hs1 in Hpub.
  assert (port_socket p (set_held [port_mutex p] w1) = port_socket p w1) as -> by (by destruct p).
  destruct (Z.eqb_spec (port_socket p w1) (-1)) as [He|He]; cbn [negb when];
    unfold bind, modify, sys, ret; erewrite mutex_unlock_eq by (by destruct p);
    eexists; (split; [reflexivity|]);
    (split_and!; [intros Hwf; apply Hwf1 in Hwf as []; by destruct p | by destruct p | | by destruct p
      | by rewrite <- Ho1; destruct p]).
  - etransitivity; [exact Hc1|]. apply calls_live_same. by destruct p.
  - etransitivity; [exact Hc1|]. destruct Hpub as [|Hl]; [done|].
    exists [SysShutdown (port_socket p w1)]. split; [by destruct p | by constructor].
Qed.

(** Both ends of a client change only the sockets and the calls on record. *)
Lemma port_open_net p sock w : w_held w = [] -> wp (port_open p sock) (fun _ w' => net_only w w') w.
Proof.
  intros Hh. unfold port_open. wp_step. apply wp_sys.
  destruct (keepalive_eq sock (port_number p) (add_call SysFree w)) as (new & Hk & _).
  wp_step. unfold wp at 1. rewrite Hk. set (w1 := set_hist _ _).
  assert (net_only w w1) as Hn.
  { split; auto. exists (new ++ [SysFree]). by rewrite <- app_assoc. }
  assert (w_held w1 = []) as Hh1 by done. clearbody w1.
  wp_step. apply wp_lock; [by rewrite Hh1|]. rewrite Hh1.
  wp_step. wp_step. wp_step. apply wp_when; intros _.
  - wp_step. apply wp_sys. do 3 wp_step. eapply wp_unlock; [by destruct p|].
    etransitivity; [exact Hn|]. destruct p; split; auto; eexists [_]; done.
  - do 2 wp_step. eapply wp_unlock; [by destruct p|].
    etransitivity; [exact Hn|]. destruct p; split; auto; by exists [].
Qed.

Lemma port_close_net p sock w : w_held w = [] -> wp (port_close p sock) (fun _ w' => net_only w w') w.
Proof.
  intros Hh. unfold port_close. wp_step. apply wp_lock; [by rewrite Hh|]. rewrite Hh.
  wp_step. wp_step. wp_step. apply wp_when; intros _; [wp_step|]; wp_step;
    (eapply wp_unlock; [by destruct p|]); wp_step; apply wp_sys; wp_step;
    destruct p; split; auto; eexists [_]; done.
Qed.

(** A client that ends withdraws its own socket, if it is still published, and
    closes it. *)
Lemma port_close_spec p sock w :
  w_held w = [] ->
  exists w', port_close p sock w = Some (tt, w') /\ (world_wf w -> world_wf w') /\ w_held w' = [] /\
    w_hist w' = SysClose sock :: w_hist w /\
    port_socket p w' = (if port_socket p w =? sock then -1 else port_socket p w) /\
    port_socket (other_port p) w' = port_socket (other_port p) w.
Proof.
  intros Hh. unfold port_close, bind at 1. rewrite mutex_lock_eq by (by rewrite Hh). rewrite Hh.
  unfold bind at 1, gets.
  assert (port_socket p (set_held [port_mutex p] w) = port_socket p w) as -> by (by destruct p).
  destruct (port_socket p w =? sock) eqn:E; cbn [when];
    unfold bind, modify, sys, ret; erewrite mutex_unlock_eq by (by destruct p);
    eexists; (split; [reflexivity|]);
    (split_and!; [by intros []; destruct p | by destruct p..]).
Qed.
(** The threads of the two ports and everything that may happen to them: a
    client is accepted and its thread starts, a client ends, a function sends,
    or another thread does anything that leaves the two sockets alone.  [live]
    lists the clients whose thread has not closed its socket; the system hands
    out no socket that is open. *)
Inductive port_run : list (client_port * Z) -> world -> Prop :=
  | PortStart w :
      world_wf w -> w_held w = [] -> (forall p, port_socket p w = -1) -> port_run [] w
  | PortAccept live p s w w' :
      port_run live w -> s ∉ live.*2 -> s <> -1 -> port_open p s w = Some (tt, w') ->
      port_run ((p, s) :: live) w'
  | PortEnd live1 live2 p s w w' :
      port_run (live1 ++ (p, s) :: live2) w -> port_close p s w = Some (tt, w') ->
      port_run (live1 ++ live2) w'
  | PortUse live u w w' :
      port_run live w -> user_ok u -> run_user u w = Some (tt, w') -> port_run live w'
  | PortOther live w w' :
      port_run live w -> world_wf w' -> w_held w' = [] ->
      (forall p, port_socket p w' = port_socket p w) -> port_run live w'.

(** A published socket belongs to a live client of its port. *)
Definition published (live : list (client_port * Z)) (w : world) : Prop :=
  forall p, port_socket p w = -1 \/ (p, port_socket p w) ∈ live.

Record ports_inv (live : list (client_port * Z)) (w : world) : Prop := {
  pi_wf : world_wf w;
  pi_held : w_held w = [];
  pi_nodup : NoDup live.*2;
  pi_published : published live w;
  pi_real : -1 ∉ live.*2
}.

Lemma published_live live w p :
  published live w -> port_socket p w = -1 \/ port_socket p w ∈ live.*2.
Proof.
  intros Hp. destruct (Hp p) as [|Hin]; [by left|]. right.
  by apply (list_elem_of_fmap_2 snd live (p, port_socket p w)).
Qed.

Lemma user_step_inv u live w :
  ports_inv live w -> user_ok u ->
  exists w', run_user u w = Some (tt, w') /\ sender_step live.*2 w w'.
Proof.
  intros [Hwf Hh _ Hp _] Hu.
  assert (held_below 4 w) as Hb by (unfold held_below; rewrite Hh; constructor).
  pose proof (user_step u live.*2 w Hb Hwf Hu (published_live live w _ Hp)) as Hwp.
  apply wp_exec in Hwp as ([] & w' & Hrun & Hs). by exists w'.
Qed.

Lemma port_run_inv live w : port_run live w -> ports_inv live w.
Proof.
  induction 1 as [w Hwf Hh Hs | live p s w w' _ [Hwf Hh Hnd Hpub Hr] Hs Hne Hopen
    | live1 live2 p s w w' _ [Hwf Hh Hnd Hpub Hr] Hclose | live u w w' _ IH Hu Huse
    | live w w' _ [Hwf Hh Hnd Hpub Hr] Hwf' Hh' Hs].
  - split; try done; [constructor | intros p; by left | apply not_elem_of_nil].
  - destruct (port_open_spec p s (s :: live.*2) w Hh) as (w1 & Hrun & Hw & Hh' & _ & Hp & Ho).
    { constructor. }
    { destruct (published_live live w p Hpub); [by left | right; by constructor]. }
    rewrite Hrun in Hopen. injection Hopen as <-. split; try done; [by apply Hw | by constructor | |].
    + intros p'. destruct (port_cases p p') as [-> | ->].
      * rewrite Hp. right. by constructor.
      * rewrite Ho. destruct (Hpub (other_port p)); [by left | right; by constructor].
    + simpl. rewrite list.elem_of_cons. naive_solver.
  - destruct (port_close_spec p s w Hh) as (w1 & Hrun & Hw & Hh' & _ & Hp & Ho).
    rewrite Hrun in Hclose. injection Hclose as <-.
    rewrite fmap_app, fmap_cons in Hnd, Hr.
    cbn [snd] in *. rewrite <- (Permutation_middle live1.*2 live2.*2 s) in Hnd.
    apply list.NoDup_cons in Hnd as [Hs Hnd].
    split; [by apply Hw | done | by rewrite fmap_app | |].
    + intros p'. destruct (port_cases p p') as [-> | ->].
      * rewrite Hp. destruct (Z.eqb_spec (port_socket p w) s); [by left|].
        destruct (Hpub p) as [|Hin]; [by left|]. right. set_solver.
      * rewrite Ho. destruct (Hpub (other_port p)) as [|Hin]; [by left|]. right.
        assert (p <> other_port p) by (by destruct p). set_solver.
    + rewrite fmap_app. set_solver.
  - destruct (user_step_inv u live w IH Hu) as (w1 & Hrun & Hn & _ & Hk).
    rewrite Hrun in Huse. injection Huse as <-. destruct IH as [Hwf Hh Hnd Hpub Hr].
    split; try done; [by eapply net_only_wf | by rewrite (no_held _ _ Hn) |].
    intros p. destruct (Hk p) as [->| ->]; [apply Hpub | by left].
  - split; try done. intros p. rewrite Hs. apply Hpub.
Qed.

(** The life of a client socket.  However the threads of ports 9010 and
    9011, the senders and the other threads are interleaved: the published
    socket of a port is -1 or that of a client of this port whose thread still
    runs; no operation is ever stuck; a new client is published at once, and a
    sender or a new client calls only on sockets that are open, and closes
    none; a client that ends closes its own socket once, after which no port
    publishes it any more, while the client that replaced it stays published. *)
Theorem socket_lifecycle live w :
  port_run live w ->
  published live w /\ NoDup live.*2 /\
  (forall p s, s ∉ live.*2 -> s <> -1 -> exists w', port_open p s w = Some (tt, w') /\
     port_socket p w' = s /\ calls_live (s :: live.*2) w w') /\
  (forall u, user_ok u -> exists w', run_user u w = Some (tt, w') /\ calls_live live.*2 w w') /\
  (forall p s, (p, s) ∈ live -> exists w', port_close p s w = Some (tt, w') /\
     w_hist w' = SysClose s :: w_hist w /\
     (forall p', port_socket p' w' <> s /\
        (port_socket p' w <> s -> port_socket p' w' = port_socket p' w))).
Proof.
  intros Hrun. apply port_run_inv in Hrun as Hinv. destruct Hinv as [Hwf Hh Hnd Hpub Hr].
  split_and!; [done | done | | |].
  - intros p s Hs Hne. destruct (port_open_spec p s (s :: live.*2) w Hh) as (w1 & Hopen & _ & _ & Hc & Hp & _).
    { constructor. }
    { destruct (published_live live w p Hpub); [by left | right; by constructor]. }
    by exists w1.
  - intros u Hu. destruct (user_step_inv u live w) as (w1 & Hu1 & _ & Hc & _); [by apply port_run_inv | done |].
    by exists w1.
  - intros p s Hin. destruct (port_close_spec p s w Hh) as (w1 & Hclose & _ & _ & Hc & Hp & Ho).
    exists w1. split; [done|]. split; [done|].
    assert (s <> -1) as Hs.
    { intros ->. apply Hr. by apply (list_elem_of_fmap_2 snd live (p, -1)). }
    intros p'. destruct (port_cases p p') as [-> | ->].
    + rewrite Hp. destruct (Z.eqb_spec (port_socket p w) s); split; congruence.
    + rewrite Ho. split; [|done]. intros He. destruct (Hpub (other_port p)) as [|Hin']; [congruence|].
      rewrite He in Hin'. apply list_elem_of_lookup in Hin as [i Hi], Hin' as [j Hj].
      assert (i = j) as ->.
      { apply (NoDup_lookup live.*2 i j s); [done | |]; rewrite list_lookup_fmap.
        - by rewrite Hi. - by rewrite Hj. }
      rewrite Hi in Hj. injection Hj. by destruct p.
Qed.
End Lifecycle.

(** A client of port 9010, one that replaces it, and the replies they miss. *)
Definition after (m : M world unit) (w : world) : world :=
  match m w with Some (_, w') => w' | None => w end.

Lemma after_eq (m : M world unit) w : (exists w', m w = Some (tt, w')) -> m w = Some (tt, after m w).
Proof. unfold after. by intros [w' ->]. Qed.

Section Clients.
#[local] Existing Instance quiet_os.

Definition first_client : world := after (port_open UploadPort 7) boot_world.
Definition second_client : world := after (port_open UploadPort 9) first_client.

Lemma two_clients_run : port_run [(UploadPort, 9); (UploadPort, 7)] second_client.
Proof.
  assert (port_run [] boot_world) as H0.
  { apply PortStart; [exact boot_world_wf | reflexivity | intros []; reflexivity]. }
  assert (port_run [(UploadPort, 7)] first_client) as H1.
  { eapply (PortAccept [] UploadPort 7); [exact H0 | apply not_elem_of_nil | lia |].
    apply after_eq. pose proof (port_run_inv _ _ H0) as [Hwf Hh _ _ _].
    destruct (port_open_spec UploadPort 7 [7] boot_world Hh) as (w & Hw & _); [by constructor | by left |].
    by exists w. }
  eapply (PortAccept _ UploadPort 9); [exact H1 | simpl; set_solver | lia |].
  apply after_eq. pose proof (port_run_inv _ _ H1) as [Hwf Hh _ Hp _].
  destruct (port_open_spec UploadPort 9 [9; 7] first_client Hh) as (w & Hw & _).
  { by constructor. }
  { destruct (published_live _ _ UploadPort Hp) as [|Hin]; [by left | right; simpl in Hin; set_solver]. }
  by exists w.
Qed.

Lemma socket_lifecycle_witness :
  published [(UploadPort, 9); (UploadPort, 7)] second_client /\
  exists w', port_close UploadPort 7 second_client = Some (tt, w').
Proof.
  destruct (socket_lifecycle [(UploadPort, 9); (UploadPort, 7)] second_client two_clients_run)
    as (Hp & _ & _ & _ & Hclose).
  split; [exact Hp|].
  destruct (Hclose UploadPort 7) as (w' & Hw & _); [right; left |]. exists w'. exact Hw.
Defined.
End Clients.
