(* ===== verification/Init.v ===== *)
(** * Start and end of the program ([src/main18.c], [main] and
    [destroy_all_ring_buffers]).

    The first half allocates and releases the six families of buffers, on the
    heap of [Ring]; the second half opens and configures the devices and starts
    the threads.  The states the other components assume are those a
    successful start establishes. *)
From S2P Require Import Prelude Words Ring RingSet Layout World Upload Broadcast Commands CanRx Ports.
From Stdlib Require Import (notations) String.

(** ** The state of the starting program: its globals and its heap *)

Record startup := mk_startup { su_world : world; su_heap : heap }.

Definition on_world {A} (m : M world A) : M startup A := fun s =>
  '(a, w) ← m (su_world s); Some (a, mk_startup w (su_heap s)).
Definition on_heap {A} (m : M heap A) : M startup A := fun s =>
  '(a, h) ← m (su_heap s); Some (a, mk_startup (su_world s) h).

(** [&g_data_buf_set] and the others: what the call leaves in the global. *)
Definition store_set (n : buf_name) (set : option RingBuffer32ChSet) : M startup unit :=
  (let* s := of_option set in
   on_world (modify (fun w => set_bufs (set_buf n s (w_bufs w)) w)))%c.

Section Buffers.
Variable malloc_ok : nat -> Z -> bool.
#[local] Open Scope c_scope.

Definition init_set (n : buf_name) (es cap m : Z) : M startup Z :=
  let* set := gets (fun s => buf_set n (w_bufs (su_world s))) in
  let* (r, set') := on_heap (ringbuffer_32ch_init malloc_ok (Some set) es cap m) in
  store_set n set' ;;
  ret r.

Definition destroy_set (n : buf_name) (m : Z) : M startup unit :=
  let* set := gets (fun s => buf_set n (w_bufs (su_world s))) in
  let* set' := on_heap (ringbuffer_32ch_destory (Some set) m) in
  store_set n set'.

Definition destroy_all_ring_buffers : M startup unit :=
  destroy_set Data 32 ;;
  destroy_set Simulator 32 ;;
  destroy_set Pulse 32 ;;
  destroy_set CanQueue 6 ;;
  destroy_set PollQueue 6 ;;
  destroy_set BcastGroup 6.

(** [ret = ringbuffer_32ch_init(...); if (ret != 0) { ...; return -1; }] *)
Definition init_or_destroy (n : buf_name) (es cap m : Z) (rest : M startup Z) : M startup Z :=
  let* r := init_set n es cap m in
  if negb (r =? 0) then destroy_all_ring_buffers ;; ret (-1) else rest.

Definition init_buffers : M startup Z :=
  init_or_destroy Data (sizeof PC_ARM_DATA_DATA) (65536 * 2) 32 (
  init_or_destroy Simulator (sizeof PC_ARM_SIMULATOR_DATA) 32 32 (
  init_or_destroy Pulse (sizeof SecondPulseData) 2048 32 (
  init_or_destroy CanQueue (sizeof axican_frame) 32768 6 (
  init_or_destroy PollQueue (sizeof axican_frame) 32768 6 (
  init_or_destroy BcastGroup sizeof_BroadcastFrameGroup BCAST_GROUP_QUEUE_DEPTH AXICAN_MAX (
  ret 0)))))).
End Buffers.

(** ** Ownership of the buffers *)

Definition all_names : list buf_name := [Data; Simulator; Pulse; CanQueue; PollQueue; BcastGroup].

Definition other_names (n : buf_name) : list buf_name := filter (.≠ n) all_names.

Definition names_locs (l : list buf_name) (b : buffers) : list loc :=
  l ≫= (fun n => set_locs (buf_set n b)).

Definition zero_buffers : buffers := mk_buffers zero_set zero_set zero_set zero_set zero_set zero_set.

(** The array of a set has the recorded number of channels. *)
Definition counted_set (s : RingBuffer32ChSet) : Prop :=
  forall l chs, channels s = Some (l, chs) -> zlen chs = max_channel s.

(** Besides the blocks [base], the heap holds exactly the blocks of the six
    families, each once. *)
Record bufs_owned (base : gset loc) (b : buffers) (h : heap) : Prop := {
  bo_fresh : heap_fresh h;
  bo_nodup : NoDup (names_locs all_names b);
  bo_disjoint : forall l, l ∈ names_locs all_names b -> l ∉ base;
  bo_live : h_live h = list_to_set (names_locs all_names b) ∪ base;
  bo_counted : forall n, counted_set (buf_set n b)
}.

Lemma all_names_split n : all_names ≡ₚ n :: other_names n.
Proof.
  apply NoDup_Permutation; [by apply (bool_decide_unpack _) | by apply (bool_decide_unpack _); destruct n |].
  intros m. unfold other_names. rewrite list.elem_of_cons, list_elem_of_filter.
  destruct (decide (m = n)); [|naive_solver]. subst. split; [by left|]. intros _.
  by apply (bool_decide_unpack _); destruct n.
Qed.

Lemma names_locs_split n b :
  names_locs all_names b ≡ₚ set_locs (buf_set n b) ++ names_locs (other_names n) b.
Proof. unfold names_locs. rewrite (all_names_split n) at 1. by rewrite bind_cons. Qed.

Lemma names_locs_other n s b : names_locs (other_names n) (set_buf n s b) = names_locs (other_names n) b.
Proof. by destruct n. Qed.

Lemma set_buf_id n b : set_buf n (buf_set n b) b = b.
Proof. by destruct n, b. Qed.

(** One family against the rest. *)
Lemma bufs_owned_split n base b h :
  bufs_owned base b h <->
  (owns (list_to_set (names_locs (other_names n) b) ∪ base) (buf_set n b) h /\
   NoDup (names_locs (other_names n) b) /\
   (forall l, l ∈ names_locs (other_names n) b -> l ∉ base) /\
   forall m, counted_set (buf_set m b)).
Proof.
  unfold owns. pose proof (names_locs_split n b) as Hp.
  set (ls := set_locs (buf_set n b)) in *. set (rs := names_locs (other_names n) b) in *.
  assert (forall l, l ∈ names_locs all_names b <-> l ∈ ls \/ l ∈ rs) as Hin
    by (intros l; by rewrite Hp, elem_of_app).
  assert (list_to_set (names_locs all_names b) ∪ base = list_to_set ls ∪ (list_to_set rs ∪ base)) as Hset.
  { by rewrite (list_to_set_perm_L _ _ Hp), list_to_set_app_L, assoc_L by apply _. }
  clearbody ls rs. split.
  - intros [Hf Hnd Hd Hl Hc]. rewrite Hp in Hnd. apply list.NoDup_app in Hnd as (H1 & H2 & H3).
    split_and!; try done.
    + intros l Hl1. rewrite elem_of_union, elem_of_list_to_set. intros [Hl2|Hl2]; [by eapply H2|].
      apply (Hd l); [apply Hin; by left | done].
    + by rewrite Hl, Hset.
    + intros l Hl'. apply Hd, Hin. by right.
  - intros ((Hf & Hnd & Hd & Hl) & H2 & H3 & Hc).
    assert (forall l, l ∈ ls -> (l ∉ rs) /\ (l ∉ base)) as Hd'.
    { intros l Hl'%Hd. rewrite elem_of_union, elem_of_list_to_set in Hl'. split; intros ?; apply Hl'; auto. }
    split; try done.
    + rewrite Hp. apply list.NoDup_app. split_and!; [done | intros l Hl'; apply (Hd' l Hl') | done].
    + intros l [Hl'|Hl']%Hin; [by apply Hd' | by apply H3].
    + by rewrite Hl, Hset.
Qed.

Lemma wp_on_heap {A} (m : M heap A) (Q : A -> startup -> Prop) w h :
  wp m (fun a h' => Q a (mk_startup w h')) h -> wp (on_heap m) Q (mk_startup w h).
Proof. unfold wp, on_heap. simpl. by destruct (m h) as [[a h']|]. Qed.

Lemma wp_on_world {A} (m : M world A) (Q : A -> startup -> Prop) w h :
  wp m (fun a w' => Q a (mk_startup w' h)) w -> wp (on_world m) Q (mk_startup w h).
Proof. unfold wp, on_world. simpl. by destruct (m w) as [[a w']|]. Qed.

Lemma wp_or_on_world {A} E (m : M world A) (Q : A -> startup -> Prop) w h :
  wp_or E m (fun a w' => Q a (mk_startup w' h)) w -> wp_or E (on_world m) Q (mk_startup w h).
Proof. unfold wp_or, on_world. simpl. by destruct (m w) as [[a w']|]. Qed.

Lemma wp_store_set n s (Q : unit -> startup -> Prop) w h :
  Q tt (mk_startup (set_bufs (set_buf n s (w_bufs w)) w) h) ->
  wp (store_set n (Some s)) Q (mk_startup w h).
Proof. done. Qed.

(** One step of the initialisation, on a family not yet allocated. *)
Lemma init_set_spec ok n es cap m base w h :
  bufs_owned base (w_bufs w) h -> buf_set n (w_bufs w) = zero_set ->
  0 <= es < 2 ^ 32 -> 0 <= cap < 2 ^ 32 -> 0 <= m < 2 ^ 8 ->
  wp (init_set ok n es cap m) (fun r st => exists b', su_world st = set_bufs b' w /\
    bufs_owned base b' (su_heap st) /\
    ((r = 0 /\ exists s, b' = set_buf n s (w_bufs w) /\ set_fresh s /\ max_channel s = m /\
        elem_size s = es /\ buf_capacity s = pow2_capacity cap) \/
     (r = -1 /\ b' = w_bufs w /\
        (0 < es /\ 0 < cap /\ 0 < m /\ es * pow2_capacity cap < 2 ^ 32 -> alloc_refused ok))))
    (mk_startup w h).
Proof.
  intros Ho Hz Hes Hcap Hm. pose proof (proj1 (bufs_owned_split n _ _ _) Ho) as (Hown & Hnd & Hd & Hc).
  unfold init_set. apply wp_bind, wp_gets. simpl. rewrite Hz.
  apply wp_bind, wp_on_heap.
  eapply wp_mono; [apply (init_spec ok zero_set es cap m h (bo_fresh _ _ _ Ho) Hes Hcap Hm)|].
  intros [r set'] h' [(s & -> & -> & Hfr & Hmax & He & Hb & Hos)|(-> & Hset & Hf & Hl & Href)].
  - apply wp_bind, wp_store_set, wp_ret. cbn [su_world su_heap]. exists (set_buf n s (w_bufs w)). split; [done|]. split; [|left; split; [done|]; by exists s].
    apply (bufs_owned_split n). rewrite buf_set_same, names_locs_other. simpl. split_and!; try done.
    + replace (list_to_set (names_locs (other_names n) (w_bufs w)) ∪ base) with (h_live h); [done|].
      destruct Hown as (_ & _ & _ & ->). rewrite Hz. simpl. by rewrite (left_id_L ∅ (∪)).
    + intros k. destruct (decide (k = n)) as [->|Hk]; [|by rewrite buf_set_other].
      rewrite buf_set_same. destruct Hfr as [(l & chs & Hch & Hlen & _) _]. intros l' chs' Hch'.
      rewrite Hch in Hch'. by injection Hch' as <- <-.
  - assert (set' = Some zero_set) as -> by (by destruct Hset).
    apply wp_bind, wp_store_set, wp_ret. cbn [su_world su_heap].
    rewrite <- Hz, set_buf_id. exists (w_bufs w). split; [done|]. split; [|by right].
    destruct Ho as [Hfr Hn Hdj Hlv Hct]. split; try done. by rewrite <- Hlv.
Qed.

(** Destroying a family. *)
Lemma destroy_set_spec n m base w h :
  bufs_owned base (w_bufs w) h ->
  wp (destroy_set n m) (fun _ st => let b' := set_buf n zero_set (w_bufs w) in
    su_world st = set_bufs b' w /\ bufs_owned base b' (su_heap st)) (mk_startup w h).
Proof.
  intros Ho. pose proof (proj1 (bufs_owned_split n _ _ _) Ho) as (Hown & Hnd & Hd & Hc).
  unfold destroy_set. apply wp_bind, wp_gets. simpl.
  apply wp_bind, wp_on_heap. eapply wp_mono; [apply (destory_spec _ _ m _ Hown (Hc n))|].
  intros set' h' (-> & Hf & Hl). apply wp_store_set. cbn [su_world su_heap].
  split; [done|]. apply (bufs_owned_split n). rewrite buf_set_same, names_locs_other. split_and!; try done.
  - split_and!; [done | constructor | by intros l Hin%not_elem_of_nil |].
    simpl. by rewrite Hl, (left_id_L ∅ (∪)).
  - intros k. destruct (decide (k = n)) as [->|Hk]; [|by rewrite buf_set_other].
    by rewrite buf_set_same.
Qed.

Ltac destroyed Ho :=
  eapply wp_mono; [by apply destroy_set_spec|];
  let w' := fresh "w" in let h' := fresh "h" in
  intros [] [w' h']; cbn [su_world su_heap]; clear Ho; intros [-> Ho].

(** Destroying everything, whatever was allocated. *)
Lemma destroy_all_spec base w h :
  bufs_owned base (w_bufs w) h ->
  wp destroy_all_ring_buffers (fun _ st => su_world st = set_bufs zero_buffers w /\
    heap_fresh (su_heap st) /\ h_live (su_heap st) = base) (mk_startup w h).
Proof.
  intros Ho. unfold destroy_all_ring_buffers.
  do 5 (apply wp_bind; destroyed Ho). destroyed Ho.
  split; [done|]. destruct Ho as [Hf _ _ Hl _]. split; [done|]. rewrite Hl. apply (left_id_L ∅ (∪)).
Qed.

(** A family is allocated: every queue is empty and of the size asked for. *)
Definition set_ready (n : buf_name) (b : buffers) : Prop :=
  set_fresh (buf_set n b) /\ max_channel (buf_set n b) = buf_chans n /\
  elem_size (buf_set n b) = buf_esize n /\ buf_capacity (buf_set n b) = buf_depth n.

Lemma init_or_destroy_spec ok n cap rest (Q : Z -> startup -> Prop) base w h :
  bufs_owned base (w_bufs w) h -> buf_set n (w_bufs w) = zero_set ->
  0 < cap < 2 ^ 32 -> pow2_capacity cap = buf_depth n ->
  (forall b' h', bufs_owned base b' h' -> set_ready n b' ->
     (forall k, k <> n -> buf_set k b' = buf_set k (w_bufs w)) ->
     wp rest Q (mk_startup (set_bufs b' w) h')) ->
  (forall h', heap_fresh h' -> h_live h' = base -> alloc_refused ok ->
     Q (-1) (mk_startup (set_bufs zero_buffers w) h')) ->
  wp (init_or_destroy ok n (buf_esize n) cap (buf_chans n) rest) Q (mk_startup w h).
Proof.
  intros Ho Hz Hcap Hpow Hok Hfail. destruct (buf_shape n) as (k & Hk & Hd & He & Hb & Hch).
  assert (0 <= buf_chans n < 2 ^ 8 /\ buf_esize n < 2 ^ 32) as [Hm He'] by (destruct n; vm_compute; done).
  unfold init_or_destroy. apply wp_bind. eapply wp_mono; [apply init_set_spec; [done | done | lia..]|].
  intros r [w' h'] (b' & Hw & Hown & Hcase). cbn [su_world su_heap] in *. subst w'.
  destruct Hcase as [(-> & s & -> & Hfr & Hmax & Hes & Hcp)|(-> & -> & Href)]; cbn [Z.eqb negb].
  - apply Hok; [done | |].
    + unfold set_ready. rewrite buf_set_same. by rewrite Hcp, Hpow.
    + intros j Hj. by apply buf_set_other.
  - apply wp_bind. eapply wp_mono; [by apply destroy_all_spec|].
    intros [] [w' h'']. cbn [su_world su_heap]. intros (-> & Hf & Hl). apply wp_ret, Hfail; try done.
    apply Href. rewrite Hpow, Hd. lia.
Qed.

Lemma zero_bufs_owned h : heap_fresh h -> bufs_owned (h_live h) zero_buffers h.
Proof.
  intros Hf. assert (names_locs all_names zero_buffers = []) as Hn by done.
  split; rewrite ?Hn; [done | constructor | by intros l Hl%not_elem_of_nil | |].
  - simpl. by rewrite (left_id_L ∅ (∪)).
  - by intros [].
Qed.

Lemma sets_ready_wf b : (forall n, set_ready n b) ->
  bufs_wf b /\ forall n ch, 0 <= ch < buf_chans n -> buf_queue n ch b = [].
Proof.
  intros Hr. split; intros n; destruct (Hr n) as ([Hwf Hq] & Hm & He & Hc); [done|].
  intros ch Hch. apply Hq. by rewrite Hm.
Qed.

(** A stage of the initialisation of the families [built] and of one more. *)
Definition families (built : list buf_name) (b : buffers) : Prop :=
  (forall n, n ∈ built -> set_ready n b) /\ (forall n, n ∉ built -> buf_set n b = zero_set).

Lemma families_next built n b b' :
  families built b -> n ∉ built -> set_ready n b' ->
  (forall k, k <> n -> buf_set k b' = buf_set k b) -> families (n :: built) b'.
Proof.
  intros [Hb Hz] Hn Hr Hk. split; intros m.
  - intros [->|Hm]%list.elem_of_cons; [done|]. unfold set_ready. rewrite Hk by congruence. by apply Hb.
  - intros Hm. rewrite list.elem_of_cons in Hm. rewrite Hk by tauto. apply Hz. tauto.
Qed.

Lemma init_buffers_spec ok w h :
  w_bufs w = zero_buffers -> heap_fresh h ->
  wp (init_buffers ok) (fun r st => exists b', su_world st = set_bufs b' w /\ heap_fresh (su_heap st) /\
    ((r = 0 /\ (forall n, set_ready n b') /\ bufs_owned (h_live h) b' (su_heap st)) \/
     (r = -1 /\ b' = zero_buffers /\ h_live (su_heap st) = h_live h /\ alloc_refused ok))) (mk_startup w h).
Proof.
  intros Hz Hf. pose proof (zero_bufs_owned h Hf) as Ho. rewrite <- Hz in Ho.
  assert (families [] (w_bufs w)) as Hfam.
  { split; [by intros n Hn%not_elem_of_nil|]. intros n _. rewrite Hz. by destruct n. }
  set (base := h_live h) in *.
  set (Q := fun (r : Z) (st : startup) => exists b', su_world st = set_bufs b' w /\ heap_fresh (su_heap st) /\
    ((r = 0 /\ (forall n, set_ready n b') /\ bufs_owned base b' (su_heap st)) \/
     (r = -1 /\ b' = zero_buffers /\ h_live (su_heap st) = base /\ alloc_refused ok))).
  assert (forall w' h', w' = set_bufs zero_buffers w -> heap_fresh h' -> h_live h' = base -> alloc_refused ok ->
    Q (-1) (mk_startup w' h')) as Hfail.
  { intros w' h' -> Hf' Hl Hr. exists zero_buffers. split; [done|]. split; [done|]. by right. }
  assert (forall n built cap rest b h', bufs_owned base b h' -> families built b -> n ∉ built ->
    0 < cap < 2 ^ 32 -> pow2_capacity cap = buf_depth n ->
    (forall b' h'', bufs_owned base b' h'' -> families (n :: built) b' ->
       wp rest Q (mk_startup (set_bufs b' w) h'')) ->
    wp (init_or_destroy ok n (buf_esize n) cap (buf_chans n) rest) Q (mk_startup (set_bufs b w) h')) as Hstage.
  { intros n built cap rest b h' Hob Hfb Hn Hcap Hpow Hrest.
    apply (init_or_destroy_spec ok n cap rest Q base); try done; [by apply Hfb | |].
    - intros b' h'' Hob' Hr Hk. apply (Hrest b' h''); [done|]. by eapply families_next.
    - intros h'' Hf' Hl Hr. by apply Hfail. }
  assert (forall b h', bufs_owned base b h' -> families (rev all_names) b ->
    Q 0 (mk_startup (set_bufs b w) h')) as Hdone.
  { intros b h' Hob [Hfb _]. exists b. split; [done|]. split; [apply Hob|]. left. split; [done|].
    split; [|done]. intros n. apply Hfb. by apply (bool_decide_unpack _); destruct n. }
  clearbody Q. assert (mk_startup w h = mk_startup (set_bufs (w_bufs w) w) h) as -> by (by destruct w).
  clear Hz Hf Hfail. clearbody base.
  revert Ho Hfam. generalize (w_bufs w) h. unfold init_buffers. unfold all_names in Hdone. simpl in Hdone.
  do 6 (intros b h' Ho Hfam;
    lazymatch goal with |- wp (init_or_destroy _ ?n _ ?cap _ ?rest) _ _ =>
      refine (Hstage n _ cap rest b h' Ho Hfam _ _ _ _);
        [by apply (bool_decide_unpack _) | done | by vm_compute|]
    end; clear Ho Hfam; clear b h').
  intros b h' Ho Hfam. apply wp_ret. by apply Hdone.
Qed.

(** ** The devices and the threads *)

Definition AXICAN_WRITE_FLAG : Z := 0.
Definition AXICAN_READ_FLAG : Z := 1.

(** The globals before [main]: static storage is zero, but for the sockets and
    the size of the transfer buffer. *)
Definition zero_config : CanDeviceConfig := mk_config 0 0 0 0 0 CAN_STATE_CLOSED.
Definition zero_axican : axican := mk_axican 0 0 0 0 0 zero_frame zero_frame 0 0.

Definition static_world : world := {|
  w_configs := replicate 6 zero_config; w_frame_count := replicate 6 0;
  w_axican := replicate 6 zero_axican;
  event_socket := -1; data_upload_socket := -1; data_download_socket := -1; data_counter := 0;
  can_data_type := 0; g_tcp_buffer_used := 0; g_tcp_buffer_total := BUFFER_SIZE_1;
  along_more_int_couter := 0; w_bufs := zero_buffers;
  w_bc := mk_bcast no_schedule (replicate 6 0) 0 0 0;
  w_held := []; w_hist := []
|}.

Definition set_cf_mode v c :=
  mk_config (cf_can_id c) (cf_baud_rate c) v (cf_can_type c) (cf_valid c) (cf_state c).
Definition set_ax_id v a :=
  mk_axican v (ax_rd_fd a) (ax_rd_flags a) (ax_wr_fd a) (ax_wr_flags a) (ax_rx_frame a)
    (ax_tx_frame a) (ax_count a) (ax_w_count a).
Definition set_ax_rd_fd v a :=
  mk_axican (ax_id a) v (ax_rd_flags a) (ax_wr_fd a) (ax_wr_flags a) (ax_rx_frame a)
    (ax_tx_frame a) (ax_count a) (ax_w_count a).
Definition set_ax_wr_fd v a :=
  mk_axican (ax_id a) (ax_rd_fd a) (ax_rd_flags a) v (ax_wr_flags a) (ax_rx_frame a)
    (ax_tx_frame a) (ax_count a) (ax_w_count a).
Definition set_ax_flags rd wr a :=
  mk_axican (ax_id a) (ax_rd_fd a) rd (ax_wr_fd a) wr (ax_rx_frame a)
    (ax_tx_frame a) (ax_count a) (ax_w_count a).

Section Startup.
Context `{OS}.
Variable malloc_ok : nat -> Z -> bool.
(** [strerror(errno)] after the calls made so far. *)
Variable strerror : list syscall -> bytes.
#[local] Open Scope c_scope.

Definition axican_put (id : Z) (g : axican -> axican) : M world unit := arr_upd w_axican set_axican id g.

(** [snprintf(err_msg, 64, "CAN%d ...", id, ...)] and the event. *)
Definition device_event (event : EventID) (id : Z) (text : bytes) : M world unit :=
  let* calls := gets w_hist in
  send_event EVENT_LEVEL_ERROR event
    (take 63 (str "CAN" ++ le_enc 1 (48 + id) ++ text ++ strerror calls)).

(** The threads of a channel, in the order the code starts them; only the first
    failure is reported as an event. *)
Definition start_threads (id : Z) : M world Z :=
  let* ret1 := sys (SysThread (RecvThread id)) in
  if negb (ret1 =? 0) then
    send_event EVENT_LEVEL_ERROR EVENT_CAN_SENT_FAILE
      (str "CAN" ++ le_enc 1 (48 + id) ++ str " create recv thread failed") ;; ret (-1) else
  let* ret2 := sys (SysThread (SendThread id)) in
  if negb (ret2 =? 0) then ret (-1) else
  let* ret3 := sys (SysThread (MonitorThread id)) in
  if negb (ret3 =? 0) then ret (-1) else
  let* ret4 := sys (SysThread (AlongThread id)) in
  if negb (ret4 =? 0) then ret (-1) else
  let* ret5 := sys (SysThread (BroadcastThread id)) in
  if negb (ret5 =? 0) then ret (-1) else ret 0.

Definition configure_device (id : Z) : M world Z :=
  axican_put id (set_ax_flags AXICAN_READ_FLAG AXICAN_WRITE_FLAG) ;;
  let baud := 500000 in
  let mode := ZMUAV_XCAN_MODE_LOOPBACK in
  config_upd id (set_cf_can_id id) ;;
  config_upd id (set_cf_baud_rate baud) ;;
  config_upd id (set_cf_mode mode) ;;
  config_upd id (set_cf_valid 1) ;;
  config_upd id (set_cf_state CAN_STATE_CLOSED) ;;
  config_upd id (set_cf_can_type INIT_MODE) ;;
  let* ax := arr_get w_axican id in
  let* rc := axican_set_baud (ax_rd_fd ax) baud in
  if negb (rc =? 0) then
    device_event EVENT_CAN_SENT_FAILE id (str " set baud failed: ") ;; ret (-1) else
  let* ax := arr_get w_axican id in
  let* rc := axican_set_mode (ax_rd_fd ax) mode in
  if negb (rc =? 0) then
    device_event EVENT_CAN_SENT_FAILE id (str " set mode failed: ") ;; ret (-1) else
  start_threads id.

Definition init_device (id : Z) : M world Z :=
  axican_put id (fun _ => zero_axican) ;;
  axican_put id (set_ax_id id) ;;
  let* rd := sys (SysOpen id false) in
  axican_put id (set_ax_rd_fd rd) ;;
  let* wr := sys (SysOpen id true) in
  axican_put id (set_ax_wr_fd wr) ;;
  let* ax := arr_get w_axican id in
  if ax_rd_fd ax <? 0 then
    device_event EVENT_CAN_INIT_FAILED id (str " read open failed: ") ;; ret (-1) else
  if ax_wr_fd ax <? 0 then
    device_event EVENT_CAN_SENT_FAILE id (str " write open failed: ") ;; ret (-1) else
  configure_device id.

Fixpoint init_devices (ids : list Z) : M world Z :=
  match ids with
  | [] => ret 0
  | id :: ids' =>
    let* r := init_device id in
    if negb (r =? 0) then ret (-1) else init_devices ids'
  end.

Definition ports : list Z := [TCP_PORT1; TCP_PORT2; TCP_PORT3; TCP_PORT4].

(** The variables of type [pthread_t] that a call has set: each is named by the
    thread it identifies. *)
Definition tid_set (t : thread) (rc : Z) : list thread := if rc =? 0 then [t] else [].

Definition start_listener (port : Z) : M world (list thread) :=
  let* block := sys (SysMalloc sizeof_int) in
  if block =? 0 then ret [] else
  let* rc := sys (SysThread (ListenThread port)) in
  when (negb (rc =? 0)) (let* _ := sys SysFree in ret tt) ;;
  ret (tid_set (ListenThread port) rc).

(** The argument of a dequeuing thread is written without a test of [malloc],
    and the result of [pthread_create] is not looked at. *)
Definition start_dequeue (t : Z -> thread) (i : Z) : M world (list thread) :=
  let* block := sys (SysMalloc sizeof_int) in
  ensure (negb (block =? 0)) ;;
  let* rc := sys (SysThread (t i)) in
  ret (tid_set (t i) rc).

(** [for] over a list, with the variables that were set. *)
Fixpoint start_all {A} (l : list A) (f : A -> M world (list thread)) : M world (list thread) :=
  match l with
  | [] => ret []
  | a :: l' => let* ts := f a in let* ts' := start_all l' f in ret (ts ++ ts')
  end.

(** The services; the result is [pps_thread_started], and which elements of
    [listen_tid], [dequeue_tid_1] and [dequeue_tid_2] are set. *)
Definition start_services : M world (bool * list thread) :=
  let* listen_tid := start_all ports start_listener in
  let* rc := sys (SysThread ReportThread) in
  when (rc =? 0) (let* _ := sys (SysDetach ReportThread) in ret tt) ;;
  let* rc := sys (SysThread PpsThread) in
  let* dequeue_tid_1 := start_all channels_loop (start_dequeue DequeueThread1) in
  let* dequeue_tid_2 := start_all channels_loop (start_dequeue DequeueThread2) in
  ret (rc =? 0, listen_tid ++ dequeue_tid_1 ++ dequeue_tid_2).

(** [main] up to its waiting loop; [None] when it returns -1. *)
Definition main_start : M startup (option (bool * list thread)) :=
  on_world (foreach channels_loop (fun ch => wake_set ch (fun _ => 0))) ;;
  let* r := init_buffers malloc_ok in
  if negb (r =? 0) then ret None else
  let* r := on_world (init_devices channels_loop) in
  if negb (r =? 0) then ret None else
  let* services := on_world start_services in
  ret (Some services).

(** [main] after its waiting loop. *)
Definition join (t : thread) : M world unit := let* _ := sys (SysJoin t) in ret tt.

(** Joining through a variable that may never have been set. *)
Definition join_set (tids : list thread) (t : thread) : M world unit :=
  ensure (bool_decide (t ∈ tids)) ;; join t.

Definition stop_channel (id : Z) : M world unit :=
  foreach [RecvThread id; SendThread id; AlongThread id; MonitorThread id; BroadcastThread id] join ;;
  let* ax := arr_get w_axican id in
  let* _ := sys (SysClose (ax_rd_fd ax)) in
  let* ax := arr_get w_axican id in
  let* _ := sys (SysClose (ax_wr_fd ax)) in
  ret tt.

Definition main_stop (pps_thread_started : bool) (tids : list thread) : M startup unit :=
  on_world (
    foreach channels_loop (fun id =>
      mutex_lock (wake_mutex id) ;;
      let* _ := sys (SysSignal id) in
      mutex_unlock (wake_mutex id)) ;;
    foreach channels_loop stop_channel ;;
    foreach channels_loop (fun i => join_set tids (DequeueThread1 i) ;; join_set tids (DequeueThread2 i)) ;;
    foreach ports (fun port => join_set tids (ListenThread port)) ;;
    when pps_thread_started (join PpsThread)) ;;
  destroy_all_ring_buffers.
End Startup.

(** ** What the start establishes *)

Section StartupSpec.
Context `{OS}.
Variable malloc_ok : nat -> Z -> bool.
Variable strerror : list syscall -> bytes.
#[local] Open Scope c_scope.

(** A failed call for a device: an [open] that gives no descriptor, an [ioctl]
    or a [pthread_create] that does not give 0. *)
Definition call_failed (hist : list syscall) (c : syscall) : Prop :=
  match c with
  | SysOpen _ _ => os_ret hist c < 0
  | SysIoctlBaud _ _ | SysIoctlMode _ _ | SysThread _ => os_ret hist c <> 0
  | _ => False
  end.

Definition a_call_failed (hist hist' : list syscall) : Prop :=
  exists pre c post, hist' = pre ++ c :: post ++ hist /\ call_failed (post ++ hist) c.

(** The configuration and the device of an opened channel. *)
Definition opened_config (id : Z) : CanDeviceConfig :=
  mk_config id 500000 ZMUAV_XCAN_MODE_LOOPBACK INIT_MODE 1 CAN_STATE_CLOSED.
Definition opened_axican (id rd wr : Z) : axican :=
  mk_axican id rd AXICAN_READ_FLAG wr AXICAN_WRITE_FLAG zero_frame zero_frame 0 0.

Definition device_threads (id : Z) : list thread :=
  [RecvThread id; SendThread id; MonitorThread id; AlongThread id; BroadcastThread id].

Definition device_calls (ax : axican) : list syscall :=
  [SysOpen (ax_id ax) false; SysOpen (ax_id ax) true; SysIoctlBaud (ax_rd_fd ax) 500000;
   SysIoctlMode (ax_rd_fd ax) ZMUAV_XCAN_MODE_LOOPBACK] ++ (SysThread <$> device_threads (ax_id ax)).

Definition device_opened (id rd wr : Z) (w : world) : world :=
  let ax := opened_axican id rd wr in
  set_hist (rev (device_calls ax) ++ w_hist w)
    (set_configs (<[Z.to_nat id := opened_config id]> (w_configs w))
      (set_axican (<[Z.to_nat id := ax]> (w_axican w)) w)).

(** What a failed start of a device leaves alone. *)
Definition start_frame (w w' : world) : Prop := w_bufs w' = w_bufs w /\ w_held w' = w_held w.

(** Only calls were made. *)
Definition calls_after (w w' : world) : Prop := exists post, w' = set_hist (post ++ w_hist w) w.

Lemma calls_after_refl w : calls_after w w.
Proof. exists []. by destruct w. Qed.

Lemma calls_after_call c w w' : calls_after w w' -> calls_after w (add_call c w').
Proof. intros [post ->]. by exists (c :: post). Qed.

#[local] Hint Resolve calls_after_refl calls_after_call : zmht.

Lemma call_failed_after c w w' :
  calls_after w w' -> call_failed (w_hist w') c ->
  start_frame w (add_call c w') /\ a_call_failed (w_hist w) (w_hist (add_call c w')).
Proof. intros [post ->] Hc. split; [done|]. by exists [], c, post. Qed.

Lemma device_event_quiet event id text w :
  event_socket w = -1 -> w_held w = [] -> device_event strerror event id text w = Some (tt, w).
Proof.
  intros He Hh. unfold device_event, bind, gets. rewrite send_event_eq by (by rewrite Hh).
  unfold event_result. by rewrite He.
Qed.

Lemma start_threads_spec id w :
  event_socket w = -1 -> w_held w = [] ->
  wp (start_threads id) (fun r w' =>
    (r = 0 /\ w' = set_hist (rev (SysThread <$> device_threads id) ++ w_hist w) w) \/
    (r = -1 /\ start_frame w w' /\ a_call_failed (w_hist w) (w_hist w'))) w.
Proof.
  intros He Hh. unfold start_threads.
  wp_step. apply wp_sys. destruct (Z.eqb_spec (os_ret (w_hist w) (SysThread (RecvThread id))) 0); cbn [negb].
  2:{ wp_step. unfold wp. rewrite send_event_eq by (by simpl; rewrite Hh). unfold event_result. simpl.
      rewrite He. simpl. right. split; [done|]. apply call_failed_after; auto with zmht. }
  do 4 (wp_step; apply wp_sys; lazymatch goal with |- context [?r =? 0] => destruct (Z.eqb_spec r 0) end;
    cbn [negb]; [| wp_step; right; split; [done|]; apply call_failed_after; auto 10 with zmht]).
  wp_step. by left.
Qed.
(** The state while channel [id] is started. *)
Definition starting (id : Z) (ax : axican) (cf : CanDeviceConfig) (hist : list syscall) (w : world) : world :=
  set_hist hist (set_configs (<[Z.to_nat id := cf]> (w_configs w))
    (set_axican (<[Z.to_nat id := ax]> (w_axican w)) w)).

Section Device.
Variables (id : Z) (w : world).
Hypothesis Hid : 0 <= id < 6.
Hypothesis Hax : length (w_axican w) = 6%nat.
Hypothesis Hcf : length (w_configs w) = 6%nat.

Lemma wp_start_put g ax cf hist (Q : unit -> world -> Prop) :
  Q tt (starting id (g ax) cf hist w) -> wp (axican_put id g) Q (starting id ax cf hist w).
Proof.
  intros HQ. eapply wp_arr_upd; [lia | simpl; apply list_lookup_insert_eq; lia |]. simpl.
  by rewrite list_insert_insert_eq.
Qed.

Lemma wp_start_config g ax cf hist (Q : unit -> world -> Prop) :
  Q tt (starting id ax (g cf) hist w) -> wp (config_upd id g) Q (starting id ax cf hist w).
Proof.
  intros HQ. eapply wp_arr_upd; [lia | simpl; apply list_lookup_insert_eq; lia |]. simpl.
  by rewrite list_insert_insert_eq.
Qed.

Lemma wp_start_get ax cf hist (Q : axican -> world -> Prop) :
  Q ax (starting id ax cf hist w) -> wp (arr_get w_axican id) Q (starting id ax cf hist w).
Proof. intros HQ. eapply wp_arr_get; [lia | simpl; apply list_lookup_insert_eq; lia | done]. Qed.

Lemma wp_start_sys c ax cf hist (Q : Z -> world -> Prop) :
  Q (os_ret hist c) (starting id ax cf (c :: hist) w) -> wp (sys c) Q (starting id ax cf hist w).
Proof. done. Qed.

Lemma starting_here : exists ax cf, w = starting id ax cf (w_hist w) w.
Proof.
  destruct (lookup_lt_is_Some_2 (w_axican w) (Z.to_nat id)) as [ax Ha]; [lia|].
  destruct (lookup_lt_is_Some_2 (w_configs w) (Z.to_nat id)) as [cf Hc]; [lia|].
  exists ax, cf. unfold starting. rewrite !list_insert_id by done. by destruct w.
Qed.
End Device.

Ltac start_step :=
  lazymatch goal with
  | |- wp (axican_put _ _) _ _ => apply wp_start_put; [lia | done..|]
  | |- wp (config_upd _ _) _ _ => apply wp_start_config; [lia | done..|]
  | |- wp (arr_get w_axican _) _ _ => apply wp_start_get; [lia | done..|]
  | |- wp (sys _) _ _ => apply wp_start_sys
  | _ => wp_step
  end.

Lemma init_device_spec id w :
  0 <= id < 6 -> length (w_axican w) = 6%nat -> length (w_configs w) = 6%nat ->
  event_socket w = -1 -> w_held w = [] ->
  wp (init_device strerror id) (fun r w' =>
    (exists rd wr, r = 0 /\ 0 <= rd /\ 0 <= wr /\ w' = device_opened id rd wr w) \/
    (r = -1 /\ start_frame w w' /\ a_call_failed (w_hist w) (w_hist w'))) w.
Proof.
  intros Hid Hax Hcf He Hh.
  assert (forall event text ax cf hist, device_event strerror event id text (starting id ax cf hist w) =
    Some (tt, starting id ax cf hist w)) as Hev by (intros; by apply device_event_quiet).
  assert (forall ax cf c pre post, call_failed (post ++ w_hist w) c ->
    let w' := starting id ax cf (pre ++ c :: post ++ w_hist w) w in
    start_frame w w' /\ a_call_failed (w_hist w) (w_hist w')) as Hfail.
  { intros ax cf c pre post Hc. split; [done|]. by exists pre, c, post. }
  destruct (starting_here id w Hid Hax Hcf) as (a0 & c0 & Hw). 
  lazymatch goal with |- wp ?m ?Q _ => enough (wp m Q (starting id a0 c0 (w_hist w) w)) as Hwp end.
  { by rewrite <- Hw in Hwp. }
  clear Hw. unfold init_device. do 6 start_step. set (rd := os_ret _ (SysOpen id false)).
  do 4 start_step. set (wr := os_ret _ (SysOpen id true)). do 4 start_step.
  cbn [ax_rd_fd ax_wr_fd set_ax_wr_fd set_ax_rd_fd set_ax_id].
  destruct (Z.ltb_spec rd 0) as [Hrd|Hrd].
  { wp_step. unfold wp at 1. rewrite Hev. wp_step. right. split; [done|].
    by apply (Hfail _ _ _ [SysOpen id true] []). }
  destruct (Z.ltb_spec wr 0) as [Hwr|Hwr].
  { wp_step. unfold wp at 1. rewrite Hev. wp_step. right. split; [done|].
    by apply (Hfail _ _ _ [] [SysOpen id false]). }
  unfold configure_device, axican_set_baud, axican_set_mode. do 18 start_step.
  set (hist := SysOpen id true :: _). cbn [ax_rd_fd set_ax_flags set_ax_wr_fd set_ax_rd_fd].
  destruct (Z.eqb_spec (os_ret hist (SysIoctlBaud rd 500000)) 0) as [Hb|Hb]; cbn [negb].
  2:{ wp_step. unfold wp at 1. rewrite Hev. wp_step. right. split; [done|].
      by apply (Hfail _ _ _ [] [SysOpen id true; SysOpen id false]). }
  do 4 start_step. cbn [ax_rd_fd set_ax_flags set_ax_wr_fd set_ax_rd_fd].
  destruct (Z.eqb_spec (os_ret (SysIoctlBaud rd 500000 :: hist) (SysIoctlMode rd ZMUAV_XCAN_MODE_LOOPBACK)) 0)
    as [Hm|Hm]; cbn [negb].
  2:{ wp_step. unfold wp at 1. rewrite Hev. wp_step. right. split; [done|].
      by apply (Hfail _ _ _ [] [SysIoctlBaud rd 500000; SysOpen id true; SysOpen id false]). }
  eapply wp_mono; [by apply start_threads_spec|].
  intros r w' [[-> ->]|(-> & Hf & Hc)].
  - left. by exists rd, wr.
  - right. split; [done|]. split; [exact Hf|].
    destruct Hc as (pre & c & post & Heq & Hc).
    exists pre, c, (post ++ [SysIoctlMode rd ZMUAV_XCAN_MODE_LOOPBACK; SysIoctlBaud rd 500000;
      SysOpen id true; SysOpen id false]). by rewrite <- app_assoc.
Qed.
(** The first [k] devices are open and configured, and the calls made so far
    are theirs, in order. *)
Definition devices_upto (k : nat) (w w' : world) : Prop :=
  exists A C, w' = set_hist (rev (take k A ≫= device_calls) ++ w_hist w) (set_configs C (set_axican A w)) /\
    length A = 6%nat /\ length C = 6%nat /\
    forall i, (i < k)%nat ->
      (exists rd wr, 0 <= rd /\ 0 <= wr /\ A !! i = Some (opened_axican (Z.of_nat i) rd wr)) /\
      C !! i = Some (opened_config (Z.of_nat i)).

Lemma devices_upto_next k w w' rd wr :
  (k < 6)%nat -> devices_upto k w w' -> 0 <= rd -> 0 <= wr ->
  devices_upto (S k) w (device_opened (Z.of_nat k) rd wr w').
Proof.
  intros Hk (A & C & -> & HA & HC & Hi) Hrd Hwr. set (ax := opened_axican (Z.of_nat k) rd wr).
  exists (<[k := ax]> A), (<[k := opened_config (Z.of_nat k)]> C).
  rewrite !length_insert. split_and!; try done.
  - rewrite (take_S_r _ _ ax) by (apply list_lookup_insert_eq; lia).
    rewrite take_insert_ge by lia. rewrite bind_app, rev_app_distr, bind_cons, app_nil_r, <- app_assoc.
    unfold device_opened. by rewrite Nat2Z.id.
  - intros i Hlt. destruct (decide (i = k)) as [->|Hne].
    + rewrite !list_lookup_insert_eq by lia. split; [|done]. by exists rd, wr.
    + rewrite !list_lookup_insert_ne by done. apply Hi. lia.
Qed.

Lemma init_devices_spec n k w w0 :
  (k + n = 6)%nat -> devices_upto k w0 w -> event_socket w0 = -1 -> w_held w0 = [] ->
  wp (init_devices strerror (Z.of_nat <$> seq k n)) (fun r w' =>
    (r = 0 /\ devices_upto 6 w0 w') \/
    (r = -1 /\ start_frame w0 w' /\ a_call_failed (w_hist w0) (w_hist w'))) w.
Proof.
  revert k w. induction n as [|n IH]; intros k w Hkn Hup He Hh; simpl.
  { wp_step. left. replace 6%nat with k by lia. done. }
  pose proof Hup as (A & C & Hw & HA & HC & _).
  wp_step. eapply wp_mono.
  { apply (init_device_spec (Z.of_nat k) w); [lia | by rewrite Hw.. ]. }
  intros r w' [(rd & wr & -> & Hrd & Hwr & ->)|(-> & [Hf1 Hf2] & Hc)]; cbn [Z.eqb negb].
  - apply IH; [lia | by apply devices_upto_next; [lia|..] | done..].
  - wp_step. right. split; [done|]. split; [by split; [rewrite Hf1, Hw | rewrite Hf2, Hw]|].
    destruct Hc as (pre & c & post & Heq & Hc). rewrite Hw in Heq, Hc. simpl in Heq, Hc.
    rewrite app_assoc in Hc, Heq. by exists pre, c, (post ++ rev (take k A ≫= device_calls)).
Qed.

Lemma devices_upto_0 w :
  length (w_axican w) = 6%nat -> length (w_configs w) = 6%nat -> devices_upto 0 w w.
Proof.
  intros HA HC. exists (w_axican w), (w_configs w). split; [by destruct w|].
  split_and!; try done. intros i Hi. lia.
Qed.

Lemma devices_upto_wf C0 w w' : world_wf (set_configs C0 w) -> devices_upto 6 w w' -> world_wf w'.
Proof.
  intros [_ H1 H2 _ H3 H4 H5 H6] (A & C & -> & HA & HC & Hi). split; try done.
  split; [done|]. intros i c Hc. pose proof (lookup_lt_Some _ _ _ Hc) as Hlt. simpl in Hc, Hlt.
  destruct (Hi i) as [_ Hci]; [lia|]. rewrite Hci in Hc. injection Hc as <-. done.
Qed.
(** The threads a list of calls asks for, the latest first. *)
Definition thread_calls (hist : list syscall) : list thread :=
  omap (fun c => match c with SysThread t => Some t | _ => None end) hist.

(** From [w] to [w'] only calls are made; they ask for the threads [ts], in
    this order. *)
Definition starts (ts : list thread) (w w' : world) : Prop :=
  exists new, w' = set_hist (new ++ w_hist w) w /\ thread_calls new = rev ts.

Lemma starts_refl w : starts [] w w.
Proof. exists []. split; [by destruct w | done]. Qed.

Lemma starts_trans ts1 ts2 w w1 w2 : starts ts1 w w1 -> starts ts2 w1 w2 -> starts (ts1 ++ ts2) w w2.
Proof.
  intros (n1 & -> & H1) (n2 & -> & H2). exists (n2 ++ n1). simpl. split; [by rewrite app_assoc|].
  unfold thread_calls in *. by rewrite omap_app, H1, H2, rev_app_distr.
Qed.

Lemma starts_thread t w : starts [t] w (add_call (SysThread t) w).
Proof. by exists [SysThread t]. Qed.

Lemma starts_other c w : thread_calls [c] = [] -> starts [] w (add_call c w).
Proof. intros Hc. by exists [c]. Qed.

(** The threads that were started with success, the latest first. *)
Fixpoint started (h : list syscall) : list thread :=
  match h with
  | [] => []
  | c :: h' =>
    match c with
    | SysThread t => if os_ret h' c =? 0 then t :: started h' else started h'
    | _ => started h'
    end
  end.

(** Memory for the argument of a thread was refused, while the dequeuing threads
    were started or before. *)
Definition arg_refused : Prop := exists hist, os_ret hist (SysMalloc sizeof_int) = 0.
Definition dequeue_arg_refused : Prop :=
  exists hist, SysThread PpsThread ∈ hist /\ os_ret hist (SysMalloc sizeof_int) = 0.

(** Only calls are made: they ask for the threads [ts], and of the threads
    that satisfy [kind] they start [tids], each in this order. *)
Definition starting_threads (ts tids : list thread) (w w' : world) : Prop :=
  starts ts w w' /\ started (w_hist w') = rev tids ++ started (w_hist w).

Lemma starting_trans ts1 ts2 i1 i2 w w1 w2 :
  starting_threads ts1 i1 w w1 -> starting_threads ts2 i2 w1 w2 ->
  starting_threads (ts1 ++ ts2) (i1 ++ i2) w w2.
Proof.
  intros [H1 S1] [H2 S2]. split; [by eapply starts_trans|].
  by rewrite S2, S1, app_assoc, rev_app_distr.
Qed.

Lemma starting_thread t w :
  starting_threads [t] (tid_set t (os_ret (w_hist w) (SysThread t))) w (add_call (SysThread t) w).
Proof.
  split; [apply starts_thread|]. unfold tid_set. simpl. by destruct (_ =? 0).
Qed.

Lemma starting_other c w :
  (forall t, c <> SysThread t) -> starting_threads [] [] w (add_call c w).
Proof.
  intros Hc. split; [apply starts_other|]; destruct c; try done; by destruct (Hc t).
Qed.

Lemma start_listener_spec port w :
  wp (start_listener port) (fun tids w' => exists ps,
    starting_threads (ListenThread <$> ps) tids w w' /\ (ps = [port] \/ ps = [] /\ arg_refused)) w.
Proof.
  unfold start_listener. wp_step. apply wp_sys. set (w1 := add_call _ w).
  assert (starting_threads [] [] w w1) as H1 by by apply starting_other.
  destruct (Z.eqb_spec (os_ret (w_hist w) (SysMalloc sizeof_int)) 0) as [Hz|Hz].
  { wp_step. exists []. split; [exact H1|]. right. split; [done | by eexists]. }
  wp_step. apply wp_sys. pose proof (starting_trans _ _ _ _ _ _ _ H1 (starting_thread (ListenThread port) w1)) as H2.
  cbn [app] in H2. set (w2 := add_call _ w1) in *. set (rc := os_ret _ _) in *. wp_step. apply wp_when; intros _.
  - wp_step. apply wp_sys. wp_step. wp_step. exists [port]. split; [|by left].
    rewrite <- (app_nil_r (tid_set _ _)). exact (starting_trans [_] [] _ [] _ _ _ H2 (starting_other SysFree w2 ltac:(done))).
  - wp_step. exists [port]. by split; [|left].
Qed.

Lemma start_listeners_spec ps w :
  wp (start_all ps start_listener) (fun tids w' => exists ps',
    starting_threads (ListenThread <$> ps') tids w w' /\ ps' `sublist_of` ps /\ (ps' = ps \/ arg_refused)) w.
Proof.
  revert w. induction ps as [|p ps IH]; intros w; cbn [start_all].
  { wp_step. exists []. split; [split; [apply starts_refl | done]|]. split; [done | by left]. }
  wp_step. eapply wp_mono; [apply start_listener_spec|]. intros i1 w1 (p1 & H1 & Hp1).
  wp_step. eapply wp_mono; [apply IH|]. intros i2 w2 (p2 & H2 & Hs & Hp2). wp_step.
  exists (p1 ++ p2). split; [rewrite fmap_app; by eapply starting_trans|].
  destruct Hp1 as [->|[-> Hr]].
  - split; [by apply sublist_skip|]. destruct Hp2 as [->|]; [by left | by right].
  - split; [by apply sublist_cons | by right].
Qed.

(** The dequeuing threads are started, or the code goes wrong for want of the
    memory of an argument. *)
Lemma start_dequeues_spec t l w :
  SysThread PpsThread ∈ w_hist w ->
  wp_or dequeue_arg_refused (start_all l (start_dequeue t))
    (fun tids w' => starting_threads (t <$> l) tids w w' /\ SysThread PpsThread ∈ w_hist w') w.
Proof.
  revert w. induction l as [|i l IH]; intros w Hp; cbn [start_all].
  { split; [|done]. by split; [apply starts_refl|]. }
  apply wp_or_bind. unfold start_dequeue at 1. apply wp_or_seq, wp_sys. set (w1 := add_call _ w).
  apply wp_or_bind, wp_or_ensure; intros Hm.
  { apply negb_false_iff, Z.eqb_eq in Hm. by exists (w_hist w). }
  apply wp_or_seq, wp_sys.
  pose proof (starting_trans _ _ _ _ _ _ _ (starting_other (SysMalloc sizeof_int) w ltac:(done)) (starting_thread (t i) w1)) as H2.
  cbn [app] in H2. set (w2 := add_call _ w1) in *. unfold wp_or at 1. cbn [ret].
  apply wp_or_bind. eapply wp_or_mono; [apply IH; by do 2 right | done |].
  intros tids w3 [H3 Hp3]. split; [exact (starting_trans _ _ _ _ _ _ _ H2 H3) | done].
Qed.

(** The services that [main] asks for, with listeners on the ports [ps]. *)
Definition service_threads_on (ps : list Z) : list thread :=
  (ListenThread <$> ps) ++ [ReportThread] ++ [PpsThread] ++
  (DequeueThread1 <$> channels_loop) ++ (DequeueThread2 <$> channels_loop).
Definition service_threads : list thread := service_threads_on ports.

(** The threads that [main] joins at its end by a variable that may not be set. *)
Definition joined_services : list thread :=
  (channels_loop ≫= fun i => [DequeueThread1 i; DequeueThread2 i]) ++ (ListenThread <$> ports).

(** What starting the services leaves: the result tells which of the threads
    run. *)
Definition services_post (w : world) (r : bool * list thread) (w' : world) : Prop :=
  exists ps new run, w' = set_hist (new ++ w_hist w) w /\ thread_calls new = rev (service_threads_on ps) /\
    ps `sublist_of` ports /\ (ps = ports \/ arg_refused) /\
    started (w_hist w') = rev run ++ started (w_hist w) /\
    (r.1 = true <-> PpsThread ∈ run) /\ (forall t, t ∈ joined_services -> t ∈ r.2 <-> t ∈ run).

Lemma tid_set_elem t u rc : u ∈ tid_set t rc -> u = t.
Proof. unfold tid_set. destruct (rc =? 0); intros Hu; [by apply list_elem_of_singleton in Hu | by apply not_elem_of_nil in Hu]. Qed.

Lemma started_app new h : exists run, started (new ++ h) = run ++ started h /\ run `sublist_of` thread_calls new.
Proof.
  induction new as [|c new (run & IH & Hs)]; [by exists []|].
  destruct c; try (exists run; by split). cbn [app started thread_calls omap list_omap]. rewrite IH.
  destruct (_ =? 0); [|exists run; split; [done | by apply sublist_cons]].
  exists (t :: run). split; [done | by apply sublist_skip].
Qed.

Lemma starting_sublist ts tids w w' : starting_threads ts tids w w' -> tids `sublist_of` ts.
Proof.
  intros [(new & -> & Hts) Hst]. destruct (started_app new (w_hist w)) as (run & Hr & Hs).
  cbn [w_hist set_hist] in Hst. rewrite Hr in Hst. apply app_inv_tail in Hst as ->.
  rewrite Hts in Hs. apply sublist_rev in Hs. by rewrite !rev_involutive in Hs.
Qed.

Lemma starting_elem t ts tids w w' : starting_threads ts tids w w' -> t ∈ tids -> t ∈ ts.
Proof. intros Hs Ht. eapply elem_of_submseteq; [exact Ht | by eapply sublist_submseteq, starting_sublist]. Qed.

Lemma joined_service t : t ∈ joined_services -> t <> ReportThread /\ t <> PpsThread.
Proof.
  unfold joined_services. rewrite elem_of_app, list_elem_of_bind, list_elem_of_fmap.
  intros [(i & Ht & _)|(p & -> & _)]; [|done].
  by repeat (apply list.elem_of_cons in Ht as [->|Ht]; [done|]); apply not_elem_of_nil in Ht.
Qed.

Lemma start_services_spec w : wp_or dequeue_arg_refused start_services (services_post w) w.
Proof.
  unfold start_services. apply wp_or_seq. eapply wp_mono; [apply start_listeners_spec|].
  intros ls w1 (ps & H1 & Hps & Hall). apply wp_or_seq, wp_sys.
  pose proof (starting_trans _ _ _ _ _ _ _ H1 (starting_thread ReportThread w1)) as H2.
  set (rr := tid_set _ _) in *. set (w2 := add_call _ w1) in *. apply wp_or_seq.
  assert (wp (when (os_ret (w_hist w1) (SysThread ReportThread) =? 0) (let* _ := sys (SysDetach ReportThread) in ret tt))
    (fun _ w3 => starting_threads ((ListenThread <$> ps) ++ [ReportThread]) (ls ++ rr) w w3) w2) as Hd.
  { apply wp_when; intros _; [|exact H2]. wp_step. apply wp_sys. wp_step.
    rewrite <- (app_nil_r (_ ++ [_])), <- (app_nil_r (ls ++ rr)).
    eapply starting_trans; [exact H2 | by apply starting_other]. }
  eapply wp_mono; [exact Hd|]. clear H2 Hd. intros [] w3 H3. apply wp_or_seq, wp_sys.
  pose proof (starting_trans _ _ _ _ _ _ _ H3 (starting_thread PpsThread w3)) as H4.
  set (rc := os_ret (w_hist w3) _) in *. set (w4 := add_call _ w3) in *.
  apply wp_or_bind. eapply wp_or_mono; [apply start_dequeues_spec; by left | done |]. intros d1 w5 [H5 Hp5].
  apply wp_or_bind. eapply wp_or_mono; [by apply start_dequeues_spec | done |]. intros d2 w6 [H6 _].
  pose proof (starting_trans _ _ _ _ _ _ _ (starting_trans _ _ _ _ _ _ _ H4 H5) H6) as [(new & Hw & Hn) Hst].
  unfold wp_or. cbn [ret]. exists ps, new, ((((ls ++ rr) ++ tid_set PpsThread rc) ++ d1) ++ d2).
  split; [exact Hw|]. split; [rewrite Hn; unfold service_threads_on; by rewrite <- !app_assoc|].
  split; [done|]. split; [done|]. split; [exact Hst|].
  pose proof (fun t => starting_elem t _ _ _ _ H1) as E1. pose proof (fun t => starting_elem t _ _ _ _ H5) as E5.
  pose proof (fun t => starting_elem t _ _ _ _ H6) as E6. cbn [fst snd].
  assert (forall (k : Z -> thread) (l : list Z) t, t ∈ k <$> l -> exists i, t = k i) as Hk.
  { intros k l t (i & -> & _)%list_elem_of_fmap. by exists i. }
  assert (forall u, u ∈ rr -> u = ReportThread) as Er by (intros u; apply tid_set_elem).
  split.
  - rewrite !elem_of_app. split.
    + intros Hrc. left. left. right. unfold tid_set. rewrite Hrc. by left.
    + intros [[[[Ht|Ht]|Ht]|Ht]|Ht].
      * by destruct (Hk _ _ _ (E1 _ Ht)).
      * by apply Er in Ht.
      * revert Ht. unfold tid_set. destruct (rc =? 0); [done|]. by intros Ht%not_elem_of_nil.
      * by destruct (Hk _ _ _ (E5 _ Ht)).
      * by destruct (Hk _ _ _ (E6 _ Ht)).
  - intros t [Hnr Hnp]%joined_service. rewrite !elem_of_app. split; [tauto|].
    intros [[[[Ht|Ht]|Ht]|Ht]|Ht]; try tauto; [by apply Er in Ht | by apply tid_set_elem in Ht].
Qed.

Lemma static_start_wf b : (forall n, set_ready n b) ->
  world_wf (set_configs (w_configs boot_world) (set_bufs b static_world)).
Proof.
  intros Hr. destruct (sets_ready_wf b Hr) as [Hwf Hq]. destruct boot_world_wf as [H1 H2 H3 _ _ _ _ H8].
  split; try done. intros ch Hch. cbn [w_bufs set_configs set_bufs].
  replace (chan_queue (buf_set BcastGroup b) ch) with (@nil bytes); [constructor|].
  destruct (Z.lt_ge_cases ch 6) as [Hlt|Hge]; [symmetry; by apply (Hq BcastGroup ch)|].
  destruct (Hr BcastGroup) as [[(l & chs & Hc & Hlen & _) _] [Hmax _]].
  unfold chan_queue, channel_at. rewrite Hc. simpl. rewrite lookup_ge_None_2; [done|].
  rewrite Hmax in Hlen. unfold zlen in Hlen. cbn [buf_chans] in Hlen. lia.
Qed.
(** What [main] leaves when it reaches its waiting loop, and when it fails. *)
Definition main_post (h : heap) (r : option (bool * list thread)) (w' : world) (h' : heap) : Prop :=
  w_held w' = [] /\
  match r with
  | Some (pps, tids) => world_wf w' /\
      (forall n ch, 0 <= ch < buf_chans n -> buf_queue n ch (w_bufs w') = []) /\
      (forall p, port_socket p w' = -1) /\ data_download_socket w' = -1 /\
      (forall i, (i < 6)%nat ->
         (exists rd wr, 0 <= rd /\ 0 <= wr /\
            w_axican w' !! i = Some (opened_axican (Z.of_nat i) rd wr)) /\
         w_configs w' !! i = Some (opened_config (Z.of_nat i))) /\
      (exists ps new run, w_hist w' = new ++ rev (w_axican w' ≫= device_calls) /\
         thread_calls new = rev (service_threads_on ps) /\ ps `sublist_of` ports /\ (ps = ports \/ arg_refused) /\
         started (w_hist w') = rev run ++ started (rev (w_axican w' ≫= device_calls)) /\
         (pps = true <-> PpsThread ∈ run) /\ (forall t, t ∈ joined_services -> t ∈ tids <-> t ∈ run)) /\
      bufs_owned (h_live h) (w_bufs w') h' /\ w_bc w' = w_bc static_world
  | None =>
      (w_bufs w' = zero_buffers /\ h_live h' = h_live h /\ alloc_refused malloc_ok /\ w_hist w' = []) \/
      (a_call_failed [] (w_hist w') /\ bufs_owned (h_live h) (w_bufs w') h')
  end.

Lemma main_start_spec h :
  heap_fresh h ->
  wp_or dequeue_arg_refused (main_start malloc_ok strerror) (fun r st => main_post h r (su_world st) (su_heap st))
    (mk_startup static_world h).
Proof.
  intros Hf. unfold main_post, main_start. apply wp_or_seq, wp_on_world.
  change (wp (foreach channels_loop (fun ch => wake_set ch (fun _ => 0))) ?Q static_world) with (Q tt static_world).
  cbv beta. apply wp_or_seq. eapply wp_mono; [by apply init_buffers_spec|].
  intros r [w1 h1] (b & Hw1 & Hf1 & [(-> & Hready & Hown)|(-> & -> & Hl & Href)]); cbn [su_world su_heap] in *;
    subst w1; cbn [Z.eqb negb].
  2:{ split; [done|]. left. by split_and!. }
  apply wp_or_seq, wp_on_world. change channels_loop with (Z.of_nat <$> seq 0 6).
  eapply wp_mono; [apply (init_devices_spec 6 0 _ (set_bufs b static_world)); try done; by apply devices_upto_0|].
  intros r w1 [(-> & Hup)|(-> & [Hb Hh] & Hc)]; cbn [Z.eqb negb].
  2:{ split; [done|]. right. split; [exact Hc|]. simpl. by rewrite Hb. }
  apply wp_or_bind, wp_or_on_world. eapply wp_or_mono; [apply start_services_spec | done |].
  intros [pps tids] w2 (ps & new & run & -> & Hnew & Hps & Hall & Hst & Hpps & Htids).
  unfold wp_or. cbn [ret su_world su_heap].
  pose proof (devices_upto_wf _ _ _ (static_start_wf b Hready) Hup) as Hwf.
  destruct Hup as (A & C & -> & HA & HC & Hi). simpl in *. split; [done|].
  assert (rev (take 6 A ≫= device_calls) ++ [] = rev (A ≫= device_calls)) as Hd
    by (rewrite app_nil_r; do 2 f_equal; by rewrite take_ge by lia).
  split_and!; try done; [by destruct Hwf | by apply sets_ready_wf | by intros [] |].
  exists ps, new, run. rewrite Hd in *. by split_and!.
Qed.

Lemma main_returns h :
  heap_fresh h -> ~ arg_refused -> exists r w' h', main_start malloc_ok strerror (mk_startup static_world h) =
    Some (r, mk_startup w' h') /\ main_post h r w' h'.
Proof.
  intros Hf Ha. assert (~ dequeue_arg_refused) as Hd by (intros (hist & _ & Hh); apply Ha; by exists hist).
  pose proof (wp_or_total _ _ _ _ Hd (main_start_spec h Hf)) as Hwp.
  apply wp_exec in Hwp as (r & [w' h'] & Hrun & Hpost). by exists r, w', h'.
Qed.

(** C24. The start of the program, from its static state, whatever the
    allocations, the devices and the threads answer.  When [main] reaches its
    waiting loop, the state is well formed, with every queue empty and no
    client; each channel has its devices open and is configured with 500000
    baud in loopback mode; the calls of the devices were made in order, each
    channel's threads after its configuration; the services were asked for once
    each, in order, but a listener for which there was no memory; and the
    variables the end of [main] joins by are those of the threads that run.
    When it fails, either a buffer was refused and every block is released
    again, or a call for a device failed.  It goes wrong only when memory for
    the argument of a dequeuing thread is refused, after the pulse thread was
    asked for. *)
Theorem startup_outcome h :
  heap_fresh h ->
  match main_start malloc_ok strerror (mk_startup static_world h) with
  | Some (r, mk_startup w' h') =>
    w_held w' = [] /\
    match r with
    | Some (pps, tids) => world_wf w' /\
        (forall n ch, 0 <= ch < buf_chans n -> buf_queue n ch (w_bufs w') = []) /\
        (forall p, port_socket p w' = -1) /\ data_download_socket w' = -1 /\
        (forall i, (i < 6)%nat ->
           (exists rd wr, 0 <= rd /\ 0 <= wr /\
              w_axican w' !! i = Some (opened_axican (Z.of_nat i) rd wr)) /\
           w_configs w' !! i = Some (opened_config (Z.of_nat i))) /\
        (exists ps new run, w_hist w' = new ++ rev (w_axican w' ≫= device_calls) /\
           thread_calls new = rev (service_threads_on ps) /\ ps `sublist_of` ports /\ (ps = ports \/ arg_refused) /\
           started (w_hist w') = rev run ++ started (rev (w_axican w' ≫= device_calls)) /\
           (pps = true <-> PpsThread ∈ run) /\ (forall t, t ∈ joined_services -> t ∈ tids <-> t ∈ run)) /\
        bufs_owned (h_live h) (w_bufs w') h' /\ w_bc w' = w_bc static_world
    | None =>
        (w_bufs w' = zero_buffers /\ h_live h' = h_live h /\ alloc_refused malloc_ok /\ w_hist w' = []) \/
        (a_call_failed [] (w_hist w') /\ bufs_owned (h_live h) (w_bufs w') h')
    end
  | None => dequeue_arg_refused
  end.
Proof.
  intros Hf. generalize (main_start_spec h Hf). unfold wp_or.
  generalize (main_start malloc_ok strerror (mk_startup static_world h)). intros [[r [w' h']]|] Hwp; exact Hwp.
Qed.
End StartupSpec.

(** ** What the end releases *)

Section Stop.
Context `{OS}.
#[local] Open Scope c_scope.

(** From [w] to [w'] exactly the calls [cs] are made, in this order. *)
Definition calls_made (cs : list syscall) (w w' : world) : Prop := w' = set_hist (rev cs ++ w_hist w) w.

Lemma calls_made_refl w : calls_made [] w w.
Proof. by destruct w. Qed.

Lemma calls_made_trans cs1 cs2 w w1 w2 :
  calls_made cs1 w w1 -> calls_made cs2 w1 w2 -> calls_made (cs1 ++ cs2) w w2.
Proof. intros -> ->. unfold calls_made. simpl. by rewrite rev_app_distr, <- app_assoc. Qed.

Lemma foreach_calls {A} (f : A -> M world unit) (cs : A -> list syscall) (P : world -> Prop) l w :
  (forall w cs', P w -> P (set_hist cs' w)) -> P w ->
  (forall a w, a ∈ l -> P w -> wp (f a) (fun _ w' => calls_made (cs a) w w') w) ->
  wp (foreach l f) (fun _ w' => calls_made (l ≫= cs) w w') w.
Proof.
  intros HP Hw Hf. revert w Hw. induction l as [|a l IH]; intros w Hw; simpl.
  { wp_step. apply calls_made_refl. }
  wp_step. eapply wp_mono; [by apply Hf; [left|]|]. intros [] w1 H1.
  eapply wp_mono; [apply IH; [intros b w2 Hb; apply Hf; by right | rewrite H1; by apply HP]|].
  intros [] w2 H2. by eapply calls_made_trans.
Qed.

Lemma join_spec t w : wp (join t) (fun _ w' => calls_made [SysJoin t] w w') w.
Proof. done. Qed.

Lemma joins_spec {A} (t : A -> thread) l w :
  wp (foreach l (fun a => join (t a))) (fun _ w' => calls_made (l ≫= fun a => [SysJoin (t a)]) w w') w.
Proof. apply (foreach_calls _ _ (fun _ => True)); [done | done|]. intros a w1 _ _. apply join_spec. Qed.

(** The end of a channel: its threads are joined, then its devices closed. *)
Definition channel_end (axs : list axican) (id : Z) : list syscall :=
  (SysJoin <$> [RecvThread id; SendThread id; AlongThread id; MonitorThread id; BroadcastThread id]) ++
  match axs !! Z.to_nat id with
  | Some ax => [SysClose (ax_rd_fd ax); SysClose (ax_wr_fd ax)]
  | None => []
  end.

Definition stop_calls (pps_thread_started : bool) (axs : list axican) : list syscall :=
  (channels_loop ≫= fun id => [SysSignal id]) ++
  (channels_loop ≫= channel_end axs) ++
  (channels_loop ≫= fun i => [SysJoin (DequeueThread1 i); SysJoin (DequeueThread2 i)]) ++
  (ports ≫= fun port => [SysJoin (ListenThread port)]) ++
  (if pps_thread_started then [SysJoin PpsThread] else []).

Lemma stop_channel_spec id axs w :
  w_axican w = axs -> length axs = 6%nat -> 0 <= id < 6 ->
  wp (stop_channel id) (fun _ w' => calls_made (channel_end axs id) w w') w.
Proof.
  intros Hw Hlen Hid. destruct (lookup_lt_is_Some_2 axs (Z.to_nat id)) as [ax Hax]; [lia|].
  unfold stop_channel, channel_end. rewrite Hax. wp_step.
  eapply wp_mono; [apply (joins_spec (fun t => t))|]. intros [] w1 H1.
  assert (w_axican w1 !! Z.to_nat id = Some ax) as Hax1 by (by rewrite H1; simpl; rewrite Hw).
  wp_step. eapply wp_arr_get; [lia | exact Hax1|]. wp_step. apply wp_sys.
  wp_step. eapply wp_arr_get; [lia | exact Hax1|]. wp_step. apply wp_sys. wp_step.
  eapply calls_made_trans; [exact H1 | done].
Qed.

Lemma join_set_spec tids t w : t ∈ tids -> wp (join_set tids t) (fun _ w' => calls_made [SysJoin t] w w') w.
Proof. intros Ht. unfold join_set. wp_step. apply wp_ensure; [by apply bool_decide_eq_true_2|]. apply join_spec. Qed.

Lemma stop_world_spec pps tids w :
  Forall (fun t => t ∈ tids) joined_services -> w_held w = [] -> length (w_axican w) = 6%nat ->
  wp (foreach channels_loop (fun id =>
        mutex_lock (wake_mutex id) ;;
        let* _ := sys (SysSignal id) in
        mutex_unlock (wake_mutex id)) ;;
      foreach channels_loop stop_channel ;;
      foreach channels_loop (fun i => join_set tids (DequeueThread1 i) ;; join_set tids (DequeueThread2 i)) ;;
      foreach ports (fun port => join_set tids (ListenThread port)) ;;
      when pps (join PpsThread))
    (fun _ w' => calls_made (stop_calls pps (w_axican w)) w w') w.
Proof.
  intros Htids Hh Hlen. unfold joined_services in Htids. apply list.Forall_app in Htids as [Htd Htl].
  rewrite list.Forall_forall in Htd, Htl.
  unfold stop_calls. wp_step. eapply wp_mono.
  { apply (foreach_calls _ (fun id => [SysSignal id]) (fun w => w_held w = [])); [done | done |].
    intros id w1 _ Hh1. wp_step. apply wp_lock; [by rewrite Hh1|]. wp_step. apply wp_sys.
    eapply wp_unlock; [done|]. unfold calls_made. by destruct w1. }
  intros [] w1 H1. assert (w_axican w1 = w_axican w) as Hax by (by rewrite H1).
  wp_step. eapply wp_mono.
  { apply (foreach_calls _ (channel_end (w_axican w)) (fun w' => w_axican w' = w_axican w)); [done | done |].
    intros id w2 Hid Hw2. apply stop_channel_spec; try done.
    apply (list.Forall_forall (fun ch => 0 <= ch < 6) channels_loop); [apply channels_loop_ok | done]. }
  intros [] w2 H2. wp_step. eapply wp_mono.
  { apply (foreach_calls _ (fun i => [SysJoin (DequeueThread1 i); SysJoin (DequeueThread2 i)]) (fun _ => True));
      [done | done |]. intros i w3 Hi _.
    assert (forall t, t ∈ [DequeueThread1 i; DequeueThread2 i] -> t ∈ tids) as Ht.
    { intros t Ht. apply Htd, list_elem_of_bind. by exists i. }
    wp_step. eapply wp_mono; [apply join_set_spec, Ht; by left|]. intros [] w4 H4.
    eapply wp_mono; [apply join_set_spec, Ht; by right; left|]. intros [] w5 H5. exact (calls_made_trans [_] [_] _ _ _ H4 H5). }
  intros [] w3 H3. wp_step. eapply wp_mono.
  { apply (foreach_calls _ (fun port => [SysJoin (ListenThread port)]) (fun _ => True)); [done | done |].
    intros p w4 Hp _. by apply join_set_spec, Htl, list_elem_of_fmap_2. }
  intros [] w4 H4.
  assert (wp (when pps (join PpsThread)) (fun _ w' => calls_made (if pps then [SysJoin PpsThread] else []) w4 w') w4)
    as Hp by (destruct pps; [apply join_spec | apply wp_ret, calls_made_refl]).
  eapply wp_mono; [exact Hp|]. intros [] w5 H5.
  do 4 (eapply calls_made_trans; [eassumption|]). exact H5.
Qed.

(** Every variable that is joined must have been set. *)
Lemma join_set_some tids t s r s' : join_set tids t s = Some (r, s') -> t ∈ tids.
Proof.
  unfold join_set, ensure. intros (a & s1 & Ha & _)%bind_some. destruct (bool_decide (t ∈ tids)) eqn:E; [|done].
  by apply bool_decide_eq_true_1 in E.
Qed.

Lemma main_stop_some pps tids st r st' :
  main_stop pps tids st = Some (r, st') -> Forall (fun t => t ∈ tids) joined_services.
Proof.
  unfold main_stop. intros ([] & st1 & Hw & _)%bind_some. unfold on_world in Hw.
  destruct (bind _ _ (su_world st)) as [[[] w']|] eqn:E in Hw; [|done]. clear Hw.
  apply bind_some in E as (_ & w1 & _ & E). apply bind_some in E as (_ & w2 & _ & E).
  apply bind_some in E as ([] & w3 & E1 & E). apply bind_some in E as ([] & w4 & E2 & _).
  unfold joined_services. apply list.Forall_app. split; apply list.Forall_forall; intros t Ht.
  - apply list_elem_of_bind in Ht as (i & Ht & Hi).
    destruct (foreach_some _ _ _ _ _ E1 i Hi) as (s1 & s2 & Hj). apply bind_some in Hj as ([] & s3 & J1 & J2).
    apply join_set_some in J1, J2. repeat (apply list.elem_of_cons in Ht as [->|Ht]; [done|]).
    by apply not_elem_of_nil in Ht.
  - apply list_elem_of_fmap in Ht as (p & -> & Hp).
    destruct (foreach_some _ _ _ _ _ E2 p Hp) as (s1 & s2 & Hj). by apply join_set_some in Hj.
Qed.

(** C25. The end of the program, once the waiting loop is left.  When every
    listening and dequeuing thread was started, [main] wakes the broadcast
    threads, joins the five threads of each channel before it closes the two
    devices of the channel, once each, then joins the other threads, and
    releases every block of the buffers; it is never stuck, no mutex stays held
    and every buffer is left safe to destroy again.  When one of them was not
    started, [main] joins by a variable that was never set. *)
Theorem stop_releases pps tids base w h :
  bufs_owned base (w_bufs w) h -> w_held w = [] -> length (w_axican w) = 6%nat ->
  if forallb (fun t => bool_decide (t ∈ tids)) joined_services then
    exists w' h', main_stop pps tids (mk_startup w h) = Some (tt, mk_startup w' h') /\
    h_live h' = base /\ w_bufs w' = zero_buffers /\ w_held w' = [] /\
    w_hist w' = rev (stop_calls pps (w_axican w)) ++ w_hist w /\
    closed (w_hist w') = rev (w_axican w ≫= fun ax => [ax_rd_fd ax; ax_wr_fd ax]) ++ closed (w_hist w)
  else main_stop pps tids (mk_startup w h) = None.
Proof.
  intros Ho Hh Hlen. destruct (forallb _ joined_services) eqn:Hset.
  2:{ destruct (main_stop pps tids (mk_startup w h)) as [[r st']|] eqn:E; [|done].
      apply main_stop_some in E. rewrite list.Forall_forall in E. apply not_true_iff_false in Hset. destruct Hset.
      apply forallb_forall. intros t Ht. by apply bool_decide_eq_true_2, E, list_elem_of_In. }
  assert (Forall (fun t => t ∈ tids) joined_services) as Htids.
  { apply list.Forall_forall. intros t Ht. rewrite forallb_forall in Hset.
    apply (bool_decide_eq_true_1 (t ∈ tids)). by apply Hset, list_elem_of_In. }
  lazymatch goal with |- exists w' h', _ = _ /\ @?P w' h' =>
    enough (wp (main_stop pps tids) (fun _ st => P (su_world st) (su_heap st)) (mk_startup w h)) as Hwp end.
  { apply wp_exec in Hwp as ([] & [w' h'] & Hrun & HP). by exists w', h'. }
  cbv beta. unfold main_stop. wp_step. apply wp_on_world.
  eapply wp_mono; [by apply stop_world_spec|]. intros [] w1 ->.
  eapply wp_mono; [apply (destroy_all_spec base); exact Ho|].
  intros [] [w2 h2]. cbn [su_world su_heap]. intros (-> & _ & Hl). simpl. split_and!; try done.
  destruct (w_axican w) as [|a0 [|a1 [|a2 [|a3 [|a4 [|a5 [|]]]]]]]; try discriminate Hlen. by destruct pps.
Qed.
End Stop.

(** ** A start that succeeds *)

(** Every device opens, every allocation and every other call succeeds. *)
Definition starting_os : OS := {|
  os_ret := fun _ c => match c with SysOpen _ _ => 3 | SysMalloc _ => 1 | _ => 0 end;
  os_data := fun _ _ => [];
  os_clock := fun _ _ => (0, 0)
|}.

Definition empty_heap : heap := mk_heap ∅ 1 0.

Lemma empty_heap_fresh : heap_fresh empty_heap.
Proof. intros l Hl. by apply not_elem_of_empty in Hl. Qed.

Lemma nothing_refused : ~ alloc_refused (fun _ _ => true).
Proof. by intros (n & size & Hf). Qed.

Lemma no_call_failed hist hist' : ~ @a_call_failed starting_os hist hist'.
Proof. intros (pre & c & post & _ & Hc). destruct c; simpl in Hc; lia. Qed.

Lemma startup_outcome_witness :
  exists pps tids w' h', @main_start starting_os (fun _ _ => true) (fun _ => []) (mk_startup static_world empty_heap) =
    Some (Some (pps, tids), mk_startup w' h') /\ world_wf w'.
Proof.
  pose proof (@startup_outcome starting_os (fun _ _ => true) (fun _ => []) empty_heap empty_heap_fresh) as Ho.
  destruct (@main_start starting_os _ _ _) as [[[[pps tids]|] [w' h']]|].
  - exists pps, tids, w', h'. split; [reflexivity | apply Ho].
  - destruct Ho as [_ [(_ & _ & Hr & _)|(Hc & _)]].
    + exact (False_rect _ (nothing_refused Hr)).
    + exact (False_rect _ (no_call_failed _ _ Hc)).
  - destruct Ho as (hist & _ & Hz). discriminate Hz.
Defined.

(** Buffers as the start leaves them. *)
Lemma allocated_from ok w h :
  w_bufs w = zero_buffers -> heap_fresh h -> ~ alloc_refused ok ->
  exists b h', bufs_owned (h_live h) b h' /\ forall n, set_ready n b.
Proof.
  intros Hz Hf Hok. pose proof (init_buffers_spec ok w h Hz Hf) as Hwp.
  apply wp_exec in Hwp as (r & [w' h'] & _ & b & _ & _ & [(_ & Hr & Ho)|(_ & _ & _ & Hr)]).
  - by exists b, h'.
  - by destruct Hok.
Qed.

Lemma allocated_buffers : exists b h, bufs_owned ∅ b h /\ forall n, set_ready n b.
Proof.
  exact (allocated_from (fun _ _ => true) static_world empty_heap eq_refl empty_heap_fresh nothing_refused).
Qed.

Lemma stop_releases_witness :
  exists b h w' h', (forall n, set_ready n b) /\
    @main_stop starting_os true joined_services (mk_startup (set_bufs b boot_world) h) = Some (tt, mk_startup w' h') /\
    h_live h' = ∅ /\ closed (w_hist w') = [14; 13; 12; 11; 10; 9; 8; 7; 6; 5; 4; 3].
Proof.
  destruct allocated_buffers as (b & h & Ho & Hr).
  destruct (@stop_releases starting_os true joined_services ∅ (set_bufs b boot_world) h Ho eq_refl eq_refl)
    as (w' & h' & Hrun & Hl & _ & _ & _ & Hc).
  exists b, h, w', h'. split; [exact Hr|]. split; [exact Hrun|]. split; [exact Hl|].
  exact Hc.
Defined.
