(* ===== verification/Flash.v ===== *)
(** * Programming a flash device ([src/flashcp.c]).

    The device behind the descriptor is a parameter: a type of device states
    with one function per system call, which gives the result of the call and,
    for [read] and [write], whether a failure is an interruption ([EINTR]).
    The two static buffers of [flashcp_main] are part of the state, since they
    survive from one call to the next. *)
From S2P Require Import Prelude.

Definition BUFSIZE : Z := 65536.
Definition MAX_RETRY_CNT : Z := 10000.

(** ** The device and the state *)

Class Mtd (dev : Type) := {
  d_open : dev -> Z * dev;
  d_info : dev -> Z * Z * Z * dev;
  d_erase : Z -> Z -> dev -> Z * dev;
  d_seek : dev -> Z * dev;
  d_write : bytes -> dev -> Z * bool * dev;
  d_read : Z -> dev -> Z * bool * bytes * dev;
  d_close : dev -> Z * dev
}.

(** [device_info_t]: a missing pointer is [None]. *)
Record device_info_t := mk_device_info {
  di_devicename : option bytes;
  di_size : Z;
  di_buff : option bytes
}.

Section Flashcp.
Context {dev : Type} `{Mtd dev}.
#[local] Open Scope c_scope.

(** The device, the static buffers, the descriptors that are open, and how many
    times [xread] has printed that a read was short. *)
Record flash := mk_flash {
  fl_dev : dev; fl_buf : bytes; fl_buf2 : bytes; fl_open : Z; fl_short : nat
}.

Definition set_fl_dev d s := mk_flash d (fl_buf s) (fl_buf2 s) (fl_open s) (fl_short s).
Definition set_fl_buf b s := mk_flash (fl_dev s) b (fl_buf2 s) (fl_open s) (fl_short s).
Definition set_fl_buf2 b s := mk_flash (fl_dev s) (fl_buf s) b (fl_open s) (fl_short s).
Definition set_fl_open n s := mk_flash (fl_dev s) (fl_buf s) (fl_buf2 s) n (fl_short s).
Definition set_fl_short n s := mk_flash (fl_dev s) (fl_buf s) (fl_buf2 s) (fl_open s) n.

Definition dcall {A} (f : dev -> A * dev) : M flash A := fun s =>
  let '(a, d) := f (fl_dev s) in Some (a, set_fl_dev d s).

(** ** Reading and writing *)

Fixpoint write_retry (retries : nat) (buf : bytes) : M flash Z :=
  let* (n, eintr) := dcall (d_write buf) in
  if (0 <=? n) || negb eintr then ret n else
  match retries with
  | O => ret (-1)
  | S retries' => write_retry retries' buf
  end.

Definition safe_write (buf : bytes) : M flash Z :=
  if zlen buf =? 0 then ret (-1) else write_retry (Z.to_nat MAX_RETRY_CNT) buf.

(** The data read is stored at [off] of the second buffer. *)
Fixpoint read_retry (retries : nat) (off count : Z) : M flash Z :=
  let* (n, eintr, data) := dcall (d_read count) in
  if (0 <=? n) || negb eintr then
    when (0 <=? n)
      (let* buf2 := gets fl_buf2 in
       let* buf2 := of_option (mem_write off data buf2) in
       modify (set_fl_buf2 buf2)) ;;
    ret n
  else
  match retries with
  | O => ret (-1)
  | S retries' => read_retry retries' off count
  end.

Definition safe_read (off count : Z) : M flash Z :=
  if count =? 0 then ret (-1) else read_retry (Z.to_nat MAX_RETRY_CNT) off count.

(** The loops consume at least one byte per turn. *)
Fixpoint full_write_loop (fuel : nat) (buf : bytes) (total : Z) : M flash Z :=
  if zlen buf =? 0 then ret total else
  match fuel with
  | O => stuck
  | S fuel' =>
    let* cc := safe_write buf in
    if cc <? 0 then ret (if total >? 0 then total else cc) else
    if cc =? 0 then ret total else
    ensure (cc <=? zlen buf) ;;
    full_write_loop fuel' (drop (Z.to_nat cc) buf) (total + cc)
  end.

Definition full_write (buf : bytes) : M flash Z := full_write_loop (length buf) buf 0.

Fixpoint full_read_loop (fuel : nat) (off len total : Z) : M flash Z :=
  if len =? 0 then ret total else
  match fuel with
  | O => stuck
  | S fuel' =>
    let* cc := safe_read off len in
    if cc <? 0 then ret (if total >? 0 then total else cc) else
    if cc =? 0 then ret total else
    ensure (cc <=? len) ;;
    full_read_loop fuel' (off + cc) (len - cc) (total + cc)
  end.

Definition full_read (len : Z) : M flash Z := full_read_loop (Z.to_nat len) 0 len 0.

(** A short read only prints a message. The code compares as [size_t]; the
    count is at most 64 KiB, so a negative size differs from it too. *)
Definition xread (count : Z) : M flash unit :=
  if count =? 0 then ret tt else
  let* size := full_read count in
  when (negb (size =? count)) (modify (fun s => set_fl_short (S (fl_short s)) s)).

(** ** Erasing, writing, verifying *)

Fixpoint erase_loop (n : nat) (start erasesize : Z) : M flash Z :=
  match n with
  | O => ret 0
  | S n' =>
    let* rc := dcall (d_erase start erasesize) in
    if rc <? 0 then ret (-3) else erase_loop n' (u32 (start + erasesize)) erasesize
  end.

(** [memcpy(buf, info->buff + done, count)] *)
Definition copy_block (data : bytes) (done count : Z) : M flash unit :=
  let* block := of_option (mem_read done count data) in
  let* buf := gets fl_buf in
  let* buf := of_option (mem_write 0 block buf) in
  modify (set_fl_buf buf).

(** One block; the result is 0 or the code of the failure. *)
Definition write_block (count : Z) : M flash Z :=
  when (count <? BUFSIZE)
    (let* buf := gets fl_buf in
     let* buf := of_option (mem_write count (replicate (Z.to_nat (BUFSIZE - count)) xff) buf) in
     modify (set_fl_buf buf)) ;;
  let* buf := gets fl_buf in
  let* w_len := full_write buf in
  ret (if w_len =? BUFSIZE then 0 else -4).

Definition verify_block (count : Z) : M flash Z :=
  xread count ;;
  let* buf := gets fl_buf in
  let* buf2 := gets fl_buf2 in
  ret (if bool_decide (take (Z.to_nat count) buf = take (Z.to_nat count) buf2) then 0 else -5).

(** The pass [i] over the data: 0 writes, 1 verifies. *)
Fixpoint pass_loop (fuel : nat) (i : Z) (data : bytes) (size done count : Z) : M flash Z :=
  let rem := size - done in
  if rem =? 0 then ret 0 else
  match fuel with
  | O => stuck
  | S fuel' =>
    let count := if rem <? BUFSIZE then rem else count in
    copy_block data done count ;;
    let* r := (if i =? 0 then write_block count else verify_block count) in
    if negb (r =? 0) then ret r else pass_loop fuel' i data size (done + count) count
  end.

Definition pass (i : Z) (data : bytes) (size : Z) : M flash Z :=
  let* _ := dcall d_seek in
  pass_loop (S (Z.to_nat (size / BUFSIZE))) i data size 0 BUFSIZE.

(** From the check of the device to the label [error]. *)
Definition flashcp_device (data : bytes) (size : Z) : M flash Z :=
  let* (rc, mtd_size, erasesize) := dcall d_info in
  if rc <? 0 then ret (-2) else
  if size >? mtd_size then ret (-2) else
  ensure (negb (erasesize =? 0)) ;;
  let erase_count := u32 (size + erasesize - 1) / erasesize in
  let* r := erase_loop (Z.to_nat erase_count) 0 erasesize in
  if negb (r =? 0) then ret r else
  let* r := pass 0 data size in
  if negb (r =? 0) then ret r else
  pass 1 data size.

Definition xopen : M flash Z :=
  let* fd := dcall d_open in
  when (0 <=? fd) (modify (fun s => set_fl_open (fl_open s + 1) s)) ;;
  ret fd.

Definition close : M flash unit :=
  let* _ := dcall d_close in
  modify (fun s => set_fl_open (fl_open s - 1) s).

Definition flashcp_main (info : option device_info_t) : M flash Z :=
  match info with
  | None => ret (-1)
  | Some info =>
    match di_devicename info, di_buff info with
    | Some _, Some data =>
      if di_size info =? 0 then ret (-1) else
      let* fd_d := xopen in
      if fd_d <? 0 then ret (-1) else
      let* r := flashcp_device data (di_size info) in
      close ;; ret r
    | _, _ => ret (-1)
    end
  end.
End Flashcp.

#[global] Arguments flash : clear implicits.

(** ** Any device: the program ends, with a code, and closes what it opened *)

(** What every device driver guarantees: no call gives more than it was asked
    for, and a device has erase blocks. *)
Class MtdSane (dev : Type) `{Mtd dev} : Prop := {
  write_le bs d n e d' : d_write bs d = (n, e, d') -> n <= zlen bs;
  read_le c d n e data d' : d_read c d = (n, e, data, d') -> 0 <= c ->
    n <= c /\ (0 <= n -> zlen data = n);
  info_sane d rc size es d' : d_info d = (rc, size, es, d') -> 0 <= rc -> 0 < es
}.

(** A relation between the states of a device that every call on an open
    device keeps. *)
Class Stable (dev : Type) `{Mtd dev} (R : dev -> dev -> Prop) : Prop := {
  stable_pre :: PreOrder R;
  stable_info d a d' : d_info d = (a, d') -> R d d';
  stable_erase start len d a d' : d_erase start len d = (a, d') -> R d d';
  stable_seek d a d' : d_seek d = (a, d') -> R d d';
  stable_write bs d a d' : d_write bs d = (a, d') -> R d d';
  stable_read c d a d' : d_read c d = (a, d') -> R d d'
}.

Section Total.
Context {dev : Type} `{MtdSane dev} (R : dev -> dev -> Prop) `{!Stable dev R}.
#[local] Open Scope c_scope.

Lemma wp_dcall {A} (f : dev -> A * dev) (Q : A -> flash dev -> Prop) s :
  (forall a d, f (fl_dev s) = (a, d) -> Q a (set_fl_dev d s)) -> wp (dcall f) Q s.
Proof. intros HQ. unfold wp, dcall. destruct (f (fl_dev s)) as [a d] eqn:E. by apply HQ. Qed.

(** The buffers keep their size, the descriptors stay as they are, and the
    device moves along [R]. *)
Record fl_frame (s s' : flash dev) : Prop := {
  ff_dev : R (fl_dev s) (fl_dev s');
  ff_buf : length (fl_buf s') = length (fl_buf s);
  ff_buf2 : length (fl_buf2 s') = length (fl_buf2 s);
  ff_open : fl_open s' = fl_open s;
  ff_short : (fl_short s <= fl_short s')%nat
}.

#[export] Instance fl_frame_preorder : PreOrder fl_frame.
Proof.
  split; [by split|]. intros s1 s2 s3 [] []. split; [by etransitivity | congruence.. | lia].
Qed.

Lemma fl_frame_dev d s : R (fl_dev s) d -> fl_frame s (set_fl_dev d s).
Proof. by split. Qed.

#[local] Hint Resolve fl_frame_dev : zmht.

Definition fl_wf (s : flash dev) : Prop := zlen (fl_buf s) = BUFSIZE /\ zlen (fl_buf2 s) = BUFSIZE.

Lemma fl_frame_wf s s' : fl_frame s s' -> fl_wf s -> fl_wf s'.
Proof. intros [_ H1 H2 _ _] [H3 H4]. unfold fl_wf, zlen in *. by rewrite H1, H2. Qed.

Lemma write_retry_total k buf s :
  wp (write_retry k buf) (fun n s' => n <= zlen buf /\ fl_frame s s') s.
Proof.
  revert s. induction k as [|k IH]; intros s; simpl; wp_step; apply wp_dcall; intros [n e] d Hd;
    pose proof (fl_frame_dev d s (stable_write _ _ _ _ Hd)) as Hf;
    destruct ((0 <=? n) || negb e)%bool.
  - wp_step. split; [by eapply write_le | done].
  - wp_step. split; [zlia | done].
  - wp_step. split; [by eapply write_le | done].
  - eapply wp_mono; [apply IH|]. intros n' s' [Hn Hf']. by split; [|etransitivity].
Qed.

Lemma full_write_total fuel buf total s :
  (length buf <= fuel)%nat ->
  wp (full_write_loop fuel buf total) (fun _ s' => fl_frame s s') s.
Proof.
  revert buf total s. induction fuel as [|fuel IH]; intros buf total s Hfuel; simpl;
    destruct (Z.eqb_spec (zlen buf) 0) as [Hz|Hz]; try (by wp_step); [zlia|].
  wp_step. unfold safe_write. rewrite (proj2 (Z.eqb_neq _ _)) by done.
  eapply wp_mono; [apply write_retry_total|]. intros cc s1 [Hcc Hf].
  destruct (Z.ltb_spec cc 0); [by wp_step|]. destruct (Z.eqb_spec cc 0); [by wp_step|].
  wp_step. apply wp_ensure; [lia|]. eapply wp_mono; [apply IH|].
  - rewrite length_drop. zlia.
  - intros r s2 Hf2. by etransitivity.
Qed.

Lemma read_retry_total k off count s :
  0 <= off -> 0 <= count -> off + count <= zlen (fl_buf2 s) ->
  wp (read_retry k off count) (fun n s' => n <= count /\ fl_frame s s') s.
Proof.
  intros Ho Hc. revert s. induction k as [|k IH]; intros s Hb; simpl; wp_step; apply wp_dcall;
    intros [[n e] data] d Hd; destruct (read_le _ _ _ _ _ _ Hd Hc) as [Hn Hdata];
    pose proof (fl_frame_dev d s (stable_read _ _ _ _ Hd)) as Hf;
    destruct ((0 <=? n) || negb e)%bool;
    try (wp_step; split; [lia | done]).
  1, 2: wp_step; destruct (Z.leb_spec 0 n); cbn [when];
    [|wp_step; wp_step; by split];
    wp_step; wp_step; wp_step; rewrite mem_write_ok by (simpl; rewrite ?Hdata; lia);
    eapply wp_of_option; [done|]; wp_step; wp_step; (split; [done|]);
    (split; [apply Hf | done | | done | done]); simpl; rewrite !length_app, length_drop, length_take; zlia.
  eapply wp_mono; [by apply IH|]. intros n' s' [Hn' Hf'].
  by split; [|etransitivity].
Qed.

Lemma full_read_total fuel off len total s :
  (Z.to_nat len <= fuel)%nat -> 0 <= off -> 0 <= len -> off + len <= zlen (fl_buf2 s) ->
  wp (full_read_loop fuel off len total) (fun _ s' => fl_frame s s') s.
Proof.
  revert off len total s. induction fuel as [|fuel IH]; intros off len total s Hfuel Ho Hl Hb; simpl;
    destruct (Z.eqb_spec len 0) as [Hz|Hz]; try (by wp_step); [lia|].
  wp_step. unfold safe_read. rewrite (proj2 (Z.eqb_neq _ _)) by done.
  eapply wp_mono; [by apply read_retry_total|]. intros cc s1 [Hcc Hf].
  destruct (Z.ltb_spec cc 0); [by wp_step|]. destruct (Z.eqb_spec cc 0); [by wp_step|].
  wp_step. apply wp_ensure; [lia|]. eapply wp_mono; [apply IH; try lia|].
  - destruct Hf as [_ _ Hf2 _ _]. unfold zlen in *. rewrite Hf2. lia.
  - intros r s2 Hf2. by etransitivity.
Qed.
(** What copying a block gives. *)
Lemma wp_copy_block data done count (Q : unit -> flash dev -> Prop) s :
  fl_wf s -> 0 <= done -> 0 <= count <= BUFSIZE -> done + count <= zlen data ->
  (let block := slice (Z.to_nat done) (Z.to_nat count) data in
   Q tt (set_fl_buf (block ++ drop (Z.to_nat count) (fl_buf s)) s)) ->
  wp (copy_block data done count) Q s.
Proof.
  intros [Hb _] Hd Hc Hlen HQ. unfold copy_block. cbv zeta in HQ.
  assert (length (slice (Z.to_nat done) (Z.to_nat count) data) = Z.to_nat count) as Hl
    by (rewrite length_slice; zlia).
  wp_step. rewrite mem_read_ok by lia. eapply wp_of_option; [done|]. wp_step. wp_step. wp_step.
  rewrite mem_write_ok by zlia. eapply wp_of_option; [done|]. wp_step. rewrite Hl. exact HQ.
Qed.

Lemma copied_frame block count s :
  fl_wf s -> length block = Z.to_nat count -> 0 <= count <= BUFSIZE ->
  fl_frame s (set_fl_buf (block ++ drop (Z.to_nat count) (fl_buf s)) s).
Proof. intros [Hb _] Hl Hc. split; try done. simpl. rewrite length_app, length_drop. zlia. Qed.

(** The block to write: what the buffer holds, filled up with ones. *)
Definition padded (count : Z) (buf : bytes) : bytes :=
  if count <? BUFSIZE then take (Z.to_nat count) buf ++ replicate (Z.to_nat (BUFSIZE - count)) xff else buf.

Lemma padded_length count buf :
  0 <= count <= BUFSIZE -> zlen buf = BUFSIZE -> zlen (padded count buf) = BUFSIZE.
Proof. intros Hc Hb. unfold padded. destruct (Z.ltb_spec count BUFSIZE); zlia. Qed.

Lemma wp_write_block count (Q : Z -> flash dev -> Prop) s :
  fl_wf s -> 0 <= count <= BUFSIZE ->
  wp (full_write (padded count (fl_buf s)))
     (fun w_len s' => Q (if w_len =? BUFSIZE then 0 else -4) s') (set_fl_buf (padded count (fl_buf s)) s) ->
  wp (write_block count) Q s.
Proof.
  intros [Hb _] Hc HQ. unfold write_block, padded in *.
  destruct (Z.ltb_spec count BUFSIZE); cbn [when]; wp_step.
  - wp_step. wp_step. wp_step. rewrite mem_write_ok by zlia. eapply wp_of_option; [done|]. wp_step.
    wp_step. wp_step. wp_step. simpl.
    rewrite (drop_ge (fl_buf s)), app_nil_r by (rewrite length_replicate; zlia).
    eapply wp_mono; [exact HQ|]. intros r s' Hr. by wp_step.
  - wp_step. wp_step. wp_step. wp_step.
    assert (set_fl_buf (fl_buf s) s = s) as Hs by (by destruct s). rewrite Hs in HQ.
    eapply wp_mono; [exact HQ|]. intros r s' Hr. by wp_step.
Qed.

Lemma write_block_total count s :
  fl_wf s -> 0 <= count <= BUFSIZE ->
  wp (write_block count) (fun r s' => (r = 0 \/ r = -4) /\ fl_frame s s') s.
Proof.
  intros Hs Hc. apply wp_write_block; [done | done|]. unfold full_write.
  eapply wp_mono; [by apply full_write_total|]. intros r s' Hf. simpl. split; [case_match; auto|].
  etransitivity; [|exact Hf]. split; try done. simpl.
  pose proof (padded_length count (fl_buf s) Hc (proj1 Hs)). destruct Hs. zlia.
Qed.

Lemma verify_block_total count s :
  fl_wf s -> 0 <= count <= BUFSIZE ->
  wp (verify_block count) (fun r s' => (r = 0 \/ r = -5) /\ fl_frame s s') s.
Proof.
  intros [Hb Hb2] Hc. unfold verify_block. wp_step.
  assert (wp (xread count) (fun _ s' => fl_frame s s') s) as Hx.
  { unfold xread. destruct (count =? 0); [by wp_step|]. wp_step. unfold full_read.
    eapply wp_mono; [apply full_read_total; lia|]. intros r s' Hf.
    apply wp_when; intros _; [|done]. wp_step. etransitivity; [exact Hf|]. by split; simpl; lia || done. }
  eapply wp_mono; [exact Hx|]. intros [] s' Hf. wp_step. wp_step. wp_step. wp_step. wp_step.
  split; [destruct (bool_decide _); auto | done].
Qed.

(** The number of turns a pass needs. *)
Definition blocks_left (rem : Z) : Z := (rem + BUFSIZE - 1) / BUFSIZE.

Lemma pass_total fuel i data size off s :
  fl_wf s -> 0 <= off <= size -> size <= zlen data -> blocks_left (size - off) <= Z.of_nat fuel ->
  wp (pass_loop fuel i data size off BUFSIZE) (fun r s' => (r = 0 \/ r = -4 \/ r = -5) /\ fl_frame s s') s.
Proof.
  (* the last turn may leave a smaller [count], and ends the pass *)
  revert off s. induction fuel as [|fuel IH]; intros off s Hs Hd Hlen Hfuel; simpl;
    (destruct (Z.eqb_spec (size - off) 0) as [Hz|Hz]; [wp_step; split; [by left | done]|]).
  { exfalso. unfold blocks_left, BUFSIZE in Hfuel.
    pose proof (Z.div_le_lower_bound (size - off + 65536 - 1) 65536 1 ltac:(lia) ltac:(lia)). lia. }
  set (count := if size - off <? BUFSIZE then size - off else BUFSIZE).
  assert (0 < count <= BUFSIZE /\ count <= size - off /\ (count < BUFSIZE -> count = size - off)) as (H1 & H2 & H3)
    by (unfold count, BUFSIZE; destruct (Z.ltb_spec (size - off) 65536); lia).
  clearbody count. wp_step. apply wp_copy_block; [done | lia.. |]. cbv zeta.
  set (s1 := set_fl_buf _ s). assert (fl_frame s s1) as Hf1.
  { apply copied_frame; [done | rewrite length_slice; zlia | lia]. }
  assert (fl_wf s1) as Hs1 by (by eapply fl_frame_wf). clearbody s1. wp_step.
  assert (wp (if i =? 0 then write_block count else verify_block count)
    (fun r s' => (r = 0 \/ r = -4 \/ r = -5) /\ fl_frame s s') s1) as Hblock.
  { destruct (i =? 0).
    - eapply wp_mono; [apply write_block_total; [done | lia]|]. intros r s' [Hr Hf].
      split; [tauto | by etransitivity].
    - eapply wp_mono; [apply verify_block_total; [done | lia]|]. intros r s' [Hr Hf].
      split; [tauto | by etransitivity]. }
  eapply wp_mono; [exact Hblock|]. intros r s2 [Hr Hf].
  destruct (Z.eqb_spec r 0); cbn [negb]; [|by wp_step].
  destruct (Z.eq_dec count BUFSIZE) as [->|Hne].
  - eapply wp_mono; [apply IH; try lia; [by eapply fl_frame_wf|]|].
    + unfold blocks_left, BUFSIZE in *. 
      replace (size - (off + 65536) + 65536 - 1) with (size - off + 65536 - 1 + (-1) * 65536) by lia.
      rewrite Z.div_add by lia. lia.
    + intros r' s' [Hr' Hf']. split; [done | by etransitivity].
  - destruct fuel; simpl; rewrite (proj2 (Z.eqb_eq _ 0)) by lia; wp_step; (split; [by left | done]).
Qed.
Lemma pass_fuel size : 0 <= size -> blocks_left (size - 0) <= Z.of_nat (S (Z.to_nat (size / BUFSIZE))).
Proof.
  intros Hs. unfold blocks_left, BUFSIZE. pose proof (Z.div_pos size 65536 Hs ltac:(lia)).
  rewrite Z.sub_0_r, Nat2Z.inj_succ, Z2Nat.id by done.
  replace (size + 65536 - 1) with (size - 1 + 1 * 65536) by lia. rewrite Z.div_add by lia.
  pose proof (Z.div_le_mono (size - 1) size 65536 ltac:(lia) ltac:(lia)). lia.
Qed.

Lemma full_pass_total i data size s :
  fl_wf s -> 0 <= size <= zlen data ->
  wp (pass i data size) (fun r s' => (r = 0 \/ r = -4 \/ r = -5) /\ fl_frame s s') s.
Proof.
  intros Hs Hd. unfold pass. wp_step. apply wp_dcall; intros rc d Hseek.
  pose proof (fl_frame_dev d s (stable_seek _ _ _ Hseek)) as Hf0.
  eapply wp_mono; [apply pass_total; [by eapply fl_frame_wf | lia | lia | apply pass_fuel; lia]|].
  intros r s' [Hr Hf]. split; [done|]. by etransitivity.
Qed.

Lemma erase_total n start es s :
  wp (erase_loop n start es) (fun r s' => (r = 0 \/ r = -3) /\ fl_frame s s') s.
Proof.
  revert start s. induction n as [|n IH]; intros start s; simpl; [wp_step; split; [by left | done]|].
  wp_step. apply wp_dcall. intros rc d Hd.
  pose proof (fl_frame_dev d s (stable_erase _ _ _ _ _ Hd)) as Hf0.
  destruct (rc <? 0); [wp_step; split; [by right | done]|].
  eapply wp_mono; [apply IH|]. intros r s' [Hr Hf]. split; [done | by etransitivity].
Qed.

Lemma device_total data size s :
  fl_wf s -> 0 <= size <= zlen data ->
  wp (flashcp_device data size) (fun r s' => -5 <= r <= 0 /\ fl_frame s s') s.
Proof.
  intros Hs Hd. unfold flashcp_device. wp_step. apply wp_dcall. intros [[rc msize] es] d Hinfo.
  pose proof (fl_frame_dev d s (stable_info _ _ _ Hinfo)) as Hf0.
  destruct (Z.ltb_spec rc 0); [wp_step; split; [lia | done]|].
  destruct (size >? msize); [wp_step; split; [lia | done]|].
  pose proof (info_sane _ _ _ _ _ Hinfo ltac:(done)) as Hes.
  wp_step. apply wp_ensure; [by rewrite (proj2 (Z.eqb_neq _ _)) by lia|]. wp_step.
  eapply wp_mono; [apply erase_total|]. intros r s1 [Hr Hf1].
  assert (fl_frame s s1) as Hf by (by etransitivity).
  destruct (Z.eqb_spec r 0); cbn [negb]; [|wp_step; split; [lia | done]]. wp_step.
  eapply wp_mono; [apply full_pass_total; [by eapply fl_frame_wf | done]|]. intros r2 s2 [Hr2 Hf2].
  assert (fl_frame s s2) as Hf' by (by etransitivity).
  destruct (Z.eqb_spec r2 0); cbn [negb]; [|wp_step; split; [lia | done]].
  eapply wp_mono; [apply full_pass_total; [by eapply fl_frame_wf | done]|]. intros r3 s3 [Hr3 Hf3].
  split; [lia | by etransitivity].
Qed.

End Total.

#[export] Instance anything_stable (dev : Type) `{Mtd dev} : Stable dev (fun _ _ => True).
Proof. split; try done. Qed.

Section Ends.
Context {dev : Type} `{MtdSane dev}.
#[local] Open Scope c_scope.

(** C30. Programming always ends: whatever the device answers, interruptions
    without end included, [flashcp_main] returns 0 or one of its five failure
    codes, closes the descriptor exactly when it opened one, and never reads or
    writes outside its buffers or outside the data. *)
Theorem flashcp_ends info s :
  fl_wf s ->
  (forall i data, info = Some i -> di_buff i = Some data -> 0 <= di_size i <= zlen data) ->
  exists r s', flashcp_main info s = Some (r, s') /\ -5 <= r <= 0 /\ fl_open s' = fl_open s /\ fl_wf s'.
Proof.
  intros Hs Hinfo.
  enough (wp (flashcp_main info) (fun r s' => -5 <= r <= 0 /\ fl_frame (fun _ _ => True) s s') s) as Hwp.
  { apply wp_exec in Hwp as (r & s' & Hrun & Hr & Hf). exists r, s'. split; [done|]. split; [done|].
    split; [apply Hf | by eapply (fl_frame_wf _ _ _ Hf)]. }
  unfold flashcp_main. destruct info as [i|]; [|wp_step; split; [lia | done]].
  destruct (di_devicename i) as [name|]; [|wp_step; split; [lia | done]].
  destruct (di_buff i) as [data|] eqn:Hbuff; [|wp_step; split; [lia | done]].
  specialize (Hinfo i data eq_refl Hbuff).
  destruct (Z.eqb_spec (di_size i) 0); [wp_step; split; [lia | done]|].
  unfold xopen. wp_step. wp_step. apply wp_dcall. intros fd d _.
  destruct (Z.leb_spec 0 fd); cbn [when].
  2:{ wp_step. wp_step. wp_step. rewrite (proj2 (Z.ltb_lt _ _)) by done. wp_step. split; [lia | done]. }
  wp_step. wp_step. wp_step. rewrite (proj2 (Z.ltb_ge _ _)) by done. wp_step.
  eapply wp_mono; [apply (device_total (fun _ _ => True)); [exact Hs | done]|].
  intros r s1 [Hr [_ Hl1 Hl2 Hop Hsh]].
  unfold close. wp_step. wp_step. apply wp_dcall. intros rc d1 _. wp_step. wp_step. split; [done|].
  simpl in Hop, Hsh. split; simpl; [done | done | done | lia | lia].
Qed.
End Ends.

(** ** What the result 0 means *)

(** The contents of a device and its file position, with what the driver
    documents: seeking to the start works; a read inside the device gives what
    is there, when it gives anything, and moves on by as much; one that fails
    because it was interrupted does not move; no read changes the contents, and
    no call the size of the device. A read may fail, or give nothing. *)
Class MtdContents (dev : Type) `{Mtd dev} := {
  d_mem : dev -> bytes;
  d_pos : dev -> Z;
  seek_start d rc d' : d_seek d = (rc, d') -> d_mem d' = d_mem d /\ d_pos d' = 0;
  read_inside c d n e data d' : d_read c d = (n, e, data, d') ->
    0 < c -> 0 <= d_pos d -> d_pos d + c <= zlen (d_mem d) ->
    d_mem d' = d_mem d /\
    (0 < n -> data = slice (Z.to_nat (d_pos d)) (Z.to_nat n) (d_mem d) /\ d_pos d' = d_pos d + n) /\
    (n < 0 -> e = true -> d_pos d' = d_pos d);
  info_size d rc size es d' : d_info d = (rc, size, es, d') -> 0 <= rc -> size = zlen (d_mem d);
  info_contents d a d' : d_info d = (a, d') -> d_mem d' = d_mem d;
  write_size bs d a d' : d_write bs d = (a, d') -> zlen (d_mem d') = zlen (d_mem d);
  read_size c d a d' : d_read c d = (a, d') -> zlen (d_mem d') = zlen (d_mem d);
  erase_size start len d rc d' : d_erase start len d = (rc, d') -> zlen (d_mem d') = zlen (d_mem d);
  close_contents d rc d' : d_close d = (rc, d') -> d_mem d' = d_mem d
}.

Section Verified.
Context {dev : Type} `{MtdContents dev} `{!MtdSane dev}.
#[local] Open Scope c_scope.

(** Every read inside the device gives at least one byte. *)
Definition reads_whole : Prop := forall c d n e data d', d_read c d = (n, e, data, d') ->
  0 < c -> 0 <= d_pos d -> d_pos d + c <= zlen (d_mem d) -> 1 <= n.

(** A buffer filled in two steps. *)
Lemma splice_step (o c l p : nat) (b m : bytes) :
  (c <= l)%nat -> (o + l <= length b)%nat -> (p + l <= length m)%nat ->
  let b1 := take o b ++ slice p c m ++ drop (o + c) b in
  take (o + c) b1 ++ slice (p + c) (l - c) m ++ drop (o + l) b1 =
  take o b ++ slice p l m ++ drop (o + l) b.
Proof.
  intros Hc Hb Hm b1. assert (length (take o b ++ slice p c m) = o + c)%nat as Hl.
  { rewrite length_app, length_take, length_slice; lia. }
  assert (b1 = (take o b ++ slice p c m) ++ drop (o + c) b) as -> by (unfold b1; by rewrite app_assoc).
  rewrite take_app_length' by done.
  replace (o + l)%nat with ((o + c) + (l - c))%nat by lia.
  rewrite drop_app_add', drop_drop by done. rewrite <- !app_assoc. f_equal.
  rewrite slice_app_assoc. by replace (c + (l - c))%nat with l by lia.
Qed.

(** One read inside the device: it moves on by what it stores in the second
    buffer, or gives nothing. *)
Lemma read_retry_contents k off len s :
  0 <= off -> 0 < len -> off + len <= zlen (fl_buf2 s) ->
  0 <= d_pos (fl_dev s) -> d_pos (fl_dev s) + len <= zlen (d_mem (fl_dev s)) ->
  wp (read_retry k off len) (fun cc s1 => fl_frame (fun _ _ => True) s s1 /\ cc <= len /\
    fl_buf s1 = fl_buf s /\ d_mem (fl_dev s1) = d_mem (fl_dev s) /\ fl_short s1 = fl_short s /\
    (reads_whole -> 1 <= cc) /\
    (1 <= cc -> d_pos (fl_dev s1) = d_pos (fl_dev s) + cc /\
      fl_buf2 s1 = take (Z.to_nat off) (fl_buf2 s) ++
        slice (Z.to_nat (d_pos (fl_dev s))) (Z.to_nat cc) (d_mem (fl_dev s)) ++
        drop (Z.to_nat (off + cc)) (fl_buf2 s))) s.
Proof.
  intros Ho Hl. revert s. induction k as [|k IH]; intros s Hb Hp Hm; cbn [read_retry]; wp_step; apply wp_dcall;
    intros [[n e] data] d Hd; destruct (read_inside _ _ _ _ _ _ Hd Hl Hp Hm) as (Hmem & Hdata & Hint);
    pose proof (fun Hw : reads_whole => Hw _ _ _ _ _ _ Hd Hl Hp Hm) as Hwhole;
    destruct (read_le _ _ _ _ _ _ Hd ltac:(lia)) as [Hn' Hlen];
    (destruct (Z.leb_spec 0 n) as [Hn|Hn]; cbn [orb when];
     [specialize (Hlen Hn); wp_step; wp_step; wp_step; wp_step;
      (rewrite mem_write_ok by (simpl; lia)); (eapply wp_of_option; [done|]); wp_step; wp_step;
      (split; [split; [done | done | simpl; rewrite !length_app, length_drop, length_take; zlia | done | done]|]);
      (do 4 (split; [done|])); (split; [done|]); intros H1; destruct (Hdata ltac:(lia)) as [Hs Hpos];
      split; [done|]; simpl; rewrite Hs at 1; do 3 f_equal; zlia|]).
  - destruct (negb e); [wp_step; wp_step|]; wp_step; (split; [by split|]);
      (split; [lia|]); (do 3 (split; [done|])); (split; [intros Hw; specialize (Hwhole Hw); lia | lia]).
  - destruct e; cbn [negb].
    + specialize (Hint Hn eq_refl). set (s1 := set_fl_dev d s).
      assert (d_pos (fl_dev s1) = d_pos (fl_dev s) /\ d_mem (fl_dev s1) = d_mem (fl_dev s)) as [Hp1 Hm1] by done.
      eapply wp_mono; [apply (IH s1); rewrite ?Hp1, ?Hm1; done|]. rewrite Hp1, Hm1.
      intros cc s2 (Hf & Hrest). split; [|exact Hrest]. etransitivity; [by apply (fl_frame_dev (fun _ _ => True))|]. exact Hf.
    + wp_step; wp_step; wp_step; (split; [by split|]);
      (split; [lia|]); (do 3 (split; [done|])); (split; [intros Hw; specialize (Hwhole Hw); lia | lia]).
Qed.

(** Reading inside the device fills the second buffer with its contents, or the
    result is not what was asked for. *)
Lemma full_read_contents fuel off len total s :
  (Z.to_nat len <= fuel)%nat -> 0 <= off -> 0 <= len -> 0 <= total -> off + len <= zlen (fl_buf2 s) ->
  0 <= d_pos (fl_dev s) -> d_pos (fl_dev s) + len <= zlen (d_mem (fl_dev s)) ->
  wp (full_read_loop fuel off len total) (fun r s' => fl_frame (fun _ _ => True) s s' /\
    fl_buf s' = fl_buf s /\ d_mem (fl_dev s') = d_mem (fl_dev s) /\ fl_short s' = fl_short s /\
    (reads_whole -> r = total + len) /\
    (r = total + len -> d_pos (fl_dev s') = d_pos (fl_dev s) + len /\
      fl_buf2 s' = take (Z.to_nat off) (fl_buf2 s) ++
        slice (Z.to_nat (d_pos (fl_dev s))) (Z.to_nat len) (d_mem (fl_dev s)) ++
        drop (Z.to_nat (off + len)) (fl_buf2 s))) s.
Proof.
  revert off len total s. induction fuel as [|fuel IH]; intros off len total s Hfuel Ho Hl Ht Hb Hp Hm; simpl;
    (destruct (Z.eqb_spec len 0) as [Hz|Hz];
     [wp_step; rewrite Hz, !Z.add_0_r; split_and!; try done; intros _; split; [done|];
      unfold slice; rewrite take_0; simpl; by rewrite take_drop|]); [lia|].
  wp_step. unfold safe_read. rewrite (proj2 (Z.eqb_neq _ _)) by done.
  eapply wp_mono; [apply read_retry_contents; lia|].
  intros cc s1 (Hf1 & Hcc & H1 & H2 & H3 & Hw & H4).
  destruct (Z.ltb_spec cc 0) as [Hneg|Hpos].
  { wp_step. do 4 (split; [done|]).
    split; [intros Hr; specialize (Hw Hr); lia | destruct (Z.gtb_spec total 0); lia]. }
  destruct (Z.eqb_spec cc 0) as [Hc0|Hc0].
  { wp_step. do 4 (split; [done|]). split; [intros Hr; specialize (Hw Hr); lia | lia]. }
  destruct (H4 ltac:(lia)) as [Hpos1 Hbuf1]. clear H4. wp_step. apply wp_ensure; [lia|].
  assert (zlen (fl_buf2 s1) = zlen (fl_buf2 s)) as Hl2.
  { unfold zlen. by rewrite (ff_buf2 _ _ _ Hf1). }
  eapply wp_mono; [apply IH; rewrite ?H2, ?Hpos1, ?Hl2; lia|]. intros r s2 (G0 & G1 & G2 & G3 & G4 & G5).
  split; [by etransitivity|]. rewrite G1, G2, G3, H1, H2, H3. do 3 (split; [done|]).
  replace (total + cc + (len - cc)) with (total + len) in * by lia. split; [done|].
  intros Hr. destruct (G5 Hr) as [G6 G7]. rewrite G6, G7, H2, Hpos1. split; [lia|].
  rewrite Hbuf1. replace (off + cc + (len - cc)) with (off + len) by lia.
  rewrite !Z2Nat.inj_add, Z2Nat.inj_sub by lia. apply splice_step; zlia.
Qed.

(** A block is compared with what the device holds, or a short read is told. *)
Lemma verify_contents count s :
  fl_wf s -> 0 < count <= BUFSIZE ->
  0 <= d_pos (fl_dev s) -> d_pos (fl_dev s) + count <= zlen (d_mem (fl_dev s)) ->
  wp (verify_block count) (fun r s' => fl_frame (fun _ _ => True) s s' /\
    d_mem (fl_dev s') = d_mem (fl_dev s) /\ (reads_whole -> fl_short s' = fl_short s) /\
    (fl_short s' = fl_short s -> d_pos (fl_dev s') = d_pos (fl_dev s) + count /\
      (r = 0 <-> take (Z.to_nat count) (fl_buf s) =
         slice (Z.to_nat (d_pos (fl_dev s))) (Z.to_nat count) (d_mem (fl_dev s))))) s.
Proof.
  intros [Hb Hb2] Hc Hp Hm. unfold verify_block, xread. rewrite (proj2 (Z.eqb_neq _ _)) by lia.
  wp_step. wp_step. unfold full_read. eapply wp_mono; [apply full_read_contents; lia|].
  intros n s' (Hf & H1 & H2 & H3 & Hw & H4). rewrite Z.add_0_l in *.
  destruct (Z.eqb_spec n count) as [Hn|Hn]; cbn [negb]; (apply wp_when; intros Hq; try discriminate Hq; clear Hq).
  - do 5 wp_step. destruct (H4 Hn) as [H5 H6].
    assert (length (slice (Z.to_nat (d_pos (fl_dev s))) (Z.to_nat count) (d_mem (fl_dev s))) = Z.to_nat count)
      as Hl by (rewrite length_slice; zlia).
    do 3 (split; [done|]). intros _. split; [done|]. rewrite H1, H6. simpl. rewrite take_app_length' by done.
    case_bool_decide; [done|]. split; [lia | done].
  - wp_step. do 5 wp_step. split; [|split; [done|split]].
    + etransitivity; [exact Hf|]. by split; simpl; lia || done.
    + intros Hr. specialize (Hw Hr). lia.
    + simpl. lia.
Qed.

Lemma slice_eq_split off c n (a b : bytes) :
  (c <= n)%nat -> (off + c <= length a)%nat -> (off + c <= length b)%nat ->
  slice off n a = slice off n b <->
  slice off c a = slice off c b /\ slice (off + c) (n - c) a = slice (off + c) (n - c) b.
Proof.
  intros Hc Ha Hb. replace n with (c + (n - c))%nat at 1 2 by lia. rewrite <- !slice_app.
  split; [|by intros [-> ->]]. intros Heq. apply app_inj_1 in Heq; [done|].
  by rewrite !length_slice by lia.
Qed.

(** The verifying pass finds the data on the device, or fails, or tells of a
    short read. *)
Lemma verify_pass_contents fuel data size off s :
  fl_wf s -> 0 <= off <= size -> size <= zlen data -> size <= zlen (d_mem (fl_dev s)) ->
  blocks_left (size - off) <= Z.of_nat fuel -> (off < size -> d_pos (fl_dev s) = off) ->
  wp (pass_loop fuel 1 data size off BUFSIZE) (fun r s' => fl_frame (fun _ _ => True) s s' /\
    (reads_whole -> fl_short s' = fl_short s) /\
    (fl_short s' = fl_short s -> d_mem (fl_dev s') = d_mem (fl_dev s) /\
      (r = 0 <-> slice (Z.to_nat off) (Z.to_nat (size - off)) (d_mem (fl_dev s)) =
         slice (Z.to_nat off) (Z.to_nat (size - off)) data))) s.
Proof.
  revert off s. induction fuel as [|fuel IH]; intros off s Hs Hd Hlen Hmem Hfuel Hpos; simpl;
    (destruct (Z.eqb_spec (size - off) 0) as [Hz|Hz];
     [wp_step; split; [done|]; split; [done|]; intros _; split; [done|]; rewrite Hz; by unfold slice; rewrite !take_0|]).
  { exfalso. unfold blocks_left, BUFSIZE in Hfuel.
    pose proof (Z.div_le_lower_bound (size - off + 65536 - 1) 65536 1 ltac:(lia) ltac:(lia)). lia. }
  set (count := if size - off <? BUFSIZE then size - off else BUFSIZE).
  assert (0 < count <= BUFSIZE /\ count <= size - off /\ (count < BUFSIZE -> count = size - off)) as (C1 & C2 & C3)
    by (unfold count, BUFSIZE; destruct (Z.ltb_spec (size - off) 65536); lia).
  clearbody count. wp_step. apply wp_copy_block; [done | lia.. |]. cbv zeta.
  set (block := slice (Z.to_nat off) (Z.to_nat count) data).
  assert (length block = Z.to_nat count) as Hbl by (unfold block; rewrite length_slice; zlia).
  set (s1 := set_fl_buf _ s). assert (fl_frame (fun _ _ => True) s s1) as Hf1
    by (apply copied_frame; [apply _ | done | done | lia]).
  assert (fl_wf s1) as Hs1 by by eapply fl_frame_wf.
  specialize (Hpos ltac:(lia)). wp_step.
  eapply wp_mono; [apply (verify_contents count s1); [done | lia | simpl; lia | simpl; lia]|].
  simpl. rewrite Hpos, take_app_length' by done. intros r s2 (Hf12 & M2 & W2 & K2).
  assert (fl_frame (fun _ _ => True) s s2) as Hf2 by (etransitivity; [exact Hf1 | exact Hf12]).
  assert (fl_wf s2) as Hs2 by by eapply (fl_frame_wf _ s1).
  pose proof (slice_eq_split (Z.to_nat off) (Z.to_nat count) (Z.to_nat (size - off)) (d_mem (fl_dev s)) data
    ltac:(zlia) ltac:(zlia) ltac:(zlia)) as Hsplit.
  replace (Z.to_nat off + Z.to_nat count)%nat with (Z.to_nat (off + count)) in Hsplit by lia.
  replace (Z.to_nat (size - off) - Z.to_nat count)%nat with (Z.to_nat (size - (off + count))) in Hsplit by lia.
  fold block in Hsplit. destruct (Z.eqb_spec r 0) as [Hr0|Hr0]; cbn [negb].
  2:{ wp_step. split; [done|]. split; [done|]. intros Hk. destruct (K2 Hk) as [_ Hr]. split; [done|].
      split; [done|]. intros [Heq _]%Hsplit. by symmetry in Heq; apply Hr in Heq. }
  destruct (Z.eq_dec count BUFSIZE) as [->|Hne].
  - assert (blocks_left (size - (off + BUFSIZE)) <= Z.of_nat fuel) as Hfuel2.
    { unfold blocks_left, BUFSIZE in *.
      replace (size - (off + 65536) + 65536 - 1) with (size - off + 65536 - 1 + (-1) * 65536) by lia.
      rewrite Z.div_add by lia. lia. }
    destruct (decide (fl_short s2 = fl_short s)) as [Hk2|Hk2].
    + destruct (K2 Hk2) as [P2 Hr]. apply Hr in Hr0.
      eapply wp_mono; [apply (IH (off + BUFSIZE) s2); try done; try lia; by rewrite M2|].
      rewrite M2, Hk2. intros r' s' (Hf' & W' & K'). split; [by etransitivity|]. split; [done|].
      intros Hk. destruct (K' Hk) as [M' Hr']. split; [done|]. rewrite Hr', Hsplit.
      split; [intros Ht; split; [symmetry; exact Hr0 | exact Ht] | intros [_ Ht]; exact Ht].
    + eapply wp_mono; [apply (pass_total (fun _ _ => True)); [done | lia | lia | done]|].
      intros r' s' [_ Hf']. split; [by etransitivity|].
      pose proof (ff_short _ _ _ Hf2). pose proof (ff_short _ _ _ Hf').
      split; [intros Hw; specialize (W2 Hw); lia | lia].
  - assert (size - (off + count) = 0) as Hend by lia.
    assert (wp (pass_loop fuel 1 data size (off + count) count) (fun r s' => r = 0 /\ s' = s2) s2) as Hp.
    { destruct fuel; simpl; rewrite Hend; by wp_step. }
    eapply wp_mono; [exact Hp|]. intros r' s' [-> ->]. split; [done|]. split; [done|].
    intros Hk. destruct (K2 Hk) as [_ Hr]. apply Hr in Hr0. split; [done|]. rewrite Hsplit, Hend.
    unfold slice at 2 3. rewrite !take_0.
    split; [intros _; split; [symmetry; exact Hr0 | reflexivity] | reflexivity].
Qed.

Definition same_size (d d' : dev) : Prop := zlen (d_mem d') = zlen (d_mem d).

#[export] Instance same_size_stable : Stable dev same_size.
Proof.
  split.
  - split; [done|]. intros d1 d2 d3. unfold same_size. congruence.
  - intros d a d' Hd. unfold same_size. by rewrite (info_contents _ _ _ Hd).
  - intros start len d a d'. apply erase_size.
  - intros d a d' Hd. unfold same_size. by rewrite (proj1 (seek_start _ _ _ Hd)).
  - intros bs d a d'. apply write_size.
  - intros c d a d'. apply read_size.
Qed.

Lemma verify_full_pass data size s :
  fl_wf s -> 0 <= size <= zlen data -> size <= zlen (d_mem (fl_dev s)) ->
  wp (pass 1 data size) (fun r s' => (fl_short s <= fl_short s')%nat /\
    (reads_whole -> fl_short s' = fl_short s) /\
    (fl_short s' = fl_short s -> d_mem (fl_dev s') = d_mem (fl_dev s) /\
      (r = 0 <-> take (Z.to_nat size) (d_mem (fl_dev s)) = take (Z.to_nat size) data))) s.
Proof.
  intros Hs Hd Hm. unfold pass. wp_step. apply wp_dcall. intros rc d Hseek.
  destruct (seek_start _ _ _ Hseek) as [Hmem Hpos].
  eapply wp_mono; [apply (verify_pass_contents _ data size 0); simpl; rewrite ?Hmem; [done | lia.. | |]|].
  - apply pass_fuel. lia.
  - intros _. done.
  - simpl. rewrite Hmem, Z.sub_0_r. intros r s' (Hf & Hrest). split; [exact (ff_short _ _ _ Hf) | exact Hrest].
Qed.

Lemma device_verified data size s :
  fl_wf s -> 0 <= size <= zlen data ->
  wp (flashcp_device data size) (fun r s' => r = 0 -> fl_short s' = fl_short s ->
    take (Z.to_nat size) (d_mem (fl_dev s')) = take (Z.to_nat size) data) s.
Proof.
  intros Hs Hd. unfold flashcp_device. wp_step. apply wp_dcall. intros [[rc msize] es] d Hinfo.
  destruct (Z.ltb_spec rc 0) as [|Hrc]; [by wp_step|].
  rewrite Z.gtb_ltb. destruct (Z.ltb_spec msize size) as [|Hfit]; [by wp_step|].
  pose proof (info_sane _ _ _ _ _ Hinfo Hrc) as Hes.
  rewrite (info_size _ _ _ _ _ Hinfo Hrc) in Hfit. rewrite <- (info_contents _ _ _ Hinfo) in Hfit.
  wp_step. apply wp_ensure; [by rewrite (proj2 (Z.eqb_neq _ _)) by lia|]. wp_step.
  eapply wp_mono; [apply (erase_total same_size)|]. intros r s1 [Hr Hf1].
  destruct (Z.eqb_spec r 0); cbn [negb]; [|by wp_step]. wp_step.
  assert (fl_wf s1) as Hs1 by (by eapply (fl_frame_wf _ _ _ Hf1)).
  eapply wp_mono; [apply (full_pass_total same_size); [exact Hs1 | done]|]. intros r2 s2 [Hr2 Hf2].
  destruct (Z.eqb_spec r2 0); cbn [negb]; [|by wp_step].
  eapply wp_mono; [apply verify_full_pass; [by eapply (fl_frame_wf _ _ _ Hf2) | done |]|].
  - destruct Hf1 as [Hd1 _ _ _ _], Hf2 as [Hd2 _ _ _ _]. unfold same_size in *. simpl in Hd1. lia.
  - intros r3 s3 (Hle & _ & Hr3) Hz Hk. pose proof (ff_short _ _ _ Hf1) as Hk1.
    pose proof (ff_short _ _ _ Hf2) as Hk2. simpl in Hk1.
    destruct (Hr3 ltac:(lia)) as [Hm Hiff]. rewrite Hm. by apply Hiff.
Qed.

(** C29. A success without a message is a success: on a device whose reads may
    fail, be interrupted or be short, but give only what it holds, when
    [flashcp_main] returns 0 and [xread] has printed no short read, the device
    holds the data from its start on, whatever erasing and writing did, failures
    the device did not report included. A short read does not make it fail, so
    0 alone says nothing: [unread_device_passes]. *)
Theorem flash_verified i data s :
  fl_wf s -> di_buff i = Some data -> 0 <= di_size i <= zlen data ->
  exists r s', flashcp_main (Some i) s = Some (r, s') /\
  (r = 0 -> fl_short s' = fl_short s ->
   take (Z.to_nat (di_size i)) (d_mem (fl_dev s')) = take (Z.to_nat (di_size i)) data).
Proof.
  intros Hs Hbuff Hd.
  enough (wp (flashcp_main (Some i)) (fun r s' => r = 0 -> fl_short s' = fl_short s ->
    take (Z.to_nat (di_size i)) (d_mem (fl_dev s')) = take (Z.to_nat (di_size i)) data) s) as Hwp.
  { apply wp_exec in Hwp as (r & s' & Hrun & Hr). by exists r, s'. }
  unfold flashcp_main. rewrite Hbuff. destruct (di_devicename i) as [name|]; [|by wp_step].
  destruct (Z.eqb_spec (di_size i) 0); [by wp_step|].
  unfold xopen. wp_step. wp_step. apply wp_dcall. intros fd d _.
  destruct (Z.leb_spec 0 fd); cbn [when].
  2:{ wp_step. wp_step. wp_step. rewrite (proj2 (Z.ltb_lt _ _)) by done. by wp_step. }
  wp_step. wp_step. wp_step. rewrite (proj2 (Z.ltb_ge _ _)) by done. wp_step.
  eapply wp_mono; [apply device_verified; [exact Hs | done]|]. intros r s1 Hr.
  unfold close. wp_step. wp_step. apply wp_dcall. intros rc d1 Hclose. wp_step. wp_step.
  intros Hz Hk. simpl in Hk |- *. rewrite (close_contents _ _ _ Hclose). by apply Hr.
Qed.
End Verified.

(** ** A device that works is programmed *)

(** A device that opens, erases what it is told to, gives at least one byte of
    each read inside it, and stores at least one byte of each write into an
    erased part; writing ones or zeros into a part
    that is not erased may leave anything. *)
Class MtdWorks (dev : Type) `{MtdContents dev} : Prop := {
  works_open d fd d' : d_open d = (fd, d') -> 0 <= fd /\ d_mem d' = d_mem d;
  works_info d rc size es d' : d_info d = (rc, size, es, d') -> 0 <= rc;
  works_read : reads_whole;
  works_erase start len d rc d' : d_erase start len d = (rc, d') ->
    0 <= start -> 0 <= len -> start + len <= zlen (d_mem d) ->
    0 <= rc /\ forall j, d_mem d' !! j =
      if decide (start <= Z.of_nat j < start + len) then Some xff else d_mem d !! j;
  works_write bs d n e d' : d_write bs d = (n, e, d') ->
    0 < zlen bs -> 0 <= d_pos d -> d_pos d + zlen bs <= zlen (d_mem d) ->
    1 <= n /\ d_pos d' = d_pos d + n /\
    (forall j, Z.of_nat j < d_pos d \/ d_pos d + n <= Z.of_nat j -> d_mem d' !! j = d_mem d !! j) /\
    (forall j, Z.of_nat j < n -> d_mem d !! (Z.to_nat (d_pos d) + j)%nat = Some xff ->
       d_mem d' !! (Z.to_nat (d_pos d) + j)%nat = bs !! j)
}.

Section Works.
Context {dev : Type} `{MtdWorks dev} `{!MtdSane dev}.
#[local] Open Scope c_scope.

Definition erased (a b : Z) (m : bytes) : Prop := forall j, a <= Z.of_nat j < b -> m !! j = Some xff.
Definition holds (data : bytes) (b : Z) (m : bytes) : Prop := forall j, Z.of_nat j < b -> m !! j = data !! j.

Lemma erase_works n start es s :
  0 <= start -> 0 < es -> start + Z.of_nat n * es <= zlen (d_mem (fl_dev s)) -> zlen (d_mem (fl_dev s)) < 2 ^ 32 ->
  erased 0 start (d_mem (fl_dev s)) ->
  wp (erase_loop n start es) (fun r s' => r = 0 /\ fl_frame same_size s s' /\
    erased 0 (start + Z.of_nat n * es) (d_mem (fl_dev s'))) s.
Proof.
  revert start s. induction n as [|n IH]; intros start s Hst Hes Hfit Hsize Her; simpl.
  { wp_step. split_and!; [done | reflexivity |]. intros j Hj. apply Her. lia. }
  assert (start + Z.of_nat (S n) * es = start + es + Z.of_nat n * es) as Hsum by lia.
  rewrite Hsum in Hfit. assert (0 <= Z.of_nat n * es) by (apply Z.mul_nonneg_nonneg; lia).
  wp_step. apply wp_dcall. intros rc d Hd.
  assert (start + es <= zlen (d_mem (fl_dev s))) as Hfit1 by lia.
  destruct (works_erase _ _ _ _ _ Hd Hst (Z.lt_le_incl _ _ Hes) Hfit1) as [Hrc Hm].
  pose proof (fl_frame_dev same_size d s (stable_erase _ _ _ _ _ Hd)) as Hf0.
  assert (zlen (d_mem d) = zlen (d_mem (fl_dev s))) as Hz by (by eapply erase_size).
  rewrite (proj2 (Z.ltb_ge rc 0)) by done. rewrite (wrap_small 32) by (unfold in_range; lia).
  eapply wp_mono; [apply (IH (start + es)); simpl; rewrite ?Hz; try lia|].
  - intros j Hj. rewrite Hm. destruct (decide _); [done|]. apply Her. lia.
  - intros r s' (Hr & Hf & He). split; [done|]. split; [by etransitivity|].
    by rewrite <- Hsum in He.
Qed.

(** What a whole write of [bs] at the position of [s] leaves. *)
Definition stored (bs : bytes) (s s' : flash dev) : Prop :=
  let p := d_pos (fl_dev s) in
  d_pos (fl_dev s') = p + zlen bs /\
  (forall j, Z.of_nat j < p \/ p + zlen bs <= Z.of_nat j ->
     d_mem (fl_dev s') !! j = d_mem (fl_dev s) !! j) /\
  (forall j, Z.of_nat j < zlen bs -> d_mem (fl_dev s) !! (Z.to_nat p + j)%nat = Some xff ->
     d_mem (fl_dev s') !! (Z.to_nat p + j)%nat = bs !! j).

Lemma full_write_works fuel bs total s :
  (length bs <= fuel)%nat -> 0 <= d_pos (fl_dev s) ->
  d_pos (fl_dev s) + zlen bs <= zlen (d_mem (fl_dev s)) ->
  wp (full_write_loop fuel bs total) (fun r s' => r = total + zlen bs /\ fl_frame same_size s s' /\ stored bs s s') s.
Proof.
  revert bs total s. induction fuel as [|fuel IH]; intros bs total s Hfuel Hp Hm; simpl;
    (destruct (Z.eqb_spec (zlen bs) 0) as [Hz|Hz];
     [wp_step; unfold stored; rewrite Hz; split_and!; [lia | reflexivity | lia | done | intros j Hj; lia]|]); [zlia|].
  assert (0 < zlen bs) as Hpos by zlia.
  assert (wp (safe_write bs) (fun cc s1 => 1 <= cc <= zlen bs /\ fl_frame same_size s s1 /\
    d_pos (fl_dev s1) = d_pos (fl_dev s) + cc /\
    (forall j, Z.of_nat j < d_pos (fl_dev s) \/ d_pos (fl_dev s) + cc <= Z.of_nat j ->
       d_mem (fl_dev s1) !! j = d_mem (fl_dev s) !! j) /\
    (forall j, Z.of_nat j < cc -> d_mem (fl_dev s) !! (Z.to_nat (d_pos (fl_dev s)) + j)%nat = Some xff ->
       d_mem (fl_dev s1) !! (Z.to_nat (d_pos (fl_dev s)) + j)%nat = bs !! j)) s) as Hwrite.
  { unfold safe_write. rewrite (proj2 (Z.eqb_neq _ _)) by done.
    destruct (Z.to_nat MAX_RETRY_CNT) as [|k]; simpl; wp_step; apply wp_dcall; intros [n e] d Hd;
      destruct (works_write _ _ _ _ _ Hd Hpos Hp Hm) as (Hn & W1 & W2 & W3);
      pose proof (write_le _ _ _ _ _ Hd) as Hle;
      pose proof (fl_frame_dev same_size d s (stable_write _ _ _ _ Hd)) as Hf0;
      rewrite (proj2 (Z.leb_le 0 n)) by lia; cbn [orb]; wp_step; split_and!; done || lia. }
  wp_step. eapply wp_mono; [exact Hwrite|]. clear Hwrite. intros cc s1 (Hcc & Hf & P1 & O1 & I1).
  rewrite (proj2 (Z.ltb_ge cc 0)), (proj2 (Z.eqb_neq cc 0)) by lia. wp_step. apply wp_ensure; [lia|].
  assert (zlen (d_mem (fl_dev s1)) = zlen (d_mem (fl_dev s))) as Hsz by apply Hf.
  assert (zlen (drop (Z.to_nat cc) bs) = zlen bs - cc) as Hdl by zlia.
  eapply wp_mono; [apply IH; rewrite ?P1, ?Hsz, ?Hdl; [zlia | lia | lia]|].
  intros r s2 (Hr & Hf2 & P2 & O2 & I2). rewrite P1, Hdl in *.
  split; [lia|]. split; [by etransitivity|]. split; [lia|]. split.
  - intros j Hj. rewrite O2, O1 by lia. done.
  - intros j Hj Hff. destruct (decide (Z.of_nat j < cc)) as [Hlt|Hge].
    + rewrite O2 by lia. by apply I1.
    + replace (Z.to_nat (d_pos (fl_dev s)) + j)%nat
        with (Z.to_nat (d_pos (fl_dev s) + cc) + (j - Z.to_nat cc))%nat by lia.
      rewrite I2; [| lia |].
      * rewrite lookup_drop. f_equal. lia.
      * rewrite O1 by lia. rewrite <- Hff. f_equal. lia.
Qed.
Lemma padded_lookup count buf j :
  0 <= count <= BUFSIZE -> zlen buf = BUFSIZE -> Z.of_nat j < count -> padded count buf !! j = buf !! j.
Proof.
  intros Hc Hb Hj. unfold padded. destruct (_ <? _); [|done].
  rewrite lookup_app_l by (rewrite length_take; zlia). rewrite lookup_take. case_decide; [done | lia].
Qed.

(** The writing pass stores the data and stays inside the erased part. *)
Lemma write_pass_works fuel data size off s :
  fl_wf s -> 0 <= off <= size -> size <= zlen data ->
  off + BUFSIZE * blocks_left (size - off) <= zlen (d_mem (fl_dev s)) ->
  blocks_left (size - off) <= Z.of_nat fuel -> (off < size -> d_pos (fl_dev s) = off) ->
  holds data off (d_mem (fl_dev s)) -> erased off size (d_mem (fl_dev s)) ->
  wp (pass_loop fuel 0 data size off BUFSIZE) (fun r s' => r = 0 /\ fl_frame same_size s s' /\
    holds data size (d_mem (fl_dev s'))) s.
Proof.
  revert off s. induction fuel as [|fuel IH]; intros off s Hs Hd Hlen Hmem Hfuel Hpos Hho Her; simpl;
    (destruct (Z.eqb_spec (size - off) 0) as [Hz|Hz];
     [wp_step; split_and!; [done | reflexivity | by replace size with off by lia]|]).
  { exfalso. unfold blocks_left, BUFSIZE in Hfuel.
    pose proof (Z.div_le_lower_bound (size - off + 65536 - 1) 65536 1 ltac:(lia) ltac:(lia)). lia. }
  assert (1 <= blocks_left (size - off)) as Hone.
  { unfold blocks_left, BUFSIZE. apply Z.div_le_lower_bound; lia. }
  assert (off + BUFSIZE <= zlen (d_mem (fl_dev s))) as Hroom by (unfold BUFSIZE in *; lia).
  set (count := if size - off <? BUFSIZE then size - off else BUFSIZE).
  assert (0 < count <= BUFSIZE /\ count <= size - off /\ (count < BUFSIZE -> count = size - off)) as (C1 & C2 & C3)
    by (unfold count, BUFSIZE; destruct (Z.ltb_spec (size - off) 65536); lia).
  clearbody count. wp_step. apply wp_copy_block; [done | lia.. |]. cbv zeta.
  set (block := slice (Z.to_nat off) (Z.to_nat count) data).
  assert (length block = Z.to_nat count) as Hbl by (unfold block; rewrite length_slice; zlia).
  set (s1 := set_fl_buf _ s). assert (fl_frame same_size s s1) as Hf1 by (apply copied_frame; [apply _ | done | done | lia]).
  assert (fl_wf s1) as Hs1 by (by eapply (fl_frame_wf same_size)).
  specialize (Hpos ltac:(lia)). wp_step. apply wp_write_block; [done | lia|].
  pose proof (padded_length count (fl_buf s1) ltac:(lia) (proj1 Hs1)) as Hpl.
  set (bs := padded count (fl_buf s1)) in *. unfold full_write.
  assert (forall j, Z.of_nat j < count -> bs !! j = data !! (Z.to_nat off + j)%nat) as Hbs.
  { intros j Hj. unfold bs. rewrite padded_lookup by (try apply Hs1; lia). unfold s1. simpl.
    rewrite lookup_app_l by (rewrite Hbl; lia).
    unfold block, slice. rewrite lookup_take, lookup_drop. case_decide; [done | lia]. }
  assert (fl_frame same_size s1 (set_fl_buf bs s1)) as Hfb.
  { split; [done | | done | done | done]. cbn [fl_buf set_fl_buf]. destruct Hs1 as [Hs1 _]. unfold zlen in *. lia. }
  eapply wp_mono; [apply full_write_works; [done | simpl; lia | simpl; lia]|].
  intros r s2 (-> & Hf2 & P2 & O2 & I2). simpl in P2, O2, I2. rewrite Hpl, Hpos in *.
  rewrite Z.add_0_l, Z.eqb_refl. cbn [Z.eqb negb].
  assert (fl_frame same_size s s2) as Hf.
  { etransitivity; [exact Hf1|]. by etransitivity. }
  assert (holds data (off + count) (d_mem (fl_dev s2))) as Hho2.
  { intros j Hj. destruct (decide (Z.of_nat j < off)) as [Hlt|Hge].
    - rewrite O2 by lia. by apply Hho.
    - replace j with (Z.to_nat off + (j - Z.to_nat off))%nat by lia.
      rewrite I2; [apply Hbs; lia | lia | apply Her; lia]. }
  destruct (Z.eq_dec count BUFSIZE) as [->|Hne].
  - assert (blocks_left (size - (off + BUFSIZE)) = blocks_left (size - off) - 1) as Hnext.
    { unfold blocks_left, BUFSIZE.
      replace (size - (off + 65536) + 65536 - 1) with (size - off + 65536 - 1 + (-1) * 65536) by lia.
      rewrite Z.div_add by lia. lia. }
    pose proof (ff_dev _ _ _ Hf) as Hdev. unfold same_size in Hdev.
    eapply wp_mono; [apply (IH (off + BUFSIZE) s2); try (unfold BUFSIZE in *; lia)|].
    + by eapply (fl_frame_wf same_size).
    + intros j Hj. apply Hho2. lia.
    + intros j Hj. rewrite O2 by lia. apply Her. unfold BUFSIZE in *. lia.
    + intros r' s' (-> & Hf' & Hho'). split_and!; [done | by etransitivity | done].
  - assert (size - (off + count) = 0) as Hend by lia.
    assert (wp (pass_loop fuel 0 data size (off + count) count) (fun r s' => r = 0 /\ s' = s2) s2) as Hp.
    { destruct fuel; simpl; rewrite Hend; by wp_step. }
    eapply wp_mono; [exact Hp|]. intros r' s' [-> ->]. split_and!; [done | done |].
    by replace size with (off + count) by lia.
Qed.
Lemma write_full_pass data size s :
  fl_wf s -> 0 <= size <= zlen data -> BUFSIZE * blocks_left size <= zlen (d_mem (fl_dev s)) ->
  erased 0 size (d_mem (fl_dev s)) ->
  wp (pass 0 data size) (fun r s' => r = 0 /\ fl_frame same_size s s' /\ holds data size (d_mem (fl_dev s'))) s.
Proof.
  intros Hs Hd Hm Her. unfold pass. wp_step. apply wp_dcall. intros rc d Hseek.
  destruct (seek_start _ _ _ Hseek) as [Hmem Hpos].
  pose proof (fl_frame_dev same_size d s (stable_seek _ _ _ Hseek)) as Hf0.
  eapply wp_mono; [apply (write_pass_works _ data size 0); simpl; rewrite ?Hmem, ?Z.sub_0_r; try done; try lia|].
  - rewrite <- (Z.sub_0_r size) at 1. apply pass_fuel. lia.
  - intros j Hj. lia.
  - intros r s' (-> & Hf & Hho). split_and!; [done | by etransitivity | done].
Qed.

Lemma holds_take data size m :
  0 <= size <= zlen data -> size <= zlen m -> holds data size m ->
  take (Z.to_nat size) m = take (Z.to_nat size) data.
Proof.
  intros Hd Hm Hho. apply list_eq. intros j. rewrite !lookup_take. case_decide; [|done]. apply Hho. lia.
Qed.

Lemma device_works data size s :
  fl_wf s -> 0 <= size <= zlen data ->
  (forall rc msize es d, d_info (fl_dev s) = (rc, msize, es, d) ->
     msize < 2 ^ 32 /\ size + es <= 2 ^ 32 /\ (size + es - 1) / es * es <= msize /\
     BUFSIZE * blocks_left size <= msize) ->
  wp (flashcp_device data size) (fun r s' => r = 0 /\
    take (Z.to_nat size) (d_mem (fl_dev s')) = take (Z.to_nat size) data) s.
Proof.
  intros Hs Hd Hfits. unfold flashcp_device. wp_step. apply wp_dcall. intros [[rc msize] es] d Hinfo.
  destruct (Hfits _ _ _ _ Hinfo) as (Hms & Hsum & Hcover & Hroom). clear Hfits.
  pose proof (works_info _ _ _ _ _ Hinfo) as Hrc. rewrite (proj2 (Z.ltb_ge rc 0)) by done.
  pose proof (info_sane _ _ _ _ _ Hinfo Hrc) as Hes.
  assert (size <= (size + es - 1) / es * es) as Hle.
  { pose proof (Z.div_mod (size + es - 1) es ltac:(lia)). pose proof (Z.mod_pos_bound (size + es - 1) es Hes). lia. }
  rewrite Z.gtb_ltb, (proj2 (Z.ltb_ge msize size)) by lia.
  pose proof (info_size _ _ _ _ _ Hinfo Hrc) as Hsz. rewrite <- (info_contents _ _ _ Hinfo) in Hsz.
  wp_step. apply wp_ensure; [by rewrite (proj2 (Z.eqb_neq _ _)) by lia|].
  rewrite (wrap_small 32) by (unfold in_range; lia). wp_step.
  assert (0 <= (size + es - 1) / es) by (apply Z.div_pos; lia).
  eapply wp_mono; [apply erase_works; rewrite ?Z2Nat.id by done; simpl; try lia; intros j Hj; lia|].
  intros r s1 (-> & Hf1 & Her). cbn [Z.eqb negb]. rewrite Z2Nat.id, Z.add_0_l in Her by done. wp_step.
  pose proof (ff_dev _ _ _ Hf1) as D1. unfold same_size in D1. simpl in D1.
  assert (fl_wf s1) as Hs1 by (by eapply (fl_frame_wf _ _ _ Hf1)).
  eapply wp_mono; [apply write_full_pass; [done | done | lia | intros j Hj; apply Her; lia]|].
  intros r s2 (-> & Hf2 & Hho). cbn [Z.eqb negb].
  pose proof (ff_dev _ _ _ Hf2) as D2. unfold same_size in D2.
  eapply wp_mono; [apply verify_full_pass; [by eapply (fl_frame_wf _ _ _ Hf2) | done | lia]|].
  intros r s3 (_ & Hk & Hr). destruct (Hr (Hk works_read)) as [Hm Hr0]. rewrite Hm.
  assert (size <= zlen (d_mem (fl_dev s2))) as Hs2 by (rewrite D2, D1, <- Hsz; lia).
  pose proof (holds_take data size (d_mem (fl_dev s2)) Hd Hs2 Hho) as Ht.
  split; [by apply Hr0 | exact Ht].
Qed.

(** C28. A device that works is programmed: when the data, rounded up to erase
    blocks and to blocks of 64 KiB, fit on the device, [flashcp_main] returns
    0 and leaves the data at the start of the device, however the device cuts
    the writes and reads it accepts. *)
Theorem flash_programmed i data s :
  fl_wf s -> is_Some (di_devicename i) -> di_buff i = Some data -> 0 < di_size i <= zlen data ->
  (forall fd d rc msize es d', d_open (fl_dev s) = (fd, d) -> d_info d = (rc, msize, es, d') ->
     msize < 2 ^ 32 /\ di_size i + es <= 2 ^ 32 /\ (di_size i + es - 1) / es * es <= msize /\
     BUFSIZE * blocks_left (di_size i) <= msize) ->
  exists s', flashcp_main (Some i) s = Some (0, s') /\
  take (Z.to_nat (di_size i)) (d_mem (fl_dev s')) = take (Z.to_nat (di_size i)) data.
Proof.
  intros Hs [name Hname] Hbuff Hd Hfits.
  enough (wp (flashcp_main (Some i)) (fun r s' => r = 0 /\
    take (Z.to_nat (di_size i)) (d_mem (fl_dev s')) = take (Z.to_nat (di_size i)) data) s) as Hwp.
  { apply wp_exec in Hwp as (r & s' & Hrun & -> & Hm). by exists s'. }
  unfold flashcp_main. rewrite Hname, Hbuff, (proj2 (Z.eqb_neq _ _)) by lia.
  unfold xopen. wp_step. wp_step. apply wp_dcall. intros fd d Hopen.
  destruct (works_open _ _ _ Hopen) as [Hfd _]. rewrite (proj2 (Z.leb_le 0 fd)) by done. cbn [when].
  wp_step. wp_step. wp_step. rewrite (proj2 (Z.ltb_ge fd 0)) by done. wp_step.
  eapply wp_mono; [apply device_works; [exact Hs | lia | intros rc msize es d'; simpl; by apply (Hfits fd)]|].
  intros r s1 [-> Hm]. unfold close. wp_step. wp_step. apply wp_dcall. intros rc d1 Hclose. wp_step. wp_step.
  split; [done|]. simpl. by rewrite (close_contents _ _ _ Hclose).
Qed.
End Works.

(** ** A device in memory *)

Record ram := mk_ram { ram_mem : bytes; ram_pos : Z }.

#[export] Instance ram_mtd : Mtd ram := {|
  d_open d := (3, d);
  d_info d := (0, zlen (ram_mem d), 65536, d);
  d_erase start len d :=
    match mem_write start (replicate (Z.to_nat len) xff) (ram_mem d) with
    | Some m => (0, mk_ram m (ram_pos d))
    | None => (-1, d)
    end;
  d_seek d := (0, mk_ram (ram_mem d) 0);
  d_write bs d :=
    match mem_write (ram_pos d) bs (ram_mem d) with
    | Some m => (zlen bs, false, mk_ram m (ram_pos d + zlen bs))
    | None => (-1, false, d)
    end;
  d_read c d :=
    match mem_read (ram_pos d) c (ram_mem d) with
    | Some data => (zlen data, false, data, mk_ram (ram_mem d) (ram_pos d + zlen data))
    | None => (-1, false, [], d)
    end;
  d_close d := (0, d)
|}.

Lemma mem_read_length off n src data : mem_read off n src = Some data -> zlen data = n.
Proof.
  unfold mem_read. destruct (_ && _)%bool eqn:E; [|done]. intros [= <-].
  apply andb_true_iff in E as [[E1%Z.leb_le E2%Z.leb_le]%andb_true_iff E3%Z.leb_le].
  unfold zlen. rewrite length_slice; zlia.
Qed.

#[export] Instance ram_sane : MtdSane ram.
Proof.
  split.
  - intros bs d n e d'. simpl. case_match; intros [= <- <- <-]; [lia | zlia].
  - intros c d n e data d' Hr Hc. simpl in Hr. destruct (mem_read _ _ _) as [x|] eqn:E;
      injection Hr as <- <- <- <-; [|lia].
    apply mem_read_length in E. lia.
  - intros d rc size es d'. simpl. intros [= <- <- <- <-]. lia.
Qed.

#[export] Instance ram_contents : MtdContents ram.
Proof.
  refine {| d_mem := ram_mem; d_pos := ram_pos |}.
  - intros d rc d' [= <- <-]. done.
  - intros c d n e data d' Hr Hc Hp Hm. simpl in Hr. rewrite mem_read_ok in Hr by lia.
    injection Hr as <- <- <- <-.
    assert (zlen (slice (Z.to_nat (ram_pos d)) (Z.to_nat c) (ram_mem d)) = c) as Hl
      by (unfold zlen; rewrite length_slice; zlia).
    rewrite Hl. split; [done|]. split; [by intros _ | lia].
  - intros d rc size es d' [= <- <- <- <-] _. done.
  - intros d a d' [= <- <-]. done.
  - intros bs d a d'. simpl. destruct (mem_write _ _ _) as [m|] eqn:E; intros [= <- <-]; [|done].
    apply mem_write_length in E. unfold zlen. simpl. by rewrite E.
  - intros c d a d'. simpl. case_match; by intros [= <- <-].
  - intros start len d rc d'. simpl. destruct (mem_write _ _ _) as [m|] eqn:E; intros [= <- <-]; [|done].
    apply mem_write_length in E. unfold zlen. simpl. by rewrite E.
  - intros d rc d' [= <- <-]. done.
Defined.

Definition blank_buffer : bytes := replicate (Z.to_nat BUFSIZE) x00.
Definition blank_flash : flash ram := mk_flash (mk_ram (replicate (Z.to_nat (2 * BUFSIZE)) x00) 0) blank_buffer blank_buffer 0 0.
Definition small_image : device_info_t := mk_device_info (Some []) 3 (Some [x01; x02; x03]).

Lemma blank_flash_wf : fl_wf blank_flash.
Proof. split; by vm_compute. Qed.

Lemma small_image_size : 0 <= 3 <= zlen [x01; x02; x03].
Proof. by vm_compute. Qed.

Lemma flash_verified_witness :
  exists s', flashcp_main (Some small_image) blank_flash = Some (0, s') /\ fl_short s' = 0%nat /\
    take 3 (d_mem (fl_dev s')) = [x01; x02; x03].
Proof.
  destruct (flash_verified small_image [x01; x02; x03] blank_flash blank_flash_wf eq_refl small_image_size)
    as (r & s' & Hrun & Hr).
  assert ((fun p => (p.1, fl_short p.2)) <$> flashcp_main (Some small_image) blank_flash = Some (0, 0%nat)) as H0
    by (vm_compute; reflexivity).
  rewrite Hrun in H0. injection H0 as H0 Hk. subst r.
  exists s'. split; [exact Hrun|]. split; [exact Hk | exact (Hr eq_refl Hk)].
Defined.

(** A device that interrupts every transfer for ever. *)
Inductive stubborn := Stubborn.

#[export] Instance stubborn_mtd : Mtd stubborn := {|
  d_open d := (3, d); d_info d := (0, 65536, 65536, d); d_erase _ _ d := (0, d); d_seek d := (0, d);
  d_write _ d := (-1, true, d); d_read _ d := (-1, true, [], d); d_close d := (0, d)
|}.

#[export] Instance stubborn_sane : MtdSane stubborn.
Proof.
  split.
  - intros bs d n e d' Hd. simplify_eq/=. zlia.
  - intros c d n e data d' Hd Hc. simplify_eq/=. lia.
  - intros d rc size es d' Hd _. by simplify_eq/=.
Qed.

Lemma flashcp_ends_witness :
  exists r s', flashcp_main (Some small_image) (mk_flash Stubborn blank_buffer blank_buffer 0 0) = Some (r, s') /\
    -5 <= r <= 0 /\ fl_open s' = 0.
Proof.
  destruct (flashcp_ends (Some small_image) (mk_flash Stubborn blank_buffer blank_buffer 0 0) blank_flash_wf)
    as (r & s' & Hrun & Hr & Ho & _).
  - intros i data [= <-] [= <-]. exact small_image_size.
  - exists r, s'. split; [exact Hrun|]. split; [exact Hr | exact Ho].
Defined.

(** A device that stores nothing and from which nothing can be read. *)
Inductive dead := Dead.

#[export] Instance dead_mtd : Mtd dead := {|
  d_open d := (3, d); d_info d := (0, 65536, 65536, d); d_erase _ _ d := (0, d); d_seek d := (0, d);
  d_write bs d := (zlen bs, false, d); d_read _ d := (0, false, [], d); d_close d := (0, d)
|}.

(** A short read is not an error for the verification: when the second buffer
    still holds the image of an earlier call, a device from which not a byte
    can be read passes, with one message. *)
Example unread_device_passes :
  (fun p => (p.1, fl_short p.2)) <$> flashcp_main (Some small_image)
    (mk_flash Dead blank_buffer ([x01; x02; x03] ++ drop 3 blank_buffer) 0 0) = Some (0, 1%nat).
Proof. vm_compute. reflexivity. Qed.

#[export] Instance ram_works : MtdWorks ram.
Proof.
  split.
  - intros d fd d' Hd. by simplify_eq/=.
  - intros d rc size es d' Hd. by simplify_eq/=.
  - intros c d n e data d' Hr Hc Hp Hm. simpl in Hr, Hp, Hm. rewrite mem_read_ok in Hr by lia.
    injection Hr as <- _ _ _. unfold zlen. rewrite length_slice; zlia.
  - intros start len d rc d' Hd Hst Hl Hfit. simpl in Hd, Hfit.
    rewrite mem_write_ok in Hd by (rewrite ?length_replicate; zlia). injection Hd as <- <-.
    split; [lia|]. intros j. simpl. rewrite length_replicate. case_decide.
    + rewrite lookup_app_r, length_take, Nat.min_l by zlia.
      rewrite lookup_app_l by (rewrite length_replicate; lia). apply lookup_replicate. split; [done | lia].
    + destruct (decide (Z.of_nat j < start)).
      * rewrite lookup_app_l by zlia. rewrite lookup_take. case_decide; [done | lia].
      * rewrite lookup_app_r, length_take, Nat.min_l by zlia.
        rewrite lookup_app_r, length_replicate, lookup_drop by (rewrite length_replicate; lia). f_equal. lia.
  - intros bs d n e d' Hd Hpos Hp Hm. simpl in Hd, Hp, Hm.
    rewrite mem_write_ok in Hd by lia. injection Hd as <- <- <-. simpl. split_and!; [lia | done | |].
    + intros j [Hj|Hj].
      * rewrite lookup_app_l by zlia. rewrite lookup_take. case_decide; [done | lia].
      * rewrite lookup_app_r, length_take, Nat.min_l by zlia.
        rewrite lookup_app_r, lookup_drop by zlia. f_equal. zlia.
    + intros j Hj _. rewrite lookup_app_r, length_take, Nat.min_l by zlia.
      rewrite lookup_app_l by zlia. f_equal. lia.
Qed.

Lemma small_image_fits m pos b1 b2 n k :
  zlen m = 131072 -> forall fd d rc msize es d',
  d_open (fl_dev (mk_flash (mk_ram m pos) b1 b2 n k)) = (fd, d) -> d_info d = (rc, msize, es, d') ->
  msize < 2 ^ 32 /\ di_size small_image + es <= 2 ^ 32 /\
  (di_size small_image + es - 1) / es * es <= msize /\ BUFSIZE * blocks_left (di_size small_image) <= msize.
Proof.
  intros Hm fd d rc msize es d' Ho Hi. simplify_eq/=. rewrite Hm.
  split_and!; vm_compute; first [reflexivity | discriminate].
Qed.

Lemma blank_flash_size : zlen (replicate (Z.to_nat (2 * BUFSIZE)) x00) = 131072.
Proof. vm_compute. reflexivity. Qed.

Lemma flash_programmed_witness :
  exists s', flashcp_main (Some small_image) blank_flash = Some (0, s') /\
    take 3 (d_mem (fl_dev s')) = [x01; x02; x03].
Proof.
  destruct (flash_programmed small_image [x01; x02; x03] blank_flash blank_flash_wf
    (mk_is_Some (di_devicename small_image) [] eq_refl) eq_refl
    (conj eq_refl (proj2 small_image_size)) (small_image_fits _ _ _ _ _ _ blank_flash_size)) as (s' & Hrun & Hm).
  exists s'. split; [exact Hrun | exact Hm].
Defined.
