(* ===== verification/Pps.v ===== *)
(** * The second pulse: the interrupt driver and the thread that waits for it
    ([src/zmuav_pl2ps_irq.c]; [src/main18.c], [pps_irq_thread]).

    The driver runs in the kernel: its interrupt handler may interrupt its
    [poll] between any two atomic accesses, so [poll] is also given as two
    steps.  What the kernel answers to the calls of [probe] is an input. *)
From S2P Require Import Prelude World Upload Broadcast Ports.
From Stdlib Require Import (notations) String.

(** ** Constants of the driver and of the target *)

Definition POLLIN : Z := 0x1.
Definition POLLRDNORM : Z := 0x40.
Definition EINTR : Z := 4.
Definition EFAULT : Z := 14.
Definition ENOTTY : Z := 25.
Definition ZMUAV_PL2PS_IRQ_IOCTL_MAGIC : Z := 0x43.
Definition ZMUAV_PL2PS_IRQ_NUM_IOCTLS : Z := 2.

(** The encoding of an [ioctl] command: direction, size, type, number. *)
Definition IOC (dir type nr size : Z) : Z :=
  Z.lor (Z.shiftl dir 30) (Z.lor (Z.shiftl size 16) (Z.lor (Z.shiftl type 8) nr)).
Definition IOC_TYPE (cmd : Z) : Z := Z.land (Z.shiftr cmd 8) 0xff.
Definition IOC_NR (cmd : Z) : Z := Z.land cmd 0xff.
Definition ZMUAV_PL2PS_IRQ_GET_IRQ_COUNT : Z := IOC 2 ZMUAV_PL2PS_IRQ_IOCTL_MAGIC 0 4.
Definition ZMUAV_PL2PS_IRQ_CLEAN_IRQ_COUNT : Z := IOC 1 ZMUAV_PL2PS_IRQ_IOCTL_MAGIC 1 4.

(** ** The device *)

Record zmuav_pl2ps_irq := mk_irq { irq_count : Z; irq_occurred : Z }.

(** The two atomic accesses of [poll], and [poll] as a whole. *)
Definition poll_read (lp : zmuav_pl2ps_irq) : bool := negb (irq_occurred lp =? 0).
Definition poll_clear (lp : zmuav_pl2ps_irq) : zmuav_pl2ps_irq := mk_irq (irq_count lp) 0.

Definition zmuav_pl2ps_irq_poll (lp : zmuav_pl2ps_irq) : Z * zmuav_pl2ps_irq :=
  if poll_read lp then (Z.lor POLLIN POLLRDNORM, poll_clear lp) else (0, lp).

(** The two atomic accesses of the handler in one step: it raises the count,
    which [poll] does not look at, and then the flag, which [ioctl] does not. *)
Definition zmuav_pl2ps_irq_irq (lp : zmuav_pl2ps_irq) : zmuav_pl2ps_irq :=
  mk_irq (u32 (irq_count lp + 1)) 1.

(** The result, what is copied to the user, and the device; [copy_ok] tells
    whether the user's memory can be written. *)
Definition zmuav_pl2ps_irq_ioctl (copy_ok : bool) (cmd : Z) (lp : zmuav_pl2ps_irq)
    : Z * option Z * zmuav_pl2ps_irq :=
  if negb (IOC_TYPE cmd =? ZMUAV_PL2PS_IRQ_IOCTL_MAGIC) then (- ENOTTY, None, lp)
  else if IOC_NR cmd >=? ZMUAV_PL2PS_IRQ_NUM_IOCTLS then (- ENOTTY, None, lp)
  else if cmd =? ZMUAV_PL2PS_IRQ_GET_IRQ_COUNT then
    if copy_ok then (0, Some (irq_count lp), lp) else (- EFAULT, None, lp)
  else if cmd =? ZMUAV_PL2PS_IRQ_CLEAN_IRQ_COUNT then (0, None, mk_irq 0 (irq_occurred lp))
  else (- ENOTTY, None, lp).

(** ** An open file of the device *)

(** [f->private_data] of an open file, a pointer to the driver's data or null,
    and that data. *)
Record irq_file := mk_irq_file { private_data : bool; if_device : zmuav_pl2ps_irq }.

Inductive file_call := FilePoll | FileIoctl (copy_ok : bool) (cmd : Z).

Section File.
#[local] Open Scope c_scope.

Definition zmuav_pl2ps_irq_open : M irq_file Z :=
  modify (fun f => mk_irq_file true (if_device f)) ;; ret 0.

Definition zmuav_pl2ps_irq_close : M irq_file Z :=
  modify (fun f => mk_irq_file false (if_device f)) ;; ret 0.

(** An operation on the device that [private_data] points to. *)
Definition on_device {A} (op : zmuav_pl2ps_irq -> A * zmuav_pl2ps_irq) : M irq_file A := fun f =>
  if private_data f then let '(a, lp) := op (if_device f) in Some (a, mk_irq_file true lp) else None.

(** The table [fops]: the result, and what is copied to the user. *)
Definition fops (c : file_call) : M irq_file (Z * option Z) :=
  match c with
  | FilePoll => let* mask := on_device zmuav_pl2ps_irq_poll in ret (mask, None)
  | FileIoctl copy_ok cmd => on_device (zmuav_pl2ps_irq_ioctl copy_ok cmd)
  end.

Fixpoint file_calls (cs : list file_call) : M irq_file (list (Z * option Z)) :=
  match cs with
  | [] => ret []
  | c :: cs' => let* r := fops c in let* rs := file_calls cs' in ret (r :: rs)
  end.

(** What the kernel does with a file: it opens it, passes the calls on, and
    releases it after the last. *)
Definition file_session (cs : list file_call) : M irq_file (list (Z * option Z)) :=
  let* _ := zmuav_pl2ps_irq_open in
  let* rs := file_calls cs in
  let* _ := zmuav_pl2ps_irq_close in
  ret rs.
End File.

(** ** Probing and removing *)

Inductive resource := RClass | RDriver | RIrq | RRegion | RDevice | RCdev.

#[export] Instance resource_eq_dec : EqDecision resource.
Proof. solve_decision. Defined.

(** The resources the driver holds, and whether the platform device and the
    character device point to the driver's data. *)
Record kernel := mk_kernel { k_held : list resource; k_dev_data : bool; k_char_data : bool }.

(** What the kernel answers while a device is probed; a device pointer is the
    signed value, [IS_ERR] the range of the error codes. *)
Record probe_answers := mk_answers {
  pa_kmalloc : bool; pa_get_irq : Z; pa_request_irq : Z; pa_alloc_region : Z;
  pa_device : Z; pa_cdev_add : Z
}.

Definition IS_ERR (p : Z) : bool := (-4095 <=? p) && (p <? 0).

Section DriverCode.
#[local] Open Scope c_scope.

Definition acquire (r : resource) : M kernel unit :=
  modify (fun k => mk_kernel (r :: k_held k) (k_dev_data k) (k_char_data k)).

(** Releasing what is not held, or not the latest, is stuck. *)
Definition release (r : resource) : M kernel unit := fun k =>
  match k_held k with
  | r' :: held => if decide (r' = r) then Some (tt, mk_kernel held (k_dev_data k) (k_char_data k)) else None
  | [] => None
  end.

Definition dev_set_drvdata (b : bool) : M kernel unit :=
  modify (fun k => mk_kernel (k_held k) b (k_char_data k)).
Definition char_set_drvdata (b : bool) : M kernel unit :=
  modify (fun k => mk_kernel (k_held k) (k_dev_data k) b).

(** The labels of [probe]; each falls through to the next. *)
Definition err_initial (rc : Z) : M kernel Z := dev_set_drvdata false ;; ret rc.
Definition err_irq (rc : Z) : M kernel Z := release RIrq ;; err_initial rc.
Definition err_chrdev_region (rc : Z) : M kernel Z := release RRegion ;; err_irq rc.
Definition err_dev (rc : Z) : M kernel Z := release RDevice ;; err_chrdev_region rc.

Definition zmuav_pl2ps_irq_probe (a : probe_answers) : M kernel Z :=
  if negb (pa_kmalloc a) then ret (- ENOMEM) else
  dev_set_drvdata true ;;
  if pa_get_irq a <? 0 then err_initial (pa_get_irq a) else
  if negb (pa_request_irq a =? 0) then err_initial (pa_request_irq a) else
  acquire RIrq ;;
  if pa_alloc_region a <? 0 then err_irq (pa_alloc_region a) else
  acquire RRegion ;;
  if IS_ERR (pa_device a) then err_chrdev_region (pa_device a) else
  acquire RDevice ;;
  if pa_cdev_add a <? 0 then err_dev (pa_cdev_add a) else
  acquire RCdev ;;
  char_set_drvdata true ;;
  ret 0.

Definition zmuav_pl2ps_irq_remove : M kernel Z :=
  release RCdev ;;
  char_set_drvdata false ;;
  release RDevice ;;
  release RRegion ;;
  release RIrq ;;
  dev_set_drvdata false ;;
  ret 0.

Definition zmuav_pl2ps_irq_init (class register_rc : Z) : M kernel Z :=
  if IS_ERR class then ret class else
  acquire RClass ;;
  if register_rc =? 0 then acquire RDriver ;; ret 0 else ret register_rc.

Definition zmuav_pl2ps_irq_exit : M kernel unit := release RDriver ;; release RClass.
End DriverCode.

(** ** The thread that waits for the pulse *)

(** The outcome of a [poll]: its result, whether a failure is an interruption,
    and the events of the descriptor. *)
Record poll_answer := mk_poll { po_ret : Z; po_eintr : bool; po_revents : Z }.

Section PpsThread.
Context `{OS}.
#[local] Open Scope c_scope.

Definition pulse_turn (fd : Z) (a : poll_answer) : M world unit :=
  when (negb (Z.land (po_revents a) (Z.lor POLLIN POLLRDNORM) =? 0))
    (let* _ := sys (SysIoctlIrqCount fd) in
     process_broadcast_pps).

(** [while (running)]: the outcomes of [poll] are an input; the list ends when
    [running] is cleared. *)
Fixpoint pps_loop (fd : Z) (answers : list poll_answer) : M world unit :=
  match answers with
  | [] => ret tt
  | a :: answers' =>
    if po_ret a =? 0 then pps_loop fd answers' else
    if po_ret a <? 0 then
      if po_eintr a then pps_loop fd answers' else ret tt
    else
      pulse_turn fd a ;; pps_loop fd answers'
  end.

Definition pps_irq_thread (answers : list poll_answer) : M world unit :=
  let* fd := sys SysOpenPps in
  if fd <? 0 then
    send_event EVENT_LEVEL_ERROR EVENT_CAN_INIT_FAILED (str "PPS irq device open failed")
  else
    pps_loop fd answers ;;
    let* _ := sys (SysClose fd) in ret tt.
End PpsThread.

(** ** No pulse is lost between the driver and its reader *)

(** What happens at the device, the latest first: an interrupt, the end of a
    [poll] that reports readiness or not, a reading and a reset of the count. *)
Inductive irq_event := EvInterrupt | EvReady | EvEmpty | EvClean.

(** The reader is outside [poll], or between its two accesses, where it has
    seen the flag set. *)
Inductive irq_run : list irq_event -> bool -> zmuav_pl2ps_irq -> Prop :=
  | RunProbed : irq_run [] false (mk_irq 0 0)
  | RunInterrupt tr polling lp :
      irq_run tr polling lp -> irq_run (EvInterrupt :: tr) polling (zmuav_pl2ps_irq_irq lp)
  | RunPollRead tr lp :
      irq_run tr false lp -> poll_read lp = true -> irq_run tr true lp
  | RunPollEmpty tr lp :
      irq_run tr false lp -> poll_read lp = false -> irq_run (EvEmpty :: tr) false lp
  | RunPollClear tr lp : irq_run tr true lp -> irq_run (EvReady :: tr) false (poll_clear lp)
  | RunClean tr polling lp lp' :
      irq_run tr polling lp ->
      zmuav_pl2ps_irq_ioctl true ZMUAV_PL2PS_IRQ_CLEAN_IRQ_COUNT lp = (0, None, lp') ->
      irq_run (EvClean :: tr) polling lp'.

(** The interrupts since the last ready [poll], since the last reset of the
    count, and all of them; the ready polls. *)
Fixpoint unserved (tr : list irq_event) : Z :=
  match tr with
  | EvInterrupt :: tr => unserved tr + 1
  | EvReady :: _ | [] => 0
  | _ :: tr => unserved tr
  end.

Fixpoint since_clean (tr : list irq_event) : Z :=
  match tr with
  | EvInterrupt :: tr => since_clean tr + 1
  | EvClean :: _ | [] => 0
  | _ :: tr => since_clean tr
  end.

Definition count_event (e : irq_event -> bool) (tr : list irq_event) : Z := zlen (List.filter e tr).
Definition interrupts : list irq_event -> Z := count_event (fun e => match e with EvInterrupt => true | _ => false end).
Definition readies : list irq_event -> Z := count_event (fun e => match e with EvReady => true | _ => false end).

Lemma unserved_nonneg tr : 0 <= unserved tr.
Proof. induction tr as [|[] tr IH]; simpl; lia. Qed.

Lemma count_event_cons e a tr : count_event e (a :: tr) = count_event e tr + (if e a then 1 else 0).
Proof. unfold count_event, zlen. simpl. destruct (e a); simpl; lia. Qed.

(** C26. No pulse is lost, none is made up.  However interrupts, polls and
    resets are interleaved, interrupts between the two accesses of a poll
    included: whenever the reader is outside [poll], the next poll reports
    readiness exactly when an interrupt occurred since the last ready poll; a
    poll under way will report readiness; there are at most as many ready
    polls as interrupts; and the count is the number of interrupts since it
    was reset, in 32 bits. *)
Theorem no_pulse_lost tr polling lp :
  irq_run tr polling lp ->
  (polling = false ->
     ((zmuav_pl2ps_irq_poll lp).1 = Z.lor POLLIN POLLRDNORM <-> 0 < unserved tr) /\
     ((zmuav_pl2ps_irq_poll lp).1 = 0 <-> unserved tr = 0)) /\
  (polling = true -> 0 < unserved tr) /\
  readies tr + unserved tr <= interrupts tr /\
  irq_count lp = u32 (since_clean tr).
Proof.
  intros Hrun.
  assert ((irq_occurred lp = 0 \/ irq_occurred lp = 1) /\
    (if polling then irq_occurred lp = 1 /\ 0 < unserved tr else (irq_occurred lp = 1 <-> 0 < unserved tr)) /\
    readies tr + unserved tr <= interrupts tr /\ irq_count lp = u32 (since_clean tr))
    as (Hbool & Hpoll & Hle & Hcount).
  { induction Hrun as [|tr polling lp _ IH|tr lp _ IH Hread|tr lp _ IH Hread|tr lp _ IH|tr polling lp lp' _ IH Hclean];
      try destruct IH as (Hbool & Hpoll & Hle & Hcount); try pose proof (unserved_nonneg tr) as Hnn;
      unfold readies, interrupts in *; rewrite ?count_event_cons; simpl in *.
    - split_and!; [by left | lia | done | done].
    - split_and!; auto; [destruct polling; lia | lia |].
      rewrite Hcount. unfold wrap. by rewrite Z.add_mod_idemp_l.
    - unfold poll_read in Hread. destruct (Z.eqb_spec (irq_occurred lp) 0); [done|]. split_and!; auto; lia.
    - split_and!; auto; lia.
    - destruct Hpoll. split_and!; auto; lia.
    - injection Hclean as <-. split_and!; auto; lia. }
  split_and!; [| by intros ->; apply Hpoll | done | done].
  intros ->. unfold zmuav_pl2ps_irq_poll, poll_read. pose proof (unserved_nonneg tr).
  destruct (Z.eqb_spec (irq_occurred lp) 0) as [Hz|Hz]; simpl; split; split; try done; intros; try lia.
Qed.

Lemma no_pulse_lost_witness :
  let lp := zmuav_pl2ps_irq_irq (poll_clear (zmuav_pl2ps_irq_irq (zmuav_pl2ps_irq_irq (mk_irq 0 0)))) in
  let tr := [EvInterrupt; EvReady; EvInterrupt; EvInterrupt] in
  irq_run tr false lp /\ (zmuav_pl2ps_irq_poll lp).1 = Z.lor POLLIN POLLRDNORM /\ irq_count lp = 3.
Proof.
  intros lp tr.
  assert (irq_run tr false lp) as Hrun.
  { apply RunInterrupt, RunPollClear, RunInterrupt, RunPollRead; [apply RunInterrupt, RunProbed | reflexivity]. }
  destruct (no_pulse_lost tr false lp Hrun) as (Hpoll & _ & _ & Hcount).
  split; [exact Hrun|]. split; [apply (Hpoll eq_refl); vm_compute; reflexivity|].
  rewrite Hcount. vm_compute. reflexivity.
Defined.

(** ** Probing and removing are balanced *)

(** C31. Whatever the kernel answers, probing ends with either the four
    resources of a device on top of those held before, and a result of 0
    exactly when every call succeeded, or an error and the resources exactly
    as they were, released in the reverse order of acquiring; a probed device
    is removed again without a trace. *)
Theorem probe_balanced a k :
  exists rc k', zmuav_pl2ps_irq_probe a k = Some (rc, k') /\
  (rc = 0 <-> pa_kmalloc a = true /\ 0 <= pa_get_irq a /\ pa_request_irq a = 0 /\ 0 <= pa_alloc_region a /\
     IS_ERR (pa_device a) = false /\ 0 <= pa_cdev_add a) /\
  (rc <> 0 -> k_held k' = k_held k /\ (pa_kmalloc a = true -> k_dev_data k' = false)) /\
  (rc = 0 -> k_held k' = [RCdev; RDevice; RRegion; RIrq] ++ k_held k /\ k_dev_data k' = true /\
     k_char_data k' = true /\
     zmuav_pl2ps_irq_remove k' = Some (0, mk_kernel (k_held k) false false)).
Proof.
  destruct a as [km gi ri ar dv ca], k as [held dd cd]. unfold zmuav_pl2ps_irq_probe, bind, ret, dev_set_drvdata, modify.
  simpl. destruct km; simpl; [|eexists _, _; split; [done|]; split_and!; [|done..]; split; [done | by intros (? & _)]].
  destruct (Z.ltb_spec gi 0); [eexists _, _; split; [done|]; split_and!; try lia; done|].
  destruct (Z.eqb_spec ri 0); simpl; [|eexists _, _; split; [done|]; split_and!; try lia; done].
  unfold err_irq, err_chrdev_region, err_dev, err_initial, release, acquire, bind, dev_set_drvdata, modify, ret.
  destruct (Z.ltb_spec ar 0); simpl; [eexists _, _; split; [done|]; split_and!; try lia; done|].
  destruct (IS_ERR dv) eqn:Hdv; simpl.
  { assert (dv <> 0) by (intros ->; discriminate Hdv).
    eexists _, _. split; [done|]. split_and!; [|done..]. split; [done | by intros (_ & _ & _ & _ & ? & _)]. }
  destruct (Z.ltb_spec ca 0); simpl; (eexists _, _; split; [done|]; split_and!; try lia; done).
Qed.

(** When the registration of the driver fails, its class stays. *)
Lemma init_keeps_class class rc k :
  IS_ERR class = false -> rc <> 0 ->
  exists k', zmuav_pl2ps_irq_init class rc k = Some (rc, k') /\ k_held k' = RClass :: k_held k.
Proof.
  intros Hc Hr. unfold zmuav_pl2ps_irq_init. rewrite Hc, (proj2 (Z.eqb_neq _ _)) by done. by eexists.
Qed.

(** ** Every pulse is served once *)

Section Serving.
Context `{OS}.
#[local] Open Scope c_scope.

(** The pulses among the outcomes of [poll], up to the first failure. *)
Fixpoint pulses (answers : list poll_answer) : nat :=
  match answers with
  | [] => 0
  | a :: answers' =>
    if po_ret a =? 0 then pulses answers' else
    if po_ret a <? 0 then (if po_eintr a then pulses answers' else 0)
    else ((if (Z.land (po_revents a) (Z.lor POLLIN POLLRDNORM) =? 0)%Z then 0 else 1) + pulses answers')%nat
  end.

(** What a pulse does to the schedule and to the pending wake-ups. *)
Definition pulse_step (s : BroadcastSchedulerConfig * list Z) : BroadcastSchedulerConfig * list Z :=
  let (m, cfg) := select_mask s.1 in
  (cfg, if m =? 0 then s.2 else wake_pending m channels_loop s.2).

Definition schedule (w : world) : BroadcastSchedulerConfig * list Z :=
  (g_bcast_cfg (w_bc w), g_bcast_pending (w_bc w)).

Lemma closed_signals m h : closed (signals m channels_loop ++ h) = closed h.
Proof. unfold signals. by induction (rev (filter _ _)). Qed.

Lemma pps_result_effect w :
  schedule (pps_result w) = pulse_step (schedule w) /\ closed (w_hist (pps_result w)) = closed (w_hist w).
Proof.
  unfold schedule, pulse_step, pps_result. simpl. destruct (select_mask _) as [m cfg].
  destruct (m =? 0); simpl; [done|]. by rewrite closed_signals.
Qed.

(** What the thread keeps, and the [n] pulses it served. *)
Definition served (n : nat) (w w' : world) : Prop :=
  world_wf w' /\ w_held w' = [] /\ w_bufs w' = w_bufs w /\ bc_frame w w' /\
  schedule w' = Nat.iter n pulse_step (schedule w) /\ closed (w_hist w') = closed (w_hist w).

Lemma served_trans n m w w1 w2 : served n w w1 -> served m w1 w2 -> served (n + m) w w2.
Proof.
  intros (_ & _ & B1 & F1 & S1 & C1) (Hwf & Hh & B2 & F2 & S2 & C2). split; [done|]. split; [done|].
  rewrite B2, S2, S1, C2. split; [done|]. split; [by etransitivity|]. split; [|done]. by rewrite Nat.add_comm, Nat.iter_add.
Qed.

Lemma served_refl w : world_wf w -> w_held w = [] -> served 0 w w.
Proof. by intros. Qed.

Lemma pulse_turn_spec fd a w :
  world_wf w -> w_held w = [] ->
  wp (pulse_turn fd a) (fun _ w' =>
    served (if (Z.land (po_revents a) (Z.lor POLLIN POLLRDNORM) =? 0)%Z then 0 else 1) w w') w.
Proof.
  intros Hwf Hh. unfold pulse_turn. destruct (_ =? 0); cbn [negb when]; [by wp_step; apply served_refl|].
  wp_step. apply wp_sys. set (w1 := add_call _ w).
  assert (world_wf w1) as Hwf1 by (by destruct Hwf). unfold wp.
  rewrite pps_eq by (done || apply Hwf1 || (unfold held_below; simpl; by rewrite Hh)).
  destruct (pps_bc w1 (ww_bc _ Hwf1)) as (Hbc & Hf & Hb). destruct (pps_result_effect w1) as [Hs Hc].
  split_and!; [| | by rewrite Hb | | done | by rewrite Hc].
  3: { etransitivity; [|exact Hf]. split; auto. by exists [SysIoctlIrqCount fd]. }
  - apply (bc_frame_wf w1); try done; rewrite Hb; apply Hwf1.
  - by rewrite (bf_held _ _ Hf).
Qed.

Lemma pps_loop_spec fd answers w :
  world_wf w -> w_held w = [] -> wp (pps_loop fd answers) (fun _ w' => served (pulses answers) w w') w.
Proof.
  revert w. induction answers as [|a answers IH]; intros w Hwf Hh; simpl; [by wp_step; apply served_refl|].
  destruct (po_ret a =? 0); [by apply IH|]. destruct (po_ret a <? 0).
  { destruct (po_eintr a); [by apply IH | by wp_step; apply served_refl]. }
  wp_step. eapply wp_mono; [by apply pulse_turn_spec|]. intros [] w1 H1.
  eapply wp_mono; [apply IH; apply H1|]. intros [] w2 H2. by eapply served_trans.
Qed.

(** C27. The thread of the second pulse: whatever [poll] answers, time-outs,
    interruptions and failures included, the thread is never stuck and closes
    the device exactly when it opened it; it takes the broadcast schedule
    exactly one step for each pulse reported before the first failure, with
    the wake-ups the steps select, and touches no buffer. *)
Theorem pps_thread_serves answers w :
  world_wf w -> w_held w = [] ->
  exists w', pps_irq_thread answers w = Some (tt, w') /\ world_wf w' /\ w_held w' = [] /\
  w_bufs w' = w_bufs w /\
  let fd := os_ret (w_hist w) SysOpenPps in
  schedule w' = Nat.iter (if fd <? 0 then 0 else pulses answers) pulse_step (schedule w) /\
  closed (w_hist w') = (if fd <? 0 then [] else [fd]) ++ closed (w_hist w).
Proof.
  intros Hwf Hh. set (fd := os_ret (w_hist w) SysOpenPps).
  enough (wp (pps_irq_thread answers) (fun _ w' => world_wf w' /\ w_held w' = [] /\ w_bufs w' = w_bufs w /\
    schedule w' = Nat.iter (if fd <? 0 then 0 else pulses answers) pulse_step (schedule w) /\
    closed (w_hist w') = (if fd <? 0 then [] else [fd]) ++ closed (w_hist w)) w) as Hwp.
  { apply wp_exec in Hwp as ([] & w' & Hrun & Hpost). by exists w'. }
  unfold pps_irq_thread. wp_step. apply wp_sys. fold fd. set (w1 := add_call _ w).
  assert (world_wf w1) as Hwf1 by (by destruct Hwf).
  destruct (fd <? 0).
  - unfold wp. rewrite send_event_eq by (simpl; by rewrite Hh).
    assert (net_only w1 (event_result EVENT_LEVEL_ERROR EVENT_CAN_INIT_FAILED (str "PPS irq device open failed") w1))
      as Hn by apply net_only_event.
    split_and!; [by eapply net_only_wf | by rewrite (no_held _ _ Hn) | by rewrite (no_bufs _ _ Hn)
      | unfold schedule; by rewrite (no_bc _ _ Hn) |].
    unfold event_result. by repeat case_match.
  - wp_step. eapply wp_mono; [by apply pps_loop_spec|]. intros [] w2 (Hwf2 & Hh2 & Hb2 & _ & Hs2 & Hc2).
    wp_step. apply wp_sys. wp_step. split_and!; [by destruct Hwf2 | done | exact Hb2 | done |].
    simpl. by rewrite Hc2.
Qed.
End Serving.

Lemma pps_thread_serves_witness :
  exists w', @pps_irq_thread quiet_os [mk_poll 1 false 0x41; mk_poll (-1) true 0; mk_poll 1 false 0x1] boot_world =
    Some (tt, w') /\ world_wf w'.
Proof.
  destruct (@pps_thread_serves quiet_os [mk_poll 1 false 0x41; mk_poll (-1) true 0; mk_poll 1 false 0x1] boot_world
    boot_world_wf eq_refl) as (w' & Hrun & Hwf & _).
  exists w'. split; [exact Hrun | exact Hwf].
Defined.

(** ** Open files *)

(** What a call answers on the device itself. *)
Definition irq_call (c : file_call) (lp : zmuav_pl2ps_irq) : Z * option Z * zmuav_pl2ps_irq :=
  match c with
  | FilePoll => let '(mask, lp') := zmuav_pl2ps_irq_poll lp in (mask, None, lp')
  | FileIoctl copy_ok cmd => zmuav_pl2ps_irq_ioctl copy_ok cmd lp
  end.

Fixpoint irq_calls (cs : list file_call) (lp : zmuav_pl2ps_irq) : list (Z * option Z) * zmuav_pl2ps_irq :=
  match cs with
  | [] => ([], lp)
  | c :: cs' =>
    let '(r, lp1) := irq_call c lp in let '(rs, lp2) := irq_calls cs' lp1 in (r :: rs, lp2)
  end.

Lemma file_calls_eq cs lp :
  file_calls cs (mk_irq_file true lp) =
    let '(rs, lp') := irq_calls cs lp in Some (rs, mk_irq_file true lp').
Proof.
  revert lp. induction cs as [|c cs IH]; intros lp; [done|]. cbn [file_calls irq_calls].
  assert (fops c (mk_irq_file true lp) =
    let '(r, lp1) := irq_call c lp in Some (r, mk_irq_file true lp1)) as Hc.
  { unfold fops, irq_call, on_device, bind, ret. destruct c; cbn [private_data if_device].
    - by destruct (zmuav_pl2ps_irq_poll lp).
    - by destruct (zmuav_pl2ps_irq_ioctl copy_ok cmd lp) as [[] ?]. }
  unfold bind. rewrite Hc. destruct (irq_call c lp) as [r lp1]. rewrite IH.
  by destruct (irq_calls cs lp1) as [rs lp2].
Qed.

(** Between opening and releasing a file every call reaches the device: no call
    follows a null pointer, the answers are those of the device, whose count
    goes on over sessions, and afterwards the file points to nothing. *)
Theorem file_session_serves cs f :
  file_session cs f =
    let '(rs, lp') := irq_calls cs (if_device f) in Some (rs, mk_irq_file false lp').
Proof.
  unfold file_session, zmuav_pl2ps_irq_open, zmuav_pl2ps_irq_close, bind, modify, ret.
  rewrite file_calls_eq. by destruct (irq_calls cs (if_device f)).
Qed.
