(* ===== verification/BcastMachine.v ===== *)
(** * The broadcast machine: what the broadcast promises, without its threads

    The schedule, the queues of groups of the six channels and their pending
    wake-ups form a small machine with five transitions: a schedule is accepted,
    a pulse selects channels, a group is queued, a group is taken for sending,
    a wake-up finds nothing to send.  It is the abstract specification of
    [Broadcast]: [bview] shows the machine in the state of the program, the
    specifications of the handlers give the transitions, and [Threads] and
    [Traffic] show that every turn of every thread is a sequence of them. *)
From S2P Require Import Prelude Framing Words Ring RingSet Layout World Upload Broadcast Commands Download.

(** ** The machine *)

Record bstate := mk_bstate {
  b_sched : BroadcastSchedulerConfig; b_queues : list (list bytes); b_pending : list Z
}.

Inductive b_label :=
  | BReset (data : bytes)           (* the schedule in the payload was accepted *)
  | BPulse (mask : Z)               (* a pulse selected the channels of the mask *)
  | BQueue (ch : Z) (g : bytes)     (* a group was queued *)
  | BTake (ch : Z) (g : bytes)      (* a group was taken for sending *)
  | BIdle (ch : Z).                 (* a wake-up found nothing to send *)

(** An element of an array of the channels. *)
Definition chan {A} (l : list A) (ch : Z) : option A := if ch <? 0 then None else l !! Z.to_nat ch.

Definition b_step (l : b_label) (b : bstate) : option bstate :=
  match l with
  | BReset data =>
    if decide (schedule_valid data)
    then Some (mk_bstate (sched_of_param (unpack data)) (replicate 6 []) no_pending) else None
  | BPulse mask =>
    let (m, cfg) := select_mask (b_sched b) in
    if m =? mask then Some (mk_bstate cfg (b_queues b) (wake_pending m channels_loop (b_pending b))) else None
  | BQueue ch g =>
    q ← chan (b_queues b) ch;
    if zlen q <? buf_depth BcastGroup
    then Some (mk_bstate (b_sched b) (<[Z.to_nat ch := q ++ [g]]> (b_queues b)) (b_pending b)) else None
  | BTake ch g =>
    q ← chan (b_queues b) ch; p ← chan (b_pending b) ch;
    match q with
    | x :: q' =>
      if bool_decide (x = g) && (0 <? p)
      then Some (mk_bstate (b_sched b) (<[Z.to_nat ch := q']> (b_queues b))
                           (<[Z.to_nat ch := p - 1]> (b_pending b))) else None
    | [] => None
    end
  | BIdle ch =>
    p ← chan (b_pending b) ch;
    if 0 <? p then Some (mk_bstate (b_sched b) (b_queues b) (<[Z.to_nat ch := p - 1]> (b_pending b))) else None
  end.

(** The first label first. *)
Fixpoint b_run (ls : list b_label) (b : bstate) : option bstate :=
  match ls with [] => Some b | l :: ls' => b1 ← b_step l b; b_run ls' b1 end.

(** No schedule, nothing queued, nothing pending. *)
Definition b_start : bstate := mk_bstate no_schedule (replicate 6 []) no_pending.

Lemma b_run_app ls1 ls2 b : b_run (ls1 ++ ls2) b = b1 ← b_run ls1 b; b_run ls2 b1.
Proof.
  revert b. induction ls1 as [|l ls1 IH]; intros b; [done|]. simpl.
  destruct (b_step l b) as [b1|]; [apply IH | done].
Qed.

(** ** What a run did to a channel *)

Definition is_reset (l : b_label) : bool := match l with BReset _ => true | _ => false end.
Definition is_pulse (l : b_label) : bool := match l with BPulse _ => true | _ => false end.
Definition is_queue (l : b_label) : bool := match l with BQueue _ _ => true | _ => false end.

(** The labels after the last accepted schedule, or all of them. *)
Definition since_reset (ls : list b_label) : list b_label :=
  foldl (fun acc l => if is_reset l then [] else acc ++ [l]) [] ls.

Definition queued_by (ch : Z) (l : b_label) : list bytes :=
  match l with BQueue c g => if c =? ch then [g] else [] | _ => [] end.
Definition taken_by (ch : Z) (l : b_label) : list bytes :=
  match l with BTake c g => if c =? ch then [g] else [] | _ => [] end.
Definition selected_by (ch : Z) (l : b_label) : Z :=
  match l with BPulse m => if Z.land m (Z.shiftl 1 ch) =? 0 then 0 else 1 | _ => 0 end.

Definition b_queued (ch : Z) (ls : list b_label) : list bytes := ls ≫= queued_by ch.
Definition b_taken (ch : Z) (ls : list b_label) : list bytes := ls ≫= taken_by ch.
Definition b_selected (ch : Z) (ls : list b_label) : Z := foldr Z.add 0 (selected_by ch <$> ls).

Lemma b_queued_snoc ch ls l : b_queued ch (ls ++ [l]) = b_queued ch ls ++ queued_by ch l.
Proof. unfold b_queued. rewrite bind_app. simpl. by rewrite app_nil_r. Qed.

Lemma b_taken_snoc ch ls l : b_taken ch (ls ++ [l]) = b_taken ch ls ++ taken_by ch l.
Proof. unfold b_taken. rewrite bind_app. simpl. by rewrite app_nil_r. Qed.

Lemma b_selected_snoc ch ls l : b_selected ch (ls ++ [l]) = b_selected ch ls + selected_by ch l.
Proof.
  unfold b_selected. rewrite fmap_app. induction (selected_by ch <$> ls) as [|x xs IH]; simpl in *; lia.
Qed.

Lemma since_reset_snoc ls l :
  since_reset (ls ++ [l]) = if is_reset l then [] else since_reset ls ++ [l].
Proof. unfold since_reset. by rewrite foldl_app. Qed.

(** A channel of the machine: its queue and its wake-ups account for what
    happened since the last schedule. *)
Definition channel_account (ch : Z) (ls : list b_label) (b : bstate) : Prop :=
  exists q p, chan (b_queues b) ch = Some q /\ chan (b_pending b) ch = Some p /\
    b_queued ch ls = b_taken ch ls ++ q /\ 0 <= p < 2 ^ 32 /\
    zlen (b_taken ch ls) + p <= b_selected ch ls /\ zlen q <= buf_depth BcastGroup.

Lemma chan_nonneg {A} (l : list A) ch x : chan l ch = Some x -> 0 <= ch /\ l !! Z.to_nat ch = Some x.
Proof. unfold chan. destruct (Z.ltb_spec ch 0); [done|]. by split. Qed.

Lemma chan_intro {A} (l : list A) ch x : 0 <= ch -> l !! Z.to_nat ch = Some x -> chan l ch = Some x.
Proof. intros Hc Hl. unfold chan. by rewrite (proj2 (Z.ltb_ge ch 0)). Qed.

Lemma chan_insert {A} (l : list A) c ch x y :
  chan l c = Some y -> 0 <= ch -> chan (<[Z.to_nat c := x]> l) ch = if c =? ch then Some x else chan l ch.
Proof.
  intros Hc Hch. apply chan_nonneg in Hc as [Hc Hl]. unfold chan. rewrite (proj2 (Z.ltb_ge ch 0)) by done.
  destruct (Z.eqb_spec c ch) as [->|Hne].
  - apply list_lookup_insert_eq. by eapply lookup_lt_Some.
  - apply list_lookup_insert_ne. lia.
Qed.

Lemma chan_wake m p ch :
  0 <= ch < 6 -> chan (wake_pending m channels_loop p) ch =
    (fun v => if Z.land m (Z.shiftl 1 ch) =? 0 then v else u32 (v + 1)) <$> chan p ch.
Proof.
  intros Hch. unfold chan. rewrite (proj2 (Z.ltb_ge ch 0)) by lia. by apply wake_pending_lookup.
Qed.

Lemma account_nil ch : 0 <= ch < 6 -> forall s, channel_account ch [] (mk_bstate s (replicate 6 []) no_pending).
Proof.
  intros Hch s. exists [], 0. unfold no_pending. cbn [b_queues b_pending].
  split; [apply chan_intro; [lia | apply lookup_replicate_2; lia]|].
  split; [apply chan_intro; [lia | apply lookup_replicate_2; lia]|]. by split_and!.
Qed.

(** One transition. *)
Lemma account_step ch ls l b b' :
  0 <= ch < 6 -> channel_account ch ls b -> b_step l b = Some b' ->
  channel_account ch (if is_reset l then [] else ls ++ [l]) b'.
Proof.
  intros Hch (q & p & Hq & Hp & Hacc & Hpr & Hsel & Hd) Hs.
  destruct (is_reset l) eqn:Hl.
  { destruct l; try done. cbn [b_step] in Hs. destruct (decide _); [|done]. injection Hs as <-. by apply account_nil. }
  unfold channel_account.
  destruct l as [data|mask|c g|c g|c]; cbn [is_reset b_step] in *;
    rewrite ?b_queued_snoc, ?b_taken_snoc, ?b_selected_snoc; cbn [queued_by taken_by selected_by].
  - done.
  - destruct (select_mask (b_sched b)) as [m cfg]. destruct (Z.eqb_spec m mask) as [->|]; [|done].
    injection Hs as <-. cbn [b_queues b_pending].
    exists q, (if Z.land mask (Z.shiftl 1 ch) =? 0 then p else u32 (p + 1)).
    rewrite chan_wake, Hp by done. rewrite !app_nil_r.
    pose proof (wrap_range 32 (p + 1) ltac:(lia)) as Hw. unfold in_range in Hw.
    assert (u32 (p + 1) <= p + 1) by (apply Z.mod_le; lia).
    split; [done|]. split; [done|]. split; [done|].
    destruct (Z.land mask (Z.shiftl 1 ch) =? 0); split_and!; done || lia.
  - destruct (chan (b_queues b) c) as [qc|] eqn:Hqc; [|done]. cbn [mbind option_bind] in Hs.
    destruct (Z.ltb_spec (zlen qc) (buf_depth BcastGroup)) as [Hlt|]; [|done]. injection Hs as <-. cbn [b_queues b_pending].
    rewrite (chan_insert _ _ _ _ _ Hqc) by lia. destruct (Z.eqb_spec c ch) as [->|]; rewrite ?app_nil_r.
    + rewrite Hq in Hqc. injection Hqc as <-. exists (q ++ [g]), p. rewrite Hacc, app_assoc.
      split_and!; try done; try lia. rewrite zlen_app. change (zlen [g]) with 1. lia.
    + exists q, p. split_and!; done || lia.
  - destruct (chan (b_queues b) c) as [qc|] eqn:Hqc; [|done]. cbn [mbind option_bind] in Hs.
    destruct (chan (b_pending b) c) as [pc|] eqn:Hpc; [|done]. cbn [mbind option_bind] in Hs.
    destruct qc as [|x qc]; [done|]. destruct (bool_decide (x = g)) eqn:Hx; [|done].
    apply bool_decide_eq_true in Hx as ->. destruct (Z.ltb_spec 0 pc); [|done]. injection Hs as <-.
    cbn [b_queues b_pending]. rewrite (chan_insert _ _ _ _ _ Hqc), (chan_insert _ _ _ _ _ Hpc) by lia.
    destruct (Z.eqb_spec c ch) as [->|]; rewrite ?app_nil_r.
    + rewrite Hq in Hqc. rewrite Hp in Hpc. injection Hqc as ->. injection Hpc as <-.
      exists qc, (p - 1). rewrite Hacc, <- app_assoc. rewrite !zlen_app in *.
      change (g :: qc) with ([g] ++ qc) in Hd. rewrite zlen_app in Hd. change (zlen [g]) with 1 in *.
      split_and!; done || lia.
    + exists q, p. split_and!; done || lia.
  - destruct (chan (b_pending b) c) as [pc|] eqn:Hpc; [|done]. cbn [mbind option_bind] in Hs.
    destruct (Z.ltb_spec 0 pc); [|done]. injection Hs as <-. cbn [b_queues b_pending].
    rewrite (chan_insert _ _ _ _ _ Hpc) by lia. rewrite !app_nil_r.
    destruct (Z.eqb_spec c ch) as [->|]; [|exists q, p; split_and!; done || lia].
    rewrite Hp in Hpc. injection Hpc as <-. exists q, (p - 1). split_and!; done || lia.
Qed.

(** What the machine promises: after any run from the start, the groups taken
    on a channel since the last accepted schedule are, in order, a prefix of
    those queued since, the rest being what is queued; they are no more than the
    pulses that selected the channel since; and a queue keeps its bound. *)
Lemma machine_account ch ls b :
  0 <= ch < 6 -> b_run ls b_start = Some b -> channel_account ch (since_reset ls) b.
Proof.
  intros Hch. revert b. induction ls as [|l ls IH] using rev_ind; intros b Hrun.
  - injection Hrun as <-. by apply account_nil.
  - rewrite b_run_app in Hrun. destruct (b_run ls b_start) as [b1|]; [|done]. simpl in Hrun.
    destruct (b_step l b1) as [b2|] eqn:Hs; [|done]. injection Hrun as <-.
    rewrite since_reset_snoc. by eapply account_step; [|apply IH|].
Qed.

(** ** The machine in the state of the program *)

Definition bview (w : world) : bstate :=
  mk_bstate (g_bcast_cfg (w_bc w)) ((fun ch => buf_queue BcastGroup ch (w_bufs w)) <$> channels_loop)
    (g_bcast_pending (w_bc w)).

(** The machine goes from one state to the other by transitions of a kind. *)
Definition broadcasts (kind : b_label -> bool) (w w' : world) : Prop :=
  exists ls, forallb kind ls = true /\ b_run ls (bview w) = Some (bview w').

#[export] Instance broadcasts_preorder kind : PreOrder (broadcasts kind).
Proof.
  split.
  - intros w. by exists [].
  - intros w1 w2 w3 (l1 & M1 & R1) (l2 & M2 & R2). exists (l1 ++ l2).
    split; [by rewrite forallb_app, M1|]. by rewrite b_run_app, R1.
Qed.

Lemma broadcasts_same kind w w' : bview w' = bview w -> broadcasts kind w w'.
Proof. intros He. exists []. simpl. by rewrite He. Qed.

Lemma broadcasts_one kind w l w' :
  kind l = true -> b_step l (bview w) = Some (bview w') -> broadcasts kind w w'.
Proof. intros Hm Hs. exists [l]. cbn [forallb b_run]. by rewrite Hm, Hs. Qed.

Lemma bview_chan w ch : 0 <= ch < 6 -> chan (b_queues (bview w)) ch = Some (buf_queue BcastGroup ch (w_bufs w)).
Proof.
  intros Hch. apply chan_intro; [lia|]. cbn [b_queues bview]. rewrite list_lookup_fmap.
  assert (channels_loop !! Z.to_nat ch = Some ch) as ->; [|done].
  assert (ch = 0 \/ ch = 1 \/ ch = 2 \/ ch = 3 \/ ch = 4 \/ ch = 5) as Hc by lia.
  by destruct Hc as [->|[->|[->|[->|[->| ->]]]]].
Qed.

(** The queues of a view after a change of one of them. *)
Lemma view_insert ch b b' :
  0 <= ch < 6 -> (forall c, 0 <= c < 6 -> c <> ch -> buf_queue BcastGroup c b' = buf_queue BcastGroup c b) ->
  (fun c => buf_queue BcastGroup c b') <$> channels_loop =
    <[Z.to_nat ch := buf_queue BcastGroup ch b']> ((fun c => buf_queue BcastGroup c b) <$> channels_loop).
Proof.
  intros Hch Ho. unfold channels_loop. cbn [fmap list_fmap].
  assert (ch = 0 \/ ch = 1 \/ ch = 2 \/ ch = 3 \/ ch = 4 \/ ch = 5) as Hc by lia.
  destruct Hc as [->|[->|[->|[->|[->| ->]]]]]; cbn [Z.to_nat Pos.to_nat Pos.iter_op Nat.add insert list_insert];
    repeat (apply (f_equal2 cons); [reflexivity || (apply Ho; lia)|]); reflexivity.
Qed.

(** What leaves the machine alone. *)
Lemma quiet w w' :
  sched_kept w w' ->
  (forall ch, 0 <= ch < 6 -> buf_queue BcastGroup ch (w_bufs w') = buf_queue BcastGroup ch (w_bufs w)) ->
  bview w' = bview w.
Proof.
  intros [Hc Hp] Hq. unfold bview. rewrite Hc, Hp. f_equal.
  unfold channels_loop. cbn [fmap list_fmap]. by rewrite !Hq by lia.
Qed.

Lemma quiet_bufs w w' : w_bc w' = w_bc w -> w_bufs w' = w_bufs w -> bview w' = bview w.
Proof. intros Hc Hb. apply quiet; [unfold sched_kept; by rewrite Hc | by rewrite Hb]. Qed.

Lemma quiet_net w w' : net_only w w' -> bview w' = bview w.
Proof. intros Hn. apply quiet_bufs; apply Hn. Qed.

Lemma quiet_only n ch w w' :
  w_bc w' = w_bc w -> bufs_only n ch (w_bufs w) (w_bufs w') -> n <> BcastGroup -> bview w' = bview w.
Proof.
  intros Hc Ho Hn. apply quiet; [unfold sched_kept; by rewrite Hc|]. intros c Hch. apply Ho; [lia | congruence].
Qed.

(** ** The transitions of the handlers *)

Section Handlers.
Context `{OS}.
#[local] Open Scope c_scope.

(** A configuration: a schedule is accepted, or nothing changes. *)
Lemma config_broadcasts sock req data w :
  held_below 2 w -> world_wf w -> 40 <= zlen data ->
  wp (handle_broadcast_config sock req data) (fun _ w' => broadcasts is_reset w w') w.
Proof.
  intros Hb Hwf Hlen.
  eapply wp_mono; [apply config_spec; [done | apply Hwf | apply (ww_bc _ Hwf) | done]|].
  intros [] w' [Hv Hnv]. destruct (decide (schedule_valid data)) as [V|V].
  - destruct (Hv V) as (b & -> & _ & Hq & _). transitivity (scheduled (unpack data) b w).
    2: { apply broadcasts_same, quiet_net, net_only_bcast_reply. }
    apply (broadcasts_one _ _ (BReset data)); [done|]. cbn [b_step]. rewrite decide_True by done. f_equal.
    unfold bview. cbn [w_bc w_bufs scheduled]. unfold channels_loop. cbn [fmap list_fmap].
    change (w_bufs (scheduled (unpack data) b w)) with b. by rewrite !Hq by lia.
  - destruct (Hnv V) as [msg ->]. apply broadcasts_same, quiet_net. unfold refused.
    etransitivity; [apply net_only_event | apply net_only_bcast_reply].
Qed.

(** A pulse. *)
Lemma pps_broadcasts w :
  held_below 2 w -> world_wf w -> wp process_broadcast_pps (fun _ w' => broadcasts is_pulse w w') w.
Proof.
  intros Hb Hwf. unfold wp. rewrite pps_eq by (done || apply (ww_bc _ Hwf)).
  destruct (pps_bc w (ww_bc _ Hwf)) as (_ & _ & Hbufs).
  apply (broadcasts_one _ _ (BPulse (select_mask (g_bcast_cfg (w_bc w))).1)); [done|].
  unfold bview. rewrite Hbufs. cbn [b_step b_sched]. unfold pps_result.
  destruct (select_mask (g_bcast_cfg (w_bc w))) as [m cfg]. cbn [fst]. rewrite Z.eqb_refl. f_equal.
  destruct (Z.eqb_spec m 0) as [->|Hm]; [|done]. cbn. f_equal.
  unfold wake_pending. apply list_eq. intros i. rewrite list_lookup_imap.
  destruct (g_bcast_pending (w_bc w) !! i); [|done]. simpl. rewrite decide_False; [done|].
  intros [_ Hz]. by rewrite Z.land_0_l in Hz.
Qed.

(** Taking a group, and finding none. *)
Lemma take_broadcasts ch dst w :
  held_below 2 w -> world_wf w -> 0 <= ch < 6 -> zlen dst = sizeof_BroadcastFrameGroup ->
  wp (take_broadcast_group ch dst) (fun r w' =>
    (exists g, r = (1, g) /\ b_step (BTake ch g) (bview w) = Some (bview w')) \/
    r = (0, dst) /\ (bview w' = bview w \/ b_step (BIdle ch) (bview w) = Some (bview w'))) w.
Proof.
  intros Hb Hwf Hch Hd. eapply wp_mono; [by apply take_spec|]. intros [r dst'] w' (p & Hp & Hcase).
  destruct (Z.eqb_spec p 0) as [->|Hp0]; [destruct Hcase as (-> & -> & ->); by auto|].
  destruct Hcase as (b & -> & _ & Ho & c & _ & Hcase).
  pose proof (Forall_lookup_1 _ _ _ _ (bw_pending_u32 _ (ww_bc _ Hwf)) Hp) as Hpu. unfold in_range in Hpu.
  assert (chan (b_pending (bview w)) ch = Some p) as Hcp by (apply chan_intro; [lia | done]).
  assert (forall q, buf_queue BcastGroup ch b = q ->
    mk_bstate (b_sched (bview w)) (<[Z.to_nat ch := q]> (b_queues (bview w)))
      (<[Z.to_nat ch := p - 1]> (b_pending (bview w))) = bview (bc_upd b (<[Z.to_nat ch := p - 1]> (g_bcast_pending (w_bc w))) w)) as Hview.
  { intros q Hq. unfold bview. cbn [w_bc w_bufs bc_upd b_sched b_queues b_pending]. f_equal.
    change (w_bufs (bc_upd b _ w)) with b. rewrite (view_insert ch (w_bufs w) b); [by rewrite Hq | done|].
    intros c' Hc' Hne. apply Ho; [lia | congruence]. }
  destruct (if decide (cf_state c = CAN_STATE_OPENED) then _ else _) as [|x q] eqn:E.
  - destruct Hcase as (-> & -> & Hq). right. split; [done|]. right. cbn [b_step].
    rewrite Hcp. cbn [mbind option_bind]. rewrite (proj2 (Z.ltb_lt 0 p)) by lia. rewrite <- (Hview _ Hq). do 2 f_equal.
    rewrite list_insert_id; [done|]. by apply chan_nonneg, bview_chan.
  - destruct Hcase as (-> & -> & Hq). destruct (decide _); [|done]. left. exists x. split; [done|].
    cbn [b_step]. rewrite (bview_chan w ch Hch), E, Hcp.
    cbn [mbind option_bind]. rewrite bool_decide_eq_true_2, (proj2 (Z.ltb_lt 0 p)) by (done || lia).
    cbn [andb]. by rewrite (Hview _ Hq).
Qed.
End Handlers.

(** Groups queued one after the other. *)
Lemma run_queued ch new s qs p q :
  chan qs ch = Some q -> zlen (q ++ new) <= buf_depth BcastGroup ->
  b_run (BQueue ch <$> new) (mk_bstate s qs p) = Some (mk_bstate s (<[Z.to_nat ch := q ++ new]> qs) p).
Proof.
  revert qs q. induction new as [|g new IH]; intros qs q Hq Hd; rewrite ?fmap_cons; cbn [b_run].
  - cbn [fmap list_fmap b_run]. rewrite app_nil_r, list_insert_id; [done|]. by apply chan_nonneg.
  - pose proof (chan_nonneg _ _ _ Hq) as [Hch _].
    assert (zlen q < buf_depth BcastGroup) as Hlt.
    { rewrite zlen_app in Hd. change (g :: new) with ([g] ++ new) in Hd. rewrite zlen_app in Hd.
      change (zlen [g]) with 1 in Hd. pose proof (Nat2Z.is_nonneg (length new)). unfold zlen in *. lia. }
    cbn [b_step b_queues b_sched b_pending]. rewrite Hq. cbn [mbind option_bind].
    rewrite (proj2 (Z.ltb_lt _ _)) by done. cbn [mbind option_bind]. rewrite (IH _ (q ++ [g])).
    + by rewrite list_insert_insert_eq, <- app_assoc.
    + rewrite (chan_insert _ _ _ _ _ Hq) by done. by rewrite Z.eqb_refl.
    + by rewrite <- app_assoc.
Qed.

(** A download only queues groups. *)
Lemma download_broadcasts w w' : dl_frame w w' -> world_wf w -> broadcasts is_queue w w'.
Proof.
  intros Hd Hwf. destruct (dl_sched _ _ Hd) as [Hc Hp]. pose proof (dl_wf _ _ Hd Hwf) as Hwf'.
  enough (forall l s qs p, Forall (fun c => 0 <= c < 6) l -> NoDup l ->
    (forall c, c ∈ l -> chan qs c = Some (buf_queue BcastGroup c (w_bufs w))) ->
    exists ls, forallb is_queue ls = true /\ b_run ls (mk_bstate s qs p) = Some (mk_bstate s
      (foldl (fun qs c => <[Z.to_nat c := buf_queue BcastGroup c (w_bufs w')]> qs) qs l) p)) as Hl.
  { destruct channels_loop_ok as [Hnd Hall].
    destruct (Hl channels_loop (g_bcast_cfg (w_bc w)) (b_queues (bview w)) (g_bcast_pending (w_bc w)) Hall Hnd)
      as (ls & Hm & Hrun).
    { intros c Hcl. apply bview_chan. by apply channels_loop_elem. }
    exists ls. split; [done|]. unfold bview at 1. cbn [b_queues bview] in Hrun. rewrite Hrun. f_equal.
    unfold bview. rewrite Hc, Hp. f_equal. }
  intros l. induction l as [|c l IH]; intros s qs p Hall Hnd Hqs; [by exists []|].
  apply list.Forall_cons in Hall as [Hcr Hall]. apply list.NoDup_cons in Hnd as [Hni Hnd].
  destruct (dl_appends _ _ Hd BcastGroup c (proj1 Hcr)) as (new & Hnew & _).
  pose proof (Hqs c (list_elem_of_here _ _)) as Hq.
  destruct (IH s (<[Z.to_nat c := buf_queue BcastGroup c (w_bufs w')]> qs) p Hall Hnd) as (ls & Hm & Hrun).
  { intros c' Hc'. rewrite (chan_insert _ _ _ _ _ Hq) by (rewrite list.Forall_forall in Hall; by apply Hall).
    destruct (Z.eqb_spec c c') as [->|]; [done|]. apply Hqs. by apply list_elem_of_further. }
  exists ((BQueue c <$> new) ++ ls). split.
  { rewrite forallb_app, Hm, andb_true_r. apply forallb_forall. intros x Hx.
    by apply List.in_map_iff in Hx as (g & <- & _). }
  rewrite b_run_app, (run_queued c new s qs p _ Hq).
  - cbn [mbind option_bind]. rewrite <- Hnew. exact Hrun.
  - rewrite <- Hnew. by apply buf_queue_bound; [apply Hwf' | ].
Qed.

(** ** The command port *)

Section Commander.
Context `{OS}.
#[local] Open Scope c_scope.

Lemma quiet_config f w w' : at_config f w w' -> bview w' = bview w.
Proof. intros Hat. apply quiet_bufs; [apply (no_bc _ _ Hat) | apply (no_bufs _ _ Hat)]. Qed.

(** Only an accepted schedule changes the machine. *)
Lemma dispatch_broadcasts sock req payload w :
  held_below 1 w -> world_wf w -> zlen payload = reverse_4bytes (rq_data_len req) ->
  wp (dispatch_command sock req payload) (fun _ w' => broadcasts is_reset w w') w.
Proof.
  intros Hb Hwf Hpay.
  assert (held_below 4 w) as Hb4 by (by eapply held_below_mono; [|exact Hb]; lia).
  assert (held_below 2 w) as Hb2 by (by eapply held_below_mono; [|exact Hb]; lia).
  unfold dispatch_command. cbv zeta.
  destruct (zlen payload <? command_min_payload_size _) eqn:Hmin; [by wp_step|].
  unfold command_min_payload_size in Hmin. apply Z.ltb_ge in Hmin.
  destruct (_ =? 0x0101).
  { eapply wp_mono; [by apply handle_can_config_spec|]. intros [] w' Hr.
    destruct (config_handled_at payload w w' Hwf Hmin Hr) as (f & Hat & _). by eapply broadcasts_same, quiet_config. }
  destruct (_ =? 0x0102).
  { eapply wp_mono; [by apply handle_can_info_query_spec|]. intros [] w' Hr.
    apply broadcasts_same, quiet_net. case_match; [|subst; apply net_only_err].
    destruct Hr as (ds & w1 & _ & Hco & ->).
    etransitivity; [apply Hco | apply net_only_info_answered]. }
  destruct (_ =? 0x0100).
  { unfold wp. rewrite handle_can_buf_query_eq by (done || apply Hwf).
    apply broadcasts_same, quiet_net. unfold buf_query_result. repeat case_match; auto with zmht; done. }
  destruct (_ =? 0x0103).
  { eapply wp_mono; [by apply start_stop_spec|]. intros [] w' (w1 & Hat & ->).
    eapply broadcasts_same, quiet_config, at_config_net; [exact Hat | apply net_only_start_stop_reply]. }
  destruct (_ =? 0x0104); [by apply config_broadcasts|].
  destruct (_ =? 0xFF05).
  { unfold wp. rewrite handle_version_query_eq by (done || lia).
    apply broadcasts_same, quiet_net. unfold version_sent. case_match; auto with zmht; done. }
  apply wp_error_event; [by eapply held_below_mono; [|exact Hb]; lia|].
  apply broadcasts_same, quiet_net, net_only_err.
Qed.

(** One turn of the connection. *)
Lemma receive_broadcasts sock buffered chunk w :
  held_below 1 w -> world_wf w ->
  wp (command_receive sock buffered chunk) (fun _ w' => broadcasts is_reset w w') w.
Proof.
  intros Hb Hwf. unfold command_receive, wp. rewrite command_loop_frames.
  eapply wp_mono; [apply (frame_loop_safe _ _ (fun w => held_below 1 w /\ world_wf w)
    (fun w w' => cmd_frame w w' /\ broadcasts is_reset w w'))|].
  - intros w1 w2 [Hb1 Hwf1] [Hc _]. by apply (cmd_frame_keeps w1).
  - intros p w1 Hp [Hb1 Hwf1].
    assert (zlen (drop 16 p) = packet_payload p) as Hpay.
    { rewrite command_judge_eq in Hp. apply header_judge_packet in Hp as [H16 Hp]; [|apply _].
      unfold zlen in *. rewrite length_drop. lia. }
    apply wp_conj; [by apply dispatch_frame | by apply dispatch_broadcasts].
  - done.
  - lia.
  - by intros rest w' (_ & _ & _ & Hc).
Qed.
End Commander.
