(* ===== verification/FrameQueue.v ===== *)
(** * The linked frame queue ([src/can_frame_queue.c]).

    An earlier queue of received frames, which the build no longer compiles:
    the nodes come from one block and are linked twice, by [next] in the queue
    and by [pool_next] in the pool of free nodes.  A node pointer is an index
    into the block of its queue.

    The queue is a bounded first-in first-out queue as long as a consumer
    takes the whole queue and gives the nodes back before the next frames are
    queued; the examples at the end show what the stale [pool_next] links do
    otherwise. *)
From S2P Require Import Prelude Layout.

(** ** Data *)

(** [struct timespec] *)
Record timespec := mk_timespec { tv_sec : Z; tv_nsec : Z }.

Record BatchFrame := mk_batch { bt_frame : axican_frame; bt_ts : timespec; bt_can_id : Z }.

Record CanFrameNode := mk_node {
  nd_frame : axican_frame;
  nd_can_id : Z;
  nd_timestamp : timespec;
  nd_next : option nat;
  nd_pool_next : option nat
}.

(** The queue, its block ([None] when there is none) and its mutex. *)
Record CanFrameQueue := mk_queue {
  q_head : option nat;
  q_tail : option nat;
  q_pool_head : option nat;
  q_count : Z;
  q_max_size : Z;
  q_block : option (list CanFrameNode);
  q_locked : bool
}.

Definition set_q_head p q := mk_queue p (q_tail q) (q_pool_head q) (q_count q) (q_max_size q) (q_block q) (q_locked q).
Definition set_q_tail p q := mk_queue (q_head q) p (q_pool_head q) (q_count q) (q_max_size q) (q_block q) (q_locked q).
Definition set_q_pool_head p q := mk_queue (q_head q) (q_tail q) p (q_count q) (q_max_size q) (q_block q) (q_locked q).
Definition set_q_count n q := mk_queue (q_head q) (q_tail q) (q_pool_head q) n (q_max_size q) (q_block q) (q_locked q).
Definition set_q_max_size n q := mk_queue (q_head q) (q_tail q) (q_pool_head q) (q_count q) n (q_block q) (q_locked q).
Definition set_q_block b q := mk_queue (q_head q) (q_tail q) (q_pool_head q) (q_count q) (q_max_size q) b (q_locked q).
Definition set_q_locked b q := mk_queue (q_head q) (q_tail q) (q_pool_head q) (q_count q) (q_max_size q) (q_block q) b.

Definition set_nd_next p nd := mk_node (nd_frame nd) (nd_can_id nd) (nd_timestamp nd) p (nd_pool_next nd).
Definition set_nd_pool_next p nd := mk_node (nd_frame nd) (nd_can_id nd) (nd_timestamp nd) (nd_next nd) p.

(** The frame a node holds, and a node with a frame stored into it. *)
Definition node_frame (nd : CanFrameNode) : BatchFrame := mk_batch (nd_frame nd) (nd_timestamp nd) (nd_can_id nd).
Definition node_store (b : BatchFrame) (nd : CanFrameNode) : CanFrameNode :=
  mk_node (bt_frame b) (bt_can_id b) (bt_ts b) None (nd_pool_next nd).

(** ** Access to the queue *)

#[local] Open Scope c_scope.

Definition queue_lock : M CanFrameQueue unit :=
  let* held := gets q_locked in ensure (negb held) ;; modify (set_q_locked true).
Definition queue_unlock : M CanFrameQueue unit :=
  let* held := gets q_locked in ensure held ;; modify (set_q_locked false).

(** Reading and writing a node; outside the block it is stuck. *)
Definition node_at (p : nat) : M CanFrameQueue CanFrameNode :=
  let* block := gets q_block in
  let* mem := of_option block in
  of_option (mem !! p).
Definition node_upd (p : nat) (f : CanFrameNode -> CanFrameNode) : M CanFrameQueue unit :=
  let* block := gets q_block in
  let* mem := of_option block in
  let* nd := of_option (mem !! p) in
  modify (set_q_block (Some (<[p := f nd]> mem))).

(** A sum of the type [int]: an overflow is undefined. *)
Definition int_sum (a b : Z) : M CanFrameQueue Z :=
  ensure ((- 2 ^ 31 <=? a + b) && (a + b <? 2 ^ 31)) ;; ret (a + b).

(** What a call that may wait does: it returns, or it waits for a signal,
    with the mutex released. *)
Inductive outcome (A : Type) := Returned (r : A) | Waiting.
Arguments Returned {A} _.
Arguments Waiting {A}.

(** ** Operations

    A null queue pointer is [queue = false]. *)

(** [for (i = 0; i < max_size - 1; i++)] *)
Fixpoint link_pool (n i : nat) : M CanFrameQueue unit :=
  match n with
  | O => ret tt
  | S n' => node_upd i (set_nd_pool_next (Some (S i))) ;; link_pool n' (S i)
  end.

(** [pool] is what [malloc] gives for [max_size] nodes. *)
Definition can_queue_init (queue : bool) (pool : option (list CanFrameNode)) (max_size : Z)
    : M CanFrameQueue unit :=
  if negb queue || (max_size <=? 0) then ret tt else
  modify (set_q_head None) ;; modify (set_q_tail None) ;; modify (set_q_count 0) ;;
  modify (set_q_max_size max_size) ;;
  match pool with
  | None => ret tt
  | Some mem =>
    modify (set_q_block (Some mem)) ;;
    modify (set_q_pool_head (Some O)) ;;
    link_pool (Z.to_nat (max_size - 1)) 0 ;;
    node_upd (Z.to_nat (max_size - 1)) (set_nd_pool_next None) ;;
    modify (set_q_locked false)
  end.

(** Linking a node behind the last one of the call, or of the queue. *)
Definition append_node (last_node : option nat) (node : nat) : M CanFrameQueue unit :=
  match last_node with
  | Some last => node_upd last (set_nd_next (Some node))
  | None =>
    let* tail := gets q_tail in
    match tail with
    | None => modify (set_q_head (Some node))
    | Some t => node_upd t (set_nd_next (Some node))
    end
  end.

(** The [for] loop of the enqueuing; [None] when the pool is empty. *)
Fixpoint link_batch (n : nat) (i : nat) (batch : list BatchFrame) (last_node : option nat)
    : M CanFrameQueue (option (option nat)) :=
  match n with
  | O => ret (Some last_node)
  | S n' =>
    let* free := gets q_pool_head in
    match free with
    | None => ret None
    | Some node =>
      let* nd := node_at node in
      modify (set_q_pool_head (nd_pool_next nd)) ;;
      let* b := of_option (batch !! i) in
      node_upd node (node_store b) ;;
      append_node last_node node ;;
      link_batch n' (S i) batch (Some node)
    end
  end.

(** From the [while] on, with the mutex held. *)
Definition enqueue_locked (batch : list BatchFrame) (batch_size : Z) : M CanFrameQueue (outcome Z) :=
  let* count := gets q_count in
  let* max_size := gets q_max_size in
  let* wanted := int_sum count batch_size in
  if wanted >? max_size then queue_unlock ;; ret Waiting else
  let* last := link_batch (Z.to_nat batch_size) 0 batch None in
  match last with
  | None => queue_unlock ;; ret (Returned (-1))
  | Some last_node =>
    when (bool_decide (is_Some last_node)) (modify (set_q_tail last_node)) ;;
    queue_unlock ;; ret (Returned 0)
  end.

Definition can_queue_enqueue_batch (queue : bool) (batch : option (list BatchFrame)) (batch_size : Z)
    : M CanFrameQueue (outcome Z) :=
  match batch with
  | Some bs =>
    if negb queue || (batch_size <=? 0) then ret (Returned (-1)) else
    queue_lock ;;
    let* count := gets q_count in
    let* count := int_sum count batch_size in
    modify (set_q_count count) ;;
    enqueue_locked bs batch_size
  | None => ret (Returned (-1))
  end.

(** A waiting call is woken: it has the mutex again and tests the room again. *)
Definition enqueue_woken (batch : list BatchFrame) (batch_size : Z) : M CanFrameQueue (outcome Z) :=
  queue_lock ;; enqueue_locked batch batch_size.

(** The [for] loop of the dequeuing: the nodes stored into the array, which
    has [room] elements left, and [current] after it. *)
Fixpoint collect (n : nat) (room : Z) (current : option nat)
    : M CanFrameQueue (list nat * option nat) :=
  match n with
  | O => ret ([], current)
  | S n' =>
    match current with
    | None => ret ([], None)
    | Some node =>
      ensure (0 <? room) ;;
      let* nd := node_at node in
      let* (nodes, rest) := collect n' (room - 1) (nd_next nd) in
      ret (node :: nodes, rest)
    end
  end.

Definition dequeue_locked (room max_count : Z) : M CanFrameQueue (outcome (Z * list nat)) :=
  let* count := gets q_count in
  if count =? 0 then queue_unlock ;; ret Waiting else
  let take_count := if count <? max_count then count else max_count in
  let* head := gets q_head in
  let* (nodes, current) := collect (Z.to_nat take_count) room head in
  let take_count := if zlen nodes <? take_count then zlen nodes else take_count in
  modify (set_q_head current) ;;
  when (negb (bool_decide (is_Some current))) (modify (set_q_tail None)) ;;
  modify (set_q_count (count - take_count)) ;;
  queue_unlock ;; ret (Returned (take_count, nodes)).

(** [nodes] is the number of elements of the array, if it is not null. *)
Definition can_queue_dequeue_batch (queue : bool) (nodes : option Z) (max_count : Z)
    : M CanFrameQueue (outcome (Z * list nat)) :=
  match nodes with
  | Some room =>
    if negb queue || (max_count <=? 0) then ret (Returned (-1, [])) else
    queue_lock ;; dequeue_locked room max_count
  | None => ret (Returned (-1, []))
  end.

(** A waiting call is woken; [wait_ret] is what [pthread_cond_wait] gives. *)
Definition dequeue_woken (wait_ret room max_count : Z) : M CanFrameQueue (outcome (Z * list nat)) :=
  queue_lock ;;
  if negb (wait_ret =? 0) then queue_unlock ;; ret (Returned (-1, []))
  else dequeue_locked room max_count.

Definition can_queue_recycle_nodes (queue : bool) (nodes : option (list nat)) (node_count : Z)
    : M CanFrameQueue unit :=
  match nodes with
  | Some ns =>
    if negb queue || (node_count <=? 0) then ret tt else
    queue_lock ;;
    let* last := of_option (ns !! Z.to_nat (node_count - 1)) in
    let* pool := gets q_pool_head in
    node_upd last (set_nd_pool_next pool) ;;
    let* first := of_option (ns !! O) in
    modify (set_q_pool_head (Some first)) ;;
    queue_unlock
  | None => ret tt
  end.

(** [free] takes the address of the block, the node 0, only. *)
Definition can_queue_destroy (queue : bool) : M CanFrameQueue unit :=
  if negb queue then ret tt else
  let* pool := gets q_pool_head in
  when (bool_decide (is_Some pool))
    (let* block := gets q_block in
     ensure (bool_decide (is_Some block) && bool_decide (pool = Some O)) ;;
     modify (set_q_block None) ;;
     modify (set_q_pool_head None)) ;;
  modify (set_q_head None) ;; modify (set_q_tail None) ;;
  modify (set_q_count 0) ;; modify (set_q_max_size 0).

(** ** Using the queue

    A consumer that takes the whole queue, reads the frames and gives the
    nodes back. *)
Fixpoint read_nodes (nodes : list nat) : M CanFrameQueue (list BatchFrame) :=
  match nodes with
  | [] => ret []
  | p :: nodes' =>
    let* nd := node_at p in
    let* frames := read_nodes nodes' in
    ret (node_frame nd :: frames)
  end.

Definition drain (room : Z) : M CanFrameQueue (outcome (list BatchFrame)) :=
  let* r := can_queue_dequeue_batch true (Some room) room in
  match r with
  | Waiting => ret Waiting
  | Returned (n, nodes) =>
    let* frames := read_nodes nodes in
    can_queue_recycle_nodes true (Some nodes) n ;;
    ret (Returned frames)
  end.

Inductive fq_op := FqEnqueue (batch : list BatchFrame) | FqDrain (room : Z).
Inductive fq_obs := Enqueued (r : outcome Z) | Drained (r : outcome (list BatchFrame)).

Definition fq_exec (op : fq_op) : M CanFrameQueue fq_obs :=
  match op with
  | FqEnqueue batch =>
    let* r := can_queue_enqueue_batch true (Some batch) (zlen batch) in ret (Enqueued r)
  | FqDrain room => let* r := drain room in ret (Drained r)
  end.

Fixpoint fq_run (ops : list fq_op) : M CanFrameQueue (list fq_obs) :=
  match ops with
  | [] => ret []
  | op :: ops' => let* o := fq_exec op in let* os := fq_run ops' in ret (o :: os)
  end.

(** ** The specification: a bounded queue

    [None] when the operation does not fit the discipline: a batch needs twice
    its size of room, and a consumer must have room for the whole queue. *)
Definition fifo_step (cap : Z) (q : list BatchFrame) (op : fq_op) : option (fq_obs * list BatchFrame) :=
  match op with
  | FqEnqueue [] => Some (Enqueued (Returned (-1)), q)
  | FqEnqueue batch =>
    if zlen q + 2 * zlen batch <=? cap then Some (Enqueued (Returned 0), q ++ batch) else None
  | FqDrain room =>
    if (0 <? room) && (zlen q <=? room) then
      Some (match q with [] => (Drained Waiting, []) | _ => (Drained (Returned q), []) end)
    else None
  end.

Fixpoint fifo_run (cap : Z) (q : list BatchFrame) (ops : list fq_op)
    : option (list fq_obs * list BatchFrame) :=
  match ops with
  | [] => Some ([], q)
  | op :: ops' =>
    match fifo_step cap q op with
    | None => None
    | Some (o, q') =>
      match fifo_run cap q' ops' with
      | None => None
      | Some (os, q'') => Some (o :: os, q'')
      end
    end
  end.

(** ** Linked nodes

    [chain f mem p xs q]: following [f] from [p] gives the nodes [xs], and then
    [q]. *)
Fixpoint chain (f : CanFrameNode -> option nat) (mem : list CanFrameNode) (p : option nat)
    (xs : list nat) (q : option nat) : Prop :=
  match xs with
  | [] => p = q
  | x :: xs' => p = Some x /\ exists nd, mem !! x = Some nd /\ chain f mem (f nd) xs' q
  end.

Definition holds (mem : list CanFrameNode) (xs : list nat) (frames : list BatchFrame) : Prop :=
  Forall2 (fun x b => exists nd, mem !! x = Some nd /\ node_frame nd = b) xs frames.

Lemma chain_app f mem p xs ys q :
  chain f mem p (xs ++ ys) q <-> exists r, chain f mem p xs r /\ chain f mem r ys q.
Proof.
  revert p. induction xs as [|x xs IH]; intros p; simpl; [naive_solver|].
  setoid_rewrite IH. naive_solver.
Qed.

Lemma chain_head f mem p xs q : chain f mem p xs q -> p = match head xs with Some x => Some x | None => q end.
Proof. destruct xs; simpl; naive_solver. Qed.

(** A change of the block that keeps the links of the nodes of the chain. *)
Lemma chain_ext f mem mem' p xs q :
  (forall x nd, x ∈ xs -> mem !! x = Some nd -> exists nd', mem' !! x = Some nd' /\ f nd' = f nd) ->
  chain f mem p xs q -> chain f mem' p xs q.
Proof.
  revert p. induction xs as [|x xs IH]; intros p Hm; simpl; [done|].
  intros [-> (nd & Hx & Hc)]. split; [done|].
  destruct (Hm x nd) as (nd' & Hx' & Hf); [set_solver | done |].
  exists nd'. split; [done|]. rewrite Hf. apply IH; [|done]. intros y ndy Hy. apply Hm. set_solver.
Qed.

Lemma holds_ext mem mem' xs frames :
  (forall x nd, x ∈ xs -> mem !! x = Some nd -> exists nd', mem' !! x = Some nd' /\ node_frame nd' = node_frame nd) ->
  holds mem xs frames -> holds mem' xs frames.
Proof.
  intros Hm Hh. unfold holds in *. induction Hh as [|x b xs frames (nd & Hx & <-) Hh IH]; constructor.
  - destruct (Hm x nd) as (nd' & ? & ?); [set_solver | done | eauto].
  - apply IH. intros y ndy Hy. apply Hm. set_solver.
Qed.

(** One updated node: what a function of the nodes gives elsewhere, and there. *)
Lemma upd_link {A} (f : CanFrameNode -> A) (mem : list CanFrameNode) p nd nd' (xs : list nat) :
  mem !! p = Some nd -> (p ∈ xs -> f nd' = f nd) ->
  forall x ndx, x ∈ xs -> mem !! x = Some ndx -> exists ndx', <[p := nd']> mem !! x = Some ndx' /\ f ndx' = f ndx.
Proof.
  intros Hp Hf x ndx Hx Hm. destruct (decide (x = p)) as [->|Hne].
  - exists nd'. rewrite list_lookup_insert_eq by (by eapply lookup_lt_Some). simplify_eq. auto.
  - exists ndx. by rewrite list_lookup_insert_ne.
Qed.

(** The nodes of the queue [xs], of the pool [ps], and the frames queued. *)
Record linked (xs ps : list nat) (frames : list BatchFrame) (mem : list CanFrameNode)
    (first free : option nat) : Prop := {
  lk_nodup : NoDup (xs ++ ps);
  lk_next : chain nd_next mem first xs None;
  lk_pool : chain nd_pool_next mem (head (xs ++ ps)) (xs ++ ps) None;
  lk_free : free = head ps;
  lk_frames : holds mem xs frames
}.

Lemma linked_free xs p ps frames mem first free :
  linked xs (p :: ps) frames mem first free ->
  free = Some p /\ exists nd, mem !! p = Some nd /\ nd_pool_next nd = head ps.
Proof.
  intros [_ _ Hp Hf _]. split; [done|].
  apply chain_app in Hp as (r & _ & Hr). simpl in Hr. destruct Hr as (-> & nd & Hnd & Hc).
  exists nd. split; [done|]. apply chain_head in Hc. rewrite Hc. by destruct ps.
Qed.

(** Storing into a free node and moving it to the end of the queue. *)
Lemma linked_store xs p ps frames mem first free nd b :
  linked xs (p :: ps) frames mem first free -> mem !! p = Some nd ->
  let mem' := <[p := node_store b nd]> mem in
  NoDup ((xs ++ [p]) ++ ps) /\ chain nd_next mem' first xs None /\
  chain nd_pool_next mem' (head ((xs ++ [p]) ++ ps)) ((xs ++ [p]) ++ ps) None /\
  nd_pool_next nd = head ps /\ holds mem' (xs ++ [p]) (frames ++ [b]).
Proof.
  intros Hl Hp mem'. pose proof (linked_free _ _ _ _ _ _ _ Hl) as (_ & nd' & Hp' & Hfree).
  simplify_eq. destruct Hl as [Hnd Hn Hpool _ Hh].
  assert (p ∉ xs) as Hnin.
  { apply list.NoDup_app in Hnd as (_ & Hd & _). intros Hin. apply (Hd p Hin). set_solver. }
  rewrite <- app_assoc. simpl. split_and!; [done | | | done | apply Forall2_app].
  - eapply chain_ext; [by eapply upd_link | done].
  - eapply chain_ext; [by eapply upd_link | done].
  - eapply holds_ext; [by eapply upd_link | done].
  - constructor; [|constructor]. exists (node_store b nd). split; [|by destruct b].
    apply list_lookup_insert_eq. by eapply lookup_lt_Some.
Qed.

Lemma chain_snoc mem first xs last p ndl ndp :
  chain nd_next mem first (xs ++ [last]) None -> NoDup (xs ++ [last]) -> p ∉ xs ++ [last] ->
  mem !! last = Some ndl -> mem !! p = Some ndp -> nd_next ndp = None ->
  chain nd_next (<[last := set_nd_next (Some p) ndl]> mem) first ((xs ++ [last]) ++ [p]) None.
Proof.
  intros Hc Hnd Hp Hl Hmp Hn. apply list.NoDup_app in Hnd as (_ & Hd & _).
  assert (last ∉ xs) as Hlx by (intros Hin; apply (Hd _ Hin); set_solver).
  rewrite <- app_assoc. apply chain_app. apply chain_app in Hc as (r & Hr & Hc).
  exists r. split; [eapply chain_ext; [by eapply upd_link | done]|].
  destruct Hc as (-> & nd & Hl' & Hc). split; [done|].
  exists (set_nd_next (Some p) ndl).
  rewrite list_lookup_insert_eq by (by eapply lookup_lt_Some). split; [done|].
  split; [done|]. exists ndp. rewrite list_lookup_insert_ne by set_solver. done.
Qed.

Lemma linked_push_first p ps mem first free nd b :
  linked [] (p :: ps) [] mem first free -> mem !! p = Some nd ->
  linked [p] ps [b] (<[p := node_store b nd]> mem) (Some p) (nd_pool_next nd).
Proof.
  intros Hl Hp. destruct (linked_store _ _ _ _ _ _ _ _ b Hl Hp) as (H1 & _ & H3 & H4 & H5).
  split; try done. split; [done|]. exists (node_store b nd).
  rewrite list_lookup_insert_eq by (by eapply lookup_lt_Some). done.
Qed.

Lemma linked_push xs last p ps frames mem first free nd b :
  linked (xs ++ [last]) (p :: ps) frames mem first free -> mem !! p = Some nd ->
  exists ndl, <[p := node_store b nd]> mem !! last = Some ndl /\
  linked ((xs ++ [last]) ++ [p]) ps (frames ++ [b])
    (<[last := set_nd_next (Some p) ndl]> (<[p := node_store b nd]> mem)) first (nd_pool_next nd).
Proof.
  intros Hl Hp. destruct (linked_store _ _ _ _ _ _ _ _ b Hl Hp) as (H1 & H2 & H3 & H4 & H5).
  pose proof H2 as (r & _ & -> & ndl & Hndl & _)%chain_app.
  apply list.NoDup_app in H1 as Hd. destruct Hd as (Hd & _ & _).
  pose proof Hd as (Hd1 & Hd2 & _)%list.NoDup_app.
  exists ndl. split; [done|]. split; [done | | | done |].
  - eapply chain_snoc; try done.
    + intros Hin. apply (Hd2 _ Hin). set_solver.
    + apply list_lookup_insert_eq. by eapply lookup_lt_Some.
    + done.
  - eapply chain_ext; [by eapply upd_link | done].
  - eapply holds_ext; [by eapply upd_link | done].
Qed.

(** ** The operations on linked nodes *)

Lemma wp_node_at mem p nd (Q : CanFrameNode -> CanFrameQueue -> Prop) s :
  q_block s = Some mem -> mem !! p = Some nd -> Q nd s -> wp (node_at p) Q s.
Proof.
  intros Hb Hp HQ. apply wp_bind, wp_gets, wp_bind. eapply wp_of_option; [done|].
  by eapply wp_of_option.
Qed.

Lemma wp_node_upd mem p f nd (Q : unit -> CanFrameQueue -> Prop) s :
  q_block s = Some mem -> mem !! p = Some nd ->
  Q tt (set_q_block (Some (<[p := f nd]> mem)) s) -> wp (node_upd p f) Q s.
Proof.
  intros Hb Hp HQ. apply wp_bind, wp_gets, wp_bind. eapply wp_of_option; [done|].
  apply wp_bind. eapply wp_of_option; [done|]. by apply wp_modify.
Qed.

Lemma set_q_head_id q : set_q_head (q_head q) q = q.
Proof. by destruct q. Qed.

Lemma wp_append_node last_node xs p ps frames mem nd b Q s :
  linked xs (p :: ps) frames mem (q_head s) (Some p) -> mem !! p = Some nd ->
  match last_node with Some l => Some l | None => q_tail s end = list.last xs ->
  q_block s = Some (<[p := node_store b nd]> mem) ->
  (forall mem' first', linked (xs ++ [p]) ps (frames ++ [b]) mem' first' (nd_pool_next nd) ->
    Q tt (set_q_head first' (set_q_block (Some mem') s))) ->
  wp (append_node last_node p) Q s.
Proof.
  intros Hl Hp Hlast Hb HQ. unfold append_node.
  destruct xs as [|l xs _] using rev_ind.
  - assert (frames = []) as -> by (destruct Hl as [_ _ _ _ Hh]; by inversion Hh).
    destruct last_node as [?|]; [done|]. apply wp_bind, wp_gets. rewrite Hlast. apply wp_modify.
    replace s with (set_q_block (Some (<[p := node_store b nd]> mem)) s) at 1 by (rewrite <- Hb; by destruct s).
    apply HQ. simpl. by eapply linked_push_first.
  - destruct (linked_push _ _ _ _ _ _ _ _ _ b Hl Hp) as (ndl & Hndl & Hl').
    rewrite last_snoc in Hlast.
    assert (wp (node_upd l (set_nd_next (Some p))) Q s) as Hw.
    { eapply wp_node_upd; [done | done |]. rewrite <- (set_q_head_id (set_q_block _ s)). by apply HQ. }
    destruct last_node as [l'|]; [by simplify_eq|]. apply wp_bind, wp_gets. by rewrite Hlast.
Qed.

(** What the [for] loop leaves alone. *)
Definition kept (s s' : CanFrameQueue) : Prop :=
  q_tail s' = q_tail s /\ q_count s' = q_count s /\ q_max_size s' = q_max_size s /\ q_locked s' = q_locked s.

Lemma link_batch_spec n i batch xs ys ps frames mem s :
  linked (xs ++ ys) ps frames mem (q_head s) (q_pool_head s) -> q_block s = Some mem ->
  q_tail s = list.last xs -> (n <= length ps)%nat -> (i + n = length batch)%nat ->
  wp (link_batch n i batch (list.last ys)) (fun r s' => exists zs ps' mem',
    ps = zs ++ ps' /\ length zs = n /\ r = Some (list.last (ys ++ zs)) /\ q_block s' = Some mem' /\
    linked (xs ++ ys ++ zs) ps' (frames ++ drop i batch) mem' (q_head s') (q_pool_head s') /\ kept s s') s.
Proof.
  revert i ys ps frames mem s. induction n as [|n IH]; intros i ys ps frames mem s Hl Hb Ht Hn Hi.
  { apply wp_ret. exists [], ps, mem. rewrite !app_nil_r, drop_ge, app_nil_r by lia. done. }
  destruct ps as [|p ps]; [simpl in Hn; lia|].
  pose proof (linked_free _ _ _ _ _ _ _ Hl) as (Hfree & nd & Hp & Hnext).
  destruct (lookup_lt_is_Some_2 batch i) as [b Hbi]; [lia|].
  simpl. apply wp_bind, wp_gets. rewrite Hfree. rewrite Hfree in Hl.
  apply wp_bind. eapply wp_node_at; [done | done |]. apply wp_bind, wp_modify.
  apply wp_bind. eapply wp_of_option; [done|]. apply wp_bind. eapply wp_node_upd; [done | done |].
  apply wp_bind. eapply wp_append_node; [exact Hl | done | | done |].
  { simpl. rewrite Ht, last_app. by destruct (list.last ys). }
  intros mem' first' Hl'. replace (Some p) with (list.last (ys ++ [p])) by apply last_snoc.
  eapply wp_mono; [apply (IH (S i) (ys ++ [p]) ps (frames ++ [b]) mem')|].
  - by rewrite app_assoc.
  - done.
  - done.
  - simpl in Hn. lia.
  - lia.
  - intros r s' (zs & ps' & mem2 & -> & Hlen & -> & Hb' & Hl2 & Hk). exists (p :: zs), ps', mem2.
    rewrite (drop_S batch b i Hbi). revert Hl2. rewrite <- !app_assoc. simpl. naive_solver.
Qed.

(** The queue between two calls: [frames] are queued, and all the nodes are in
    the queue or in the pool. *)
Definition fq_inv (cap : Z) (frames : list BatchFrame) (s : CanFrameQueue) : Prop :=
  exists xs ps mem, linked xs ps frames mem (q_head s) (q_pool_head s) /\ q_block s = Some mem /\
    q_tail s = list.last xs /\ q_count s = zlen xs /\ q_max_size s = cap /\
    zlen (xs ++ ps) = cap /\ q_locked s = false.

Lemma linked_length xs ps frames mem first free :
  linked xs ps frames mem first free -> zlen frames = zlen xs.
Proof. intros [_ _ _ _ Hh]. apply Forall2_length in Hh. unfold zlen. lia. Qed.

Lemma wp_queue_lock (Q : unit -> CanFrameQueue -> Prop) s :
  q_locked s = false -> Q tt (set_q_locked true s) -> wp queue_lock Q s.
Proof.
  intros Hl HQ. apply wp_bind, wp_gets. apply wp_bind, wp_ensure; [by rewrite Hl|]. by apply wp_modify.
Qed.

Lemma wp_queue_unlock (Q : unit -> CanFrameQueue -> Prop) s :
  q_locked s = true -> Q tt (set_q_locked false s) -> wp queue_unlock Q s.
Proof.
  intros Hl HQ. apply wp_bind, wp_gets. apply wp_bind, wp_ensure; [by rewrite Hl|]. by apply wp_modify.
Qed.

Lemma wp_int_sum a b (Q : Z -> CanFrameQueue -> Prop) s :
  - 2 ^ 31 <= a + b < 2 ^ 31 -> Q (a + b) s -> wp (int_sum a b) Q s.
Proof.
  intros Hr HQ. apply wp_bind, wp_ensure; [|by apply wp_ret].
  apply andb_true_iff. split; [apply Z.leb_le | apply Z.ltb_lt]; lia.
Qed.

(** [if (!queue || !batch || batch_size <= 0)] and the sum, for valid arguments. *)
Lemma wp_enqueue_enter batch (Q : outcome Z -> CanFrameQueue -> Prop) s :
  batch <> [] -> q_locked s = false -> - 2 ^ 31 <= q_count s + zlen batch < 2 ^ 31 ->
  wp (enqueue_locked batch (zlen batch)) Q
     (set_q_count (q_count s + zlen batch) (set_q_locked true s)) ->
  wp (can_queue_enqueue_batch true (Some batch) (zlen batch)) Q s.
Proof.
  intros Hb Hl Hr HQ. unfold can_queue_enqueue_batch.
  rewrite (proj2 (Z.leb_gt _ _)) by (destruct batch; [done | zlia]).
  apply wp_bind, wp_queue_lock; [done|]. apply wp_bind, wp_gets.
  apply wp_bind, wp_int_sum; [done|]. by apply wp_bind, wp_modify.
Qed.

Lemma enqueue_fits cap frames batch s :
  fq_inv cap frames s -> batch <> [] -> cap < 2 ^ 31 -> zlen frames + 2 * zlen batch <= cap ->
  wp (can_queue_enqueue_batch true (Some batch) (zlen batch))
     (fun r s' => r = Returned 0 /\ fq_inv cap (frames ++ batch) s') s.
Proof.
  intros (xs & ps & mem & Hl & Hb & Ht & Hc & Hm & Hcap & Hk) Hne Hmax Hfit.
  pose proof (linked_length _ _ _ _ _ _ Hl) as Hlen. rewrite zlen_app in Hcap.
  assert (0 < zlen batch) by (destruct batch; [done | zlia]).
  assert (0 <= zlen xs) by zlia.
  apply wp_enqueue_enter; [done | done | lia |].
  apply wp_bind, wp_gets. apply wp_bind, wp_gets. apply wp_bind, wp_int_sum; [simpl; lia|].
  simpl q_max_size. simpl q_count. rewrite Z.gtb_ltb, (proj2 (Z.ltb_ge _ _)) by lia.
  unfold zlen at 1. rewrite Nat2Z.id. apply wp_bind. change None with (list.last (@nil nat)) at 1.
  eapply wp_mono; [apply (link_batch_spec _ _ _ xs [] ps frames mem)|]; try done.
  - by rewrite app_nil_r.
  - unfold zlen in *. lia.
  - intros r s' (zs & ps' & mem' & -> & Hz & -> & Hb' & Hl' & Ht' & Hc' & Hm' & Hk').
    simpl in *. destruct (list.last zs) as [z|] eqn:Ez.
    2:{ apply last_None in Ez as ->. zlia. }
    apply wp_bind, wp_when; [intros _ | done]. apply wp_modify.
    apply wp_bind, wp_queue_unlock; [by simpl; rewrite Hk'|]. apply wp_ret. split; [done|].
    exists (xs ++ zs), ps', mem'. rewrite drop_0 in Hl'. split_and!; try done; simpl.
    + by rewrite last_app, Ez.
    + rewrite Hc', zlen_app. unfold zlen in *. lia.
    + congruence.
    + rewrite !zlen_app in *. lia.
Qed.

Lemma enqueue_waits cap frames batch s :
  fq_inv cap frames s -> batch <> [] -> cap < zlen frames + 2 * zlen batch < 2 ^ 31 ->
  wp (can_queue_enqueue_batch true (Some batch) (zlen batch))
     (fun r s' => r = Waiting /\ s' = set_q_count (zlen frames + zlen batch) s) s.
Proof.
  intros (xs & ps & mem & Hl & Hb & Ht & Hc & Hm & Hcap & Hk) Hne Hfull.
  rewrite (linked_length _ _ _ _ _ _ Hl) in *. rewrite <- Hc, <- Hm in *.
  assert (0 < zlen batch) by (destruct batch; [done | zlia]).
  assert (0 <= q_count s) by (rewrite Hc; zlia).
  apply wp_enqueue_enter; [done | done | lia |].
  apply wp_bind, wp_gets. apply wp_bind, wp_gets. apply wp_bind, wp_int_sum; [simpl; lia|].
  simpl q_max_size. simpl q_count. rewrite Z.gtb_ltb, (proj2 (Z.ltb_lt _ _)) by lia.
  apply wp_bind, wp_queue_unlock; [done|]. apply wp_ret. split; [done|].
  destruct s; simpl in *. by subst.
Qed.

Lemma collect_spec xs room first mem s :
  chain nd_next mem first xs None -> q_block s = Some mem -> zlen xs <= room ->
  wp (collect (length xs) room first) (fun r s' => r = (xs, None) /\ s' = s) s.
Proof.
  revert room first. induction xs as [|x xs IH]; intros room first Hc Hb Hr; simpl.
  { apply wp_ret. simpl in Hc. by rewrite Hc. }
  destruct Hc as (-> & nd & Hx & Hc).
  apply wp_bind, wp_ensure; [apply Z.ltb_lt; zlia|].
  apply wp_bind. eapply wp_node_at; [done | done |]. apply wp_bind.
  eapply wp_mono; [apply (IH (room - 1) (nd_next nd)); [done | done | zlia]|].
  intros ? ? [-> ->]. by apply wp_ret.
Qed.

Lemma read_nodes_spec mem xs frames s :
  holds mem xs frames -> q_block s = Some mem ->
  wp (read_nodes xs) (fun r s' => r = frames /\ s' = s) s.
Proof.
  intros Hh Hb. induction Hh as [|x b xs frames (nd & Hx & <-) Hh IH]; simpl; [by apply wp_ret|].
  apply wp_bind. eapply wp_node_at; [done | done |]. apply wp_bind.
  eapply wp_mono; [exact IH|]. intros ? ? [-> ->]. by apply wp_ret.
Qed.

(** Giving all the nodes of the queue back to the pool. *)
Lemma linked_recycle xs l ps frames mem first free :
  linked (xs ++ [l]) ps frames mem first free ->
  exists nd, mem !! l = Some nd /\
  linked [] ((xs ++ [l]) ++ ps) [] (<[l := set_nd_pool_next free nd]> mem) None (head (xs ++ [l])).
Proof.
  intros [Hnd _ Hp -> _]. pose proof Hp as (r & (r' & _ & -> & nd & Hl & Hr)%chain_app & Hps)%chain_app.
  simpl in Hr. subst r. apply chain_head in Hps. exists nd. split; [done|]. split; try done.
  - simpl. eapply chain_ext; [eapply upd_link; [done|]|exact Hp].
    intros _. simpl. rewrite Hps. by destruct ps.
  - by destruct xs.
  - constructor.
Qed.

Lemma drain_spec cap frames room s :
  fq_inv cap frames s -> 0 < room -> zlen frames <= room ->
  wp (drain room) (fun r s' => r = match frames with [] => Waiting | _ => Returned frames end /\
    fq_inv cap [] s') s.
Proof.
  intros Hinv Hpos Hr. pose proof Hinv as (xs & ps & mem & Hl & Hb & Ht & Hc & Hm & Hcap & Hk).
  pose proof (linked_length _ _ _ _ _ _ Hl) as Hlen. apply wp_bind.
  unfold can_queue_dequeue_batch. rewrite (proj2 (Z.leb_gt _ _)) by lia.
  apply wp_bind, wp_queue_lock; [done|]. apply wp_bind, wp_gets. simpl q_count. rewrite Hc.
  destruct xs as [|l xs _] using rev_ind.
  { assert (frames = []) as -> by (destruct frames; [done | zlia]).
    apply wp_bind, wp_queue_unlock; [done|]. apply wp_ret, wp_ret. split; [done|].
    replace (set_q_locked false (set_q_locked true s)) with s; [done|].
    destruct s; simpl in *; by subst. }
  rewrite (proj2 (Z.eqb_neq _ _)) by zlia.
  assert ((if zlen (xs ++ [l]) <? room then zlen (xs ++ [l]) else room) = zlen (xs ++ [l])) as ->.
  { destruct (Z.ltb_spec (zlen (xs ++ [l])) room); lia. }
  apply wp_bind, wp_gets, wp_bind. simpl q_head. unfold zlen at 1. rewrite Nat2Z.id.
  eapply wp_mono; [apply (collect_spec _ _ _ mem); [by destruct Hl | done | lia]|].
  intros ? ? [-> ->]. rewrite Z.ltb_irrefl. apply wp_bind, wp_modify.
  apply wp_bind, wp_when; [intros _ | done]. apply wp_modify.
  apply wp_bind, wp_modify, wp_bind, wp_queue_unlock; [done|]. apply wp_ret.
  apply wp_bind. eapply wp_mono; [eapply read_nodes_spec; [by destruct Hl | done]|].
  intros ? ? [-> ->]. apply wp_bind. unfold can_queue_recycle_nodes.
  rewrite (proj2 (Z.leb_gt _ _)) by zlia.
  destruct (linked_recycle _ _ _ _ _ _ _ Hl) as (nd & Hnd & Hl').
  apply wp_bind, wp_queue_lock; [done|]. apply wp_bind.
  eapply (wp_of_option _ l).
  { replace (Z.to_nat (zlen (xs ++ [l]) - 1)) with (length xs) by zlia. by apply list_lookup_middle. }
  apply wp_bind, wp_gets, wp_bind. eapply wp_node_upd; [done | done |]. apply wp_bind.
  eapply (wp_of_option _ (default O (head (xs ++ [l])))); [by destruct xs|].
  apply wp_bind, wp_modify, wp_queue_unlock; [done|]. apply wp_ret.
  split; [destruct frames; [zlia | done]|].
  exists [], ((xs ++ [l]) ++ ps), (<[l := set_nd_pool_next (q_pool_head s) nd]> mem).
  split_and!; try done; simpl.
  - by destruct xs.
  - zlia.
Qed.

(** ** The fresh queue *)

Lemma link_pool_spec n i mem s :
  q_block s = Some mem -> (i + n <= length mem)%nat ->
  wp (link_pool n i) (fun _ s' => exists mem', s' = set_q_block (Some mem') s /\ length mem' = length mem /\
    (forall j nd, (i <= j < i + n)%nat -> mem' !! j = Some nd -> nd_pool_next nd = Some (S j)) /\
    (forall j, (j < i)%nat -> mem' !! j = mem !! j)) s.
Proof.
  revert i mem s. induction n as [|n IH]; intros i mem s Hb Hn; simpl.
  { apply wp_ret. exists mem. rewrite <- Hb. split; [by destruct s|]. split_and!; [done | lia | done]. }
  destruct (lookup_lt_is_Some_2 mem i) as [nd Hi]; [lia|].
  apply wp_bind. eapply wp_node_upd; [done | done |].
  eapply wp_mono; [apply (IH (S i) (<[i := set_nd_pool_next (Some (S i)) nd]> mem)); [done|]|].
  { rewrite length_insert. lia. }
  intros _ s' (mem' & -> & Hlen & Hin & Hout). exists mem'.
  rewrite length_insert in Hlen. split_and!; [done | done | |].
  - intros j ndj Hj Hmj. destruct (decide (j = i)) as [->|Hne].
    + rewrite Hout, list_lookup_insert_eq in Hmj by lia. by simplify_eq.
    + apply (Hin j ndj); [lia | done].
  - intros j Hj. rewrite Hout by lia. apply list_lookup_insert_ne. lia.
Qed.

Lemma chain_seq mem n i :
  (i + n = length mem)%nat ->
  (forall j nd, (i <= j < length mem)%nat -> mem !! j = Some nd ->
    nd_pool_next nd = if decide (S j = length mem) then None else Some (S j)) ->
  chain nd_pool_next mem (if decide (i = length mem) then None else Some i) (seq i n) None.
Proof.
  revert i. induction n as [|n IH]; intros i Hlen Hm; simpl.
  - by rewrite decide_True by lia.
  - rewrite decide_False by lia. split; [done|].
    destruct (lookup_lt_is_Some_2 mem i) as [nd Hi]; [lia|]. exists nd. split; [done|].
    rewrite (Hm i nd) by (done || lia). apply IH; [lia|]. intros j ndj Hj. apply Hm. lia.
Qed.

Lemma queue_init_spec pool max_size s :
  zlen pool = max_size -> 0 < max_size ->
  wp (can_queue_init true (Some pool) max_size) (fun _ => fq_inv max_size []) s.
Proof.
  intros Hlen Hpos. unfold can_queue_init. simpl. rewrite (proj2 (Z.leb_gt _ _)) by lia.
  do 4 apply wp_bind, wp_modify. do 2 apply wp_bind, wp_modify. apply wp_bind.
  eapply wp_mono; [eapply (link_pool_spec _ _ pool); [done | zlia]|].
  intros _ s' (mem & -> & Hl & Hin & _).
  destruct (lookup_lt_is_Some_2 mem (Z.to_nat (max_size - 1))) as [nd Hnd]; [zlia|].
  apply wp_bind. eapply wp_node_upd; [done | done |]. apply wp_modify.
  set (mem' := <[_ := _]> mem).
  assert (length mem' = length pool) as Hl' by (unfold mem'; by rewrite length_insert).
  exists [], (seq 0 (length pool)), mem'. split_and!; try done; simpl.
  - assert (length pool <> 0)%nat by zlia.
    split; simpl; [apply base.NoDup_ListNoDup, List.seq_NoDup | done | | |constructor].
    + replace (head (seq 0 (length pool))) with (if decide (O = length mem') then None else Some O)
        by (rewrite Hl'; destruct pool; [zlia | done]).
      rewrite <- Hl'. apply chain_seq; [done|]. intros j ndj Hj Hmj. unfold mem' in Hmj.
      destruct (decide (j = Z.to_nat (max_size - 1))) as [->|Hne].
      * rewrite list_lookup_insert_eq in Hmj by (by eapply lookup_lt_Some).
        rewrite decide_True by zlia. by simplify_eq.
      * rewrite list_lookup_insert_ne in Hmj by done. rewrite decide_False by zlia.
        apply (Hin j); [zlia | done].
    + destruct pool; [zlia | done].
  - unfold zlen. rewrite length_seq. zlia.
Qed.

(** ** The refinement *)

Lemma fq_exec_spec cap q op o q' s :
  fq_inv cap q s -> cap < 2 ^ 31 -> fifo_step cap q op = Some (o, q') ->
  wp (fq_exec op) (fun r s' => r = o /\ fq_inv cap q' s') s.
Proof.
  intros Hinv Hmax Hstep. destruct op as [batch|room]; simpl in Hstep; apply wp_bind.
  - destruct batch as [|b batch]; [by simplify_eq|].
    destruct (Z.leb_spec (zlen q + 2 * zlen (b :: batch)) cap); [simplify_eq | done].
    eapply wp_mono; [by apply enqueue_fits|]. intros ? s' [-> Hinv']. by apply wp_ret.
  - destruct (_ && _)%bool eqn:E; [|done]. apply andb_true_iff in E as [H1%Z.ltb_lt H2%Z.leb_le].
    eapply wp_mono; [by apply drain_spec|]. intros ? s' [-> Hinv']. apply wp_ret.
    destruct q; by simplify_eq.
Qed.

Lemma fq_run_spec cap q ops obs q' s :
  fq_inv cap q s -> cap < 2 ^ 31 -> fifo_run cap q ops = Some (obs, q') ->
  wp (fq_run ops) (fun r s' => r = obs /\ fq_inv cap q' s') s.
Proof.
  revert q obs s. induction ops as [|op ops IH]; intros q obs s Hinv Hcap Hrun; simpl in Hrun.
  { apply wp_ret. by simplify_eq. }
  destruct (fifo_step cap q op) as [[o q1]|] eqn:Hstep; [|done].
  destruct (fifo_run cap q1 ops) as [[os q2]|] eqn:Hrest; [|done]. simplify_eq.
  apply wp_bind. eapply wp_mono; [by eapply fq_exec_spec|].
  intros ? s1 [-> Hinv1]. apply wp_bind.
  eapply wp_mono; [by eapply IH|]. intros ? s2 [-> H2]. by apply wp_ret.
Qed.

(** C38. After [can_queue_init], whatever the block contains, any sequence of
    batches and consumers that keep the discipline behaves as a bounded
    first-in first-out queue: no call is stuck, every frame is taken once, in
    order, and every node comes back.  A batch [b] waits exactly when the queue
    has less than twice its length of room, and then it is already counted. *)
Theorem frame_queue_fifo cap pool ops obs q s0 :
  zlen pool = cap -> 0 < cap < 2 ^ 31 -> fifo_run cap [] ops = Some (obs, q) ->
  wp (can_queue_init true (Some pool) cap ;; fq_run ops) (fun r s =>
    r = obs /\ fq_inv cap q s /\
    forall batch, batch <> [] -> cap < zlen q + 2 * zlen batch < 2 ^ 31 ->
      wp (can_queue_enqueue_batch true (Some batch) (zlen batch))
         (fun r s' => r = Waiting /\ s' = set_q_count (zlen q + zlen batch) s) s) s0.
Proof.
  intros Hpool Hcap Hrun. apply wp_bind. eapply wp_mono; [apply queue_init_spec; [done | lia]|].
  intros [] s Hinv. eapply wp_mono; [eapply fq_run_spec; [exact Hinv | lia | exact Hrun]|].
  intros r s' [-> Hinv']. split_and!; [done | done |]. intros. by eapply enqueue_waits.
Qed.

(** ** Runs on a small queue *)

Definition sample_frame (n : Z) : BatchFrame := mk_batch (mk_axican_frame n 0 0 0 0) (mk_timespec 0 0) 0.
Definition raw_node : CanFrameNode := mk_node (mk_axican_frame 0 0 0 0 0) 0 (mk_timespec 0 0) None None.
Definition raw_block : list CanFrameNode := replicate 4 raw_node.
Definition zero_queue : CanFrameQueue := mk_queue None None None 0 0 None false.
Definition two_batches : list fq_op :=
  [FqEnqueue [sample_frame 1; sample_frame 2]; FqDrain 4; FqEnqueue [sample_frame 3]; FqDrain 4].

Lemma frame_queue_fifo_witness :
  wp (can_queue_init true (Some raw_block) 4 ;; fq_run two_batches)
    (fun r _ => r = [Enqueued (Returned 0); Drained (Returned [sample_frame 1; sample_frame 2]);
                     Enqueued (Returned 0); Drained (Returned [sample_frame 3])]) zero_queue.
Proof.
  eapply wp_mono; [apply (frame_queue_fifo 4 raw_block two_batches
    [Enqueued (Returned 0); Drained (Returned [sample_frame 1; sample_frame 2]);
     Enqueued (Returned 0); Drained (Returned [sample_frame 3])] [] zero_queue);
    [reflexivity | lia | vm_compute; reflexivity]|].
  by intros r s (-> & _).
Defined.

(** A consumer that takes [n] frames and gives their nodes back. *)
Definition consume (n : Z) : M CanFrameQueue unit :=
  let* r := can_queue_dequeue_batch true (Some 4) n in
  match r with
  | Returned (k, nodes) => can_queue_recycle_nodes true (Some nodes) k
  | Waiting => ret tt
  end.

Definition produce (batch : list BatchFrame) : M CanFrameQueue unit :=
  let* _ := can_queue_enqueue_batch true (Some batch) (zlen batch) in ret tt.

(** A consumer that takes a part of the queue: the second recycling links a
    node into the pool that is still queued, and of the frames 4, 5 and 6 only
    the last is found in the queue. *)
Example stale_link_loses_frames :
  fst <$> (can_queue_init true (Some raw_block) 4 ;;
    produce [sample_frame 1; sample_frame 2] ;; consume 1 ;;
    produce [sample_frame 3] ;; produce [sample_frame 4] ;; consume 2 ;;
    produce [sample_frame 5] ;; produce [sample_frame 6] ;; drain 4) zero_queue
  = Some (Returned [sample_frame 6]).
Proof. vm_compute. reflexivity. Qed.

(** After a frame was queued the head of the pool is not the address of the
    block, and [can_queue_destroy] frees a pointer [malloc] never gave. *)
Example destroy_frees_inner_pointer :
  (can_queue_init true (Some raw_block) 4 ;; produce [sample_frame 1] ;;
   can_queue_destroy true) zero_queue = None.
Proof. vm_compute. reflexivity. Qed.
