(* ===== verification/Threads.v ===== *)
(** * The threads and their turns
    ([src/main18.c], the loops of the thread functions).

    A thread is its local variables; a turn of a thread is one pass of its loop,
    between two waits, with what the system gives it while it waits.  The second
    half shows what every turn keeps: the shared state and the variables of the
    thread stay well formed, the mutexes are released, and a turn appends to the
    queues its thread feeds and takes from the front of those it empties. *)
From S2P Require Import Prelude Framing Words Ring RingSet Layout World Upload Broadcast Commands Download CanTx CanRx Along Ports Init Pps BcastMachine.
From Stdlib Require Import (notations) String.

(** ** Threads *)

(** A client of port 9012 from its start to its end. *)
Inductive download_phase := DlStarting | DlReceiving (used : bytes) | DlClosing.

(** The local variables a thread keeps from one turn to the next; [None] where
    it has not passed its preparation yet. *)
Inductive local :=
  | Commander (sock : Z) (buffered : option bytes)
  | Downloader (sock : Z) (phase : download_phase)
  | PortClient (p : client_port) (sock : Z) (opened : bool)
  | Listener (port : Z) (st : option (Z * option thread))
  | Receiver (id : Z)
  | Sender (id : Z) (buf : option PacketBuffer)
  | Monitor (id : Z)
  | Simulating (id : Z) (st : option along)
  | Broadcaster (id : Z) (group : option BroadcastFrameGroup)
  | Dequeuer1 (id : Z)
  | Dequeuer2 (id : Z)
  | Reporter
  | PulseWaiter (fd : option Z).

(** The function a thread starts with. *)
Definition boot (t : thread) : local :=
  match t with
  | ClientThread port sock =>
    if port =? TCP_PORT1 then Commander sock None
    else if port =? TCP_PORT4 then Downloader sock DlStarting
    else if port =? TCP_PORT2 then PortClient UploadPort sock false
    else PortClient EventPort sock false
  | ListenThread port => Listener port None
  | RecvThread id => Receiver id
  | SendThread id => Sender id None
  | MonitorThread id => Monitor id
  | AlongThread id => Simulating id None
  | BroadcastThread id => Broadcaster id None
  | DequeueThread1 id => Dequeuer1 id
  | DequeueThread2 id => Dequeuer2 id
  | ReportThread => Reporter
  | PpsThread => PulseWaiter None
  end.

(** What the system gives a thread that waits: bytes of its client, an
    interruption, the end of the connection, a failure, or an outcome of
    [poll]. *)
Inductive input :=
  | NoInput | Arrived (chunk : bytes) | Interrupted | HungUp | RecvFailure | Polled (a : poll_answer).

(** The room a client thread gives to [recv]. *)
Definition room_of (t : local) : Z :=
  match t with
  | Commander _ (Some buffered) => BUFFER_SIZE - zlen buffered
  | Downloader _ (DlReceiving used) =>
    let space := stream_size - zlen used in if space <? BUFFER_SIZE_1 then space else BUFFER_SIZE_1
  | PortClient _ _ _ => 1
  | _ => 0
  end.

(** Which inputs a thread can get where it is. *)
Definition waits_for (t : local) (i : input) : bool :=
  match t with
  | Commander _ (Some _) | Downloader _ (DlReceiving _) | PortClient _ _ true =>
    match i with
    | Arrived chunk => (1 <=? zlen chunk) && (zlen chunk <=? room_of t)
    | Interrupted | HungUp | RecvFailure => true
    | _ => false
    end
  | PulseWaiter (Some _) => match i with Polled _ => true | _ => false end
  | _ => match i with NoInput => true | _ => false end
  end.

Section Turns.
Context `{OS}.
#[local] Open Scope c_scope.

(** [tcp_client_handler_9009] *)
Definition commander_turn (sock : Z) (buffered : option bytes) (i : input) : M world (option local) :=
  match buffered with
  | None =>
    let* _ := sys SysFree in
    configure_tcp_keepalive sock TCP_PORT1 ;;
    ret (Some (Commander sock (Some [])))
  | Some buffered =>
    match i with
    | Arrived chunk =>
      let* rest := command_receive sock buffered chunk in ret (Some (Commander sock (Some rest)))
    | Interrupted => ret (Some (Commander sock (Some buffered)))
    | _ =>
      (match i with RecvFailure => error_event (str "9009 port recv failed") | _ => ret tt end) ;;
      let* _ := sys (SysClose sock) in ret None
    end
  end.

(** [tcp_client_handler_9012] *)
Definition downloader_turn (sock : Z) (phase : download_phase) (i : input) : M world (option local) :=
  match phase with
  | DlStarting =>
    let* _ := sys SysFree in
    let* block := sys (SysMalloc sizeof_DownloadStream) in
    if block =? 0 then (let* _ := sys (SysClose sock) in ret None) else
    configure_tcp_keepalive sock TCP_PORT4 ;;
    download_open sock ;;
    ret (Some (Downloader sock (DlReceiving [])))
  | DlReceiving used =>
    match i with
    | Arrived chunk =>
      let* rest := download_turn sock used chunk in
      ret (Some (Downloader sock (match rest with Some used' => DlReceiving used' | None => DlClosing end)))
    | Interrupted => ret (Some (Downloader sock (DlReceiving used)))
    | _ => ret (Some (Downloader sock DlClosing))
    end
  | DlClosing =>
    download_close sock ;;
    let* _ := sys SysFree in
    let* _ := sys (SysClose sock) in ret None
  end.

(** [tcp_client_handler_9010] and [tcp_client_handler_9011] *)
Definition port_client_turn (p : client_port) (sock : Z) (opened : bool) (i : input)
    : M world (option local) :=
  if negb opened then port_open p sock ;; ret (Some (PortClient p sock true)) else
  match i with
  | Arrived _ => ret (Some (PortClient p sock true))
  | _ => port_close p sock ;; ret None
  end.

(** A listening thread, with its [server_fd] and [client_tid]. *)
Definition listener_turn (port : Z) (st : option (Z * option thread)) : M world (option local) :=
  match st with
  | None =>
    let* fd := listen_setup port in
    ret (match fd with Some fd => Some (Listener port (Some (fd, None))) | None => None end)
  | Some (fd, client_tid) =>
    let* client_tid := listen_turn port fd client_tid in ret (Some (Listener port (Some (fd, client_tid))))
  end.

(** [axican_data_send_thread] *)
Definition sender_turn (id : Z) (buf : option PacketBuffer) : M world (option local) :=
  match buf with
  | None =>
    let* set := gets (fun w => g_data_buf_set (w_bufs w)) in
    let* ready := of_option (ringbuffer_32ch_target_is_inited (Some set) id (sizeof PC_ARM_DATA_DATA)) in
    ret (if ready then Some (Sender id (Some packet_zero)) else None)
  | Some buf => let* buf' := axican_data_send_turn id buf in ret (Some (Sender id (Some buf')))
  end.

(** [along_data_tid_thread] *)
Definition simulating_turn (id : Z) (st : option along) : M world (option local) :=
  match st with
  | None => let* st' := along_load id in ret (Some (Simulating id st'))
  | Some st =>
    let* ax := arr_get w_axican id in
    let* st' := along_turn id (ax_wr_fd ax) (ax_wr_flags ax) st in
    ret (Some (Simulating id (Some st')))
  end.

(** [broadcast_can_send_thread]: taking a group, and sending it. *)
Definition broadcaster_turn (id : Z) (group : option BroadcastFrameGroup) : M world (option local) :=
  match group with
  | None =>
    let* (get_ret, bytes) := take_broadcast_group id (replicate (Z.to_nat sizeof_BroadcastFrameGroup) x00) in
    ret (Some (Broadcaster id (if get_ret =? 1 then Some (group_unpack bytes) else None)))
  | Some g => let* _ := send_broadcast_group_for_channel id g in ret (Some (Broadcaster id None))
  end.

(** [pps_irq_thread] *)
Definition pulse_waiter_turn (fd : option Z) (i : input) : M world (option local) :=
  match fd, i with
  | None, _ =>
    let* fd := sys SysOpenPps in
    if fd <? 0 then
      send_event EVENT_LEVEL_ERROR EVENT_CAN_INIT_FAILED (str "PPS irq device open failed") ;; ret None
    else ret (Some (PulseWaiter (Some fd)))
  | Some fd, Polled a =>
    if po_ret a =? 0 then ret (Some (PulseWaiter (Some fd))) else
    if po_ret a <? 0 then
      if po_eintr a then ret (Some (PulseWaiter (Some fd)))
      else (let* _ := sys (SysClose fd) in ret None)
    else pulse_turn fd a ;; ret (Some (PulseWaiter (Some fd)))
  | _, _ => stuck
  end.

(** A turn: the local variables after it, or nothing when the thread ends. *)
Definition turn (t : local) (i : input) : M world (option local) :=
  match t with
  | Commander sock buffered => commander_turn sock buffered i
  | Downloader sock phase => downloader_turn sock phase i
  | PortClient p sock opened => port_client_turn p sock opened i
  | Listener port st => listener_turn port st
  | Receiver id => axican_data_recv_turn id ;; ret (Some t)
  | Sender id buf => sender_turn id buf
  | Monitor id => send_data_turn id ;; ret (Some t)
  | Simulating id st => simulating_turn id st
  | Broadcaster id group => broadcaster_turn id group
  | Dequeuer1 id => axican_data_process_turn_1 id ;; ret (Some t)
  | Dequeuer2 id => axican_data_process_turn id ;; ret (Some t)
  | Reporter => buffer_report_turn ;; ret (Some t)
  | PulseWaiter fd => pulse_waiter_turn fd i
  end.
End Turns.

(** ** What the threads keep *)

(** The thread a local state belongs to; a thread keeps its role. *)
Definition role (t : local) : thread :=
  match t with
  | Commander sock _ => ClientThread TCP_PORT1 sock
  | Downloader sock _ => ClientThread TCP_PORT4 sock
  | PortClient p sock _ => ClientThread (port_number p) sock
  | Listener port _ => ListenThread port
  | Receiver id => RecvThread id
  | Sender id _ => SendThread id
  | Monitor id => MonitorThread id
  | Simulating id _ => AlongThread id
  | Broadcaster id _ => BroadcastThread id
  | Dequeuer1 id => DequeueThread1 id
  | Dequeuer2 id => DequeueThread2 id
  | Reporter => ReportThread
  | PulseWaiter _ => PpsThread
  end.

Definition when_some {A} (P : A -> Prop) (o : option A) : Prop :=
  match o with Some a => P a | None => True end.

(** The local variables are those the code can have: a command port keeps an
    incomplete packet that leaves room, a download port as well, a channel is
    one of the six, and the machines of the channels are well formed. *)
Definition local_ok (t : local) : Prop :=
  match t with
  | Commander _ buffered => when_some incomplete buffered
  | Downloader _ (DlReceiving used) => download_judge used = Wait
  | Listener port _ => port ∈ ports
  | Receiver id | Monitor id | Dequeuer1 id | Dequeuer2 id => 0 <= id < 6
  | Sender id buf => 0 <= id < 6 /\ when_some packet_wf buf
  | Simulating id st => 0 <= id < 6 /\ when_some along_wf st
  | Broadcaster id g => 0 <= id < 6 /\ when_some group_ok g
  | _ => True
  end.

(** The threads [main] and the listeners start. *)
Definition thread_ok (t : thread) : Prop :=
  match t with
  | ClientThread port _ | ListenThread port => port ∈ ports
  | RecvThread id | SendThread id | MonitorThread id | AlongThread id | BroadcastThread id
  | DequeueThread1 id | DequeueThread2 id => 0 <= id < 6
  | _ => True
  end.

Lemma boot_ok t : thread_ok t -> local_ok (boot t).
Proof.
  destruct t as [port sock|port| | | | | | | | |]; cbn [thread_ok boot]; try done.
  intros _. by repeat case_match.
Qed.

Lemma boot_role t : thread_ok t -> role (boot t) = t.
Proof.
  destruct t as [port sock|port| | | | | | | | |]; cbn [thread_ok boot]; try done.
  intros Hp. unfold ports in Hp. repeat (apply list.elem_of_cons in Hp as [->|Hp]; [done|]).
  by apply not_elem_of_nil in Hp.
Qed.

(** The shared state between two turns. *)
Record sys_ok (w : world) : Prop := {
  so_wf : world_wf w;
  so_held : w_held w = [];
  so_simulators : simulators_ok (w_bufs w);
  so_fds : Forall (fun ax => 0 <= ax_rd_fd ax /\ 0 <= ax_wr_fd ax) (w_axican w)
}.

(** *** Who feeds and who empties a queue *)

Definition produces (t : thread) (n : buf_name) (ch : Z) : bool :=
  match t with
  | ClientThread port _ =>
    (port =? TCP_PORT4) && match n with Data | Simulator | Pulse => true | _ => false end
  | RecvThread id => bool_decide (n = CanQueue) && (ch =? id)
  | MonitorThread id => bool_decide (n = PollQueue) && (ch =? id)
  | _ => false
  end.

Definition consumes (t : thread) (n : buf_name) (ch : Z) : bool :=
  match t with
  | SendThread id => bool_decide (n = Data) && (ch =? id)
  | AlongThread id => (bool_decide (n = Simulator) || bool_decide (n = CanQueue)) && (ch =? id)
  | DequeueThread1 id => bool_decide (n = PollQueue) && (ch =? id)
  | DequeueThread2 id => bool_decide (n = CanQueue) && (ch =? id)
  | _ => false
  end.

(** A turn appends to the queues its thread feeds, takes from the front of
    those it empties, and keeps the others. *)
Definition queue_step (t : thread) (n : buf_name) (ch : Z) (q q' : list bytes) : Prop :=
  if produces t n ch then exists new, q' = q ++ new
  else if consumes t n ch then exists front, q = front ++ q'
  else q' = q.

Definition queues_step (t : thread) (w w' : world) : Prop :=
  forall n ch, n <> BcastGroup -> 0 <= ch ->
    queue_step t n ch (buf_queue n ch (w_bufs w)) (buf_queue n ch (w_bufs w')).

(** *** Who drives the broadcast machine *)

(** The transitions of the machine that a turn of a thread makes, [o] being its
    variables afterwards: the command port accepts schedules, the download port
    queues groups, the pulse thread selects, and a broadcaster that waits takes
    one group into its variables, or a wake-up for nothing. *)
Definition turn_labels (t : local) (o : option local) (ls : list b_label) : Prop :=
  match t with
  | Commander _ _ => forallb is_reset ls = true
  | Downloader _ _ => forallb is_queue ls = true
  | PulseWaiter _ => forallb is_pulse ls = true
  | Broadcaster ch None =>
    (exists g, ls = [BTake ch g] /\ o = Some (Broadcaster ch (Some (group_unpack g)))) \/
    (ls = [] \/ ls = [BIdle ch]) /\ o = Some (Broadcaster ch None)
  | _ => ls = []
  end.

(** The turn is such transitions in the state of the program. *)
Definition drives (t : local) (o : option local) (w w' : world) : Prop :=
  exists ls, turn_labels t o ls /\ b_run ls (bview w) = Some (bview w').

Lemma drives_same t o w w' : turn_labels t o [] -> bview w' = bview w -> drives t o w w'.
Proof. intros Ht He. exists []. split; [done|]. simpl. by rewrite He. Qed.

(** *** What every turn keeps *)

(** Writes are only added, and the devices stay. *)
Record kept (w w' : world) : Prop := {
  ke_wf : world_wf w';
  ke_held : w_held w' = [];
  ke_device : ax_device <$> w_axican w' = ax_device <$> w_axican w;
  ke_writes : exists ws, can_writes w' = ws ++ can_writes w
}.

Record turn_ok (t : local) (w : world) (o : option local) (w' : world) : Prop := {
  to_ok : sys_ok w';
  to_kept : kept w w';
  to_local : when_some (fun t' => local_ok t' /\ role t' = role t) o;
  to_queues : queues_step (role t) w w';
  to_bcast : drives t o w w'
}.

Lemma extends_writes w w' : extends w w' -> exists ws, can_writes w' = ws ++ can_writes w.
Proof.
  intros [new Hn]. unfold can_writes. rewrite Hn, list.filter_app. by eexists.
Qed.

Lemma device_fds (l l' : list axican) :
  ax_device <$> l' = ax_device <$> l ->
  Forall (fun ax => 0 <= ax_rd_fd ax /\ 0 <= ax_wr_fd ax) l ->
  Forall (fun ax => 0 <= ax_rd_fd ax /\ 0 <= ax_wr_fd ax) l'.
Proof.
  intros Hd. rewrite !list.Forall_lookup. intros Hl i ax Hax.
  destruct (device_kept l' l i ax (eq_sym Hd) Hax) as (ax0 & H0 & <- & <-). by eapply Hl.
Qed.

Lemma kept_extends w w' :
  world_wf w' -> w_held w' = [] -> w_axican w' = w_axican w -> extends w w' -> kept w w'.
Proof. intros Hwf Hh Ha He. split; [done..| by rewrite Ha | by apply extends_writes]. Qed.

Lemma kept_trans w1 w2 w3 : kept w1 w2 -> kept w2 w3 -> kept w1 w3.
Proof.
  intros [] []. split; [done..| congruence |].
  destruct ke_writes0 as [ws1 H1], ke_writes1 as [ws2 H2]. exists (ws2 ++ ws1).
  by rewrite H2, H1, app_assoc.
Qed.

Lemma kept_net w w' : net_only w w' -> world_wf w -> w_held w = [] -> kept w w'.
Proof.
  intros Hn Hwf Hh. apply kept_extends; [by eapply net_only_wf | | apply Hn | apply Hn].
  by rewrite (no_held _ _ Hn).
Qed.

Lemma kept_cmd w w' : cmd_frame w w' -> world_wf w -> w_held w = [] -> kept w w'.
Proof.
  intros Hc Hwf Hh. apply kept_extends; [by apply Hc | | apply Hc | apply Hc].
  by rewrite (cm_held _ _ Hc).
Qed.

Lemma kept_dl w w' : dl_frame w w' -> world_wf w -> w_held w = [] -> kept w w'.
Proof.
  intros Hd Hwf Hh. apply kept_extends; [by apply Hd | | apply Hd | apply Hd].
  by rewrite (dl_held _ _ Hd).
Qed.

Lemma kept_rx p id w w' : rx_frame p id w w' -> world_wf w -> w_held w = [] -> kept w w'.
Proof.
  intros Hr Hwf Hh. split; [by apply Hr | by rewrite (rx_held _ _ _ _ Hr) | apply Hr |].
  apply extends_writes, Hr.
Qed.

(** Calls keep everything. *)
Lemma kept_call c w : world_wf w -> w_held w = [] -> kept w (add_call c w).
Proof. intros Hwf Hh. apply kept_extends; [by destruct Hwf | done | done | by exists [c]]. Qed.

Lemma kept_calls w w' : calls_only w w' -> extends w w' -> world_wf w -> w_held w = [] -> kept w w'.
Proof. intros [h ->] He Hwf Hh. apply kept_extends; [by destruct Hwf | done..]. Qed.

Lemma queue_same t n ch q : queue_step t n ch q q.
Proof.
  unfold queue_step. repeat case_match; [exists [] | exists [] | done]; by rewrite ?app_nil_r.
Qed.

(** Threads that touch no queue but those of the broadcast groups. *)
Lemma queues_same t w w' :
  (forall n ch, n <> BcastGroup -> 0 <= ch -> buf_queue n ch (w_bufs w') = buf_queue n ch (w_bufs w)) ->
  queues_step t w w'.
Proof. intros Hq n ch Hn Hch. rewrite (Hq n ch Hn Hch). apply queue_same. Qed.

Lemma queues_bufs t w w' : w_bufs w' = w_bufs w -> queues_step t w w'.
Proof. intros Hb. apply queues_same. intros n ch _ _. by rewrite Hb. Qed.

(** A turn that changes one queue. *)
Lemma queues_only t n ch w w' :
  bufs_only n ch (w_bufs w) (w_bufs w') ->
  (n <> BcastGroup -> queue_step t n ch (buf_queue n ch (w_bufs w)) (buf_queue n ch (w_bufs w'))) ->
  queues_step t w w'.
Proof.
  intros Ho Hq m c Hm Hc. destruct (decide ((m, c) = (n, ch))) as [[= -> ->]|Hne]; [by apply Hq|].
  rewrite (Ho m c Hc Hne). apply queue_same.
Qed.

(** Only a download brings answers for the simulators. *)
Lemma sys_ok_kept t w w' :
  sys_ok w -> kept w w' -> queues_step t w w' -> (forall sock, t <> ClientThread TCP_PORT4 sock) ->
  sys_ok w'.
Proof.
  intros [] Hk Hq Ht. split; [apply Hk | apply Hk | | by eapply device_fds; [apply Hk|]].
  intros ch Hch. specialize (Hq Simulator ch ltac:(done) Hch). unfold queue_step in Hq.
  specialize (so_simulators0 ch Hch).
  destruct (produces t Simulator ch) eqn:Hp.
  { destruct t; try done. simpl in Hp. rewrite andb_true_r in Hp. apply Z.eqb_eq in Hp as ->.
    by destruct (Ht sock). }
  destruct (consumes t Simulator ch); [|by rewrite Hq].
  destruct Hq as [front Hq]. rewrite Hq in so_simulators0. by apply list.Forall_app in so_simulators0 as [_ ?].
Qed.

Lemma turn_ok_intro t w o w' :
  sys_ok w -> (forall sock phase, t <> Downloader sock phase) -> kept w w' -> queues_step (role t) w w' ->
  when_some (fun t' => local_ok t' /\ role t' = role t) o -> drives t o w w' -> turn_ok t w o w'.
Proof.
  intros Hok Ht Hk Hq Hl Hm. split; [|done..]. eapply sys_ok_kept; [done..|].
  intros sock Hr. destruct t; simpl in Hr; try done.
  - by destruct (Ht sock0 phase).
  - by destruct p.
Qed.

(** ** The turns, thread by thread *)

Section TurnSpecs.
Context `{OS}.
#[local] Open Scope c_scope.

(** What a turn must keep from a well-formed state. *)
Definition turn_keeps (t : local) (i : input) : Prop :=
  forall w, sys_ok w -> local_ok t -> waits_for t i = true -> wp (turn t i) (turn_ok t w) w.

Lemma below_nil n w : w_held w = [] -> held_below n w.
Proof. intros Hh. unfold held_below. rewrite Hh. constructor. Qed.
#[local] Hint Resolve below_nil : zmht.

(** The end of a turn whose effect is a frame that keeps the buffers. *)
Lemma turn_ok_bufs t w o w' :
  sys_ok w -> kept w w' -> w_bufs w' = w_bufs w ->
  when_some (fun t' => local_ok t' /\ role t' = role t) o -> drives t o w w' -> turn_ok t w o w'.
Proof.
  intros Hok Hk Hb Hl Hm. pose proof (queues_bufs (role t) w w' Hb) as Hq. split; [|done..].
  destruct Hok as [Hwf Hh Hs Hf]. split; [apply Hk | apply Hk | by rewrite Hb | by eapply device_fds; [apply Hk|]].
Qed.

Lemma turn_ok_net t w o w' :
  sys_ok w -> net_only w w' -> when_some (fun t' => local_ok t' /\ role t' = role t) o ->
  turn_labels t o [] -> turn_ok t w o w'.
Proof.
  intros Hok Hn Hl Ht. apply turn_ok_bufs; [done | apply kept_net; [done | apply Hok..] | apply Hn | done |].
  apply drives_same; [done | by apply quiet_net].
Qed.

Lemma net_only_keepalive sock port w :
  wp (configure_tcp_keepalive sock port) (fun _ w' => net_only w w') w.
Proof.
  destruct (keepalive_eq sock port w) as (new & Hk & _). unfold wp. rewrite Hk.
  split; auto. by exists new.
Qed.

Lemma commander_keeps sock buffered i : turn_keeps (Commander sock buffered) i.
Proof.
  intros w Hok Hl Hi. destruct Hok as [Hwf Hh Hs Hf] eqn:Hok'. clear Hok'.
  unfold turn, commander_turn. destruct buffered as [buffered|].
  2: { wp_step. apply wp_sys. wp_step. eapply wp_mono; [apply net_only_keepalive|].
       intros [] w1 Hn. wp_step. apply turn_ok_net; [done | | split; [by left | done] | done].
       etransitivity; [apply net_only_add_call | exact Hn]. }
  assert (forall w1, net_only w w1 -> wp (let* _ := sys (SysClose sock) in ret (None : option local))
    (turn_ok (Commander sock (Some buffered)) w) w1) as Hend.
  { intros w1 Hn. wp_step. apply wp_sys. wp_step. apply turn_ok_net; [done | | done | done].
    etransitivity; [exact Hn | apply net_only_add_call]. }
  destruct i as [|chunk| | | |a]; try done.
  - wp_step. eapply wp_mono; [apply wp_conj; [by apply receive_spec; [apply below_nil|]|]|].
    { by apply receive_broadcasts; [apply below_nil|]. }
    intros rest w1 ((Hinc & Hc) & Hm). wp_step. apply turn_ok_intro; try done.
    + by apply kept_cmd.
    + apply queues_same, Hc.
  - wp_step. by apply turn_ok_net.
  - wp_step. wp_step. by apply Hend.
  - wp_step. apply wp_error_event; [by apply below_nil|]. apply Hend, net_only_err.
Qed.

(** Ending a client of port 9012. *)
Lemma downloader_open_net sock w :
  w_held w = [] -> world_wf w ->
  wp (download_open sock) (fun _ w' => kept w w' /\ w_bufs w' = w_bufs w /\ w_bc w' = w_bc w) w.
Proof.
  intros Hh Hwf. eapply wp_mono; [by apply download_open_spec|]. intros [] w' ->.
  case_match; (split; [apply kept_extends; [by destruct Hwf | done | done |] | done]);
    [by exists [] | by eexists [_]].
Qed.

Lemma downloader_close_net sock w :
  w_held w = [] -> world_wf w ->
  wp (download_close sock) (fun _ w' => kept w w' /\ w_bufs w' = w_bufs w /\ w_bc w' = w_bc w) w.
Proof.
  intros Hh Hwf. eapply wp_mono; [by apply download_close_spec|]. intros [] w' ->.
  case_match; (split; [apply kept_extends; [by destruct Hwf | done | done |] | done]); by exists [].
Qed.

Lemma downloader_keeps sock phase i : turn_keeps (Downloader sock phase) i.
Proof.
  intros w Hok Hl Hi. pose proof Hok as [Hwf Hh Hs Hf]. unfold turn, downloader_turn.
  destruct phase as [|used|].
  - wp_step. apply wp_sys. wp_step. apply wp_sys. set (w1 := add_call _ (add_call _ w)).
    assert (net_only w w1) as Hn by by (split; auto; eexists [_; _]).
    wp_step; [wp_step; apply wp_sys; wp_step; apply turn_ok_net; [done | | done | done];
      etransitivity; [exact Hn | apply net_only_add_call]|].
    assert (kept w w1) as Hk1 by by apply kept_net. clearbody w1.
    wp_step. eapply wp_mono; [apply net_only_keepalive|]. intros [] w2 Hn2.
    assert (kept w w2) as Hk2 by (apply (kept_trans _ w1); [done | apply kept_net; [done | apply Hk1..]]).
    wp_step. eapply wp_mono; [apply downloader_open_net; apply Hk2|]. intros [] w3 (Hk3 & Hb3 & Hc3).
    wp_step. apply turn_ok_bufs; [done | by apply (kept_trans _ w2) | | done |].
    + by rewrite Hb3, (no_bufs _ _ Hn2), (no_bufs _ _ Hn).
    + apply drives_same; [done|]. by rewrite (quiet_bufs w2), (quiet_net w1), (quiet_net w).
  - destruct i as [|chunk| | | |a]; try done; [|by wp_step; apply turn_ok_net..].
    cbn [waits_for room_of] in Hi. bool_prop. cbn [local_ok] in Hl.
    pose proof (download_wait_len used Hl) as Hlen.
    wp_step. eapply wp_mono; [apply download_turn_spec; [done | | done]|].
    { revert Hi. case_match; bool_prop; lia. }
    intros o w1 [Hd Ho]. wp_step. split.
    + split; [by apply (dl_wf _ _ Hd) | by rewrite (dl_held _ _ Hd) | by eapply simulators_ok_download |].
      by rewrite (dl_axican _ _ Hd).
    + by apply kept_dl.
    + split; [|done]. destruct o; [apply Ho | done].
    + intros n ch Hn Hch. destruct (dl_appends _ _ Hd n ch Hch) as (new & Hq & Hnew & _).
      unfold queue_step. cbn [role produces consumes]. change (TCP_PORT4 =? TCP_PORT4) with true.
      destruct n; cbn [andb]; try (by exists new); [| |done]; by rewrite Hq, Hnew, app_nil_r by auto.
    + by apply download_broadcasts.
  - wp_step. eapply wp_mono; [by apply downloader_close_net|]. intros [] w1 (Hk & Hb & Hc).
    wp_step. apply wp_sys. wp_step. apply wp_sys. wp_step. apply turn_ok_bufs; try done.
    + apply (kept_trans _ w1); [done|]. apply kept_net; [|apply Hk..].
      by (split; auto; eexists [_; _]).
    + apply drives_same; [done | by apply quiet_bufs].
Qed.

Lemma port_client_keeps p sock opened i : turn_keeps (PortClient p sock opened) i.
Proof.
  intros w Hok Hl Hi. pose proof (so_held _ Hok) as Hh. unfold turn, port_client_turn.
  destruct opened; cbn [negb].
  - assert (wp (port_close p sock ;; ret (None : option local)) (turn_ok (PortClient p sock true) w) w) as Hend.
    { wp_step. eapply wp_mono; [by apply port_close_net|]. intros [] w1 Hn. wp_step. by apply turn_ok_net. }
    destruct i; try done. wp_step. by apply turn_ok_net.
  - wp_step. eapply wp_mono; [by apply port_open_net|]. intros [] w1 Hn. wp_step. by apply turn_ok_net.
Qed.

Lemma receiver_keeps id i : turn_keeps (Receiver id) i.
Proof.
  intros w Hok Hl Hi. pose proof Hok as [Hwf Hh Hs Hf]. cbn [local_ok] in Hl. unfold turn.
  destruct (axican_lookup id w Hwf Hl) as [ax Hax].
  destruct (Forall_lookup_1 _ _ _ _ Hf Hax) as [Hrd _].
  wp_step. eapply wp_mono; [by eapply recv_turn_spec|]. intros [] w1 (Hr & _ & Hq). wp_step.
  apply turn_ok_intro; try done; [by eapply kept_rx| |].
  - eapply queues_only; [apply Hr|]. intros _. unfold queue_step. cbn. rewrite Z.eqb_refl. cbn.
    unfold offer in Hq. by eexists.
  - apply drives_same; [done|]. eapply quiet_only; [apply Hr | apply Hr | done].
Qed.

Lemma monitor_keeps id i : turn_keeps (Monitor id) i.
Proof.
  intros w Hok Hl Hi. pose proof Hok as [Hwf Hh Hs Hf]. cbn [local_ok] in Hl. unfold turn.
  destruct (axican_lookup id w Hwf Hl) as [ax Hax].
  destruct (Forall_lookup_1 _ _ _ _ Hf Hax) as [_ Hwr].
  wp_step. eapply wp_mono; [by eapply monitor_turn_spec|]. intros [] w1 (Hr & _ & Hq). wp_step.
  apply turn_ok_intro; try done; [by eapply kept_rx| |].
  - eapply queues_only; [apply Hr|]. intros _. unfold queue_step. cbn. rewrite Z.eqb_refl. cbn.
    unfold offer in Hq. by eexists.
  - apply drives_same; [done|]. eapply quiet_only; [apply Hr | apply Hr | done].
Qed.

(** A turn of the sender that finds a frame makes one step of the reassembly,
    and writes what that step gives. *)
Definition sender_did (id : Z) (buf buf' : PacketBuffer) (w w' : world) : Prop :=
  exists taken nows ms, buf_queue Data id (w_bufs w) = taken ++ buf_queue Data id (w_bufs w') /\
    length nows = length taken /\
    tx_run id buf (zip nows (unpack <$> taken)) = (buf', ms) /\
    (exists ax ws, w_axican w !! Z.to_nat id = Some ax /\ can_writes w' = ws ++ can_writes w /\
      Forall2 (sent_as (ax_wr_fd ax)) (rev (mjoin ms)) ws) /\
    (channel_opened id w = true -> buf_queue Data id (w_bufs w) <> [] -> taken <> []).

Lemma sender_spec id buf w :
  sys_ok w -> local_ok (Sender id (Some buf)) ->
  wp (axican_data_send_turn id buf) (fun buf' w' =>
    (packet_wf buf' /\ kept w w' /\ bufs_only Data id (w_bufs w) (w_bufs w') /\ w_bc w' = w_bc w) /\
    sender_did id buf buf' w w') w.
Proof.
  intros [Hwf Hh Hs Hf] [Hid Hbuf]. destruct (axican_lookup id w Hwf Hid) as [ax Hax].
  eapply wp_mono; [by apply send_turn_spec; [apply below_nil| | |..]|]. intros buf' w' Hpost.
  destruct (turn_taken _ _ _ _ _ _ Hwf Hbuf Hpost) as (Hwf' & Hbuf' & Ho & [(-> & -> & Hidle)|(_ & x & now & out & Hq & Hst & Hwr)]).
  - split; [split_and!; [done | apply kept_extends; [done..|reflexivity] | done | done]|].
    exists [], [], []. split_and!; try done; [exists ax, []; by split_and!|].
    intros Hop Hne. by destruct Hidle; [congruence|].
  - destruct Hwr as [Hwh _ Hc Hd Hws]. split; [split_and!; [done | | done | done]|].
    { split; [done | by rewrite Hwh | done |]. destruct Hws as (ws & Hws & _). by exists ws. }
    exists [x], [now], (match out with [] => [] | _ => [out] end).
    split; [exact Hq|]. split; [done|]. split; [simpl; rewrite Hst; by destruct out|].
    split; [|done]. destruct Hws as (ws & Hws & Hw2). exists ax, ws. split; [done|]. split; [done|].
    destruct out; [done|]. simpl in *. by rewrite app_nil_r.
Qed.

Lemma sender_keeps id buf i : turn_keeps (Sender id buf) i.
Proof.
  intros w Hok Hl Hi. unfold turn, sender_turn. destruct buf as [buf|].
  - wp_step. eapply wp_mono; [by apply sender_spec|].
    intros buf' w' ((Hb & Hk & Ho & Hc) & taken & nows & ms & Hq & _). wp_step.
    apply turn_ok_intro; try done; [|by split; [split; [apply Hl|]|]|by eapply drives_same, quiet_only].
    eapply queues_only; [exact Ho|]. intros _. unfold queue_step. cbn. rewrite Z.eqb_refl. cbn. by exists taken.
  - destruct Hl as [Hid _]. wp_step. wp_step. wp_step.
    eapply wp_of_option; [by apply data_target_inited; [apply Hok|]|]. wp_step.
    apply turn_ok_net; [done | done | | done]. by split; [split; [|apply packet_zero_wf]|].
Qed.

Lemma simulating_keeps id st i : turn_keeps (Simulating id st) i.
Proof.
  intros w Hok Hl Hi. pose proof Hok as [Hwf Hh Hs Hf]. destruct Hl as [Hid Hst].
  unfold turn, simulating_turn. destruct st as [st|].
  - destruct (axican_lookup id w Hwf Hid) as [ax Hax].
    destruct (Forall_lookup_1 _ _ _ _ Hf Hax) as [_ Hwr].
    wp_step. eapply wp_arr_get; [lia | exact Hax|]. wp_step.
    eapply wp_mono; [by apply along_turn_spec; [apply below_nil|..]|].
    intros st' w' ((Hwf' & Hst' & Hh') & b & taken & Hb & Ho & Hbw & Hq & _ & _ & Hp). wp_step.
    assert (world_wf (set_bufs b w)) as Hwb by (by apply (set_bufs_wf CanQueue id)).
    pose proof (performs_net _ _ _ _ _ Hwb Hid Hp) as Hn.
    apply turn_ok_intro; [done | done | | | done |].
    + apply kept_extends; [done | by rewrite Hh' | by rewrite (no_axican _ _ Hn) |].
      exact (no_extends _ _ Hn).
    + eapply queues_only; [by rewrite Hbw|]. intros _. unfold queue_step. cbn. rewrite Z.eqb_refl. cbn.
      exists taken. by rewrite Hbw.
    + apply drives_same; [done|]. eapply quiet_only; [by rewrite (no_bc _ _ Hn) | by rewrite Hbw | done].
  - wp_step. eapply wp_mono; [by apply along_load_spec; [..|apply Hs; lia]|].
    intros o w' Hpost. wp_step. pose proof (simulators_ok_load _ _ _ _ Hpost Hs) as [_ Ho'].
    destruct Hpost as (Hwf' & Hw' & Ho & Hc).
    apply turn_ok_intro; [done | done | | | by destruct o |].
    + rewrite Hw' in *. apply kept_extends; [done..|]. by exists [].
    + eapply queues_only; [exact Ho|]. intros _. unfold queue_step. cbn. rewrite Z.eqb_refl. cbn.
      destruct (w_configs w !! Z.to_nat id); [|done]. destruct (_ && _)%bool in Hc.
      * destruct Hc as (taken & Hq & _). by exists taken.
      * destruct Hc as [_ ->]. by exists [].
    + apply drives_same; [done|]. eapply quiet_only; [by rewrite Hw' | exact Ho | done].
Qed.

Lemma broadcaster_keeps id g i : turn_keeps (Broadcaster id g) i.
Proof.
  intros w Hok Hl Hi. pose proof Hok as [Hwf Hh Hs Hf]. destruct Hl as [Hid Hg].
  unfold turn, broadcaster_turn. destruct g as [g|].
  - destruct (send_group_in_order id g w) as (r & w' & ax & c & Hrun & _ & _ & Hpost);
      [by apply below_nil | done..|].
    wp_step. unfold wp at 1. rewrite Hrun. wp_step.
    assert (forall cs, net_only w (add_calls cs w)) as Hadd by (intros cs; split; auto; by exists cs).
    apply turn_ok_net; [done | | done | done]. destruct (cf_state c); [by destruct Hpost as [_ ->]|].
    destruct Hpost as [[_ ->]|(s & f & rest & _ & _ & _ & ->)]; [done|].
    etransitivity; [apply Hadd | apply net_only_event].
  - set (dst := replicate _ x00).
    assert (zlen dst = sizeof_BroadcastFrameGroup) as Hd.
    { unfold dst, zlen. rewrite length_replicate. by unfold sizeof_BroadcastFrameGroup. }
    clearbody dst. pose proof (take_spec id dst w (below_nil _ _ Hh) Hwf Hid Hd) as Hwp.
    apply wp_exec in Hwp as ([r bs] & w' & Hrun & p & Hp & Hpost).
    pose proof (take_step_ok id dst r bs w w' Hwf Hh Hid Hd Hrun) as (Hwf' & Hh' & _).
    assert (drives (Broadcaster id None)
      (Some (Broadcaster id (if r =? 1 then Some (group_unpack bs) else None))) w w') as Hm.
    { destruct (wp_result _ _ _ _ _ (take_broadcasts id dst w (below_nil _ _ Hh) Hwf Hid Hd) Hrun)
        as [(g & [= -> ->] & Hst)|[[= -> ->] [Hst|Hst]]]; cbn.
      - exists [BTake id g]. split; [left; by exists g|]. cbn [b_run]. by rewrite Hst.
      - apply drives_same; [by right; split; [left|] | done].
      - exists [BIdle id]. split; [by right; split; [right|]|]. cbn [b_run]. by rewrite Hst. }
    wp_step. unfold wp at 1. rewrite Hrun. wp_step.
    destruct (p =? 0); [by destruct Hpost as (-> & _ & ->); apply turn_ok_net; [..|right; split; [left|]]|].
    destruct Hpost as (b & -> & Hb & Ho & c & _ & Hq).
    apply turn_ok_intro; [done | done | | | | exact Hm].
    + apply kept_extends; [done..|]. by exists [].
    + eapply queues_only; [exact Ho | done].
    + split; [|done]. split; [done|]. pose proof (ww_groups _ Hwf id (proj1 Hid)) as Hgr.
      unfold buf_queue in Hq.
      destruct (if decide (cf_state c = CAN_STATE_OPENED) then _ else _) as [|x q] eqn:E.
      { by destruct Hq as (-> & _). }
      destruct Hq as (-> & -> & _). change (1 =? 1) with true. cbn [when_some].
      destruct (decide _); [|done]. rewrite E in Hgr. apply list.Forall_cons in Hgr as [(g & -> & Hok') _].
      by rewrite group_unpack_pack by apply Hok'.
Qed.

Lemma dequeuer2_keeps id i : turn_keeps (Dequeuer2 id) i.
Proof.
  intros w Hok Hl Hi. pose proof Hok as [Hwf Hh Hs Hf]. cbn [local_ok] in Hl. unfold turn.
  wp_step. eapply wp_mono; [by apply process_turn_spec; [apply below_nil|..]|].
  intros [] w' ((Hwf' & Hh' & Hax & He & Hbc) & taken & c & rs & Ho & Hq & _). wp_step.
  apply turn_ok_intro; try done; [by apply kept_extends; [..|rewrite Hh'| |]| |by eapply drives_same, quiet_only].
  eapply queues_only; [exact Ho|]. intros _. unfold queue_step. cbn. rewrite Z.eqb_refl. cbn. by exists taken.
Qed.

Lemma dequeuer1_keeps id i : turn_keeps (Dequeuer1 id) i.
Proof.
  intros w Hok Hl Hi. pose proof Hok as [Hwf Hh Hs Hf]. cbn [local_ok] in Hl. unfold turn.
  wp_step. eapply wp_mono; [by apply process_turn_1_spec; [apply below_nil|..]|].
  intros [] w' (Hwf' & b & taken & Ho & Hq & _ & Hb & Hw'). wp_step.
  set (w1 := set_can_data_type _ (set_bufs b w)) in Hw'.
  assert (world_wf w1) as Hwf1.
  { unfold w1. apply set_data_type_wf. apply (set_bufs_wf PollQueue id); try done. rewrite <- Hb. apply Hwf'. }
  assert (forall fs w2, world_wf w2 -> net_only w2 (foldl (monitored id (monitor_type id w)) w2 fs)) as Hn.
  { induction fs as [|f fs IH]; intros w2 Hw2; [done|]. simpl.
    pose proof (net_only_monitored id (monitor_type id w) w2 f Hw2 Hl) as H1.
    etransitivity; [exact H1|]. apply IH. by eapply net_only_wf. }
  specialize (Hn (unpack <$> taken) w1 Hwf1). rewrite <- Hw' in Hn.
  apply turn_ok_intro; [done | done | | | done |].
  - apply kept_extends; [done | by rewrite (no_held _ _ Hn) | by rewrite (no_axican _ _ Hn) |].
    exact (no_extends _ _ Hn).
  - eapply queues_only; [by rewrite Hb|]. intros _. unfold queue_step. cbn. rewrite Z.eqb_refl. cbn.
    exists taken. by rewrite Hb.
  - apply drives_same; [done|]. eapply quiet_only; [by rewrite (no_bc _ _ Hn) | by rewrite Hb | done].
Qed.

Lemma report_result_kept d w :
  world_wf w -> w_held w = [] ->
  kept w (report_result d w) /\ w_bufs (report_result d w) = w_bufs w /\ w_bc (report_result d w) = w_bc w.
Proof.
  intros Hwf Hh. unfold report_result. case_match; [split; [by apply kept_extends | done]|].
  case_match; (split; [|done]); [by apply kept_call|].
  apply kept_extends; [by destruct Hwf | done | done |]. by eexists [_; _].
Qed.

Lemma reporter_keeps i : turn_keeps Reporter i.
Proof.
  intros w Hok Hl Hi. pose proof Hok as [Hwf Hh Hs Hf]. unfold turn.
  wp_step. unfold wp at 1. rewrite buffer_report_turn_eq by (by apply below_nil || apply Hwf). wp_step.
  destruct (report_result_kept (report_of w) w Hwf Hh) as (Hk & Hb & Hc).
  apply turn_ok_bufs; [done..|]. apply drives_same; [done | by apply quiet_bufs].
Qed.

Lemma pulse_turn_broadcasts fd a w :
  world_wf w -> w_held w = [] -> wp (pulse_turn fd a) (fun _ w' => broadcasts is_pulse w w') w.
Proof.
  intros Hwf Hh. unfold pulse_turn. destruct (_ =? 0); cbn [negb when]; [by wp_step|].
  wp_step. apply wp_sys. eapply wp_mono; [apply pps_broadcasts; [by apply below_nil | by destruct Hwf]|].
  intros [] w' Hb. etransitivity; [|exact Hb]. apply broadcasts_same, quiet_net, net_only_add_call.
Qed.

Lemma pulse_waiter_keeps fd i : turn_keeps (PulseWaiter fd) i.
Proof.
  intros w Hok Hl Hi. pose proof Hok as [Hwf Hh Hs Hf]. unfold turn, pulse_waiter_turn.
  destruct fd as [fd|].
  - destruct i as [| | | | |a]; try done.
    wp_step; [by wp_step; apply turn_ok_net|]. wp_step; [wp_step|].
    + wp_step. by apply turn_ok_net.
    + wp_step. apply wp_sys. wp_step. by apply turn_ok_net; [|apply net_only_add_call| |].
    + wp_step. eapply wp_mono; [apply wp_conj; [by apply pulse_turn_spec|]|].
      { by apply pulse_turn_broadcasts. }
      intros [] w' ((Hwf' & Hh' & Hb & Hbc & _) & Hm). wp_step.
      apply turn_ok_bufs; try done; by apply kept_extends; [..|apply Hbc|apply Hbc].
  - wp_step. apply wp_sys. set (w1 := add_call _ w).
    assert (net_only w w1) as Hn by apply net_only_add_call.
    wp_step; [|wp_step; by apply turn_ok_net].
    wp_step. unfold wp at 1. rewrite send_event_eq by (simpl; by rewrite Hh). wp_step.
    apply turn_ok_net; [done | | done | done]. etransitivity; [exact Hn | apply net_only_event].
Qed.

(** The threads a listener starts are clients of its port. *)
Definition client_of (port : Z) (t : thread) : Prop := exists sock, t = ClientThread port sock.

Lemma listen_turn_starts port fd tid w :
  wp_or True (listen_turn port fd tid) (fun _ w' => extends w w' /\
    exists new, started (w_hist w') = new ++ started (w_hist w) /\ Forall (client_of port) new) w.
Proof.
  unfold listen_turn. apply wp_or_seq, wp_sys.
  destruct (_ =? 0); [split; [by eexists [_] | by exists []]|].
  apply wp_or_seq, wp_sys. destruct (_ <? 0); [split; [by eexists [_; _; _] | by exists []]|].
  apply wp_or_seq, wp_sys. cbv zeta. destruct (_ =? 0) eqn:Hrc; cbn [negb when].
  - split; [by eexists [_; _; _; _]|]. cbn [w_hist add_call set_hist started] in *. rewrite Hrc.
    eexists [_]. split; [done|]. constructor; [by eexists | constructor].
  - destruct tid as [tid|]; [|done]. split; [by eexists [_; _; _; _; _; _]|].
    exists []. cbn [w_hist add_call set_hist started] in *. by rewrite Hrc.
Qed.

Lemma listen_setup_starts port w :
  wp (listen_setup port) (fun _ w' => extends w w' /\ started (w_hist w') = started (w_hist w)) w.
Proof.
  unfold listen_setup. wp_step. apply wp_sys. wp_step. apply wp_sys.
  destruct (_ =? 0); [wp_step; split; [by eexists [_; _] | done]|].
  wp_step. apply wp_sys. destruct (negb _).
  { wp_step. apply wp_sys. wp_step. split; [by eexists [_; _; _; _] | done]. }
  wp_step. apply wp_sys. destruct (_ <? 0).
  { wp_step. apply wp_sys. wp_step. split; [by eexists [_; _; _; _; _] | done]. }
  wp_step. apply wp_sys. destruct (_ <? 0).
  { wp_step. apply wp_sys. wp_step. split; [by eexists [_; _; _; _; _; _] | done]. }
  wp_step. split; [by eexists [_; _; _; _; _] | done].
Qed.

(** The only turn that goes wrong: that of a listener whose first client thread
    cannot be started. *)
Definition goes_wrong (t : local) (w : world) : bool :=
  match t with Listener port (Some (fd, tid)) => first_create_fails port fd tid w | _ => false end.

Lemma listener_keeps port st w :
  sys_ok w -> local_ok (Listener port st) ->
  wp_or (goes_wrong (Listener port st) w = true) (turn (Listener port st) NoInput)
    (fun o w' => goes_wrong (Listener port st) w = false /\ turn_ok (Listener port st) w o w' /\
    exists new, started (w_hist w') = new ++ started (w_hist w) /\ Forall (client_of port) new) w.
Proof.
  intros Hok Hl. pose proof Hok as [Hwf Hh Hs Hf]. unfold turn, listener_turn. destruct st as [[fd tid]|].
  - apply wp_or_bind. eapply wp_or_mono; [eapply wp_or_conj; [apply listen_turn_spec | apply listen_turn_starts] | done |].
    intros tid' w' ((Hg & _ & Hc) & He & Hst). split; [exact Hg|]. split; [|done].
    apply turn_ok_bufs; [done | by apply kept_calls | by destruct Hc as [h ->] | done |].
    apply drives_same; [done|]. apply quiet_bufs; by destruct Hc as [h ->].
  - apply wp_or_seq. eapply wp_mono; [apply wp_conj; [apply listen_setup_starts | apply listen_setup_spec]|].
    intros o w' ((He & Hst) & Hc & _). split; [done|]. split; [|by exists []].
    apply turn_ok_bufs; [done | by apply kept_calls | by destruct Hc as [h ->] | by destruct o |].
    apply drives_same; [by destruct o|]. apply quiet_bufs; by destruct Hc as [h ->].
Qed.

(** Every other turn. *)
Lemma turn_total t i : (forall port st, t <> Listener port st) -> turn_keeps t i.
Proof.
  intros Hne. destruct t.
  - apply commander_keeps.
  - apply downloader_keeps.
  - apply port_client_keeps.
  - by destruct (Hne port st).
  - apply receiver_keeps.
  - apply sender_keeps.
  - apply monitor_keeps.
  - apply simulating_keeps.
  - apply broadcaster_keeps.
  - apply dequeuer1_keeps.
  - apply dequeuer2_keeps.
  - apply reporter_keeps.
  - apply pulse_waiter_keeps.
Qed.

(** Every turn: it goes wrong exactly in the case above. *)
Lemma turn_outcome t i w :
  sys_ok w -> local_ok t -> waits_for t i = true ->
  wp_or (goes_wrong t w = true) (turn t i) (fun o w' => goes_wrong t w = false /\ turn_ok t w o w') w.
Proof.
  intros Hok Hl Hi.
  assert ((exists port st, t = Listener port st) \/ (forall port st, t <> Listener port st)) as [(port & st & ->)|Hne]
    by (destruct t; eauto; by right).
  - destruct i; try done. eapply wp_or_mono; [by apply listener_keeps | done |]. by intros o w' (Hg & Ht & _).
  - apply wp_or_wp. eapply wp_mono; [by apply turn_total|]. intros o w' Ht. split; [|done].
    destruct t as [| | |port st| | | | | | | | |]; try done. by destruct (Hne port st).
Qed.

Lemma turn_spec t i w o w' :
  sys_ok w -> local_ok t -> waits_for t i = true -> turn t i w = Some (o, w') -> turn_ok t w o w'.
Proof. intros Hok Hl Hi Hrun. by destruct (wp_or_result _ _ _ _ _ _ (turn_outcome t i w Hok Hl Hi) Hrun). Qed.

Lemma turn_runs t i w :
  sys_ok w -> local_ok t -> waits_for t i = true ->
  if goes_wrong t w then turn t i w = None else exists o w', turn t i w = Some (o, w').
Proof.
  intros Hok Hl Hi. pose proof (turn_outcome t i w Hok Hl Hi) as Hwp. unfold wp_or in Hwp.
  destruct (turn t i w) as [[o w']|]; [destruct Hwp as [-> _]; eauto | by rewrite Hwp].
Qed.
End TurnSpecs.

