(* ===== verification/System.v ===== *)
(** * The running gateway: all the threads together
    ([src/main18.c], the composition that [main] and the listeners make of the
    threads).

    The running system is the shared state and the threads there are: those
    [main] started, and the clients the listeners hand a socket to.  Any thread
    may take the next turn, with anything the system may give it.  The theorems
    start from [main] and hold in every state the system can reach. *)
From S2P Require Import Prelude Framing Words Ring RingSet Layout World Upload Broadcast Commands Download CanTx CanRx Along Ports Init Pps BcastMachine Threads.
From Stdlib Require Import (notations) String.

(** ** The running system *)

Record system := mk_system { sy_world : world; sy_threads : list local }.

Section Running.
Context `{OS}.

Definition after (o : option local) : list local := match o with Some t => [t] | None => [] end.

(** What happened in a turn: the thread, its state after, and the shared state
    before and after. *)
Record event := mk_event { ev_thread : local; ev_after : option local; ev_from : world; ev_to : world }.

(** A thread takes a turn; only a listener starts threads. *)
Inductive sys_step : system -> event -> system -> Prop :=
  | sys_turn w ts1 t ts2 i o w' :
      waits_for t i = true -> turn t i w = Some (o, w') ->
      (forall port fd, t <> Listener port fd) ->
      sys_step (mk_system w (ts1 ++ t :: ts2)) (mk_event t o w w')
               (mk_system w' (ts1 ++ after o ++ ts2))
  | sys_listen w ts1 port fd ts2 o w' new :
      turn (Listener port fd) NoInput w = Some (o, w') ->
      started (w_hist w') = new ++ started (w_hist w) ->
      sys_step (mk_system w (ts1 ++ Listener port fd :: ts2)) (mk_event (Listener port fd) o w w')
               (mk_system w' (ts1 ++ after o ++ ts2 ++ (boot <$> rev new))).

(** Executions, the latest event first. *)
Inductive sys_run (s0 : system) : list event -> system -> Prop :=
  | run_start : sys_run s0 [] s0
  | run_step tr s e s' : sys_run s0 tr s -> sys_step s e s' -> sys_run s0 (e :: tr) s'.

(** The system as [main] starts it. *)
Definition gateway (w : world) : system := mk_system w (boot <$> rev (started (w_hist w))).
End Running.

(** ** Runs of the whole system *)

Section Runs.
Context `{OS}.
#[local] Open Scope c_scope.

Definition sys_inv (s : system) : Prop := sys_ok (sy_world s) /\ Forall local_ok (sy_threads s).

Definition event_ok (e : event) : Prop :=
  local_ok (ev_thread e) /\ turn_ok (ev_thread e) (ev_from e) (ev_after e) (ev_to e) /\
  exists i, turn (ev_thread e) i (ev_from e) = Some (ev_after e, ev_to e).

Lemma local_after t w o w' : turn_ok t w o w' -> Forall local_ok (after o).
Proof. intros Ht. pose proof (to_local _ _ _ _ Ht) as Hl. destruct o; [|constructor]. constructor; [apply Hl | done]. Qed.

Lemma boot_clients port new : port ∈ ports -> Forall (client_of port) new -> Forall local_ok (boot <$> rev new).
Proof.
  intros Hp Hn. apply Forall_fmap, list.Forall_forall. intros t Ht. apply boot_ok.
  apply list_elem_of_In, in_rev, list_elem_of_In in Ht.
  rewrite list.Forall_forall in Hn. by destruct (Hn t Ht) as [sock ->].
Qed.

(** A step: what the turn keeps, and the threads a listener adds. *)
Lemma step_spec s e s' :
  sys_inv s -> sys_step s e s' ->
  sys_inv s' /\ event_ok e /\ ev_from e = sy_world s /\ ev_to e = sy_world s' /\
  exists ts1 ts2 new, sy_threads s = ts1 ++ ev_thread e :: ts2 /\
    sy_threads s' = ts1 ++ after (ev_after e) ++ ts2 ++ (boot <$> new) /\
    Forall (fun t => exists port, port ∈ ports /\ client_of port t) new.
Proof.
  intros [Hok Hl] Hs. destruct Hs as [w ts1 t ts2 i o w' Hi Hrun Ht|w ts1 port fd ts2 o w' new Hrun Hst];
    cbn [sy_world sy_threads ev_thread ev_after ev_from ev_to] in *;
    apply list.Forall_app in Hl as [Hl1 Hl2]; apply list.Forall_cons in Hl2 as [Hlt Hl2].
  - pose proof (turn_spec t i w o w' Hok Hlt Hi Hrun) as Hwp.
    split; [split; [apply Hwp|]|].
    { cbn [sy_threads]. rewrite !list.Forall_app. split_and!; [done | by eapply local_after | done]. }
    split; [by split_and!; [..|exists i]|]. split; [done|]. split; [done|]. exists ts1, ts2, [].
    by rewrite app_nil_r.
  - destruct (wp_or_result _ _ _ _ _ _ (listener_keeps port fd w Hok Hlt) Hrun) as (_ & Hto & new' & Hn & Hc). rewrite Hst in Hn. apply app_inv_tail in Hn as <-.
    split; [split; [apply Hto|]|].
    { cbn [sy_threads]. rewrite !list.Forall_app. split_and!; [done | by eapply local_after | done | by eapply boot_clients]. }
    split; [by split_and!; [..|exists NoInput]|]. split; [done|]. split; [done|]. exists ts1, ts2, (rev new).
    split; [done|]. split; [done|]. apply list.Forall_forall. intros t Ht.
    exists port. split; [done|]. rewrite list.Forall_forall in Hc. apply Hc.
    by apply list_elem_of_In, in_rev, list_elem_of_In in Ht.
Qed.

Lemma run_inv s0 tr s : sys_inv s0 -> sys_run s0 tr s -> sys_inv s.
Proof.
  intros H0 Hr. induction Hr as [|tr s e s' Hr IH Hs]; [done|]. by apply (step_spec s e s').
Qed.

(** *** The queues over a run *)

(** What the turn of an event put into a queue, and what it took. *)
Definition ev_added (n : buf_name) (ch : Z) (e : event) : list bytes :=
  if produces (role (ev_thread e)) n ch
  then drop (length (buf_queue n ch (w_bufs (ev_from e)))) (buf_queue n ch (w_bufs (ev_to e)))
  else [].

Definition ev_taken (n : buf_name) (ch : Z) (e : event) : list bytes :=
  let q := buf_queue n ch (w_bufs (ev_from e)) in
  if consumes (role (ev_thread e)) n ch
  then take (length q - length (buf_queue n ch (w_bufs (ev_to e)))) q else [].

Fixpoint run_added (n : buf_name) (ch : Z) (tr : list event) : list bytes :=
  match tr with [] => [] | e :: tr' => run_added n ch tr' ++ ev_added n ch e end.

Fixpoint run_taken (n : buf_name) (ch : Z) (tr : list event) : list bytes :=
  match tr with [] => [] | e :: tr' => run_taken n ch tr' ++ ev_taken n ch e end.

Lemma consumed_front {A} (q front q' : list A) : q = front ++ q' -> take (length q - length q') q = front.
Proof.
  intros ->. rewrite length_app. replace (length front + length q' - length q')%nat with (length front) by lia.
  by rewrite take_app_le, firstn_all by lia.
Qed.

(** No thread both feeds and empties a queue. *)
Lemma not_both t n ch : produces t n ch = true -> consumes t n ch = false.
Proof. by destruct t, n. Qed.

Lemma event_queue e n ch :
  event_ok e -> n <> BcastGroup -> 0 <= ch ->
  buf_queue n ch (w_bufs (ev_from e)) ++ ev_added n ch e =
    ev_taken n ch e ++ buf_queue n ch (w_bufs (ev_to e)).
Proof.
  intros (_ & Ht & _) Hn Hch. pose proof (to_queues _ _ _ _ Ht n ch Hn Hch) as Hq.
  unfold queue_step, ev_added, ev_taken in *.
  destruct (produces (role (ev_thread e)) n ch) eqn:Hp.
  - rewrite (not_both _ _ _ Hp). destruct Hq as [new ->]. by rewrite drop_app_length.
  - rewrite app_nil_r. destruct (consumes _ _ _); [|done].
    destruct Hq as [front Hq]. by rewrite (consumed_front _ _ _ Hq).
Qed.

Lemma run_queue s0 tr s n ch :
  sys_inv s0 -> sys_run s0 tr s -> n <> BcastGroup -> 0 <= ch ->
  buf_queue n ch (w_bufs (sy_world s0)) ++ run_added n ch tr =
    run_taken n ch tr ++ buf_queue n ch (w_bufs (sy_world s)).
Proof.
  intros H0 Hr Hn Hch. induction Hr as [|tr s e s' Hr IH Hs]; [by rewrite app_nil_r|].
  destruct (step_spec s e s' (run_inv _ _ _ H0 Hr) Hs) as (_ & He & Hf & Ht & _).
  pose proof (event_queue e n ch He Hn Hch) as Hq. rewrite Hf, Ht in Hq. simpl.
  by rewrite app_assoc, IH, <- !app_assoc, Hq.
Qed.

(** *** The variables of a thread over a run *)

(** A selector picks the variables of one of the threads [main] starts. *)
Record selects {A} (sel : local -> option A) (th : thread) : Prop := {
  se_role t : is_Some (sel t) <-> role t = th;
  se_main port sock : th <> ClientThread port sock
}.

Section Variables.
Context {A} (sel : local -> option A) (th : thread) (Hsel : selects sel th).

Lemma vars_other t : role t <> th -> omap sel [t] = [].
Proof.
  intros Hr. cbn. destruct (sel t) eqn:He; [|done]. destruct Hr. apply (se_role _ _ Hsel). by rewrite He.
Qed.

Lemma vars_after t w o w' : turn_ok t w o w' -> role t <> th -> omap sel (after o) = [].
Proof.
  intros Ht Hr. pose proof (to_local _ _ _ _ Ht) as Hl. destruct o as [t'|]; [|done].
  apply vars_other. by rewrite (proj2 Hl).
Qed.

Lemma vars_clients new :
  Forall (fun t => exists port, port ∈ ports /\ client_of port t) new -> omap sel (boot <$> new) = [].
Proof.
  intros Hn. induction Hn as [|t new (port & Hp & sock & ->) _ IH]; [done|].
  rewrite fmap_cons. change (boot (ClientThread port sock) :: (boot <$> new))
    with ([boot (ClientThread port sock)] ++ (boot <$> new)).
  rewrite list.omap_app, IH, app_nil_r. apply vars_other. rewrite boot_role by done.
  intros Hc. by apply (se_main _ _ Hsel port sock).
Qed.

(** A turn of another thread keeps them. *)
Lemma vars_kept s e s' :
  sys_inv s -> sys_step s e s' -> role (ev_thread e) <> th ->
  omap sel (sy_threads s') = omap sel (sy_threads s).
Proof.
  intros Hinv Hs Hr.
  destruct (step_spec s e s' Hinv Hs) as (_ & (_ & Ht & _) & _ & _ & ts1 & ts2 & new & -> & -> & Hnew).
  change (ev_thread e :: ts2) with ([ev_thread e] ++ ts2).
  by rewrite !list.omap_app, (vars_clients new Hnew), app_nil_r, (vars_other _ Hr), (vars_after _ _ _ _ Ht Hr).
Qed.

(** A turn of the thread, when there is at most one. *)
Lemma vars_own s e s' :
  sys_inv s -> sys_step s e s' -> role (ev_thread e) = th -> (length (omap sel (sy_threads s)) <= 1)%nat ->
  exists a, sel (ev_thread e) = Some a /\ omap sel (sy_threads s) = [a] /\
    omap sel (sy_threads s') = omap sel (after (ev_after e)).
Proof.
  intros Hinv Hs Hr Hl. apply (se_role _ _ Hsel) in Hr as [a Ha]. exists a. split; [done|].
  destruct (step_spec s e s' Hinv Hs) as (_ & _ & _ & _ & ts1 & ts2 & new & Hts & -> & Hnew). rewrite Hts in *.
  change (ev_thread e :: ts2) with ([ev_thread e] ++ ts2) in *. rewrite !list.omap_app in *.
  assert (omap sel [ev_thread e] = [a]) as Ha1 by (cbn; by rewrite Ha). rewrite Ha1, !length_app in Hl. rewrite Ha1.
  simpl in Hl. assert (omap sel ts1 = []) as -> by (apply nil_length_inv; lia).
  assert (omap sel ts2 = []) as -> by (apply nil_length_inv; lia).
  rewrite (vars_clients new Hnew), !app_nil_r. done.
Qed.
End Variables.

(** *** The sender of a channel over a run *)

(** The variables of the senders of channel [id] among the threads. *)
Definition sender_var (id : Z) (t : local) : option (option PacketBuffer) :=
  match t with Sender i buf => if i =? id then Some buf else None | _ => None end.
Definition senders (id : Z) (ts : list local) : list (option PacketBuffer) := omap (sender_var id) ts.

Lemma sender_selects id : selects (sender_var id) (SendThread id).
Proof.
  split; [|done]. intros t. destruct t as [| | | | |i buf| | | | | | |]; simpl; try by split; [intros []|].
  destruct (Z.eqb_spec i id) as [->|Hne]; [by split|]. split; [by intros []|]. congruence.
Qed.

(** What the sender of channel [id] has done: its reassembly ran over the
    frames taken so far, and what that gave was written, in order. *)
Definition sender_inv (id fd : Z) (taken : list bytes) (s : system) (buf : PacketBuffer) : Prop :=
  (senders id (sy_threads s) = [] \/ senders id (sy_threads s) = [None] /\ taken = [] \/
   senders id (sy_threads s) = [Some buf]) /\
  exists nows ms ws, length nows = length taken /\
    tx_run id packet_zero (zip nows (unpack <$> taken)) = (buf, ms) /\
    Forall2 (sent_as fd) (rev (mjoin ms)) ws /\ ws `sublist_of` can_writes (sy_world s).

Lemma sender_start id i w o w' :
  sys_ok w -> 0 <= id < 6 -> turn (Sender id None) i w = Some (o, w') ->
  o = Some (Sender id (Some packet_zero)) /\ w' = w.
Proof.
  intros Hok Hid Hrun. unfold turn, sender_turn, bind, gets in Hrun.
  rewrite (data_target_inited id w) in Hrun by (done || apply Hok). by injection Hrun as <- <-.
Qed.

Lemma sender_turn_did id buf i w o w' :
  sys_ok w -> local_ok (Sender id (Some buf)) -> turn (Sender id (Some buf)) i w = Some (o, w') ->
  exists buf', o = Some (Sender id (Some buf')) /\ sender_did id buf buf' w w'.
Proof.
  intros Hok Hl Hrun. pose proof (sender_spec id buf w Hok Hl) as Hwp.
  apply wp_exec in Hwp as (buf' & w1 & Hr & _ & Hd). unfold turn, sender_turn, bind in Hrun.
  rewrite Hr in Hrun. injection Hrun as <- <-. by exists buf'.
Qed.

(** The devices stay over a run. *)
Lemma run_device s0 tr s :
  sys_inv s0 -> sys_run s0 tr s ->
  ax_device <$> w_axican (sy_world s) = ax_device <$> w_axican (sy_world s0).
Proof.
  intros H0 Hr. induction Hr as [|tr s e s' Hr IH Hs]; [done|].
  destruct (step_spec s e s' (run_inv _ _ _ H0 Hr) Hs) as (_ & (_ & Ht & _) & Hf & Hto & _).
  pose proof (ke_device _ _ (to_kept _ _ _ _ Ht)) as Hd. rewrite Hf, Hto in Hd. by rewrite Hd.
Qed.

(** A turn of another thread. *)
Lemma sender_inv_other id fd taken s e s' buf :
  sys_inv s -> sender_inv id fd taken s buf -> sys_step s e s' -> role (ev_thread e) <> SendThread id ->
  sender_inv id fd (taken ++ ev_taken Data id e) s' buf.
Proof.
  intros Hinv (Hsend & nows & ms & ws & Hl & Hrun & Hsent & Hsub) Hs Hr.
  destruct (step_spec s e s' Hinv Hs) as (_ & (_ & Ht & _) & Hf & Hto & _).
  assert (ev_taken Data id e = []) as ->.
  { unfold ev_taken. destruct (consumes _ _ _) eqn:Hc; [|done]. destruct (role (ev_thread e)); try done.
    simpl in Hc. apply Z.eqb_eq in Hc as ->. by destruct Hr. }
  rewrite app_nil_r. split.
  - unfold senders. by rewrite (vars_kept _ _ (sender_selects id) s e s' Hinv Hs Hr).
  - destruct (ke_writes _ _ (to_kept _ _ _ _ Ht)) as (ws1 & Hws1). rewrite Hf, Hto in Hws1.
    exists nows, ms, ws. split_and!; try done. rewrite Hws1. by apply sublist_inserts_l.
Qed.

Lemma sender_inv_step id fd taken s e s' buf :
  sys_inv s -> 0 <= id < 6 ->
  (exists ax, w_axican (sy_world s) !! Z.to_nat id = Some ax /\ ax_wr_fd ax = fd) ->
  sender_inv id fd taken s buf -> sys_step s e s' ->
  exists buf', sender_inv id fd (taken ++ ev_taken Data id e) s' buf'.
Proof.
  intros Hinv Hid (ax & Hax & Hfd) Hsi Hs.
  destruct (decide (role (ev_thread e) = SendThread id)) as [Hr|Hr]; [|exists buf; by eapply sender_inv_other].
  destruct Hsi as (Hsend & nows & ms & ws & Hl & Hrun & Hsent & Hsub).
  destruct (step_spec s e s' Hinv Hs) as (_ & (Hlt & Ht & i & Hturn) & Hf & Hto & _).
  rewrite Hf, Hto in Hturn.
  destruct (vars_own _ _ (sender_selects id) s e s' Hinv Hs Hr) as (b & He & Hone & Hnext);
    [destruct Hsend as [H1|[[H1 _]|H1]]; unfold senders in H1; rewrite H1; simpl; lia|].
  assert (ev_thread e = Sender id b) as He1.
  { destruct (ev_thread e); try done. injection Hr as ->. cbn [sender_var] in He. rewrite Z.eqb_refl in He. congruence. }
  clear He. rename He1 into He. rewrite He in *. fold (senders id (sy_threads s)) in Hone. rewrite Hone in *.
  assert (forall b', ev_after e = Some (Sender id b') -> senders id (sy_threads s') = [b']) as Hsend'.
  { intros b' Ha. unfold senders. rewrite Hnext, Ha. cbn. by rewrite Z.eqb_refl. }
  destruct b as [b|].
  - assert (b = buf) as -> by (destruct Hsend as [|[[? _]|Heq]]; [done..|congruence]).
    destruct (sender_turn_did id buf i _ _ _ (proj1 Hinv) Hlt Hturn) as
      (buf' & Ha & taken1 & nows1 & ms1 & Hq & Hl1 & Hrun1 & (ax1 & ws1 & Hax1 & Hws1 & Hsent1) & _).
    assert (ev_taken Data id e = taken1) as ->.
    { unfold ev_taken. rewrite He, Hf, Hto. cbn. rewrite Z.eqb_refl. cbn. by apply consumed_front. }
    rewrite Hax in Hax1. injection Hax1 as <-.
    exists buf'. split; [right; right; by apply Hsend'|].
    exists (nows ++ nows1), (ms ++ ms1), (ws1 ++ ws).
    split; [by rewrite !length_app, Hl, Hl1|]. split.
    { rewrite fmap_app, zip_with_app by by rewrite length_fmap.
      by rewrite tx_run_app, Hrun, Hrun1. }
    split; [rewrite join_app, rev_app_distr; apply Forall2_app; [by rewrite <- Hfd | done]|].
    rewrite Hws1. by apply sublist_app.
  - destruct Hsend as [|[[_ ->]|]]; [done| |done].
    destruct (sender_start id i _ _ _ (proj1 Hinv) Hid Hturn) as [Ha Hw].
    assert (ev_taken Data id e = []) as ->.
    { unfold ev_taken. rewrite He, Hf, Hto, Hw. cbn. rewrite Z.eqb_refl, Nat.sub_diag. done. }
    destruct nows; [|done]. simpl in Hrun. injection Hrun as <- <-.
    exists packet_zero. split; [right; right; by apply Hsend'|]. exists [], [], ws. by rewrite Hw.
Qed.
(** *** A sender that gets its turns *)

(** The turns of the sender of channel [id] after its preparation. *)
Definition sends (id : Z) (e : event) : bool :=
  match ev_thread e with Sender i (Some _) => i =? id | _ => false end.
Definition send_turns_in (id : Z) (tr : list event) : nat := length (List.filter (sends id) tr).

(** Such a turn on an open channel takes a frame when there is one. *)
Lemma sends_takes s e s' id :
  sys_inv s -> sys_step s e s' -> sends id e = true -> channel_opened id (ev_from e) = true ->
  buf_queue Data id (w_bufs (sy_world s)) <> [] -> (1 <= length (ev_taken Data id e))%nat.
Proof.
  intros Hinv Hs Hsend Hop Hne.
  destruct (step_spec s e s' Hinv Hs) as (_ & (Hlt & _ & i & Hturn) & Hf & Hto & _).
  unfold sends in Hsend. destruct (ev_thread e) as [| | | | |j [b|]| | | | | | |] eqn:He; try done.
  apply Z.eqb_eq in Hsend as ->. rewrite Hf in Hop, Hturn.
  destruct (sender_turn_did id b i _ _ _ (proj1 Hinv) Hlt Hturn) as
    (buf' & _ & taken & nows & ms & Hq & _ & _ & _ & Htake).
  specialize (Htake Hop Hne). unfold ev_taken. rewrite He, Hf. cbn. rewrite Z.eqb_refl. cbn.
  rewrite (consumed_front _ _ _ Hq). destruct taken; [done | simpl; lia].
Qed.

Lemma run_drains s0 tr s id :
  sys_inv s0 -> 0 <= id -> sys_run s0 tr s ->
  (forall e, e ∈ tr -> sends id e = true -> channel_opened id (ev_from e) = true) ->
  (min (send_turns_in id tr) (length (buf_queue Data id (w_bufs (sy_world s0))))
    <= length (run_taken Data id tr))%nat.
Proof.
  intros H0 Hid Hr. induction Hr as [|tr s e s' Hr IH Hs]; intros Hop; [simpl; lia|].
  specialize (IH (fun e' He => Hop e' (list_elem_of_further _ _ _ He))).
  pose proof (run_inv _ _ _ H0 Hr) as Hinv.
  pose proof (f_equal length (run_queue _ _ _ Data id H0 Hr ltac:(done) Hid)) as Hq. rewrite !length_app in Hq.
  unfold send_turns_in in *. cbn [run_taken List.filter]. rewrite length_app.
  destruct (sends id e) eqn:He; [|lia]. simpl length.
  destruct (decide (length (buf_queue Data id (w_bufs (sy_world s0))) <= length (run_taken Data id tr))%nat); [lia|].
  pose proof (sends_takes s e s' id Hinv Hs He (Hop e (list_elem_of_here _ _) He)) as Ht.
  assert (buf_queue Data id (w_bufs (sy_world s)) <> []) as Hne.
  { intros Hnil. rewrite Hnil in Hq. simpl in Hq. lia. }
  specialize (Ht Hne). lia.
Qed.
End Runs.

(** ** From the start of the program *)

Section FromMain.
Context `{OS}.
Variable malloc_ok : nat -> Z -> bool.
Variable strerror : list syscall -> bytes.

(** The running system after the events [tr], the latest first: [main] was
    started on a heap in which no free block is in use, and reached its loop. *)
Definition reaches (tr : list event) (s : system) : Prop :=
  exists h services w h', heap_fresh h /\
    main_start malloc_ok strerror (mk_startup static_world h) = Some (Some services, mk_startup w h') /\
    sys_run (gateway w) tr s.

(** The threads [main] asks for. *)
Definition main_threads : list thread := (channels_loop ≫= device_threads) ++ service_threads.

Lemma main_threads_ok : Forall thread_ok main_threads.
Proof.
  unfold main_threads, service_threads, service_threads_on. rewrite !list.Forall_app, !Forall_fmap.
  split_and!; [| | by constructor | by constructor | |].
  - apply list.Forall_forall. intros t Ht. apply list_elem_of_bind in Ht as (id & Ht & Hid).
    apply channels_loop_elem in Hid. unfold device_threads in Ht.
    repeat (apply list.elem_of_cons in Ht as [->|Ht]; [done|]). by apply not_elem_of_nil in Ht.
  - by apply list.Forall_forall.
  - apply list.Forall_forall. intros id. apply channels_loop_elem.
  - apply list.Forall_forall. intros id. apply channels_loop_elem.
Qed.

Lemma started_calls h : started h `sublist_of` thread_calls h.
Proof.
  induction h as [|c h IH]; [done|]. destruct c; simpl; try exact IH.
  case_match; [by constructor | by apply sublist_cons].
Qed.

Lemma thread_calls_app h1 h2 : thread_calls (h1 ++ h2) = thread_calls h1 ++ thread_calls h2.
Proof. apply list.omap_app. Qed.

(** The threads asked for while the devices are opened. *)
Lemma device_thread_calls (A : list axican) :
  length A = 6%nat ->
  (forall i a, A !! i = Some a -> exists rd wr, a = opened_axican (Z.of_nat i) rd wr) ->
  thread_calls (rev (A ≫= device_calls)) = rev (channels_loop ≫= device_threads).
Proof.
  intros Hl Hop. destruct A as [|a0 [|a1 [|a2 [|a3 [|a4 [|a5 [|a6 l]]]]]]]; try done.
  destruct (Hop 0%nat a0 eq_refl) as (? & ? & ->), (Hop 1%nat a1 eq_refl) as (? & ? & ->),
    (Hop 2%nat a2 eq_refl) as (? & ? & ->), (Hop 3%nat a3 eq_refl) as (? & ? & ->),
    (Hop 4%nat a4 eq_refl) as (? & ? & ->), (Hop 5%nat a5 eq_refl) as (? & ? & ->). reflexivity.
Qed.

(** What the successful start gives: no listener is missing but for want of
    memory. *)
Lemma main_state h services w h' :
  heap_fresh h -> main_start malloc_ok strerror (mk_startup static_world h) = Some (Some services, mk_startup w h') ->
  sys_ok w /\ (forall n ch, 0 <= ch < buf_chans n -> buf_queue n ch (w_bufs w) = []) /\
  (exists ps, thread_calls (w_hist w) = rev ((channels_loop ≫= device_threads) ++ service_threads_on ps) /\
     ps `sublist_of` ports /\ (ps = ports \/ arg_refused)) /\ bview w = b_start.
Proof.
  intros Hf Hrun. pose proof (wp_or_result _ _ _ _ _ _ (main_start_spec malloc_ok strerror h Hf) Hrun) as Hpost.
  destruct services as [pps tids].
  destruct Hpost as (Hh & Hwf & Hq & _ & _ & Hdev & (ps & new & run & Hhist & Hnew & Hps & Hall & _) & _ & Hbc).
  cbn [su_world] in *.
  assert (forall i ax, w_axican w !! i = Some ax ->
    exists rd wr, 0 <= rd /\ 0 <= wr /\ ax = opened_axican (Z.of_nat i) rd wr) as Hop.
  { intros i ax Hax. pose proof (lookup_lt_Some _ _ _ Hax) as Hi. rewrite (ww_axican _ Hwf) in Hi.
    destruct (Hdev i Hi) as [(rd & wr & Hrd & Hwr & Hax') _]. rewrite Hax in Hax'. injection Hax' as ->.
    by exists rd, wr. }
  split; [|split; [done|]; split].
  - split; [done | done | |].
    + intros ch Hch. destruct (decide (ch < buf_chans Simulator)) as [Hc|Hc].
      * rewrite Hq by lia. constructor.
      * rewrite buf_queue_out; [constructor | apply Hwf | lia].
    + apply list.Forall_lookup. intros i ax Hax. by destruct (Hop i ax Hax) as (rd & wr & Hrd & Hwr & ->).
  - exists ps. split; [|done]. rewrite Hhist, thread_calls_app, Hnew, rev_app_distr. f_equal.
    apply device_thread_calls; [apply Hwf|]. intros i a Ha.
    destruct (Hop i a Ha) as (rd & wr & _ & _ & ->). by exists rd, wr.
  - unfold bview, channels_loop. rewrite Hbc. cbn [fmap list_fmap]. by rewrite !Hq by (cbn; lia).
Qed.

Lemma senders_main id : 0 <= id < 6 -> senders id (boot <$> main_threads) = [None].
Proof.
  intros Hid. assert (id = 0 \/ id = 1 \/ id = 2 \/ id = 3 \/ id = 4 \/ id = 5) as Hc by lia.
  by destruct Hc as [->|[->|[->|[->|[->| ->]]]]].
Qed.

(** The start gives a well-formed system. *)
Lemma gateway_inv w ps :
  sys_ok w -> thread_calls (w_hist w) = rev ((channels_loop ≫= device_threads) ++ service_threads_on ps) ->
  ps `sublist_of` ports ->
  sys_inv (gateway w) /\ sy_threads (gateway w) `sublist_of` (boot <$> main_threads).
Proof.
  intros Hok Hc Hps. assert (rev (started (w_hist w)) `sublist_of` main_threads) as Hsub.
  { etransitivity; [apply sublist_rev, started_calls|]. rewrite Hc, rev_involutive.
    apply sublist_app; [done|]. apply sublist_app; [by apply fmap_sublist | done]. }
  split; [|by apply fmap_sublist]. split; [done|]. apply Forall_fmap. eapply sublist_Forall; [exact Hsub|].
  eapply list.Forall_impl; [apply main_threads_ok | intros t; apply boot_ok].
Qed.

Lemma reaches_inv tr s : reaches tr s -> exists w,
  sys_run (gateway w) tr s /\ sys_inv (gateway w) /\ sys_inv s /\
  (forall n ch, 0 <= ch < buf_chans n -> buf_queue n ch (w_bufs w) = []) /\
  sy_threads (gateway w) `sublist_of` (boot <$> main_threads) /\ bview w = b_start.
Proof.
  intros (h & services & w & h' & Hf & Hmain & Hrun).
  destruct (main_state _ _ _ _ Hf Hmain) as (Hok & Hq & (ps & Hc & Hps & _) & Hb).
  destruct (gateway_inv w ps Hok Hc Hps) as [Hinv Hs]. exists w.
  exact (conj Hrun (conj Hinv (conj (run_inv _ _ _ Hinv Hrun) (conj Hq (conj Hs Hb))))).
Qed.

(** The sender of a channel in every reachable state. *)
Lemma reaches_sender id tr s :
  0 <= id < 6 -> reaches tr s -> exists ax buf, w_axican (sy_world s) !! Z.to_nat id = Some ax /\
    sender_inv id (ax_wr_fd ax) (run_taken Data id tr) s buf.
Proof.
  intros Hid Hr. destruct (reaches_inv tr s Hr) as (w & Hrun & H0 & _ & _ & Hs & _). clear Hr.
  induction Hrun as [|tr s e s' Hrun (ax & buf & Hax & Hsi) Hst].
  - destruct (axican_lookup id w) as [ax Hax]; [apply H0 | done|]. exists ax, packet_zero.
    split; [done|]. split.
    + apply (sublist_omap (sender_var id)) in Hs. fold (senders id (boot <$> main_threads)) in Hs.
      rewrite (senders_main id Hid) in Hs. apply sublist_single in Hs as [Hs|Hs]; unfold senders; rewrite Hs; auto.
    + exists [], [], []. split_and!; try done. apply sublist_nil_l.
  - pose proof (run_inv _ _ _ H0 Hrun) as Hinv.
    destruct (sender_inv_step id (ax_wr_fd ax) _ s e s' buf Hinv Hid (ex_intro _ ax (conj Hax eq_refl)) Hsi Hst)
      as (buf' & Hsi').
    destruct (step_spec s e s' Hinv Hst) as (_ & (_ & Ht & _) & Hf & Hto & _).
    pose proof (ke_device _ _ (to_kept _ _ _ _ Ht)) as Hd. rewrite Hf, Hto in Hd.
    destruct (device_kept _ _ _ _ Hd Hax) as (ax' & Hax' & _ & Hwr). exists ax', buf'.
    split; [done|]. by rewrite Hwr.
Qed.



(** A step exists for each thread and each input, unless the turn goes wrong. *)
Lemma turn_steps s t i :
  sys_inv s -> t ∈ sy_threads s -> waits_for t i = true ->
  if goes_wrong t (sy_world s) then turn t i (sy_world s) = None
  else exists e s', sys_step s e s' /\ ev_thread e = t.
Proof.
  intros [Hok Hl] Ht Hi. pose proof (proj1 (list.Forall_forall _ _) Hl t Ht) as Hlt.
  pose proof (turn_runs t i _ Hok Hlt Hi) as Hruns. destruct (goes_wrong t (sy_world s)); [done|].
  destruct Hruns as (o & w' & Hrun). apply list_elem_of_split in Ht as (ts1 & ts2 & Hts).
  destruct s as [w ts]. cbn [sy_world sy_threads] in *. subst ts.
  assert ((exists port fd, t = Listener port fd) \/ (forall port fd, t <> Listener port fd)) as [(port & fd & ->)|Hne]
    by (destruct t; eauto; by right).
  - destruct i; try done.
    destruct (wp_or_result _ _ _ _ _ _ (listener_keeps port fd w Hok Hlt) Hrun) as (_ & _ & new & Hnew & _).
    by eexists _, _; split; [by eapply sys_listen|].
  - eexists _, _. split; [by eapply sys_turn | done].
Qed.

(** C4. The running system is well formed: after any events, in any order,
    from the successful start of [main], the shared state has the shape its
    type demands, no thread keeps a mutex between two turns, the queued answers
    of the simulator fit into their arrays, the channels have the devices
    [main] opened, the variables of every thread are those the code can have,
    and no channel has a second sender. *)
Theorem running_well_formed tr s :
  reaches tr s ->
  world_wf (sy_world s) /\ w_held (sy_world s) = [] /\ simulators_ok (w_bufs (sy_world s)) /\
  Forall (fun ax => 0 <= ax_rd_fd ax /\ 0 <= ax_wr_fd ax) (w_axican (sy_world s)) /\
  Forall local_ok (sy_threads s) /\
  forall id, 0 <= id < 6 -> (length (senders id (sy_threads s)) <= 1)%nat.
Proof.
  intros Hr. destruct (reaches_inv tr s Hr) as (w & _ & _ & [[] Hl] & _). split_and!; try done.
  intros id Hid. destruct (reaches_sender id tr s Hid Hr) as (ax & buf & _ & Hs & _).
  destruct Hs as [->|[[-> _]| ->]]; simpl; lia.
Qed.




(** C5. The downlink drains: from any reachable state and in any interleaving
    of all the threads, once the sender of a channel that stays open has had
    [n] turns, at least the first [n] frames queued for the channel have been
    taken, in their order. *)
Theorem downlink_drains tr1 s1 tr s id :
  reaches tr1 s1 -> sys_run s1 tr s -> 0 <= id < 6 ->
  (forall e, e ∈ tr -> sends id e = true -> channel_opened id (ev_from e) = true) ->
  take (send_turns_in id tr) (buf_queue Data id (w_bufs (sy_world s1))) `prefix_of` run_taken Data id tr.
Proof.
  intros Hr Hrun Hid Hop. destruct (reaches_inv tr1 s1 Hr) as (w & _ & _ & Hinv & _).
  pose proof (run_drains s1 tr s id Hinv (proj1 Hid) Hrun Hop) as Hlen.
  pose proof (run_queue s1 tr s Data id Hinv Hrun ltac:(done) (proj1 Hid)) as Hq.
  set (q1 := buf_queue Data id (w_bufs (sy_world s1))) in *.
  exists (drop (length (take (send_turns_in id tr) q1)) (run_taken Data id tr)).
  assert (take (send_turns_in id tr) q1 = take (length (take (send_turns_in id tr) q1)) (run_taken Data id tr)) as Heq.
  2: { rewrite Heq at 1. by rewrite take_drop. }
  rewrite length_take. apply (f_equal (take (min (send_turns_in id tr) (length q1)))) in Hq.
  rewrite take_app_le in Hq by lia. rewrite take_app_le in Hq by lia. rewrite <- Hq.
  destruct (decide (send_turns_in id tr <= length q1)%nat); [by rewrite Nat.min_l by lia|].
  rewrite Nat.min_r by lia. by rewrite !take_ge by lia.
Qed.
End FromMain.

(** ** A run: the start, a client on port 9009 that opens channel 3, a client
    on port 9012 that sends a frame for it, and the sender that takes it *)

Section Scenario.

Definition serving_os : OS := {|
  os_ret := fun _ c =>
    match c with
    | SysOpen _ _ => 3 | SysMalloc _ => 1 | SysSocket => 5 | SysAccept _ => 6
    | SysSend _ d | SysWrite _ d => zlen d | SysRead _ len => len | SysPoll _ _ _ => 1 | _ => 0
    end;
  os_data := fun _ c =>
    match c with SysIoctlCount _ => le_enc 4 2 | SysRead _ _ => pack received_frame | _ => [] end;
  os_clock := fun _ _ => (12, 345678901)
|}.
#[local] Existing Instance serving_os.

Abbreviation serving_reaches := (@reaches serving_os (fun _ _ => true) (fun _ => [])).

Lemma serving_args : ~ arg_refused.
Proof. by intros (hist & Hh). Qed.

Lemma serving_no_failure hist hist' : ~ a_call_failed hist hist'.
Proof. intros (pre & c & post & _ & Hc). destruct c; simpl in Hc; lia. Qed.

Lemma serving_started h : started h = thread_calls h.
Proof. induction h as [|c h IH]; [done|]. destruct c; simpl; by rewrite ?IH. Qed.

(** The state after [main], with channel 3 closed or opened since. *)
Definition serving (st : CanState) (w : world) : Prop :=
  sys_ok w /\ (forall n, 3 < buf_chans n -> buf_queue n 3 (w_bufs w) = []) /\ data_download_socket w = -1 /\
  w_configs w !! 3%nat = Some (set_cf_state st (opened_config 3)) /\
  exists rd wr, w_axican w !! 3%nat = Some (opened_axican 3 rd wr).

(** Only listeners and clients had turns. *)
Definition ports_only (tr : list event) : Prop :=
  Forall (fun e => match role (ev_thread e) with ClientThread _ _ | ListenThread _ => True | _ => False end) tr.

Lemma serving_main : exists w, serving_reaches [] (gateway w) /\ serving CAN_STATE_CLOSED w /\
  sy_threads (gateway w) = boot <$> main_threads.
Proof.
  destruct (main_returns (fun _ _ => true) (fun _ => []) empty_heap empty_heap_fresh serving_args)
    as ([[pps tids]|] & w & h' & Hrun & Hpost).
  - exists w. destruct (main_state (fun _ _ => true) (fun _ => []) empty_heap (pps, tids) w h'
      empty_heap_fresh Hrun) as (Hok & Hq & (ps & Hc & _ & [-> |Hr]) & _); [|by destruct serving_args].
    destruct Hpost as (_ & _ & _ & _ & Hd & Hdev & _). cbn [su_world] in *.
    split; [exists empty_heap, (pps, tids), w, h'; split_and!; [exact empty_heap_fresh | exact Hrun | constructor]|].
    split; [split; [done|]; split; [intros n Hn; apply Hq; lia|]; split; [done|];
      split; [exact (proj2 (Hdev 3%nat ltac:(lia)))|];
      destruct (proj1 (Hdev 3%nat ltac:(lia))) as (rd & wr & _ & _ & Hax); by exists rd, wr|].
    unfold gateway. cbn [sy_threads]. rewrite serving_started, Hc, rev_involutive. reflexivity.
  - destruct Hpost as [_ [(_ & _ & Hr & _)|(Hc & _)]].
    + destruct (nothing_refused Hr).
    + destruct (serving_no_failure _ _ Hc).
Qed.

(** One more event. *)
Lemma reaches_step tr s e s' : serving_reaches tr s -> sys_step s e s' -> serving_reaches (e :: tr) s'.
Proof.
  intros (h & services & w & h' & Hf & Hm & Hr) Hs. exists h, services, w, h'. split; [done|]. split; [done|].
  by econstructor.
Qed.

(** One more turn, of one of the threads. *)
Lemma reaches_turn tr w ts t i o w' :
  serving_reaches tr (mk_system w ts) -> t ∈ ts -> turn t i w = Some (o, w') -> waits_for t i = true ->
  (forall port fd, t <> Listener port fd) ->
  exists ts', serving_reaches (mk_event t o w w' :: tr) (mk_system w' ts') /\
    (forall u, u ∈ ts -> u <> t -> u ∈ ts') /\ when_some (fun t' => t' ∈ ts') o.
Proof.
  intros Hr Ht Hrun Hi Hnl. apply list_elem_of_split in Ht as (ts1 & ts2 & ->). eexists. split.
  { eapply reaches_step; [exact Hr | by eapply sys_turn]. }
  split; [|destruct o as [t'|]; [|done]; cbn; rewrite !elem_of_app, list.elem_of_cons; auto].
  intros u. rewrite !elem_of_app, list.elem_of_cons. tauto.
Qed.

(** A turn of a client thread from a serving state. *)
Lemma serving_turn t i w o (P : world -> Prop) :
  sys_ok w -> local_ok t -> waits_for t i = true ->
  wp (turn t i) (fun o' w' => o' = o /\ P w') w ->
  exists w', turn t i w = Some (o, w') /\ sys_ok w' /\ P w'.
Proof.
  intros Hok Hl Hi Hwp. apply wp_exec in Hwp as (o' & w' & Hrun & -> & HP). exists w'.
  split; [done|]. split; [apply (turn_spec t i w o w' Hok Hl Hi Hrun) | done].
Qed.

Lemma turn_keeps_ok t i w o w' :
  sys_ok w -> local_ok t -> waits_for t i = true -> turn t i w = Some (o, w') -> sys_ok w'.
Proof. intros Hok Hl Hi Hrun. by destruct (turn_spec t i w o w' Hok Hl Hi Hrun). Qed.

(** The client of port 9012 starts. *)
Lemma serving_client w :
  serving CAN_STATE_OPENED w ->
  exists w', turn (Downloader 6 DlStarting) NoInput w = Some (Some (Downloader 6 (DlReceiving [])), w') /\
    sys_ok w' /\ w_bufs w' = w_bufs w /\ w_configs w' = w_configs w /\ data_download_socket w' = 6.
Proof.
  intros (Hok & Hq & Hd & Hc & _). apply serving_turn; [done..|].
  unfold turn, downloader_turn. wp_step. apply wp_sys. wp_step. apply wp_sys.
  change (os_ret _ (SysMalloc _) =? 0) with false. cbv iota. wp_step.
  set (w1 := add_call _ (add_call _ w)).
  destruct (keepalive_eq 6 TCP_PORT4 w1) as (new & Hka & _). unfold wp at 1. rewrite Hka.
  wp_step. eapply wp_mono; [apply download_open_spec; apply Hok|].
  intros [] w2 ->. wp_step. simpl. by rewrite Hd.
Qed.

(** The client sends one packet with a frame for channel 3. *)
Definition frame_download (type : Z) : bytes := download_bytes 1 3 (pack (make_frame type 3)).

Lemma serving_receive type w r w1 :
  download_judge (frame_download type) = Packet 68 ->
  reverse_2bytes (dq_cmd_type (unpack (frame_download type))) = 1 ->
  reverse_4bytes (dq_channel (unpack (frame_download type))) = 3 ->
  drop 20 (frame_download type) = pack (make_frame type 3) ->
  sys_ok w -> data_download_socket w = 6 ->
  process_9012_can_payload_frames (pack (make_frame type 3)) 3 (processing w) = Some (r, w1) ->
  exists o w', turn (Downloader 6 (DlReceiving [])) (Arrived (frame_download type)) w = Some (o, w') /\
    w_bufs w' = w_bufs w1 /\ w_configs w' = w_configs w1 /\ w_bc w' = w_bc w1 /\
    data_download_socket w' = data_download_socket w1.
Proof.
  intros Hj Hct Hch Hpl [Hwf Hh _ _] Hd Hrun. set (payload := pack (make_frame type 3)) in *.
  assert (length (frame_download type) = 68%nat) as H68 by reflexivity.
  assert (zlen payload = 48) as H48 by reflexivity.
  unfold turn, downloader_turn, bind at 1. rewrite download_turn_eq by done. rewrite Hd.
  change (6 =? 6) with true. cbv iota. rewrite app_nil_l.
  assert (download_handle (frame_download type) (processing w) = Some (tt, w1)) as Hhandle.
  { unfold download_handle, download_packet. cbv zeta. rewrite Hpl, Hct, Hch, H48.
    change (((1 =? 1) || (1 =? 2)) && (48 >=? sizeof PC_ARM_DATA_DATA) && (48 mod sizeof PC_ARM_DATA_DATA =? 0))%bool
      with true. cbv iota. unfold bind. by rewrite Hrun. }
  assert (download_loop (S (length (frame_download type))) (frame_download type) (processing w) = Some ([], w1)) as Hloop.
  { rewrite download_loop_frames. cbn [frame_loop]. rewrite Hj.
    rewrite take_ge by (rewrite H68; lia). rewrite drop_ge by (rewrite H68; lia).
    unfold bind. rewrite Hhandle. by rewrite H68. }
  unfold bind, modify, ret. rewrite Hloop. eexists _, _.
  do 3 (split; [reflexivity|]). split; reflexivity.
Qed.

Lemma serving_normal w :
  sys_ok w -> data_download_socket w = 6 -> buf_queue Data 3 (w_bufs w) = [] ->
  w_configs w !! 3%nat = Some (set_cf_state CAN_STATE_OPENED (opened_config 3)) ->
  exists o w', turn (Downloader 6 (DlReceiving [])) (Arrived (frame_download 1)) w = Some (o, w') /\
    buf_queue Data 3 (w_bufs w') = [pack (make_frame 1 3)] /\ w_configs w' = w_configs w.
Proof.
  intros Hok Hd Hq Hc. pose proof Hok as [Hwf Hh _ _]. set (payload := pack (make_frame 1 3)).
  pose proof (process_frames_spec payload 3 (processing w) (processing_below w) (processing_wf w Hwf)
    ltac:(lia)) as Hwp.
  destruct (proj1 (wp_exec _ _ _) Hwp) as (r & w1 & Hrun & Hdl & Hpost). clear Hwp.
  assert (payload_frames payload = [make_frame 1 3]) as Hfs by (vm_compute; reflexivity).
  destruct (serving_receive 1 w r w1) as (o & w' & Hturn & Hb & Hcf & _); [by vm_compute..|done|done|exact Hrun|].
  exists o, w'. split; [exact Hturn|]. rewrite Hb, Hcf. split; [|exact (dl_configs _ _ Hdl)].
  destruct Hpost as [(_ & _ & [(f & [Hf _] & Ha)|(Hall & _)]) | (_ & Hna & _)].
  - rewrite Hfs in Hf. injection Hf as <-. destruct Ha as [_ Ha].
    change (buf_queue Data _ (w_bufs (processing w))) with (buf_queue Data 3 (w_bufs w)) in Ha.
    rewrite Hq in Ha. change (pd_ch_id (make_frame 1 3)) with 3 in Ha. exact Ha.
  - exfalso. unfold all_broadcast in Hall. rewrite Hfs in Hall.
    apply list.Forall_cons in Hall as [Ht _]. discriminate Ht.
  - exfalso. apply Hna. split; [split_and!; [by vm_compute | by vm_compute | by vm_compute |]|].
    + rewrite Hfs. constructor; [by vm_compute | constructor].
    + left. exists (make_frame 1 3). split; [split; [exact Hfs | done]|].
      split; [done|]. split; [eexists; split; [exact Hc | done]|].
      change (buf_queue Data _ (w_bufs (processing w))) with (buf_queue Data 3 (w_bufs w)). by rewrite Hq.
Qed.

Lemma serving_calls st w cs : serving st w -> serving st (add_calls cs w).
Proof. intros ([Hwf Hh Hsi Hf] & Hw). split; [split; [by destruct Hwf | done..] | done]. Qed.

(** The listener of a port gets its socket and accepts a client. *)
Lemma serving_listens port (P : world -> Prop) w ts tr :
  (forall cs, P (add_calls cs w)) -> Listener port None ∈ ts -> serving_reaches tr (mk_system w ts) ->
  exists tr' w' ts', P w' /\ serving_reaches tr' (mk_system w' ts') /\
    run_added Data 3 tr' = run_added Data 3 tr /\ (ports_only tr -> ports_only tr') /\ boot (ClientThread port 6) ∈ ts' /\
    forall u, u ∈ ts -> u <> Listener port None -> u ∈ ts'.
Proof.
  intros Hw Hin Hr. apply list_elem_of_split in Hin as (ts1 & ts2 & ->). 
  set (l := Listener port (Some (5, None))). set (l' := Listener port (Some (5, Some (ClientThread port 6)))).
  assert (exists cs, turn (Listener port None) NoInput w = Some (Some l, add_calls cs w) /\
    started (cs ++ w_hist w) = started (w_hist w)) as (cs1 & Hrun1 & Hst1).
  { exists [SysListen 5 MAX_CLIENTS; SysBind 5 port; SysSetsockopt 5 SOL_SOCKET SO_REUSEADDR 1;
      SysSocket; SysFree]. by split. }
  set (w1 := add_calls cs1 w) in *.
  assert (exists cs, turn l NoInput w1 = Some (Some l', add_calls cs w1) /\
    started (cs ++ w_hist w1) = ClientThread port 6 :: started (w_hist w1)) as (cs2 & Hrun2 & Hst2).
  { exists [SysDetach (ClientThread port 6); SysThread (ClientThread port 6); SysAccept 5; SysMalloc sizeof_int]. by split. }
  assert (add_calls cs2 w1 = add_calls (cs2 ++ cs1) w) as Hw2.
  { unfold w1, add_calls. cbn [w_hist set_hist]. by rewrite <- app_assoc. }
  set (w2 := add_calls cs2 w1) in *.
  pose proof (sys_listen w ts1 port None ts2 (Some l) w1 [] Hrun1 Hst1) as Hs1.
  pose proof (reaches_step _ _ _ _ Hr Hs1) as Hr1. cbn [rev fmap list_fmap after] in Hr1. rewrite app_nil_r in Hr1.
  pose proof (sys_listen w1 ts1 port (Some (5, None)) ts2 (Some l') w2 [_] Hrun2 Hst2) as Hs2.
  pose proof (reaches_step _ _ _ _ Hr1 Hs2) as Hr2. cbn [rev fmap list_fmap after app] in Hr2.
  eexists _, w2, _. split; [rewrite Hw2; apply Hw|].
  split; [exact Hr2|]. split; [unfold run_added, ev_added; cbn; by rewrite !app_nil_r|].
  split; [intros Hp; by constructor; [|constructor]|].
  split; [rewrite !elem_of_app, list.elem_of_cons, elem_of_app; right; right; right; by left|].
  intros t. rewrite !elem_of_app, !list.elem_of_cons, elem_of_app. tauto.
Qed.

(** A client of port 9009 starts, and sends a packet. *)
Lemma serving_commander w : serving CAN_STATE_CLOSED w ->
  exists w', turn (Commander 6 None) NoInput w = Some (Some (Commander 6 (Some [])), w') /\
    sys_ok w' /\ serving CAN_STATE_CLOSED w'.
Proof.
  intros Hw. pose proof Hw as (Hok & Hq & Hd & Hc & Hax).
  destruct (serving_turn (Commander 6 None) NoInput w (Some (Commander 6 (Some [])))
    (fun w' => w_bufs w' = w_bufs w /\ w_configs w' = w_configs w /\
               data_download_socket w' = data_download_socket w /\ w_axican w' = w_axican w))
    as (w' & Hrun & Hok' & Hb & Hcf & Hds & Ha); [done..| |].
  - unfold turn, commander_turn. wp_step. apply wp_sys. wp_step.
    set (w1 := add_call _ w). destruct (keepalive_eq 6 TCP_PORT1 w1) as (new & Hka & _).
    unfold wp at 1. rewrite Hka. wp_step. done.
  - exists w'. split; [done|]. split; [done|]. unfold serving. by rewrite Hb, Hcf, Hds, Ha.
Qed.

Lemma commander_packet packet w (P : world -> Prop) :
  sys_ok w -> command_judge packet = Packet (length packet) ->
  waits_for (Commander 6 (Some [])) (Arrived packet) = true ->
  wp (dispatch_command 6 (unpack packet) (drop 16 packet)) (fun _ w' => P w') w ->
  exists w', turn (Commander 6 (Some [])) (Arrived packet) w = Some (Some (Commander 6 (Some [])), w') /\
    sys_ok w' /\ P w'.
Proof.
  intros Hok Hj Hi Hd. apply serving_turn; [done | by left | exact Hi |].
  unfold turn, commander_turn. wp_step. unfold command_receive, wp at 1. rewrite app_nil_l.
  rewrite command_loop_frames. cbn [frame_loop]. rewrite Hj, take_ge, drop_ge by lia.
  apply wp_exec in Hd as ([] & w' & Hrun & HP). unfold command_handle, bind. rewrite Hrun.
  destruct (length packet) as [|n] eqn:Hl.
  { cbn in Hi. unfold zlen in Hi. rewrite Hl in Hi. done. }
  assert (forall h, frame_loop command_judge h (S n) [] w' = Some ([], w')) as -> by done. by split.
Qed.

(** It opens channel 3. *)
Definition start_packet : bytes :=
  request_bytes (mk_request [] 0x0103 1 (pack (mk_CanStartStopParam 3 0xAA000000))).

Lemma start_packet_dispatch : dispatch_command 6 (unpack start_packet) (drop 16 start_packet) =
  handle_can_start_stop 6 (unpack start_packet) (drop 16 start_packet).
Proof.
  unfold dispatch_command. cbv zeta.
  assert (reverse_2bytes (rq_cmd_type (unpack start_packet)) = 0x0103) as -> by (vm_compute; reflexivity).
  by assert (zlen (drop 16 start_packet) = 8) as -> by (vm_compute; reflexivity).
Qed.

Lemma serving_starts w : serving CAN_STATE_CLOSED w ->
  exists w', turn (Commander 6 (Some [])) (Arrived start_packet) w = Some (Some (Commander 6 (Some [])), w') /\
    sys_ok w' /\ serving CAN_STATE_OPENED w'.
Proof.
  intros (Hok & Hq & Hd & Hc & Hax). pose proof Hok as [Hwf Hh _ _].
  set (cfg := start_stop_configs (drop 16 start_packet) (w_configs w)).
  destruct (commander_packet start_packet w (at_config cfg w)) as (w' & Hrun & Hok' & Hat);
    [done | by vm_compute | by vm_compute | |].
  - rewrite start_packet_dispatch.
    eapply wp_mono; [apply start_stop_spec; [by apply below_nil | done | by vm_compute]|].
    intros [] w1 (w2 & Hat & ->). eapply at_config_net; [exact Hat | apply net_only_start_stop_reply].
  - exists w'. split; [done|]. split; [done|]. split; [done|].
    rewrite (no_bufs _ _ Hat), (no_download _ _ Hat), (at_config_configs _ _ _ Hat), (no_axican _ _ Hat).
    split; [done|]. split; [done|]. split; [|done]. unfold cfg, start_stop_configs.
    assert (fld 0 4 (drop 16 start_packet) = 3) as -> by (vm_compute; reflexivity).
    assert (requested_state (drop 16 start_packet) = Some CAN_STATE_OPENED) as -> by (vm_compute; reflexivity).
    change (Z.to_nat 3) with 3%nat. rewrite Hc. cbn [requested_state].
    rewrite list_lookup_insert_eq by (by eapply lookup_lt_Some). done.
Qed.

(** [main], and a client that opens channel 3; no other thread has started. *)
Lemma serving_opened : exists tr w ts, serving CAN_STATE_OPENED w /\ serving_reaches tr (mk_system w ts) /\
  run_added Data 3 tr = [] /\ ports_only tr /\ Commander 6 (Some []) ∈ ts /\
  forall t, In t main_threads -> boot t <> Listener TCP_PORT1 None -> boot t ∈ ts.
Proof.
  destruct serving_main as (w & Hr & Hw & Hts). unfold gateway in *. cbn [sy_threads] in Hts.
  rewrite Hts in Hr.
  assert (Listener TCP_PORT1 None ∈ boot <$> main_threads) as Hl1 by (apply list_elem_of_In; vm_compute; tauto).
  destruct (serving_listens TCP_PORT1 (serving CAN_STATE_CLOSED) w (boot <$> main_threads) []) as (tr & w2 & ts & Hw2 & Hr2 & Ha & Hpo & Hco & Hsub);
    [intros cs; by apply serving_calls | exact Hl1 | exact Hr |].
  change (boot (ClientThread TCP_PORT1 6)) with (Commander 6 None) in Hco.
  destruct (serving_commander w2 Hw2) as (w3 & Hrun3 & _ & Hw3).
  destruct (reaches_turn _ _ _ _ _ _ _ Hr2 Hco Hrun3 eq_refl ltac:(done)) as (ts3 & Hr3 & Hsub3 & Hco3).
  destruct (serving_starts w3 Hw3) as (w4 & Hrun4 & _ & Hw4).
  destruct (reaches_turn _ _ _ _ _ _ _ Hr3 Hco3 Hrun4 ltac:(vm_compute; reflexivity) ltac:(done))
    as (ts4 & Hr4 & Hsub4 & Hco4).
  eexists _, w4, ts4. split; [exact Hw4|]. split; [exact Hr4|].
  split; [cbn [run_added]; rewrite Ha; done|].
  split; [constructor; [done|]; constructor; [done|]; apply Hpo; constructor|]. split; [exact Hco4|]. intros t Ht Hne.
  assert (forall b, boot t <> Commander 6 b) as Hnc.
  { intros b Hb. apply list_elem_of_In in Ht. apply (f_equal role) in Hb.
    pose proof (boot_role t) as Hbr. pose proof main_threads_ok as Hok. rewrite list.Forall_forall in Hok.
    rewrite Hbr in Hb by by apply Hok. subst t. clear -Ht. apply list_elem_of_In in Ht. vm_compute in Ht. naive_solver. }
  apply Hsub4; [|apply Hnc]. apply Hsub3; [|apply Hnc]. apply Hsub; [|done].
  by apply list_elem_of_fmap_2, list_elem_of_In.
Qed.

(** A client of port 9012 as well. *)
Lemma serving_connected : exists tr w ts, serving_reaches tr (mk_system w ts) /\ run_added Data 3 tr = [] /\
  ports_only tr /\
  (sys_ok w /\ buf_queue Data 3 (w_bufs w) = [] /\ data_download_socket w = 6 /\
   w_configs w !! 3%nat = Some (set_cf_state CAN_STATE_OPENED (opened_config 3))) /\
  Commander 6 (Some []) ∈ ts /\ Downloader 6 (DlReceiving []) ∈ ts /\
  Sender 3 None ∈ ts /\ Broadcaster 3 None ∈ ts /\ PulseWaiter None ∈ ts.
Proof.
  destruct serving_opened as (tr1 & w & ts0 & Hw & Hr & Ha1 & Hpo1 & Hco & Hts).
  assert (Listener TCP_PORT4 None ∈ ts0) as Hl by (apply (Hts (ListenThread TCP_PORT4)); [vm_compute; tauto | done]).
  destruct (serving_listens TCP_PORT4 (serving CAN_STATE_OPENED) w ts0 tr1)
    as (tr & w2 & ts & Hw2 & Hr2 & Ha & Hpo & Hd & Hsub); [intros cs; by apply serving_calls | exact Hl | exact Hr |].
  change (boot (ClientThread TCP_PORT4 6)) with (Downloader 6 DlStarting) in Hd. rewrite Ha1 in Ha.
  destruct (serving_client w2 Hw2) as (w3 & Hrun3 & Hok3 & Hb3 & Hc3 & Hd3).
  destruct Hw2 as (Hok2 & Hq2 & _ & Hcf2 & _). specialize (Hq2 Data ltac:(cbn; lia)).
  destruct (reaches_turn _ _ _ _ _ _ _ Hr2 Hd Hrun3 eq_refl ltac:(done)) as (ts3 & Hr3 & Hsub3 & Hd4).
  assert (forall t, In t main_threads -> boot t <> Listener TCP_PORT1 None -> boot t <> Listener TCP_PORT4 None ->
    boot t <> Downloader 6 DlStarting -> boot t ∈ ts3) as Hall by auto.
  eexists _, _, _. split; [exact Hr3|]. cbn [run_added]. rewrite Ha.
  split; [unfold ev_added; cbn; by rewrite Hb3, Hq2|]. split; [constructor; [done | by apply Hpo]|].
  rewrite Hb3, Hc3, Hd3.
  split; [done|]. split; [by apply Hsub3; [apply Hsub|]|]. split; [exact Hd4|].
  split; [|split]; [apply (Hall (SendThread 3)) | apply (Hall (BroadcastThread 3)) | apply (Hall PpsThread)];
    done || (vm_compute; tauto).
Qed.

(** The run: the frame waits for the sender of channel 3, which has not started. *)
Lemma serving_queued : exists tr s, serving_reaches tr s /\ run_added Data 3 tr = [pack (make_frame 1 3)] /\
  buf_queue Data 3 (w_bufs (sy_world s)) = [pack (make_frame 1 3)] /\
  channel_opened 3 (sy_world s) = true /\ Sender 3 None ∈ sy_threads s.
Proof.
  destruct serving_connected as (tr & w3 & ts & Hr & Ha & _ & (Hok & Hq3 & Hd3 & Hcf) & _ & Hd & Hs & _).
  destruct (serving_normal w3 Hok Hd3 Hq3 Hcf) as (o & w4 & Hrun4 & Hq4 & Hc4).
  destruct (reaches_turn _ _ _ _ _ _ _ Hr Hd Hrun4 ltac:(vm_compute; reflexivity) ltac:(done)) as (ts4 & Hr4 & Hsub4 & _).
  eexists _, _. split; [exact Hr4|]. cbn [run_added sy_world sy_threads]. rewrite Ha. split_and!.
  - unfold ev_added. cbn. by rewrite Hq3, Hq4.
  - exact Hq4.
  - unfold channel_opened. change (Z.to_nat 3) with 3%nat. rewrite Hc4, Hcf. by apply bool_decide_eq_true_2.
  - by apply Hsub4.
Qed.

Lemma serving_download : exists tr s, serving_reaches tr s /\ run_added Data 3 tr = [pack (make_frame 1 3)].
Proof. destruct serving_queued as (tr & s & Hr & Ha & _). by exists tr, s. Qed.

(** The sender of channel 3 starts, and has its first turn. *)
Lemma serving_sends : exists tr1 s1 e s, serving_reaches tr1 s1 /\ sys_step s1 e s /\
  buf_queue Data 3 (w_bufs (sy_world s1)) = [pack (make_frame 1 3)] /\
  channel_opened 3 (ev_from e) = true /\ sends 3 e = true.
Proof.
  destruct serving_queued as (tr & [w ts] & Hr & _ & Hq & Hc & Hs). cbn [sy_world sy_threads] in *.
  destruct (reaches_inv _ _ _ _ Hr) as (_ & _ & _ & [Hok _] & _). cbn [sy_world] in Hok.
  apply list_elem_of_split in Hs as (ts1 & ts2 & ->).
  assert (turn (Sender 3 None) NoInput w = Some (Some (Sender 3 (Some packet_zero)), w)) as Hrun.
  { unfold turn, sender_turn, bind, gets, ret. rewrite data_target_inited by (apply Hok || lia). done. }
  pose proof (sys_turn w ts1 (Sender 3 None) ts2 NoInput _ w eq_refl Hrun ltac:(done)) as Hst.
  pose proof (reaches_step _ _ _ _ Hr Hst) as Hr1. cbn [after] in Hr1.
  destruct (reaches_inv _ _ _ _ Hr1) as (_ & _ & _ & Hinv & _).
  destruct (turn_steps _ (Sender 3 (Some packet_zero)) NoInput Hinv) as (e & s' & He & Hth); [|done|].
  { cbn [sy_threads]. rewrite !elem_of_app, list.elem_of_cons. tauto. }
  eexists _, _, e, s'. split; [exact Hr1|]. split; [exact He|]. cbn [sy_world]. split; [done|].
  destruct (step_spec _ e s' Hinv He) as (_ & _ & Hf & _). rewrite Hf. split; [done|].
  unfold sends. by rewrite Hth.
Qed.

Lemma running_well_formed_witness : exists tr s, serving_reaches tr s /\
  run_added Data 3 tr = [pack (make_frame 1 3)] /\ world_wf (sy_world s) /\ Forall local_ok (sy_threads s).
Proof.
  destruct serving_download as (tr & s & Hr & Ha). exists tr, s.
  pose proof (running_well_formed (fun _ _ => true) (fun _ => []) tr s Hr) as (Hwf & _ & _ & _ & Hl & _).
  split; [exact Hr|]. split; [exact Ha|]. split; [exact Hwf | exact Hl].
Defined.




Lemma downlink_drains_witness : exists tr1 s1 e s, serving_reaches tr1 s1 /\ sys_step s1 e s /\
  [pack (make_frame 1 3)] `prefix_of` run_taken Data 3 [e].
Proof.
  destruct serving_sends as (tr1 & s1 & e & s & Hr & He & Hq & Hc & Hs). exists tr1, s1, e, s.
  split; [exact Hr|]. split; [exact He|].
  assert (sys_run s1 [e] s) as Hrun by (eapply run_step; [apply run_start | exact He]).
  pose proof (downlink_drains (fun _ _ => true) (fun _ => []) tr1 s1 [e] s 3 Hr Hrun ltac:(lia)) as Hd.
  rewrite Hq in Hd. unfold send_turns_in in Hd. cbn [List.filter] in Hd. rewrite Hs in Hd. apply Hd.
  intros e' He' _. apply list_elem_of_singleton in He' as ->. exact Hc.
Defined.
End Scenario.
