(* ===== verification/Traffic.v ===== *)
(** * The traffic of the running gateway
    ([src/main18.c], the broadcast and the uplink across all its threads).

    The runs of [System] seen from two sides.  The broadcast machine of
    [BcastMachine] explains every run: each turn is labelled with the transitions
    it makes, and what the labels queue, select and take is what the threads
    send.  The frames of a device go through the receiving and the reporting
    thread of their channel to the client of port 9010. *)
From S2P Require Import Prelude Framing Words Ring RingSet Layout World Upload Broadcast Commands Download CanTx CanRx Along Ports Init Pps BcastMachine Threads System.
From Stdlib Require Import (notations) String.

(** ** The broadcast over a run *)

Section Broadcasting.
Context `{OS}.

(** The transitions of the broadcast machine in the turn of an event. *)
Definition ev_labels (e : event) (ls : list b_label) : Prop := turn_labels (ev_thread e) (ev_after e) ls.

(** Labels for a run, the latest event first in both lists; [labels_of] puts
    them in their order. *)
Definition labels_of (lss : list (list b_label)) : list b_label := mjoin (rev lss).

Lemma labels_of_cons ls lss : labels_of (ls :: lss) = labels_of lss ++ ls.
Proof. unfold labels_of. cbn [rev]. rewrite join_app. cbn. by rewrite app_nil_r. Qed.

(** Every run is a run of the broadcast machine. *)
Lemma run_broadcasts s0 tr s :
  sys_inv s0 -> sys_run s0 tr s -> exists lss, Forall2 ev_labels tr lss /\
    b_run (labels_of lss) (bview (sy_world s0)) = Some (bview (sy_world s)).
Proof.
  intros H0 Hr. induction Hr as [|tr s e s' Hr (lss & Hl & Hrun) Hs]; [by exists []|].
  destruct (step_spec s e s' (run_inv _ _ _ H0 Hr) Hs) as (_ & (_ & Ht & _) & Hf & Hto & _).
  destruct (to_bcast _ _ _ _ Ht) as (ls & Hls & Hb). rewrite Hf, Hto in Hb.
  exists (ls :: lss). split; [by constructor|]. rewrite labels_of_cons, b_run_app, Hrun. exact Hb.
Qed.

(** *** The broadcaster of a channel *)

(** The variables of the broadcasting thread of channel [id]: the group it has
    taken and not sent yet. *)
Definition broadcaster_var (id : Z) (t : local) : option (option BroadcastFrameGroup) :=
  match t with Broadcaster i g => if i =? id then Some g else None | _ => None end.
Definition broadcasters (id : Z) (ts : list local) := omap (broadcaster_var id) ts.

Lemma broadcaster_selects id : selects (broadcaster_var id) (BroadcastThread id).
Proof.
  split; [|done]. intros t. destruct t as [| | | | | | | |i g| | | |]; simpl; try by split; [intros []|].
  destruct (Z.eqb_spec i id) as [->|Hne]; [by split|]. split; [by intros []|]. congruence.
Qed.

(** The groups whose sending is the turn of an event. *)
Definition ev_group (id : Z) (e : event) : list BroadcastFrameGroup :=
  match ev_thread e with Broadcaster i (Some g) => if i =? id then [g] else [] | _ => [] end.
Fixpoint run_groups (id : Z) (tr : list event) : list BroadcastFrameGroup :=
  match tr with [] => [] | e :: tr' => run_groups id tr' ++ ev_group id e end.

(** What sending a group writes, the first write first: nothing on a closed
    channel, otherwise its frames one by one, all of them or up to the first
    that the device does not take whole. *)
Definition group_written (fd : Z) (g : BroadcastFrameGroup) (w : world) (opened : bool) (ws : list syscall) : Prop :=
  let frames := take (Z.to_nat (bg_frame_count g)) (bg_frames g) in
  if opened then
    ws = (write_of fd <$> frames) \/
    exists sent f rest, frames = sent ++ f :: rest /\ ws = (write_of fd <$> (sent ++ [f])) /\
      os_ret (rev (write_of fd <$> sent) ++ w_hist w) (write_of fd f) <> 24
  else ws = [].

Lemma can_writes_add fd (fs : list axican_frame) w :
  can_writes (add_calls (rev (write_of fd <$> fs)) w) = rev (write_of fd <$> fs) ++ can_writes w.
Proof.
  rewrite <- List.map_rev. change (List.map (write_of fd) (rev fs)) with (write_of fd <$> rev fs). unfold can_writes, add_calls. cbn [w_hist set_hist]. rewrite list.filter_app. f_equal.
  induction (rev fs) as [|f l IH]; [done|]. rewrite fmap_cons. unfold write_of at 1.
  rewrite filter_cons_True by done. by rewrite IH.
Qed.

(** The sending turn of the broadcaster. *)
Lemma sending_turn id g i w o w' :
  sys_ok w -> local_ok (Broadcaster id (Some g)) -> turn (Broadcaster id (Some g)) i w = Some (o, w') ->
  o = Some (Broadcaster id None) /\ exists ax ws, w_axican w !! Z.to_nat id = Some ax /\
    can_writes w' = rev ws ++ can_writes w /\ group_written (ax_wr_fd ax) g w (channel_opened id w) ws.
Proof.
  intros [Hwf Hh _ _] [Hid Hg] Hrun.
  destruct (send_group_in_order id g w) as (r & w1 & ax & c & Hsend & Hax & Hc & Hpost);
    [by apply below_nil | done..|].
  unfold turn, broadcaster_turn, bind in Hrun. rewrite Hsend in Hrun. injection Hrun as <- <-.
  split; [done|]. exists ax. unfold channel_opened. rewrite Hc. unfold group_written.
  destruct (cf_state c); cbn [bool_decide]; [exists []; destruct Hpost as [_ ->]; by rewrite Hax|].
  destruct Hpost as [[_ ->]|(sent & f & rest & Hfs & _ & Hbad & ->)].
  - eexists. split; [done|]. split; [by apply can_writes_add|]. by left.
  - eexists. split; [done|]. rewrite can_writes_event. split; [by apply can_writes_add|]. right.
    exists sent, f, rest. by split_and!.
Qed.

(** Only the broadcaster of a channel takes its groups. *)
Lemma labels_elsewhere id t o ls : turn_labels t o ls -> role t <> BroadcastThread id -> b_taken id ls = [].
Proof.
  assert (forall kind, (forall l, kind l = true -> taken_by id l = []) -> forallb kind ls = true ->
    b_taken id ls = []) as Hkind.
  { intros kind Hk. induction ls as [|l ls IH]; [done|]. cbn [forallb]. intros [Hl Hls]%andb_prop.
    unfold b_taken in *. cbn. by rewrite (Hk l Hl), IH. }
  destruct t as [| | | | | | | |i [g|]| | | |]; cbn [turn_labels role]; intros Hl Hr;
    try (by subst ls); try (by eapply Hkind; [|exact Hl]; intros []).
  destruct Hl as [(g & -> & _)|[[->| ->] _]]; cbn; try done.
  destruct (Z.eqb_spec i id) as [->|]; [by destruct Hr | done].
Qed.

(** What the broadcaster took is what it sent, and what it holds. *)
Lemma broadcaster_inv id s0 tr s lss :
  sys_inv s0 -> broadcasters id (sy_threads s0) `sublist_of` [None] ->
  sys_run s0 tr s -> Forall2 ev_labels tr lss ->
  exists held, (broadcasters id (sy_threads s) = [] \/ broadcasters id (sy_threads s) = [held]) /\
    group_unpack <$> b_taken id (labels_of lss) = run_groups id tr ++ option_list held.
Proof.
  intros H0 Hb0 Hr. revert lss. induction Hr as [|tr s e s' Hr IH Hs]; intros lss Hls.
  { apply Forall2_nil_inv_l in Hls as ->. exists None. split; [|done].
    apply sublist_single in Hb0 as [Hb0|Hb0]; rewrite Hb0; auto. }
  apply Forall2_cons_inv_l in Hls as (ls & lss1 & Hl & Hls & ->). destruct (IH lss1 Hls) as (held & Hheld & Htk).
  pose proof (run_inv _ _ _ H0 Hr) as Hinv. rewrite labels_of_cons. unfold b_taken in *. rewrite bind_app, fmap_app, Htk.
  fold (b_taken id ls). cbn [run_groups]. unfold ev_labels in Hl.
  destruct (decide (role (ev_thread e) = BroadcastThread id)) as [Hrole|Hrole].
  - destruct (vars_own _ _ (broadcaster_selects id) s e s' Hinv Hs Hrole) as (v & Hv & Hone & Hnext).
    { unfold broadcasters in Hheld. destruct Hheld as [-> | ->]; simpl; lia. }
    unfold broadcasters in Hheld. rewrite Hone in Hheld. destruct Hheld as [|[= ->]]; [done|].
    assert (ev_thread e = Broadcaster id held) as He.
    { destruct (ev_thread e); try done. injection Hrole as ->. cbn in Hv. rewrite Z.eqb_refl in Hv. congruence. }
    unfold ev_group, broadcasters. rewrite Hnext. rewrite He in *.
    destruct (step_spec s e s' Hinv Hs) as (_ & (Hlt & _ & i & Hturn) & Hf & _). rewrite He, Hf in *.
    destruct held as [g|]; cbn [turn_labels] in Hl.
    + destruct (sending_turn id g i _ _ _ (proj1 Hinv) Hlt Hturn) as [Ha _]. rewrite Ha, Hl. exists None. cbn.
      rewrite Z.eqb_refl, app_nil_r. auto.
    + rewrite !app_nil_r. destruct Hl as [(g & -> & Ha)|[Hl Ha]]; rewrite Ha; cbn; rewrite Z.eqb_refl.
      * exists (Some (group_unpack g)). auto.
      * exists None. destruct Hl as [->| ->]; auto.
  - rewrite (labels_elsewhere id _ _ _ Hl Hrole). unfold broadcasters.
    rewrite (vars_kept _ _ (broadcaster_selects id) s e s' Hinv Hs Hrole). exists held.
    assert (ev_group id e = []) as ->; [|by rewrite !app_nil_r].
    unfold ev_group. destruct (ev_thread e) as [| | | | | | | |i [g|]| | | |]; try done.
    destruct (Z.eqb_spec i id) as [->|]; [by destruct Hrole | done].
Qed.

(** What holds at every event of a run. *)
Lemma run_event s0 tr s e :
  sys_inv s0 -> sys_run s0 tr s -> e ∈ tr ->
  event_ok e /\ sys_ok (ev_from e) /\ ax_device <$> w_axican (ev_from e) = ax_device <$> w_axican (sy_world s0).
Proof.
  intros H0 Hr. induction Hr as [|tr s e' s' Hr IH Hs]; intros He; [by apply not_elem_of_nil in He|].
  apply list.elem_of_cons in He as [->|He]; [|by apply IH]. pose proof (run_inv _ _ _ H0 Hr) as Hinv.
  destruct (step_spec s e' s' Hinv Hs) as (_ & Hok & -> & _).
  split; [done|]. split; [apply Hinv | by apply (run_device s0 tr)].
Qed.

(** The sending turns of a run. *)
Lemma run_sends s0 tr s id ax e g :
  sys_inv s0 -> sys_run s0 tr s -> w_axican (sy_world s) !! Z.to_nat id = Some ax ->
  e ∈ tr -> ev_thread e = Broadcaster id (Some g) ->
  group_ok g /\ exists ws, can_writes (ev_to e) = rev ws ++ can_writes (ev_from e) /\
    group_written (ax_wr_fd ax) g (ev_from e) (channel_opened id (ev_from e)) ws.
Proof.
  intros H0 Hr Hax He Ht. destruct (run_event s0 tr s e H0 Hr He) as ((Hl & _ & i & Hturn) & Hok & Hd).
  rewrite Ht in *. split; [apply Hl|].
  destruct (sending_turn id g i _ _ _ Hok Hl Hturn) as (_ & ax' & ws & Hax' & Hw & Hg).
  rewrite <- (run_device s0 tr s H0 Hr) in Hd.
  destruct (device_kept _ _ _ _ (eq_sym Hd) Hax') as (ax1 & H1 & _ & Hwr).
  rewrite Hax in H1. injection H1 as <-. exists ws. by rewrite Hwr.
Qed.
End Broadcasting.

(** ** The uplink over a run *)

Section Uplink.
Context `{OS}.
#[local] Open Scope c_scope.

(** The frames a turn of the receiver of channel [id] accepts: those the device
    gives, as many as the queue has room for. *)
Definition ev_read (id : Z) (e : event) : list bytes :=
  match ev_thread e with
  | Receiver i =>
    if i =? id
    then take (room 32768 (received_queue id (ev_from e))) (received_turn_frames id (ev_from e)) else []
  | _ => []
  end.
Fixpoint run_read (id : Z) (tr : list event) : list bytes :=
  match tr with [] => [] | e :: tr' => run_read id tr' ++ ev_read id e end.

(** The turns of the reporting thread of channel [id], and what they report. *)
Definition reporting_turn (id : Z) (e : event) : bool :=
  match ev_thread e with Dequeuer2 i => i =? id | _ => false end.
Definition ev_reports (id : Z) (e : event) : list CAN_ARM_PC_DATA :=
  if reporting_turn id e then drop (length (reports id (ev_from e))) (reports id (ev_to e)) else [].
Fixpoint run_reports (id : Z) (tr : list event) : list CAN_ARM_PC_DATA :=
  match tr with [] => [] | e :: tr' => run_reports id tr' ++ ev_reports id e end.

(** The frames those turns take. *)
Definition ev_fetched (id : Z) (e : event) : list bytes :=
  if reporting_turn id e then ev_taken CanQueue id e else [].
Fixpoint run_fetched (id : Z) (tr : list event) : list bytes :=
  match tr with [] => [] | e :: tr' => run_fetched id tr' ++ ev_fetched id e end.

(** What is put into the queue of received frames is what the device gave. *)
Lemma event_read id e :
  event_ok e -> sys_ok (ev_from e) -> 0 <= id < 6 -> ev_added CanQueue id e = ev_read id e.
Proof.
  intros (Hl & _ & i & Hturn) [Hwf _ _ Hf] Hid. unfold ev_added, ev_read.
  destruct (ev_thread e) as [| |[] | |j| | | | | | | | ] eqn:He; try done. cbn.
  rewrite (Z.eqb_sym id j). destruct (Z.eqb_spec j id) as [->|]; [|done].
  destruct (axican_lookup id (ev_from e) Hwf Hid) as [ax Hax].
  destruct (Forall_lookup_1 _ _ _ _ Hf Hax) as [Hrd _].
  pose proof (recv_turn_spec id _ ax Hwf Hid Hax Hrd) as Hwp.
  apply wp_exec in Hwp as ([] & w1 & Hrun & _ & _ & Hq). cbn in Hturn. unfold bind in Hturn. rewrite Hrun in Hturn.
  injection Hturn as _ Hto. rewrite <- Hto. cbn [rx_queue] in Hq. rewrite Hq. unfold offer. by rewrite drop_app_length.
Qed.

(** A turn of the reporting thread reports the frames it takes, in order. *)
Lemma event_reports id e :
  event_ok e -> sys_ok (ev_from e) -> 0 <= id < 6 -> reporting_turn id e = true ->
  (packet_view <$> ev_reports id e).*2 `sublist_of` (frame_view ∘ unpack <$> ev_fetched id e) /\
  (client_takes (data_upload_socket (ev_from e)) -> length (ev_reports id e) = length (ev_fetched id e)).
Proof.
  intros (Hl & _ & i & Hturn) [Hwf Hh _ _] Hid Hd. unfold ev_reports, ev_fetched, ev_taken. rewrite Hd.
  unfold reporting_turn in Hd. destruct (ev_thread e) as [| | | | | | | | | |j| |] eqn:He; try done.
  apply Z.eqb_eq in Hd as ->. cbn. rewrite Z.eqb_refl. cbn [andb].
  pose proof (process_turn_spec id _ (below_nil 4 _ Hh) Hwf Hid) as Hwp.
  apply wp_exec in Hwp as ([] & w1 & Hrun & _ & taken & c & rs & _ & Hq & _ & _ & Hr & Hp & Ht).
  cbn in Hturn. unfold bind in Hturn. rewrite Hrun in Hturn. injection Hturn as _ Hto. rewrite <- Hto.
  rewrite (consumed_front _ _ _ Hq), Hr, drop_app_length. split; [|intros Hc; by apply Ht].
  rewrite list_fmap_compose. by eapply prefix_views.
Qed.

(** What a sublist with as many elements is. *)
Lemma sublist_full {A} (l1 l2 : list A) : l1 `sublist_of` l2 -> length l1 = length l2 -> l1 = l2.
Proof. intros Hs Hl. induction Hs as [|x l1 l2 _ IH|x l1 l2 Hs _]; [done| |]; simpl in *.
  - f_equal. apply IH. lia.
  - apply sublist_length in Hs. lia.
Qed.

Lemma run_uplink s0 tr s id :
  sys_inv s0 -> sys_run s0 tr s -> 0 <= id < 6 ->
  run_added CanQueue id tr = run_read id tr /\
  run_fetched id tr `sublist_of` run_taken CanQueue id tr /\
  (packet_view <$> run_reports id tr).*2 `sublist_of` (frame_view ∘ unpack <$> run_fetched id tr) /\
  ((forall e, e ∈ tr -> reporting_turn id e = true -> client_takes (data_upload_socket (ev_from e))) ->
   length (run_reports id tr) = length (run_fetched id tr)).
Proof.
  intros H0 Hr Hid.
  assert (forall e, e ∈ tr -> event_ok e /\ sys_ok (ev_from e)) as Hev.
  { intros e He. by destruct (run_event s0 tr s e H0 Hr He) as (? & ? & _). }
  clear Hr H0 s0. induction tr as [|e tr IH]; [by split_and!|].
  destruct (Hev e (list_elem_of_here _ _)) as (He & Hok).
  destruct IH as (IH1 & IH2 & IH3 & IH4); [intros e' He'; apply Hev; by apply list_elem_of_further|].
  cbn [run_added run_read run_fetched run_taken run_reports].
  rewrite IH1, (event_read id e He Hok Hid), !fmap_app, !length_app. split; [done|].
  destruct (reporting_turn id e) eqn:Hd.
  - destruct (event_reports id e He Hok Hid Hd) as [Hs Hl].
    split; [apply sublist_app; [done|]; unfold ev_fetched; by rewrite Hd|].
    split; [by apply sublist_app|]. intros Hc.
    rewrite IH4, Hl; [done | by apply Hc, Hd; left|]. intros e' He'. apply Hc. by right.
  - unfold ev_fetched, ev_reports. rewrite Hd. cbn. rewrite !app_nil_r, Nat.add_0_r.
    split; [by apply sublist_inserts_r|]. split; [done|]. intros Hc. rewrite Nat.add_0_r. apply IH4.
    intros e' He'. apply Hc. by right.
Qed.
End Uplink.

Section FromMain.
Context `{OS}.
Variable malloc_ok : nat -> Z -> bool.
Variable strerror : list syscall -> bytes.

Lemma broadcasters_main id : 0 <= id < 6 -> broadcasters id (boot <$> main_threads) = [None].
Proof.
  intros Hid. assert (id = 0 \/ id = 1 \/ id = 2 \/ id = 3 \/ id = 4 \/ id = 5) as Hc by lia.
  by destruct Hc as [->|[->|[->|[->|[->| ->]]]]].
Qed.

(** C6. The broadcast of the running gateway: every run of all the threads from
    [main] is a run of the broadcast machine, in which the command port only
    accepts schedules, the download port only queues groups, the pulse thread
    only selects and a broadcaster only takes.  Since the last accepted
    schedule, the groups taken on a channel are, in order, a prefix of those
    queued, the rest being exactly what is queued, at most 16; they are no more
    than the pulses that selected the channel, less those still pending.  Every
    group taken is sent once, in order, by the broadcaster of the channel, or is
    the one it holds; and sending writes its frames on the device of the
    channel, all of them unless the channel is closed or a write fails. *)
Theorem running_broadcast tr s id :
  reaches malloc_ok strerror tr s -> 0 <= id < 6 ->
  exists lss, Forall2 ev_labels tr lss /\ b_run (labels_of lss) b_start = Some (bview (sy_world s)) /\
    (let since := since_reset (labels_of lss) in
     let q := buf_queue BcastGroup id (w_bufs (sy_world s)) in
     b_queued id since = b_taken id since ++ q /\ zlen q <= 16 /\
     zlen (b_taken id since) + pending_of id (sy_world s) <= b_selected id since) /\
    (exists held, group_unpack <$> b_taken id (labels_of lss) = run_groups id tr ++ option_list held /\
       forall v, Broadcaster id v ∈ sy_threads s -> v = held) /\
    exists ax, w_axican (sy_world s) !! Z.to_nat id = Some ax /\
      forall e g, e ∈ tr -> ev_thread e = Broadcaster id (Some g) ->
        group_ok g /\ exists ws, can_writes (ev_to e) = rev ws ++ can_writes (ev_from e) /\
          group_written (ax_wr_fd ax) g (ev_from e) (channel_opened id (ev_from e)) ws.
Proof.
  intros Hr Hid. destruct (reaches_inv malloc_ok strerror tr s Hr) as (w & Hrun & H0 & Hinv & _ & Hsub & Hb).
  destruct (run_broadcasts _ _ _ H0 Hrun) as (lss & Hl & Hm). cbn [gateway sy_world] in Hm. rewrite Hb in Hm.
  exists lss. split; [done|]. split; [done|]. split; [|split].
  - destruct (machine_account id _ _ Hid Hm) as (q & p & Hq & Hp & Hacc & _ & Hsel & Hd).
    rewrite bview_chan in Hq by done. injection Hq as <-. apply chan_nonneg in Hp as [_ Hp]. cbn [b_pending bview] in Hp.
    unfold pending_of. rewrite Hp. by split_and!.
  - apply (sublist_omap (broadcaster_var id)) in Hsub. fold (broadcasters id (boot <$> main_threads)) in Hsub.
    rewrite (broadcasters_main id Hid) in Hsub.
    destruct (broadcaster_inv id _ _ _ lss H0 Hsub Hrun Hl) as (held & Hheld & Htk). exists held. split; [done|].
    intros v Hv. assert (v ∈ broadcasters id (sy_threads s)) as He.
    { apply list_elem_of_omap. eexists. split; [exact Hv|]. simpl. by rewrite Z.eqb_refl. }
    destruct Hheld as [Hn|Hn]; rewrite Hn in He; [by apply not_elem_of_nil in He|].
    by apply list_elem_of_singleton in He.
  - destruct (axican_lookup id (sy_world s)) as [ax Hax]; [apply Hinv | done|]. exists ax. split; [done|].
    intros e g He Ht. by apply (run_sends _ tr s id ax e g H0 Hrun).
Qed.

(** C7. The uplink of a channel, from the device to the network, in every run
    of the whole system: the frames its receiver accepted from the device are, in
    order, those taken from its queue followed by those still queued; the
    reporting thread takes some of those, in order, the simulator the others;
    what it has reported to the PC shows the frames it took, in their order and
    each at most once; and when the client of port 9010 takes every packet,
    every frame it took is reported. *)
Theorem uplink_running tr s id :
  reaches malloc_ok strerror tr s -> 0 <= id < 6 ->
  run_read id tr = run_taken CanQueue id tr ++ received_queue id (sy_world s) /\
  run_fetched id tr `sublist_of` run_taken CanQueue id tr /\
  (packet_view <$> run_reports id tr).*2 `sublist_of` (frame_view ∘ unpack <$> run_fetched id tr) /\
  ((forall e, e ∈ tr -> reporting_turn id e = true -> client_takes (data_upload_socket (ev_from e))) ->
   (packet_view <$> run_reports id tr).*2 = (frame_view ∘ unpack <$> run_fetched id tr)).
Proof.
  intros Hr Hid. destruct (reaches_inv malloc_ok strerror tr s Hr) as (w & Hrun & H0 & _ & Hq & _).
  pose proof (run_queue _ _ _ CanQueue id H0 Hrun ltac:(done) (proj1 Hid)) as Hrq. cbn [gateway sy_world] in Hrq.
  rewrite Hq in Hrq by (cbn; lia). destruct (run_uplink _ _ _ id H0 Hrun Hid) as (Hread & Hf & Hs & Hl).
  rewrite <- Hread. split; [exact Hrq|]. split; [done|]. split; [done|]. intros Hc.
  apply sublist_full; [done|]. rewrite !length_fmap. by apply Hl.
Qed.
End FromMain.

(** ** A run: after a client opened channel 3 and another one connected, a
    schedule, a pulse and a broadcast frame, which the broadcaster of the channel
    takes and sends *)

Section Scenario.
#[local] Existing Instance serving_os.
Abbreviation serving_reaches := (@reaches serving_os (fun _ _ => true) (fun _ => [])).

(** The schedule: polling over channel 3. *)
Definition serving_schedule : bytes :=
  let p c := {| bp_head := PC_STATUS_HEAD; bp_direction := 0; bp_type := 0; bp_length := 40;
                bp_reserved := 0; bp_config_count := 7; bp_enable := 1; bp_b_mode := 2;
                bp_start_group := 0; bp_start_channel := 3; bp_active_mask := 8;
                bp_group_a_mask := 0; bp_group_b_mask := 0; bp_timestamp := 0;
                bp_xor_checksum := c |} in
  pack (p (calculate_xor_checksum (pack (p 0)) 36)).
Definition schedule_packet : bytes := request_bytes (mk_request [] 0x0104 1 serving_schedule).

(** Channel 3 is open, and its broadcast has the queue [q] and [p] wake-ups. *)
Definition airing (q : list bytes) (p : Z) (w : world) : Prop :=
  sys_ok w /\ data_download_socket w = 6 /\
  w_configs w !! 3%nat = Some (set_cf_state CAN_STATE_OPENED (opened_config 3)) /\
  buf_queue BcastGroup 3 (w_bufs w) = q /\ g_bcast_pending (w_bc w) !! 3%nat = Some p.

Lemma schedule_dispatch : dispatch_command 6 (unpack schedule_packet) (drop 16 schedule_packet) =
  handle_broadcast_config 6 (unpack schedule_packet) serving_schedule.
Proof.
  unfold dispatch_command. cbv zeta.
  assert (drop 16 schedule_packet = serving_schedule) as -> by (vm_compute; reflexivity).
  assert (reverse_2bytes (rq_cmd_type (unpack schedule_packet)) = 0x0104) as -> by (vm_compute; reflexivity).
  by assert (zlen serving_schedule = 40) as -> by (vm_compute; reflexivity).
Qed.

Lemma airing_schedule w :
  sys_ok w -> data_download_socket w = 6 ->
  w_configs w !! 3%nat = Some (set_cf_state CAN_STATE_OPENED (opened_config 3)) ->
  exists w', turn (Commander 6 (Some [])) (Arrived schedule_packet) w = Some (Some (Commander 6 (Some [])), w') /\
    airing [] 0 w' /\ g_bcast_cfg (w_bc w') = sched_of_param (unpack serving_schedule).
Proof.
  intros Hok Hd Hc. pose proof Hok as [Hwf Hh _ _].
  destruct (commander_packet schedule_packet w (fun w' => exists b, 
    (forall ch, 0 <= ch -> buf_queue BcastGroup ch b = []) /\
    net_only (scheduled (unpack serving_schedule) b w) w')) as (w' & Hrun & Hok' & b & Hq & Hn);
    [done | by vm_compute | by vm_compute | |].
  - rewrite schedule_dispatch. eapply wp_mono; [apply config_spec; [by apply below_nil | apply Hwf | apply Hwf | by vm_compute]|].
    intros [] w' [Hv _]. destruct Hv as (b & -> & _ & Hq & _); [apply (bool_decide_unpack _); by vm_compute|].
    exists b. split; [done | apply net_only_bcast_reply].
  - exists w'. split; [done|]. unfold airing. rewrite (no_download _ _ Hn), (no_configs _ _ Hn), (no_bufs _ _ Hn), (no_bc _ _ Hn).
    split; [|done]. split; [done|]. split; [done|]. split; [done|]. split; [by apply Hq | done].
Qed.

(** The pulse thread opens its device, and a pulse arrives. *)
Lemma airing_opens w :
  airing [] 0 w -> g_bcast_cfg (w_bc w) = sched_of_param (unpack serving_schedule) ->
  exists w', turn (PulseWaiter None) NoInput w = Some (Some (PulseWaiter (Some 0)), w') /\
    airing [] 0 w' /\ g_bcast_cfg (w_bc w') = sched_of_param (unpack serving_schedule).
Proof.
  intros (Hok & Hd & Hc & Hq & Hp) Hcfg.
  destruct (serving_turn (PulseWaiter None) NoInput w (Some (PulseWaiter (Some 0)))
    (fun w' => w' = add_call SysOpenPps w)) as (w' & Hrun & Hok' & ->); [done..| |].
  - unfold turn, pulse_waiter_turn. wp_step. apply wp_sys. by wp_step.
  - eexists. split; [exact Hrun|]. split; [|exact Hcfg].
    split; [done|]. split; [exact Hd|]. split; [exact Hc|]. split; [exact Hq | exact Hp].
Qed.

Lemma airing_pulse w :
  airing [] 0 w -> g_bcast_cfg (w_bc w) = sched_of_param (unpack serving_schedule) ->
  exists w', turn (PulseWaiter (Some 0)) (Polled (mk_poll 1 false 1)) w = Some (Some (PulseWaiter (Some 0)), w') /\
    airing [] 1 w' /\ gate_open w' = true.
Proof.
  intros (Hok & Hd & Hc & Hq & Hp) Hcfg. pose proof Hok as [Hwf Hh _ _].
  destruct (serving_turn (PulseWaiter (Some 0)) (Polled (mk_poll 1 false 1)) w (Some (PulseWaiter (Some 0)))
    (fun w' => w' = pps_result (add_call (SysIoctlIrqCount 0) w))) as (w' & Hrun & Hok' & ->); [done..| |].
  - unfold turn, pulse_waiter_turn. change (po_ret (mk_poll 1 false 1)) with 1. change (1 =? 0) with false.
    change (1 <? 0) with false. cbv iota. wp_step. unfold pulse_turn.
    change (negb (Z.land (po_revents (mk_poll 1 false 1)) (Z.lor POLLIN POLLRDNORM) =? 0)) with true. cbn [when].
    wp_step. apply wp_sys. unfold wp at 1. rewrite pps_eq; [by wp_step | by apply below_nil | apply Hwf].
  - eexists. split; [exact Hrun|]. unfold pps_result. cbn [w_bc add_call set_hist].
    assert (select_mask (g_bcast_cfg (w_bc w)) = (8, set_poll_next 4 (sched_of_param (unpack serving_schedule)))) as Hsel
      by (rewrite Hcfg; vm_compute; reflexivity).
    split; [|rewrite Hsel; reflexivity]. unfold pps_result in Hok'. cbn [w_bc add_call set_hist] in Hok'.
    split; [exact Hok'|]. rewrite Hsel. clear Hok' Hrun. change (8 =? 0) with false. cbv iota.
    split; [exact Hd|]. split; [exact Hc|]. split; [exact Hq|].
    cbn [w_bc add_calls set_hist with_pending set_bc g_bcast_pending set_bc_pending].
    change 3%nat with (Z.to_nat 3). rewrite wake_pending_lookup by lia.
    change (Z.to_nat 3) with 3%nat. by rewrite Hp.
Qed.

Lemma frame_group_ok id : is_u32 id -> group_ok (make_group id [make_frame 2 3]).
Proof.
  intros Hid. apply (make_group_ok id [make_frame 2 3]); [exact Hid | | cbv; split; discriminate].
  constructor; [by vm_compute | constructor].
Qed.

(** The client of port 9012 sends a broadcast frame. *)
Lemma airing_download w :
  airing [] 1 w -> gate_open w = true ->
  exists o w' g, turn (Downloader 6 (DlReceiving [])) (Arrived (frame_download 2)) w = Some (o, w') /\
    g = make_group (next_id w) [make_frame 2 3] /\ group_ok g /\ airing [group_pack g] 1 w'.
Proof.
  intros (Hok & Hd & Hc & Hq & Hp) Hgate. pose proof Hok as [Hwf Hh _ _]. set (payload := pack (make_frame 2 3)).
  pose proof (process_frames_spec payload 3 (processing w) (processing_below w) (processing_wf w Hwf)
    ltac:(lia)) as Hwp.
  destruct (proj1 (wp_exec _ _ _) Hwp) as (r & w1 & Hrun & Hdl & Hpost). clear Hwp.
  assert (payload_frames payload = [make_frame 2 3]) as Hfs by (vm_compute; reflexivity).
  destruct (serving_receive 2 w r w1) as (o & w' & Hturn & Hb & Hcf & Hbc & Hds); [by vm_compute..|done|done|exact Hrun|].
  exists o, w', (make_group (next_id w) [make_frame 2 3]). split; [exact Hturn|]. split; [done|].
  assert (waits_for (Downloader 6 (DlReceiving [])) (Arrived (frame_download 2)) = true) as Hi by (vm_compute; reflexivity).
  pose proof (turn_keeps_ok (Downloader 6 (DlReceiving [])) (Arrived (frame_download 2)) w o w' Hok eq_refl Hi Hturn) as Hok'. clear Hturn Hrun Hi.
  assert (1 <= zlen [make_frame 2 3] <= 128) as Hlen by (cbv; split; discriminate).
  assert (group_accepted 3 [make_frame 2 3] (processing w)) as Hacc.
  { split; [exact Hlen|]. split; [lia|]. split; [eexists; split; [exact Hc | done]|].
    split; [exact Hgate|]. change (w_bufs (processing w)) with (w_bufs w). by rewrite Hq. }
  split.
  { apply frame_group_ok, next_id_u32. }
  split; [exact Hok'|]. rewrite Hds, Hcf, Hb, Hbc, (dl_download _ _ Hdl), (dl_configs _ _ Hdl), (proj2 (dl_sched _ _ Hdl)).
  split; [exact Hd|]. split; [exact Hc|]. split; [|exact Hp].
  destruct Hpost as [(_ & _ & [(f & [Hf Hty] & _)|(_ & _ & Ha)])|(_ & Hna & _)].
  - exfalso. rewrite Hfs in Hf. injection Hf as <-. discriminate Hty.
  - change (w_bufs (processing w)) with (w_bufs w) in Ha. by rewrite Hfs, Hq in Ha.
  - exfalso. apply Hna. split; [split_and!; [by vm_compute | by vm_compute | by vm_compute |]|].
    + rewrite Hfs. constructor; [by vm_compute | constructor].
    + right. unfold all_broadcast. rewrite Hfs. split; [constructor; [by vm_compute | constructor] | exact Hacc].
Qed.

(** The broadcaster takes the group. *)
Lemma airing_take w g :
  group_ok g -> airing [group_pack g] 1 w ->
  exists w', turn (Broadcaster 3 None) NoInput w = Some (Some (Broadcaster 3 (Some g)), w') /\ airing [] 0 w'.
Proof.
  intros Hg (Hok & Hd & Hc & Hq & Hp). pose proof Hok as [Hwf Hh _ _].
  destruct (serving_turn (Broadcaster 3 None) NoInput w (Some (Broadcaster 3 (Some g)))
    (fun w' => data_download_socket w' = data_download_socket w /\ w_configs w' = w_configs w /\
       buf_queue BcastGroup 3 (w_bufs w') = [] /\ g_bcast_pending (w_bc w') !! 3%nat = Some 0))
    as (w' & Hrun & Hok' & Hd' & Hc' & Hq' & Hp'); [done|by split; [lia|]|done| |].
  - set (dst := replicate (Z.to_nat sizeof_BroadcastFrameGroup) x00).
    assert (zlen dst = sizeof_BroadcastFrameGroup) as Hdst.
    { unfold dst, zlen. rewrite length_replicate. by unfold sizeof_BroadcastFrameGroup. }
    unfold turn, broadcaster_turn. fold dst. clearbody dst. wp_step.
    eapply wp_mono; [by apply take_spec; [apply below_nil| |lia|]|].
    intros [r bs] w1 (p & Hp1 & Hpost). change (Z.to_nat 3) with 3%nat in *. rewrite Hp in Hp1. injection Hp1 as <-.
    change (1 =? 0) with false in Hpost. cbv iota in Hpost. destruct Hpost as (b & -> & _ & _ & c & Hc1 & Hpost).
    rewrite Hc in Hc1. injection Hc1 as <-. rewrite decide_True in Hpost by done. rewrite Hq in Hpost.
    destruct Hpost as (-> & -> & Hq'). wp_step. change (1 =? 1) with true. cbv iota.
    rewrite group_unpack_pack by apply Hg. split; [done|]. split; [done|]. split; [done|]. split; [exact Hq'|].
    cbn [w_bc bc_upd set_bc g_bcast_pending set_bc_pending].
    apply list_lookup_insert_eq. by eapply lookup_lt_Some.
  - exists w'. split; [exact Hrun|]. unfold airing. by rewrite Hd', Hc'.
Qed.

(** The whole run. *)
Lemma airing_run : exists tr s g e, serving_reaches tr s /\ bg_frame_count g = 1 /\ e ∈ tr /\
  ev_thread e = Broadcaster 3 (Some g) /\ channel_opened 3 (ev_from e) = true.
Proof.
  destruct serving_connected as (tr & w & ts & Hr & _ & Hpo & (Hok & _ & Hd & Hc) & Hco & Hdl & _ & Hb & Hpw).
  destruct (airing_schedule w Hok Hd Hc) as (w1 & Hrun1 & Hw1 & Hcfg1).
  destruct (reaches_turn _ _ _ _ _ _ _ Hr Hco Hrun1 ltac:(vm_compute; reflexivity) ltac:(done)) as (ts1 & Hr1 & Hs1 & _).
  destruct (airing_opens w1 Hw1 Hcfg1) as (w2 & Hrun2 & Hw2 & Hcfg2).
  destruct (reaches_turn _ _ _ _ _ _ _ Hr1 (Hs1 _ Hpw ltac:(done)) Hrun2 eq_refl ltac:(done)) as (ts2 & Hr2 & Hs2 & Hp2).
  destruct (airing_pulse w2 Hw2 Hcfg2) as (w3 & Hrun3 & Hw3 & Hg3).
  destruct (reaches_turn _ _ _ _ _ _ _ Hr2 Hp2 Hrun3 ltac:(done) ltac:(done)) as (ts3 & Hr3 & Hs3 & _).
  destruct (airing_download w3 Hw3 Hg3) as (o & w4 & g & Hrun4 & Hg & Hgok & Hw4).
  assert (forall t, t ∈ ts -> t <> Commander 6 (Some []) -> t <> PulseWaiter None -> t <> PulseWaiter (Some 0) ->
    t ∈ ts3) as Hsub by auto.
  destruct (reaches_turn _ _ _ _ _ _ _ Hr3 (Hsub _ Hdl ltac:(done) ltac:(done) ltac:(done)) Hrun4
    ltac:(vm_compute; reflexivity) ltac:(done)) as (ts4 & Hr4 & Hs4 & _).
  destruct (airing_take w4 g Hgok Hw4) as (w5 & Hrun5 & Hw5).
  pose proof (Hs4 _ (Hsub _ Hb ltac:(done) ltac:(done) ltac:(done)) ltac:(done)) as Hb4.
  destruct (reaches_turn _ _ _ _ _ _ _ Hr4 Hb4 Hrun5 eq_refl ltac:(done)) as (ts5 & Hr5 & _ & Hb5).
  destruct (reaches_inv _ _ _ _ Hr5) as (_ & _ & _ & Hinv & _).
  destruct (turn_steps _ (Broadcaster 3 (Some g)) NoInput Hinv Hb5 eq_refl) as (e & s & Hst & Hth).
  eexists _, s, g, e. split; [by eapply reaches_step|]. split; [by rewrite Hg|]. split; [by left|]. split; [done|].
  destruct (step_spec _ e s Hinv Hst) as (_ & _ & -> & _). unfold channel_opened. change (Z.to_nat 3) with 3%nat.
  destruct Hw5 as (_ & _ & Hc5 & _). cbn [sy_world]. rewrite Hc5. by apply bool_decide_eq_true_2.
Qed.

(** *** The uplink: channel 3 is set to the normal mode, a client connects to
    port 9010, and the device gives two frames *)

Definition channel_config : bytes :=
  let p x := {| cc_head := PC_STATUS_HEAD; cc_direction := 0; cc_type := 0; cc_length := 48;
    cc_ch_id := 3; cc_total_count := 0; cc_ch_count := 0; cc_baud_rate := 250000;
    cc_mode := ZMUAV_XCAN_MODE_LOOPBACK; cc_auto_send := 0; cc_ier := 0; cc_Packet_Interval := 0;
    cc_CAN_DATA_MODE := NORMAL_MODE; cc_reserved := replicate 6 x00; cc_timestamp := 0;
    cc_xor_checksum := x |} in
  pack (p (calculate_xor_checksum (pack (p 0)) 44)).
Definition config_packet : bytes := request_bytes (mk_request [] 0x0101 1 channel_config).

Lemma config_dispatch : dispatch_command 6 (unpack config_packet) (drop 16 config_packet) =
  handle_can_config 6 (unpack config_packet) channel_config.
Proof.
  unfold dispatch_command. cbv zeta.
  assert (drop 16 config_packet = channel_config) as -> by (vm_compute; reflexivity).
  assert (reverse_2bytes (rq_cmd_type (unpack config_packet)) = 0x0101) as -> by (vm_compute; reflexivity).
  by assert (zlen channel_config = 48) as -> by (vm_compute; reflexivity).
Qed.

(** Channel 3 is open in the normal mode and has received the frames [q]. *)
Definition hearing (q : list bytes) (w : world) : Prop :=
  sys_ok w /\ buf_queue CanQueue 3 (w_bufs w) = q /\
  (exists c, w_configs w !! 3%nat = Some c /\ cf_can_type c = NORMAL_MODE /\ cf_state c = CAN_STATE_OPENED) /\
  exists rd wr, w_axican w !! 3%nat = Some (opened_axican 3 rd wr).

Lemma configured_type stored p c :
  cf_can_type (baud_config stored p (named_config p c)) = u8 (cc_CAN_DATA_MODE p) /\
  cf_state (baud_config stored p (named_config p c)) = cf_state c.
Proof. by destruct stored. Qed.

Lemma hearing_config w :
  serving CAN_STATE_OPENED w ->
  exists w', turn (Commander 6 (Some [])) (Arrived config_packet) w = Some (Some (Commander 6 (Some [])), w') /\
    hearing [] w'.
Proof.
  intros (Hok & Hq & Hd & Hc & Hax). pose proof Hok as [Hwf Hh _ _].
  destruct (commander_packet config_packet w (config_handled channel_config w)) as (w' & Hrun & Hok' & Hr);
    [done | by vm_compute | by vm_compute | |].
  { rewrite config_dispatch. by apply handle_can_config_spec; [apply below_nil | | by vm_compute]. }
  exists w'. split; [exact Hrun|]. split; [exact Hok'|]. clear Hrun Hok'. unfold config_handled in Hr.
  assert (config_accepted channel_config = true) as Ha by by vm_compute. rewrite Ha in Hr.
  destruct Hr as (ax & c & _ & Hc1 & Hr). cbv zeta in Hr.
  assert (cc_ch_id (unpack channel_config) = 3) as Hid by (vm_compute; reflexivity).
  assert (cc_type (unpack channel_config) = 0) as Hty by (vm_compute; reflexivity).
  assert (cc_CAN_DATA_MODE (unpack channel_config) = NORMAL_MODE) as Hm by (vm_compute; reflexivity).
  rewrite Hid in Hc1. rewrite Hid, Hty, Hm in Hr. change (Z.to_nat 3) with 3%nat in *.
  change ((0 =? 0) && ((NORMAL_MODE =? ALONG_MODE) || (NORMAL_MODE =? NORMAL_MODE)))%bool with true in Hr. cbv iota in Hr.
  destruct Hr as (rb & rm & w1 & _ & _ & Hat & ->). rewrite Hid in Hat. change (Z.to_nat 3) with 3%nat in *.
  pose proof (at_config_net _ _ _ _ Hat (net_only_config_reply
    (if setting_done (NORMAL_MODE =? ALONG_MODE) (baud_valid (unpack channel_config)) rb &&
        setting_done (NORMAL_MODE =? ALONG_MODE) (mode_valid (unpack channel_config)) rm then 0 else 1) w1)) as Hat'.
  rewrite (no_bufs _ _ Hat'), (at_config_configs _ _ _ Hat'), (no_axican _ _ Hat'). cbn [w_bufs w_axican w_configs set_configs].
  split; [apply Hq; cbn; lia|]. split; [|done].
  rewrite Hc in Hc1. injection Hc1 as <-. eexists.
  rewrite list_lookup_insert_eq by (rewrite length_insert; by eapply lookup_lt_Some). split; [done|].
  rewrite (proj1 (configured_type _ _ _)), (proj2 (configured_type _ _ _)), Hm. by split.
Qed.

Lemma hearing_calls q w cs : hearing q w -> hearing q (add_calls cs w).
Proof. intros ([Hwf Hh Hsi Hf] & Hw). split; [split; [by destruct Hwf | done..] | done]. Qed.

(** The client of port 9010. *)
Lemma hearing_client q w :
  hearing q w -> exists w', turn (PortClient UploadPort 6 false) NoInput w = Some (Some (PortClient UploadPort 6 true), w') /\
    hearing q w' /\ data_upload_socket w' = 6.
Proof.
  intros (Hok & Hq & Hc & Hax). pose proof Hok as [Hwf Hh _ _].
  destruct (serving_turn (PortClient UploadPort 6 false) NoInput w (Some (PortClient UploadPort 6 true))
    (fun w' => net_only w w' /\ data_upload_socket w' = 6)) as (w' & Hrun & Hok' & Hn & Hs); [done..| |].
  - unfold turn, port_client_turn. cbn [negb]. wp_step.
    destruct (port_open_spec UploadPort 6 [6; port_socket UploadPort w] w) as (w1 & Hrun & _ & _ & _ & Hs & _);
      [done | by left | right; right; by left |].
    pose proof (wp_result _ _ _ _ _ (port_open_net UploadPort 6 w Hh) Hrun) as Hn.
    unfold wp at 1. rewrite Hrun. by wp_step.
  - exists w'. split; [exact Hrun|]. split; [|done]. unfold hearing. by rewrite (no_bufs _ _ Hn), (no_configs _ _ Hn), (no_axican _ _ Hn).
Qed.

(** The device gives two frames. *)
Lemma hearing_reads w :
  hearing [] w -> exists w', turn (Receiver 3) NoInput w = Some (Some (Receiver 3), w') /\
    sys_ok w' /\ received_queue 3 w' = two_frames /\ reporting 3 w' = true /\
    data_upload_socket w' = data_upload_socket w.
Proof.
  intros (Hok & Hq & (c & Hc & Hty & Hst) & rd & wr & Hax). pose proof Hok as [Hwf Hh _ Hf].
  pose proof (Forall_lookup_1 _ _ _ _ Hf Hax) as [Hrd _].
  destruct (serving_turn (Receiver 3) NoInput w (Some (Receiver 3)) (turn_offers Received 3 (received_turn_frames 3 w) w))
    as (w' & Hrun & Hok' & Hr & _ & Ho); [done|by split|done| |].
  - unfold turn. wp_step. eapply wp_mono; [by eapply (recv_turn_spec 3 w); [|lia|..]|]. intros [] w1 Ht. by wp_step.
  - exists w'. split; [exact Hrun|]. split; [done|]. split; [|split; [|by apply Hr]].
    + unfold received_queue. cbn [rx_queue] in Ho. rewrite Ho, Hq. unfold offer. rewrite app_nil_l.
      assert (received_turn_frames 3 w = two_frames) as ->; [|exact two_frames_fit].
      unfold received_turn_frames, channel_opened. change (Z.to_nat 3) with 3%nat. rewrite Hax, Hc, Hst. reflexivity.
    + unfold reporting. change (Z.to_nat 3) with 3%nat. rewrite (rx_configs _ _ _ _ Hr), Hc, Hty, Hst. reflexivity.
Qed.

(** Listeners and clients neither read nor report. *)
Lemma ports_quiet id tr : ports_only tr ->
  run_fetched id tr = [] /\ run_reports id tr = [] /\ forall e, e ∈ tr -> reporting_turn id e = false.
Proof.
  unfold ports_only. intros Hp. induction Hp as [|e tr He _ (IH1 & IH2 & IH3)].
  { split; [done|]. split; [done|]. intros e He. by apply not_elem_of_nil in He. }
  assert (reporting_turn id e = false) as Hr by (unfold reporting_turn; by destruct (ev_thread e)).
  cbn [run_fetched run_reports]. unfold ev_fetched, ev_reports. rewrite IH1, IH2, Hr. split; [done|]. split; [done|].
  intros e' He'. apply list.elem_of_cons in He' as [->|He']; [done | by apply IH3].
Qed.

(** The whole run: the receiver reads, and the reporting thread has its turn. *)
Lemma hearing_run : exists tr e1 e2 s, serving_reaches (e2 :: e1 :: tr) s /\ ports_only tr /\
  ev_thread e1 = Receiver 3 /\ reporting_turn 3 e2 = true /\ client_takes (data_upload_socket (ev_from e2)) /\
  ev_taken CanQueue 3 e2 = two_frames.
Proof.
  destruct serving_opened as (tr & w & ts & Hw & Hr & _ & Hpo & Hco & Hts).
  destruct (hearing_config w Hw) as (w1 & Hrun1 & Hw1).
  destruct (reaches_turn _ _ _ _ _ _ _ Hr Hco Hrun1 ltac:(vm_compute; reflexivity) ltac:(done)) as (ts1 & Hr1 & Hs1 & _).
  assert (forall t, In t main_threads -> boot t <> Listener TCP_PORT1 None -> boot t <> Commander 6 (Some []) ->
    boot t ∈ ts1) as Hsub1 by auto.
  destruct (serving_listens TCP_PORT2 (hearing []) w1 ts1 _ (fun cs => hearing_calls _ _ cs Hw1)
    (Hsub1 (ListenThread TCP_PORT2) ltac:(vm_compute; tauto) ltac:(done) ltac:(done)) Hr1)
    as (tr2 & w2 & ts2 & Hw2 & Hr2 & _ & Hpo2 & Hcl & Hs2).
  change (boot (ClientThread TCP_PORT2 6)) with (PortClient UploadPort 6 false) in Hcl.
  destruct (hearing_client [] w2 Hw2) as (w3 & Hrun3 & Hw3 & Hup3).
  destruct (reaches_turn _ _ _ _ _ _ _ Hr2 Hcl Hrun3 eq_refl ltac:(done)) as (ts3 & Hr3 & Hs3 & _).
  destruct (hearing_reads w3 Hw3) as (w4 & Hrun4 & Hok4 & Hq4 & Hrep4 & Hup4). rewrite Hup3 in Hup4.
  assert (forall id t, boot t = Receiver id \/ boot t = Dequeuer2 id -> In t main_threads -> boot t ∈ ts3) as Hsub3.
  { intros id t Ht Hin. apply Hs3; [apply Hs2; [apply Hsub1; [done|..]|]|]; destruct Ht as [-> | ->]; done. }
  destruct (reaches_turn _ _ _ _ _ _ _ Hr3 (Hsub3 3 (RecvThread 3) ltac:(by left) ltac:(vm_compute; tauto)) Hrun4
    eq_refl ltac:(done)) as (ts4 & Hr4 & Hs4 & _).
  pose proof (Hs4 _ (Hsub3 3 (DequeueThread2 3) ltac:(by right) ltac:(vm_compute; tauto)) ltac:(done)) as Hd4.
  change (boot (DequeueThread2 3)) with (Dequeuer2 3) in Hd4.
  pose proof Hok4 as [Hwf4 Hh4 _ _].
  pose proof (process_turn_spec 3 w4 (below_nil 4 _ Hh4) Hwf4 ltac:(lia)) as Hwp.
  apply wp_exec in Hwp as ([] & w5 & Hrun5 & _ & taken & c & rs & _ & Hq5 & Hl5 & _).
  assert (turn (Dequeuer2 3) NoInput w4 = Some (Some (Dequeuer2 3), w5)) as Hturn5
    by (unfold turn, bind, ret; by rewrite Hrun5).
  destruct (reaches_turn _ _ _ _ _ _ _ Hr4 Hd4 Hturn5 eq_refl ltac:(done)) as (ts5 & Hr5 & _).
  eexists _, _, _, _. split; [exact Hr5|]. split; [constructor; [done|]; apply Hpo2; by constructor|].
  split; [done|]. split; [done|]. cbn [ev_from]. rewrite Hup4. split; [by split|].
  unfold ev_taken. cbn. rewrite (consumed_front _ _ _ Hq5). unfold received_queue in Hq4. rewrite Hrep4, Hq4 in Hl5.
  rewrite Hq4 in Hq5. rewrite <- (take_ge two_frames 2), Hq5 by (cbn; lia).
  rewrite take_app_le, take_ge by (rewrite Hl5; cbn; lia). done.
Qed.

Lemma uplink_running_witness : exists tr s, serving_reaches tr s /\ run_fetched 3 tr = two_frames /\
  (packet_view <$> run_reports 3 tr).*2 = [frame_view received_frame; frame_view received_frame].
Proof.
  destruct hearing_run as (tr & e1 & e2 & s & Hr & Hpo & He1 & He2 & Hc & Ht).
  destruct (ports_quiet 3 tr Hpo) as (Hf & _ & Hn).
  assert (reporting_turn 3 e1 = false) as Hr1 by (unfold reporting_turn; rewrite He1; reflexivity).
  assert (run_fetched 3 (e2 :: e1 :: tr) = two_frames) as Hfe.
  { cbn [run_fetched]. unfold ev_fetched. rewrite Hf, Hr1, He2. exact Ht. }
  exists (e2 :: e1 :: tr), s. split; [exact Hr|]. split; [exact Hfe|].
  destruct (uplink_running (fun _ _ => true) (fun _ => []) (e2 :: e1 :: tr) s 3 Hr ltac:(lia))
    as (_ & _ & _ & Hall).
  rewrite Hall; [rewrite Hfe; exact two_views|].
  intros e He Hrep. apply list.elem_of_cons in He as [->|He]; [exact Hc|]. exfalso.
  apply list.elem_of_cons in He as [->|He]; [congruence|]. rewrite (Hn e He) in Hrep. discriminate Hrep.
Defined.

Lemma frame_length (f : axican_frame) : zlen (pack f) = 24.
Proof. by destruct f. Qed.

Lemma running_broadcast_witness : exists tr s g lss e fd ws, serving_reaches tr s /\ e ∈ tr /\
  ev_thread e = Broadcaster 3 (Some g) /\ bg_frame_count g = 1 /\
  Forall2 ev_labels tr lss /\ b_run (labels_of lss) b_start = Some (bview (sy_world s)) /\
  run_groups 3 tr `prefix_of` group_unpack <$> b_taken 3 (labels_of lss) /\
  can_writes (ev_to e) = rev ws ++ can_writes (ev_from e) /\
  ws = (write_of fd <$> take 1 (bg_frames g)).
Proof.
  destruct airing_run as (tr & s & g & e & Hr & Hg & He & Hth & Hop).
  destruct (running_broadcast (fun _ _ => true) (fun _ => []) tr s 3 Hr ltac:(lia))
    as (lss & Hl & Hrun & _ & (held & Htk & _) & ax & _ & Hsend).
  destruct (Hsend e g He Hth) as (_ & ws & Hws & Hgw).
  exists tr, s, g, lss, e, (ax_wr_fd ax), ws. split; [exact Hr|]. split; [exact He|]. split; [exact Hth|].
  split; [exact Hg|]. split; [exact Hl|]. split; [exact Hrun|]. split; [exists (option_list held); exact Htk|].
  split; [exact Hws|]. unfold group_written in Hgw. rewrite Hop, Hg in Hgw.
  destruct Hgw as [Hgw|(sent & f & rest & _ & _ & Hbad)]; [exact Hgw|]. exfalso. apply Hbad. exact (frame_length f).
Defined.
End Scenario.
