(* ===== verification/Sockets.v ===== *)
(** * The sockets of the running gateway
    ([src/main18.c], the sockets the threads share).

    Three sockets are shared: those of the clients of ports 9010 and 9011, on
    which any thread sends, and that of the client of port 9012, to which the
    periodic report is sent.  Every function a thread runs is checked with one
    rule for each construct of the code: it sends on and shuts down published
    sockets and that of its own client only, closes none, and at most withdraws
    a published socket.  With the turns that publish, withdraw and close, this
    gives the theorem about every state the threads can reach. *)
From S2P Require Import Prelude Framing Words Ring RingSet Layout World Upload Broadcast Commands Download CanTx CanRx Along Ports Init Pps BcastMachine Threads System Traffic.
From Stdlib Require Import (notations) String.

(** The published sockets. *)
Inductive shared := SharedPort (p : client_port) | SharedDownload.

#[export] Instance client_port_eq_dec : EqDecision client_port.
Proof. solve_decision. Defined.
#[export] Instance shared_eq_dec : EqDecision shared.
Proof. solve_decision. Defined.

Definition shared_socket (x : shared) (w : world) : Z :=
  match x with SharedPort p => port_socket p w | SharedDownload => data_download_socket w end.

(** ** The rules *)

Section Rules.
Context `{OS} (live : list Z) (closable : Z -> Prop).
#[local] Open Scope c_scope.

(** A call sends on and shuts down live sockets, and closes what may be closed. *)
Definition call_in (c : syscall) : Prop :=
  match c with
  | SysSend s _ | SysShutdown s => s ∈ live
  | SysClose s => closable s
  | _ => True
  end.

Definition calls_in (w w' : world) : Prop := exists new, w_hist w' = new ++ w_hist w /\ Forall call_in new.

#[export] Instance calls_in_preorder : PreOrder calls_in.
Proof.
  split; [intros w; by exists []|].
  intros w1 w2 w3 (n1 & E1 & F1) (n2 & E2 & F2). exists (n2 ++ n1).
  split; [by rewrite E2, E1, app_assoc | by apply list.Forall_app].
Qed.

Lemma calls_in_call c w : call_in c -> calls_in w (add_call c w).
Proof. intros Hc. exists [c]. split; [done | by constructor]. Qed.

Lemma calls_in_add c w w' : call_in c -> calls_in w w' -> calls_in w (add_call c w').
Proof. intros Hc Hw. etransitivity; [exact Hw | by apply calls_in_call]. Qed.

Lemma calls_in_same w w' : w_hist w' = w_hist w -> calls_in w w'.
Proof. intros Hh. exists []. by split. Qed.

(** Such calls, and nothing is published or withdrawn. *)
Definition quiet_socks (w w' : world) : Prop :=
  calls_in w w' /\ forall x, shared_socket x w' = shared_socket x w.

Definition shared_ok (w : world) : Prop :=
  forall x, shared_socket x w = -1 \/ shared_socket x w ∈ live.

(** When the published sockets are live, so are those the calls use, and a
    published socket is at most withdrawn. *)
Definition safe_socks (w w' : world) : Prop :=
  shared_ok w -> calls_in w w' /\
    forall x, shared_socket x w' = shared_socket x w \/ shared_socket x w' = -1.

(** The same where the code has tested that there is a client. *)
Definition sending (x : shared) (w w' : world) : Prop := shared_socket x w ∈ live -> safe_socks w w'.

#[export] Instance quiet_preorder : PreOrder quiet_socks.
Proof.
  split; [by intros w|]. intros w1 w2 w3 [C1 S1] [C2 S2].
  split; [by etransitivity|]. intros x. by rewrite S2.
Qed.

Lemma safe_ok w w' : safe_socks w w' -> shared_ok w -> shared_ok w'.
Proof. intros Hs Hok x. destruct (Hs Hok) as [_ Hx]. destruct (Hx x) as [-> | ->]; auto. Qed.

#[export] Instance safe_preorder : PreOrder safe_socks.
Proof.
  split; [by intros w _; split; auto|]. intros w1 w2 w3 H1 H2 Hok.
  pose proof (safe_ok _ _ H1 Hok) as Hok2. destruct (H1 Hok) as [C1 S1], (H2 Hok2) as [C2 S2].
  split; [by etransitivity|]. intros x. destruct (S2 x) as [-> | ->]; auto.
Qed.

Lemma quiet_safe {A} (m : M world A) : keeps quiet_socks m -> keeps safe_socks m.
Proof. apply keeps_mono. intros w w' [Hc Hx] _. auto. Qed.

Lemma safe_sending {A} x (m : M world A) : keeps safe_socks m -> keeps (sending x) m.
Proof. apply keeps_mono. by intros w w' Hs _. Qed.

(** Reading a published socket. *)
Lemma safe_read {A} x (k : Z -> M world A) :
  (forall sock, sock = -1 \/ sock ∈ live -> keeps safe_socks (k sock)) ->
  keeps safe_socks (bind (gets (shared_socket x)) k).
Proof. intros Hk w a w' Hr Hok. by apply (Hk (shared_socket x w) (Hok x) w a w'). Qed.

Lemma safe_checked {A} x (m : M world A) (k : Z -> M world A) :
  keeps safe_socks m -> (forall sock, keeps (sending x) (k sock)) ->
  keeps safe_socks (bind (gets (shared_socket x)) (fun sock => if sock =? -1 then m else k sock)).
Proof.
  intros Hm Hk w a w'. unfold bind, gets. destruct (Z.eqb_spec (shared_socket x w) (-1)) as [He|He].
  - apply Hm.
  - intros Hr Hok. apply (Hk _ w a w' Hr); [|done]. by destruct (Hok x).
Qed.

Lemma sending_read {A} x (k : Z -> M world A) :
  (forall sock, sock ∈ live -> keeps (sending x) (k sock)) ->
  keeps (sending x) (bind (gets (shared_socket x)) k).
Proof. intros Hk w a w' Hr Hl. by apply (Hk (shared_socket x w) Hl w a w'). Qed.

Lemma sending_after {A B} x (m : M world A) (k : A -> M world B) :
  keeps quiet_socks m -> (forall a, keeps (sending x) (k a)) -> keeps (sending x) (bind m k).
Proof.
  intros Hm Hk w b w'. unfold bind. destruct (m w) as [[a w1]|] eqn:E; [|done].
  intros Hr Hl Hok. destruct (Hm w a w1 E) as [C1 S1].
  destruct (Hk a w1 b w' Hr) as [C2 S2]; [by rewrite S1 | by intros y; rewrite S1|].
  split; [by etransitivity|]. intros y. rewrite <- S1. apply S2.
Qed.

Lemma sending_then {A B} x (m : M world A) (k : A -> M world B) :
  keeps (sending x) m -> (forall a, keeps safe_socks (k a)) -> keeps (sending x) (bind m k).
Proof.
  intros Hm Hk w b w'. unfold bind. destruct (m w) as [[a w1]|] eqn:E; [|done].
  intros Hr Hl. etransitivity; [by apply (Hm w a w1 E) | by apply (Hk a w1 b w' Hr)].
Qed.

Lemma sending_when x (b : bool) (m : M world unit) :
  keeps (sending x) m -> keeps (sending x) (when b m).
Proof. intros Hm. destruct b; [exact Hm|]. apply safe_sending, keeps_ret, _. Qed.

Lemma safe_checked_when {A} x (m : Z -> M world unit) (k : Z -> unit -> M world A) :
  (forall sock, sock ∈ live -> keeps (sending x) (m sock)) -> (forall sock a, keeps safe_socks (k sock a)) ->
  keeps safe_socks (bind (gets (shared_socket x)) (fun sock => bind (when (negb (sock =? -1)) (m sock)) (k sock))).
Proof.
  intros Hm Hk w a w'. unfold bind at 1, gets. set (sock := shared_socket x w). cbv beta.
  destruct (Z.eqb_spec sock (-1)) as [He|He]; cbn [negb when]; [apply Hk|].
  intros Hr Hok. assert (sock ∈ live) as Hl by by destruct (Hok x).
  by eapply (sending_then x (m sock) (k sock) (Hm sock Hl) (Hk sock) w a w').
Qed.

(** The elementary operations. *)
Lemma quiet_modify f :
  (forall w, w_hist (f w) = w_hist w /\ forall x, shared_socket x (f w) = shared_socket x w) ->
  keeps quiet_socks (modify f).
Proof.
  intros Hf. apply keeps_modify. intros w. destruct (Hf w) as [Hh Hx].
  split; [by apply calls_in_same | done].
Qed.

Lemma quiet_sys c : call_in c -> keeps quiet_socks (sys c).
Proof. intros Hc w a w' [= _ <-]. split; [by apply calls_in_call | by intros [[]|]]. Qed.

Lemma quiet_sys_data c : call_in c -> keeps quiet_socks (sys_data c).
Proof. intros Hc w a w' [= _ <-]. split; [by apply calls_in_call | by intros [[]|]]. Qed.

Lemma quiet_timestamp b : keeps quiet_socks (timestamp_us b).
Proof.
  intros w a w'. unfold timestamp_us, clock_gettime, bind, ret. destruct (os_clock _ _). intros [= _ <-].
  split; [by apply calls_in_call | by intros [[]|]].
Qed.

Lemma quiet_clock b : keeps quiet_socks (clock_gettime b).
Proof.
  intros w a w'. unfold clock_gettime. destruct (os_clock _ _). intros [= _ <-].
  split; [by apply calls_in_call | by intros [[]|]].
Qed.

Lemma quiet_lock l : keeps quiet_socks (mutex_lock l).
Proof.
  intros w a w' Hr. apply mutex_lock_inv in Hr as [h ->]. split; [by apply calls_in_same | by intros [[]|]].
Qed.

Lemma quiet_unlock l : keeps quiet_socks (mutex_unlock l).
Proof.
  intros w a w' Hr. apply mutex_unlock_inv in Hr as [h ->]. split; [by apply calls_in_same | by intros [[]|]].
Qed.

Lemma quiet_arr_get {A} (f : world -> list A) i : keeps quiet_socks (arr_get f i).
Proof.
  intros w a w'. unfold arr_get. case_match; [done|]. destruct (f w !! _); [|done]. by intros [= _ <-].
Qed.

Lemma quiet_arr_upd {A} (f : world -> list A) set i g :
  (forall l w, w_hist (set l w) = w_hist w /\ forall x, shared_socket x (set l w) = shared_socket x w) ->
  keeps quiet_socks (arr_upd f set i g).
Proof.
  intros Hs w a w'. unfold arr_upd. case_match; [done|]. destruct (f w !! _); [|done]. intros [= _ <-].
  edestruct Hs as [Hh Hx]. split; [by apply calls_in_same | exact Hx].
Qed.

Lemma quiet_bufs_op {A} (m : M world A) :
  (forall w a w', m w = Some (a, w') -> exists b, w' = set_bufs b w) -> keeps quiet_socks m.
Proof.
  intros Hm w a w' Hr. destruct (Hm w a w' Hr) as [b ->]. split; [by apply calls_in_same | by intros [[]|]].
Qed.

Lemma quiet_put n ch data max : keeps quiet_socks (buf_put n ch data max).
Proof.
  apply quiet_bufs_op. intros w a w'. unfold buf_put.
  destruct (ringbuffer_32ch_put _ _ _ _) as [[r [s|]]|]; [|done|done]. intros [= _ <-]. by eexists.
Qed.

Lemma quiet_get n ch dst max : keeps quiet_socks (buf_get n ch dst max).
Proof.
  apply quiet_bufs_op. intros w a w'. unfold buf_get.
  destruct (ringbuffer_32ch_get _ _ _ _) as [[[r [s|]] [d|]]|]; [|done..]. intros [= _ <-]. by eexists.
Qed.

Lemma quiet_avail n ch max : keeps quiet_socks (buf_avail n ch max).
Proof. intros w a w'. unfold buf_avail. destruct (ringbuffer_32ch_avail _ _ _); [|done]. by intros [= _ <-]. Qed.

Lemma quiet_len n ch max : keeps quiet_socks (buf_len n ch max).
Proof. intros w a w'. unfold buf_len. destruct (ringbuffer_32ch_len _ _ _); [|done]. by intros [= _ <-]. Qed.

Lemma quiet_reset n ch max : keeps quiet_socks (buf_reset n ch max).
Proof.
  apply quiet_bufs_op. intros w a w'. unfold buf_reset.
  destruct (ringbuffer_32ch_reset _ _ _) as [[s|]|]; [|done|done]. intros [= _ <-]. by eexists.
Qed.

Lemma quiet_chan_avail n ch : keeps quiet_socks (chan_avail n ch).
Proof. intros w a w'. unfold chan_avail. destruct (channel_at _ _); [|done]. by intros [= _ <-]. Qed.

Lemma quiet_cast A `{Packed A} bs : keeps quiet_socks (cast A bs).
Proof. unfold cast. case_match; [apply keeps_ret | apply keeps_stuck]; apply _. Qed.

Lemma safe_withdraw x f :
  (forall w, w_hist (f w) = w_hist w /\ shared_socket x (f w) = -1 /\
     forall y, y <> x -> shared_socket y (f w) = shared_socket y w) ->
  keeps safe_socks (modify f).
Proof.
  intros Hf. apply keeps_modify. intros w _. destruct (Hf w) as (Hh & Hx & Hy).
  split; [by apply calls_in_same|]. intros y. destruct (decide (y = x)) as [->|]; auto.
Qed.
End Rules.

Create HintDb keeps.
#[export] Hint Resolve quiet_timestamp quiet_clock quiet_lock quiet_unlock quiet_arr_get quiet_put quiet_get
  quiet_avail quiet_len quiet_reset quiet_chan_avail quiet_cast : keeps.

(** The rule that the first construct of the code asks for. *)
Ltac untouched := intros; split; [reflexivity | by intros [[]|]].
Ltac quiet_step :=
  lazymatch goal with
  | |- keeps _ (bind _ _) => apply keeps_bind; [apply _ | | intros ?]
  | |- keeps _ (ret _) => apply keeps_ret, _
  | |- keeps _ stuck => apply keeps_stuck
  | |- keeps _ (gets _) => apply keeps_gets, _
  | |- keeps _ (of_option _) => apply keeps_of_option, _
  | |- keeps _ (ensure _) => apply keeps_ensure, _
  | |- keeps _ (when _ _) => apply keeps_when; [apply _ | intros ?]
  | |- keeps _ (foreach _ _) => apply keeps_foreach; [apply _ | intros ?]
  | |- keeps _ (match ?b with _ => _ end) => destruct b eqn:?
  | |- keeps (quiet_socks _ _) (modify _) => apply quiet_modify; untouched
  | |- keeps (quiet_socks _ _) (arr_upd _ _ _ _) => apply quiet_arr_upd; untouched
  | |- keeps (quiet_socks _ _) (config_upd _ _) => apply quiet_arr_upd; untouched
  | |- keeps (quiet_socks _ _) (config_at _) => apply quiet_arr_get
  | |- keeps (quiet_socks _ _) (sys _) => apply quiet_sys; first [done | cbn [call_in]; auto]
  | |- keeps (quiet_socks _ _) (sys_data _) => apply quiet_sys_data; done
  | |- keeps _ _ => solve [auto with keeps]
  end.
Ltac quiet := repeat quiet_step.

(** Reads of a published socket. *)
Ltac shared_of f :=
  lazymatch f with
  | data_upload_socket => constr:(SharedPort UploadPort)
  | event_socket => constr:(SharedPort EventPort)
  | data_download_socket => constr:(SharedDownload)
  end.
Ltac withdrawn x := apply (safe_withdraw _ _ x); intros w; split; [reflexivity|]; split; [reflexivity|]; intros [[]|]; done.

Ltac sending_step :=
  lazymatch goal with
  | |- keeps (sending _ _ ?x) (bind (gets ?f) _) =>
    first [let y := shared_of f in unify x y; apply (sending_read _ _ y); intros ? ? | apply sending_after; [quiet | intros ?]]
  | |- keeps (sending _ _ _) (bind _ _) =>
    first [apply sending_after; [solve [quiet] | intros ?] | apply sending_then; [|intros ?]]
  | |- keeps (sending _ _ _) (when _ _) => apply sending_when
  | |- keeps (sending _ _ _) (if ?b then _ else _) => destruct b
  | |- keeps (sending _ _ ?x) (modify _) => apply safe_sending; withdrawn x
  | |- keeps (sending _ _ _) _ => first [solve [auto with keeps] | apply safe_sending]
  end.

Ltac safe_step :=
  lazymatch goal with
  | |- keeps (sending _ _ _) _ => sending_step
  | |- keeps (safe_socks _ _) (bind (gets ?f) _) =>
    first [let x := shared_of f in apply (safe_checked _ _ x); [|intros ?]
          |let x := shared_of f in apply (safe_checked_when _ _ x); intros ? ?
          |let x := shared_of f in apply (safe_read _ _ x); intros ? ?
          |apply keeps_bind; [apply _ | apply keeps_gets, _ | intros ?]]
  | |- keeps (safe_socks _ _) (bind _ _) => apply keeps_bind; [apply _ | | intros ?]
  | |- keeps (safe_socks _ _) (ret _) => apply keeps_ret, _
  | |- keeps (safe_socks _ _) stuck => apply keeps_stuck
  | |- keeps (safe_socks _ _) (when _ _) => apply keeps_when; [apply _ | intros ?]
  | |- keeps (safe_socks _ _) (foreach _ _) => apply keeps_foreach; [apply _ | intros ?]
  | |- keeps (safe_socks _ _) (match ?b with _ => _ end) => destruct b eqn:?
  | |- keeps (safe_socks _ _) _ => first [solve [auto with keeps] | apply quiet_safe; solve [quiet]]
  end.
Ltac safe := repeat safe_step.

(** ** The functions *)

Section Functions.
Context `{OS} (live : list Z) (closable : Z -> Prop).
#[local] Open Scope c_scope.

Lemma safe_upload_send data : keeps (sending live closable (SharedPort UploadPort)) (upload_send data).
Proof. unfold upload_send. safe. Qed.

Lemma safe_event level id msg : keeps (safe_socks live closable) (send_event level id msg).
Proof. unfold send_event. safe. Qed.
#[local] Hint Resolve safe_upload_send safe_event : keeps.

(** Replies and events. *)
Lemma safe_error_event msg : keeps (safe_socks live closable) (error_event msg).
Proof. unfold error_event. safe. Qed.
Lemma safe_config_response id st : keeps (safe_socks live closable) (send_can_config_response id st).
Proof. unfold send_can_config_response. safe. Qed.
Lemma safe_info_response ds n : keeps (safe_socks live closable) (send_can_info_response ds n).
Proof. unfold send_can_info_response. safe. Qed.
Lemma safe_send_response r : keeps (safe_socks live closable) (send_can_send_response r).
Proof. unfold send_can_send_response. safe. Qed.
#[local] Hint Resolve safe_error_event safe_config_response safe_info_response safe_send_response : keeps.

Lemma safe_start_stop_response st : keeps (safe_socks live closable) (send_start_stop_response st).
Proof. unfold send_start_stop_response. safe. Qed.
Lemma safe_bcast_response st : keeps (safe_socks live closable) (send_broadcast_config_response st).
Proof. unfold send_broadcast_config_response. safe. Qed.
Lemma safe_version_response c v : keeps (safe_socks live closable) (send_version_query_response c v).
Proof. unfold send_version_query_response. safe. Qed.
Lemma safe_transmit id ty st f : keeps (safe_socks live closable) (send_can_transmit_response id ty st f).
Proof. unfold send_can_transmit_response. safe. Qed.
#[local] Hint Resolve safe_start_stop_response safe_bcast_response safe_version_response safe_transmit : keeps.

(** The broadcast. *)
Lemma safe_reset : keeps (safe_socks live closable) reset_broadcast_buffers.
Proof. unfold reset_broadcast_buffers, wake_set. safe. Qed.
Lemma safe_bcast_config sock req data : keeps (safe_socks live closable) (handle_broadcast_config sock req data).
Proof. pose proof safe_reset. unfold handle_broadcast_config, refuse_broadcast_config. safe. Qed.
Lemma safe_gate_open : keeps (safe_socks live closable) is_broadcast_rx_gate_open.
Proof. unfold is_broadcast_rx_gate_open, monotonic_ms. safe. Qed.
Lemma safe_enqueue_group ch frames : keeps (safe_socks live closable) (enqueue_broadcast_group ch frames).
Proof.
  pose proof safe_gate_open. unfold enqueue_broadcast_group, is_broadcast_pps_window_open, next_broadcast_group_id. safe.
Qed.
Lemma safe_select : keeps (safe_socks live closable) select_broadcast_mask_on_pps.
Proof. unfold select_broadcast_mask_on_pps. safe. Qed.
Lemma safe_pps : keeps (safe_socks live closable) process_broadcast_pps.
Proof.
  pose proof safe_select. unfold process_broadcast_pps, set_broadcast_rx_gate, monotonic_ms, notify_broadcast_channels, wake_set.
  safe.
Qed.
Lemma safe_send_loop n i id g : keeps (safe_socks live closable) (send_group_loop n i id g).
Proof. revert i. induction n as [|n IH]; intros i; cbn [send_group_loop]; safe. Qed.
Lemma safe_send_group id g : keeps (safe_socks live closable) (send_broadcast_group_for_channel id g).
Proof. pose proof safe_send_loop. unfold send_broadcast_group_for_channel. safe. Qed.
Lemma safe_take id bs : keeps (safe_socks live closable) (take_broadcast_group id bs).
Proof. unfold take_broadcast_group, wake_get, wake_set. safe. Qed.
#[local] Hint Resolve safe_bcast_config safe_enqueue_group safe_pps safe_send_group safe_take : keeps.

(** The command port. *)
Lemma safe_can_config sock req data : keeps (safe_socks live closable) (handle_can_config sock req data).
Proof.
  unfold handle_can_config, can_config_along, can_config_normal, along_set_baud, along_set_mode, along_try_mode,
    normal_set_baud, normal_set_mode, normal_try_mode, axican_set_baud, axican_set_mode. safe.
Qed.
Lemma safe_info_devices l : keeps (safe_socks live closable) (info_devices l).
Proof. induction l as [|i l IH]; cbn [info_devices]; unfold info_device; safe. Qed.
Lemma safe_info_query sock req data : sock ∈ live -> keeps (safe_socks live closable) (handle_can_info_query sock req data).
Proof. intros Hs. pose proof safe_info_devices. unfold handle_can_info_query, read_u32. safe. Qed.
Lemma safe_buf_responses l : keeps (safe_socks live closable) (buf_responses l).
Proof. induction l as [|i l IH]; cbn [buf_responses]; unfold buf_response, broadcast_buffer_available; safe. Qed.
Lemma safe_buf_query sock req data : keeps (safe_socks live closable) (handle_can_buf_query sock req data).
Proof. pose proof safe_buf_responses. unfold handle_can_buf_query, read_u32. safe. Qed.
Lemma safe_version_query sock req data : keeps (safe_socks live closable) (handle_version_query sock req data).
Proof. unfold handle_version_query, read_u32. safe. Qed.
Lemma safe_start_stop sock req data : keeps (safe_socks live closable) (handle_can_start_stop sock req data).
Proof. unfold handle_can_start_stop, read_u32. safe. Qed.
#[local] Hint Resolve safe_can_config safe_info_query safe_buf_query safe_version_query safe_start_stop : keeps.

Lemma safe_dispatch sock req payload : sock ∈ live -> keeps (safe_socks live closable) (dispatch_command sock req payload).
Proof. intros Hs. unfold dispatch_command. safe. Qed.
Lemma safe_command_loop fuel sock buffer : sock ∈ live -> keeps (safe_socks live closable) (command_loop fuel sock buffer).
Proof.
  intros Hs. pose proof (fun r p => safe_dispatch sock r p Hs). revert buffer. induction fuel as [|n IH]; intros buffer; cbn [command_loop]; safe.
Qed.
Lemma safe_receive sock buffered chunk : sock ∈ live -> keeps (safe_socks live closable) (command_receive sock buffered chunk).
Proof. apply safe_command_loop. Qed.

(** The download port. *)
Lemma safe_read_frames n payload : keeps (safe_socks live closable) (read_frames n payload).
Proof. revert payload. induction n as [|n IH]; intros payload; cbn [read_frames]; safe. Qed.
Lemma safe_payload_frames payload ch : keeps (safe_socks live closable) (process_9012_can_payload_frames payload ch).
Proof.
  pose proof safe_read_frames. unfold process_9012_can_payload_frames, enqueue_normal_can_payload. safe.
Qed.
Lemma safe_classify command payload : keeps (safe_socks live closable) (classify command payload).
Proof. unfold classify, classify_can, classify_simulator, classify_pulse, classify_dma. safe. Qed.
Lemma safe_packet req payload : keeps (safe_socks live closable) (download_packet req payload).
Proof. pose proof safe_payload_frames. pose proof safe_classify. unfold download_packet, enqueue_data. safe. Qed.
Lemma safe_download_loop fuel buffer : keeps (safe_socks live closable) (download_loop fuel buffer).
Proof.
  pose proof safe_packet. revert buffer. induction fuel as [|n IH]; intros buffer; cbn [download_loop]; safe.
Qed.
Lemma safe_download_turn sock used chunk : keeps (safe_socks live closable) (download_turn sock used chunk).
Proof. pose proof safe_download_loop. unfold download_turn, process_download_data_batch. safe. Qed.

(** The channels. *)
Lemma safe_single id f : keeps (safe_socks live closable) (send_single_frame id f).
Proof. unfold send_single_frame, axican_upd. safe. Qed.
Lemma safe_packets n j id frames : keeps (safe_socks live closable) (send_packets n j id frames).
Proof. pose proof safe_single. revert j. induction n as [|n IH]; intros j; cbn [send_packets]; safe. Qed.
Lemma safe_send_turn id buf : keeps (safe_socks live closable) (axican_data_send_turn id buf).
Proof.
  pose proof safe_single. pose proof safe_packets. unfold axican_data_send_turn, multi_packet. safe.
Qed.
Lemma safe_read_loop p frame n i fd flags id count max : keeps (safe_socks live closable) (read_loop p frame n i fd flags id count max).
Proof. revert i. induction n as [|n IH]; intros i; cbn [read_loop]; unfold axican_read, axican_upd, read_call; [|destruct (negb (flags =? 0))]; safe. Qed.
Lemma safe_read_path p fd flags id frame set max : keeps (safe_socks live closable) (axican_read_path p fd flags id frame set max).
Proof. pose proof safe_read_loop. unfold axican_read_path, axican_get_frame_count. safe. Qed.
Lemma safe_recv_turn id : keeps (safe_socks live closable) (axican_data_recv_turn id).
Proof. pose proof safe_read_path. unfold axican_data_recv_turn, axican_poll2, axican_upd, axican_read_data. safe. Qed.
Lemma safe_monitor_turn id : keeps (safe_socks live closable) (send_data_turn id).
Proof. pose proof safe_read_path. unfold send_data_turn, axican_poll2, axican_upd, axican_read_data_t. safe. Qed.
Lemma safe_normal id f : keeps (safe_socks live closable) (handle_normal_mode id f).
Proof. unfold handle_normal_mode. safe. Qed.
Lemma safe_dequeue q n id : keeps (safe_socks live closable) (dequeue_batch q n id).
Proof. induction n as [|n IH]; cbn [dequeue_batch]; safe. Qed.
Lemma safe_process_turn id : keeps (safe_socks live closable) (axican_data_process_turn id).
Proof. pose proof safe_dequeue. pose proof safe_normal. unfold axican_data_process_turn, read_batch. safe. Qed.
Lemma safe_process_turn_1 id : keeps (safe_socks live closable) (axican_data_process_turn_1 id).
Proof. pose proof safe_dequeue. pose proof safe_normal. unfold axican_data_process_turn_1, read_batch. safe. Qed.

(** The simulator. *)
Lemma safe_response_loop n k id fd f : keeps (safe_socks live closable) (response_loop n k id fd f).
Proof. revert k. induction n as [|n IH]; intros k; cbn [response_loop]; safe. Qed.
Lemma safe_send_along id fd flags f : keeps (safe_socks live closable) (process_and_send_response id fd flags f).
Proof. pose proof safe_response_loop. unfold process_and_send_response. safe. Qed.
Lemma safe_load_frames n id : keeps (safe_socks live closable) (load_frames n id).
Proof. induction n as [|n IH]; cbn [load_frames]; safe. Qed.
Lemma safe_along_load id : keeps (safe_socks live closable) (along_load id).
Proof. pose proof safe_load_frames. unfold along_load. safe. Qed.
Lemma safe_along_batch id fd flags st frames : keeps (safe_socks live closable) (along_batch id fd flags st frames).
Proof.
  pose proof safe_send_along. revert st. induction frames as [|f fs IH]; intros st; cbn [along_batch];
    unfold along_waiting, along_matching, cache_frame; safe.
Qed.
Lemma safe_along_turn id fd flags st : keeps (safe_socks live closable) (along_turn id fd flags st).
Proof. pose proof safe_along_batch. pose proof safe_dequeue. unfold along_turn, read_batch. safe. Qed.

(** The periodic report, and the pulse. *)
Lemma safe_report_responses l : keeps (safe_socks live closable) (report_responses l).
Proof. induction l as [|i l IH]; cbn [report_responses]; unfold report_response, broadcast_buffer_available; safe. Qed.

Lemma safe_pulse fd a : keeps (safe_socks live closable) (pulse_turn fd a).
Proof. unfold pulse_turn. safe. Qed.

Lemma safe_keepalive sock port : keeps (safe_socks live closable) (configure_tcp_keepalive sock port).
Proof. unfold configure_tcp_keepalive. safe. Qed.

Lemma safe_report : keeps (safe_socks live closable) buffer_report_turn.
Proof.
  pose proof safe_report_responses. unfold buffer_report_turn. safe.
Qed.
#[local] Hint Resolve safe_report safe_pulse safe_recv_turn safe_monitor_turn safe_process_turn safe_process_turn_1
  safe_send_turn safe_along_turn safe_along_load safe_keepalive safe_download_turn : keeps.

(** The turns of the threads that have no socket. *)
Lemma safe_turn t i :
  match t with Commander _ _ | Downloader _ _ | PortClient _ _ _ | Listener _ _ | PulseWaiter _ => False | _ => True end ->
  keeps (safe_socks live closable) (turn t i).
Proof.
  destruct t; intros Ht; try done; unfold turn, sender_turn, simulating_turn, broadcaster_turn; safe.
Qed.

End Functions.

(** ** The turns *)

Section Turns.
Context `{OS}.
#[local] Open Scope c_scope.

(** The running client whose socket is published. *)
Definition holds (x : shared) (sock : Z) (t : local) : Prop :=
  match x, t with
  | SharedPort p, PortClient p' s true => p = p' /\ sock = s
  | SharedDownload, Downloader s (DlReceiving _ | DlClosing) => sock = s
  | _, _ => False
  end.

Definition held_after (x : shared) (sock : Z) (o : option local) : Prop := exists t, o = Some t /\ holds x sock t.

(** The sockets a turn may use: that of the client, and the published ones. *)
Definition live_of (t : local) (w : world) : list Z :=
  match role t with ClientThread _ s => [s] | _ => [] end ++
  filter (fun s => s <> -1) [data_upload_socket w; event_socket w; data_download_socket w].

(** A socket that a call between two states has given. *)
Definition obtained (w w' : world) (s : Z) : Prop :=
  exists c later new, w_hist w' = later ++ c :: new ++ w_hist w /\ os_ret (new ++ w_hist w) c = s /\
    match c with SysSocket | SysAccept _ => True | _ => False end.

(** What it may close: a client its socket and the pulse thread its device,
    when they end; a listener a socket it has got in this turn. *)
Definition closes (t : local) (o : option local) (w w' : world) (s : Z) : Prop :=
  match t with
  | Commander s' _ | Downloader s' _ | PortClient _ s' _ | PulseWaiter (Some s') => s = s' /\ o = None
  | Listener _ _ => obtained w w' s
  | _ => False
  end.

Record turn_socks (t : local) (w : world) (o : option local) (w' : world) : Prop := {
  so_calls : calls_in (live_of t w) (closes t o w w') w w';
  so_shared x : shared_socket x w' = shared_socket x w \/ shared_socket x w' = -1 \/ held_after x (shared_socket x w') o;
  so_held x sock : holds x sock t -> held_after x sock o \/ shared_socket x w' <> sock \/ shared_socket x w' = -1
}.

Lemma live_shared t w : shared_ok (live_of t w) w.
Proof.
  intros x. destruct (decide (shared_socket x w = -1)) as [|Hne]; [by left|]. right.
  apply elem_of_app. right. apply list_elem_of_filter. split; [done|].
  destruct x as [[]|]; cbn; rewrite !list.elem_of_cons; auto.
Qed.

Lemma live_own t port s w : role t = ClientThread port s -> s ∈ live_of t w.
Proof. intros Hr. unfold live_of. rewrite Hr. by left. Qed.

Lemma safe_socks_turn t w o w' :
  safe_socks (live_of t w) (closes t o w w') w w' -> (forall x sock, holds x sock t -> held_after x sock o) ->
  turn_socks t w o w'.
Proof.
  intros Hs Hh. destruct (Hs (live_shared t w)) as [Hc Hx]. split; [done | |].
  - intros x. destruct (Hx x); auto.
  - intros x sock Hhold. left. by apply Hh.
Qed.

Lemma calls_in_mono live (closable closable' : Z -> Prop) w w' :
  (forall s, closable s -> closable' s) -> calls_in live closable w w' -> calls_in live closable' w w'.
Proof.
  intros Hc (new & Hn & Hf). exists new. split; [done|]. eapply list.Forall_impl; [exact Hf|].
  intros c. destruct c; simpl; auto.
Qed.

(** A client that ends: what it does before, and the close. *)
Lemma client_closes {A} live (closable : Z -> Prop) (m : M world A) sock w (o : option local) w' :
  keeps (safe_socks live closable) m -> closable sock ->
  (let* _ := m in let* _ := sys (SysClose sock) in ret None) w = Some (o, w') ->
  o = None /\ safe_socks live closable w w'.
Proof.
  intros Hm Hc Hr. split.
  - apply bind_some in Hr as (a & w1 & _ & Hr). by injection Hr.
  - revert Hr. eapply (keeps_bind (safe_socks live closable)); [exact Hm|]. intros a. safe.
Qed.

Ltac by_keeps Hr :=
  lazymatch type of Hr with ?m ?w = Some (?a, ?w') =>
    lazymatch goal with |- ?R w w' => refine ((_ : keeps R m) w a w' Hr) end end.

#[local] Hint Resolve safe_keepalive safe_download_turn safe_error_event safe_event safe_pulse : keeps.

Lemma commander_socks sock b i w o w' :
  waits_for (Commander sock b) i = true -> turn (Commander sock b) i w = Some (o, w') ->
  turn_socks (Commander sock b) w o w'.
Proof.
  intros Hi Hr. set (t := Commander sock b). pose proof (live_own t TCP_PORT1 sock w eq_refl) as Hl.
  apply safe_socks_turn; [|by intros [[]|]]. unfold turn, commander_turn in Hr.
  pose proof (fun C b c => safe_receive (live_of t w) C sock b c Hl) as Hrc.
  destruct b as [b|]; [|by_keeps Hr; safe]. destruct i as [|chunk| | | |a]; try done.
  - by_keeps Hr. safe.
  - by_keeps Hr. safe.
  - eapply (client_closes (live_of t w) (closes t None w w')) in Hr; [|safe|done]. destruct Hr as [Ho Hs]. by rewrite Ho.
  - eapply (client_closes (live_of t w) (closes t None w w')) in Hr; [|safe|done]. destruct Hr as [Ho Hs]. by rewrite Ho.
Qed.

(** Publishing a socket. *)
Lemma publish_socks t w o w' x :
  calls_in (live_of t w) (closes t o w w') w w' -> held_after x (shared_socket x w') o ->
  (forall y, y <> x -> shared_socket y w' = shared_socket y w) -> (forall y sock, ~ holds y sock t) ->
  turn_socks t w o w'.
Proof.
  intros Hc Hx Hy Hh. split; [done | | by intros y sock Hk; destruct (Hh y sock)].
  intros y. destruct (decide (y = x)) as [->|Hne]; auto.
Qed.

(** The end of the client whose socket was published. *)
Lemma withdraw_socks t w w' x own :
  calls_in (live_of t w) (closes t None w w') w w' ->
  shared_socket x w' = (if shared_socket x w =? own then -1 else shared_socket x w) ->
  (forall y, y <> x -> shared_socket y w' = shared_socket y w) ->
  (forall y sock, holds y sock t -> y = x /\ sock = own) -> turn_socks t w None w'.
Proof.
  intros Hc Hx Hy Hh. split; [done | |].
  - intros y. destruct (decide (y = x)) as [->|Hne]; [|by left; apply Hy].
    destruct (shared_socket x w =? own); auto.
  - intros y sock Hk. destruct (Hh y sock Hk) as [-> ->]. right.
    destruct (Z.eqb_spec (shared_socket x w) own); [by right | left; congruence].
Qed.

Lemma calls_live_in live closable w w' : calls_live live w w' -> calls_in live closable w w'.
Proof.
  intros (new & Hn & Hf). exists new. split; [done|]. eapply list.Forall_impl; [exact Hf|]. by intros [].
Qed.

Lemma port_client_socks p sock opened i w o w' :
  w_held w = [] -> waits_for (PortClient p sock opened) i = true ->
  turn (PortClient p sock opened) i w = Some (o, w') -> turn_socks (PortClient p sock opened) w o w'.
Proof.
  intros Hh Hi Hr. set (t := PortClient p sock opened).
  pose proof (live_own t (port_number p) sock w eq_refl) as Hl. unfold turn, port_client_turn in Hr.
  assert (forall q, q <> p -> q = other_port p) as Hother by (by destruct p; intros []).
  destruct opened; cbn [negb] in Hr.
  - assert (port_close p sock w = Some (tt, w') -> turn_socks t w None w') as Hend.
    { intros Hc. destruct (port_close_spec p sock w Hh) as (w2 & Hrun & _ & _ & Hhist & Hp & Ho).
      rewrite Hc in Hrun. injection Hrun as <-.
      pose proof (no_download _ _ (wp_result _ _ _ _ _ (port_close_net p sock w Hh) Hc)) as Hd.
      apply (withdraw_socks t w w' (SharedPort p) sock).
      - exists [SysClose sock]. split; [done|]. by repeat constructor.
      - exact Hp.
      - intros [q|] Hne; [|exact Hd]. cbn. rewrite (Hother q) by congruence. exact Ho.
      - by intros [q|] sk Hk; [destruct Hk as [-> ->]|]. }
    destruct i as [|chunk| | | |a]; try done;
      [injection Hr as <- <-; apply safe_socks_turn; [reflexivity | by intros x sk Hk; exists t]|..];
      apply bind_some in Hr as ([] & w1 & Hc & [= <- <-]); by apply Hend.
  - apply bind_some in Hr as ([] & w1 & Hc & [= <- <-]).
    destruct (port_open_spec p sock (live_of t w) w Hh Hl) as (w2 & Hrun & _ & _ & Hcl & Hp & Ho);
      [apply (live_shared t w (SharedPort p))|].
    rewrite Hc in Hrun. injection Hrun as <-.
    pose proof (no_download _ _ (wp_result _ _ _ _ _ (port_open_net p sock w Hh) Hc)) as Hd.
    apply (publish_socks _ _ _ _ (SharedPort p)).
    + by apply calls_live_in.
    + eexists. split; [done|]. by split.
    + intros [q|] Hne; [|exact Hd]. cbn. rewrite (Hother q) by congruence. exact Ho.
    + by intros [q|] sk Hk; [destruct Hk|].
Qed.

Lemma downloader_socks sock phase i w o w' :
  w_held w = [] -> waits_for (Downloader sock phase) i = true ->
  turn (Downloader sock phase) i w = Some (o, w') -> turn_socks (Downloader sock phase) w o w'.
Proof.
  intros Hh Hi Hr. set (t := Downloader sock phase).
  pose proof (live_own t TCP_PORT4 sock w eq_refl) as Hl. unfold turn, downloader_turn in Hr.
  destruct phase as [|used|].
  - apply bind_some in Hr as (a & w1 & [= _ <-] & Hr). apply bind_some in Hr as (b & w2 & [= _ <-] & Hr).
    set (w2 := add_call _ (add_call _ w)) in Hr.
    assert (forall L C, calls_in L C w w2) as H2 by (intros L C; exists [SysMalloc sizeof_DownloadStream; SysFree]; by repeat constructor).
    assert (forall x, shared_socket x w2 = shared_socket x w) as S2 by by intros [[]|].
    assert (w_held w2 = []) as Hh2 by done. clearbody w2. destruct (b =? 0).
    { apply bind_some in Hr as (c & w3 & [= _ <-] & [= <- <-]). apply safe_socks_turn; [|by intros [[]|]]. intros _.
      split; [etransitivity; [apply H2 | by apply calls_in_call]|]. intros x. left. rewrite <- S2. by destruct x as [[]|]. }
    destruct (keepalive_eq sock TCP_PORT4 w2) as (new & Hk & Hnew).
    apply bind_some in Hr as ([] & w3 & Hk' & Hr). rewrite Hk in Hk'. injection Hk' as <-.
    set (w3 := set_hist _ w2) in Hr. apply bind_some in Hr as ([] & w4 & Hopen & [= <- <-]).
    pose proof (wp_result _ _ _ _ _ (download_open_spec sock w3 Hh2) Hopen) as ->.
    assert (calls_live (live_of t w) w2 w3) as H3 by (exists new; split; [done | by apply Hnew]).
    assert (data_download_socket w3 = data_download_socket w) as Hd by exact (S2 SharedDownload).
    apply (publish_socks _ _ _ _ SharedDownload).
    + etransitivity; [apply H2|]. etransitivity; [by apply calls_live_in|]. rewrite Hd.
      destruct (live_shared t w SharedDownload) as [E|E]; cbn [shared_socket] in E.
      * rewrite (proj2 (Z.eqb_eq _ _) E). by apply calls_in_same.
      * destruct (data_download_socket w =? -1); [by apply calls_in_same|]. exists [SysShutdown (data_download_socket w)]. split; [done|]. constructor; [exact E | constructor].
    + eexists. split; [done|]. done.
    + intros [[]|] Hne; try done; rewrite <- S2; by case_match.
    + by intros [[]|] sk Hs.
  - assert (forall phase' (w1 : world), phase' <> DlStarting -> safe_socks (live_of t w) (closes t (Some (Downloader sock phase')) w w1) w w1 ->
      turn_socks t w (Some (Downloader sock phase')) w1) as Hstay.
    { intros phase' w1 Hp Hs. apply safe_socks_turn; [done|]. intros [[]|] sk Hk; try done.
      eexists. split; [done|]. by destruct phase'. }
    destruct i as [|chunk| | | |a]; try done; [|injection Hr as <- <-; by apply Hstay..].
    apply bind_some in Hr as (rest & w1 & Hd & [= <- <-]). apply Hstay; [by destruct rest|].
    by_keeps Hd. safe.
  - apply bind_some in Hr as ([] & w1 & Hc & Hr). apply bind_some in Hr as (a & w2 & [= _ <-] & Hr).
    apply bind_some in Hr as (b & w3 & [= _ <-] & [= <- <-]).
    pose proof (wp_result _ _ _ _ _ (download_close_spec sock w Hh) Hc) as ->.
    apply (withdraw_socks _ _ _ SharedDownload sock).
    + exists [SysClose sock; SysFree]. split; [by case_match | by repeat constructor].
    + cbn. by case_match.
    + intros [[]|] Hne; try done; cbn; by case_match.
    + by intros [[]|] sk Hk.
Qed.

(** A listener closes the server socket it could not set up, and the socket of
    a client it could not start a thread for. *)
Lemma listener_socks port fd i w o w' :
  turn (Listener port fd) i w = Some (o, w') -> turn_socks (Listener port fd) w o w'.
Proof.
  intros Hr. apply safe_socks_turn; [|by intros [[]|]]. intros _.
  assert (calls_in (live_of (Listener port fd) w) (obtained w w') w w' /\
    forall x, shared_socket x w' = shared_socket x w) as [Hc Hx]; [|split; [done | by auto]].
  unfold turn, listener_turn, listen_setup, listen_turn, bind, sys, when, ret, of_option in Hr.
  repeat (cbn beta iota zeta in Hr; case_match; try discriminate); simplify_eq;
    repeat match goal with Hn : ret _ _ = Some _ |- _ => injection Hn as <- <- end;
    (split; [|by intros [[]|]]); repeat (apply calls_in_add; [try exact I|]); try reflexivity.
  - eexists (SysAccept _), [_; _; _; _], [_]. by split_and!.
  - eexists SysSocket, [_; _], [_]. by split_and!.
  - eexists SysSocket, [_; _; _], [_]. by split_and!.
  - eexists SysSocket, [_; _; _; _], [_]. by split_and!.
Qed.

Lemma pulse_waiter_socks fd i w o w' :
  turn (PulseWaiter fd) i w = Some (o, w') -> turn_socks (PulseWaiter fd) w o w'.
Proof.
  intros Hr. set (t := PulseWaiter fd). apply safe_socks_turn; [|by intros [[]|]].
  unfold turn, pulse_waiter_turn in Hr. destruct fd as [fd|]; [|by_keeps Hr; safe].
  destruct i as [| | | | |a]; try done. destruct (po_ret a =? 0); [by_keeps Hr; safe|].
  destruct (po_ret a <? 0); [|by_keeps Hr; safe]. destruct (po_eintr a); [by_keeps Hr; safe|].
  apply (client_closes (live_of t w) (closes t None w w') (ret tt) fd) in Hr; [|safe|done].
  destruct Hr as [Ho Hs]. by rewrite Ho.
Qed.

Lemma turn_socks_spec t i w o w' :
  sys_ok w -> waits_for t i = true -> turn t i w = Some (o, w') -> turn_socks t w o w'.
Proof.
  intros [_ Hh _ _] Hi Hr. destruct t; try (by apply safe_socks_turn; [by_keeps Hr; by apply safe_turn | by intros [[]|]]).
  - by eapply commander_socks.
  - by eapply downloader_socks.
  - by eapply port_client_socks.
  - by eapply listener_socks.
  - by eapply pulse_waiter_socks.
Qed.

(** ** The runs *)

(** A published socket is that of a running client. *)
Definition sockets_inv (s : system) : Prop :=
  forall x, shared_socket x (sy_world s) = -1 \/
    exists t, t ∈ sy_threads s /\ holds x (shared_socket x (sy_world s)) t.

Lemma after_elem t o : o = Some t -> t ∈ after o.
Proof. intros ->. by left. Qed.

Lemma socks_kept w ts1 t ts2 o w' more :
  turn_socks t w o w' -> sockets_inv (mk_system w (ts1 ++ t :: ts2)) ->
  sockets_inv (mk_system w' (ts1 ++ after o ++ ts2 ++ more)).
Proof.
  intros [_ Hsh Hheld] Hinv x. cbn [sy_world sy_threads] in *.
  assert (held_after x (shared_socket x w') o ->
    exists t', t' ∈ ts1 ++ after o ++ ts2 ++ more /\ holds x (shared_socket x w') t') as Hafter.
  { intros (t' & Ho & Hk). exists t'. split; [|done]. rewrite !elem_of_app. right. left. by apply after_elem. }
  destruct (Hsh x) as [He|[He|He]]; [|by left|right; by apply Hafter].
  destruct (Hinv x) as [E|(t0 & Ht0 & Hk)]; cbn [sy_world sy_threads] in *; [left; congruence|].
  rewrite elem_of_app, list.elem_of_cons in Ht0.
  assert (t0 = t \/ t0 ∈ ts1 \/ t0 ∈ ts2) as [->|Hin] by naive_solver.
  - destruct (Hheld x _ Hk) as [Ha|[Hne|Hn]]; [|by destruct Hne|by left].
    right. apply Hafter. by rewrite He.
  - right. exists t0. split; [rewrite !elem_of_app; tauto|]. by rewrite He.
Qed.

Lemma step_sockets s e s' :
  sys_inv s -> sockets_inv s -> sys_step s e s' ->
  sockets_inv s' /\ turn_socks (ev_thread e) (ev_from e) (ev_after e) (ev_to e).
Proof.
  intros [Hok _] Hinv Hs. destruct Hs as [w ts1 t ts2 i o w' Hi Hrun Ht|w ts1 port fd ts2 o w' new Hrun Hst];
    cbn [sy_world ev_thread ev_from ev_after ev_to] in *.
  - pose proof (turn_socks_spec t i w o w' Hok Hi Hrun) as Hso. split; [|done].
    pose proof (socks_kept _ _ _ _ _ _ [] Hso Hinv) as Hk. by rewrite app_nil_r in Hk.
  - pose proof (turn_socks_spec (Listener port fd) NoInput w o w' Hok eq_refl Hrun) as Hso.
    split; [by eapply socks_kept | done].
Qed.

Lemma run_sockets s0 tr s : sys_inv s0 -> sockets_inv s0 -> sys_run s0 tr s -> sockets_inv s.
Proof.
  intros H0 Hs0 Hr. induction Hr as [|tr s e s' Hr IH Hs]; [done|].
  by apply (step_sockets s e s' (run_inv _ _ _ H0 Hr) IH Hs).
Qed.

Lemma holds_client x sock t : holds x sock t -> exists port, role t = ClientThread port sock.
Proof. destruct x as [p|], t as [|? []|? ? []| | | | | | | | | |]; try done; cbn; [intros [-> ->]|intros ->..]; by eexists. Qed.

(** The socket a call uses is that of a client that is running; what it
    closes, the turn may close. *)
Definition client_call (s : system) (e : event) (c : syscall) : Prop :=
  match c with
  | SysSend sock _ | SysShutdown sock => exists t port, t ∈ sy_threads s /\ role t = ClientThread port sock
  | SysClose sock => closes (ev_thread e) (ev_after e) (ev_from e) (ev_to e) sock
  | _ => True
  end.

Lemma step_calls s e s' :
  sys_inv s -> sockets_inv s -> sys_step s e s' ->
  exists new, w_hist (sy_world s') = new ++ w_hist (sy_world s) /\ Forall (client_call s e) new.
Proof.
  intros Hinv Hsi Hs. destruct (step_sockets s e s' Hinv Hsi Hs) as [_ [(new & Hn & Hc) _ _]].
  destruct (step_spec s e s' Hinv Hs) as (_ & _ & Hf & Hto & ts1 & ts2 & more & Hts & _).
  rewrite Hf, Hto in Hn. exists new. split; [done|]. rewrite Hf in Hc.
  assert (forall k, k ∈ live_of (ev_thread e) (sy_world s) ->
    exists t port, t ∈ sy_threads s /\ role t = ClientThread port k) as Hl.
  { intros k Hk. unfold live_of in Hk. apply elem_of_app in Hk as [Hk|Hk].
    - destruct (role (ev_thread e)) eqn:Hr; try by apply not_elem_of_nil in Hk.
      apply list_elem_of_singleton in Hk as ->. exists (ev_thread e). eexists. split; [|exact Hr].
      rewrite Hts. rewrite elem_of_app, list.elem_of_cons. auto.
    - apply list_elem_of_filter in Hk as [Hne Hk].
      assert (exists x, k = shared_socket x (sy_world s)) as [x ->].
      { rewrite !list.elem_of_cons in Hk. destruct Hk as [->|[->|[->|Hk]]]; [by exists (SharedPort UploadPort)|
          by exists (SharedPort EventPort) | by exists SharedDownload | by apply not_elem_of_nil in Hk]. }
      destruct (Hsi x) as [|(t & Ht & Hh)]; [done|]. destruct (holds_client _ _ _ Hh) as [port Hr].
      by exists t, port. }
  eapply list.Forall_impl; [exact Hc|]. intros c. destruct c; cbn; rewrite ?Hf; auto.
Qed.
End Turns.

Section FromMain.
Context `{OS}.
Variable malloc_ok : nat -> Z -> bool.
Variable strerror : list syscall -> bytes.

Lemma reaches_sockets tr s : reaches malloc_ok strerror tr s -> sys_inv s /\ sockets_inv s.
Proof.
  intros (h & pps & w & h' & Hf & Hmain & Hrun).
  destruct (main_state malloc_ok strerror _ _ _ _ Hf Hmain) as (Hok & _ & (ps & Hc & Hps & _) & _).
  destruct (gateway_inv w ps Hok Hc Hps) as [Hinv _]. destruct pps as [pps tids].
  destruct (wp_or_result _ _ _ _ _ _ (main_start_spec malloc_ok strerror h Hf) Hmain) as (_ & _ & _ & Hp & Hd & _).
  split; [by eapply run_inv|]. eapply run_sockets; [exact Hinv | | exact Hrun].
  intros [p|]; left; [apply Hp | exact Hd].
Qed.

(** C8. The sockets of the running gateway: in every state the threads can
    reach from [main], each published socket, those of the clients of ports
    9010, 9011 and 9012, is that of a client thread that is running and has not
    closed it; whatever thread takes the next turn, it sends on and shuts down
    only sockets of running clients; and a turn closes a socket only when it is
    the last of the client or of the pulse thread that owns it, or that of a
    listener that has just got it. *)
Theorem sockets_running tr s :
  reaches malloc_ok strerror tr s ->
  (forall x, shared_socket x (sy_world s) = -1 \/
     exists t, t ∈ sy_threads s /\ holds x (shared_socket x (sy_world s)) t) /\
  forall e s', sys_step s e s' ->
    exists new, w_hist (sy_world s') = new ++ w_hist (sy_world s) /\ Forall (client_call s e) new.
Proof.
  intros Hr. destruct (reaches_sockets tr s Hr) as [Hinv Hsi]. split; [exact Hsi|].
  intros e s'. by apply step_calls.
Qed.
End FromMain.

Section Scenario.
#[local] Existing Instance serving_os.
Abbreviation serving_reaches := (@reaches serving_os (fun _ _ => true) (fun _ => [])).

(** The client of port 9010 of the run in [Traffic]. *)
Lemma sockets_running_witness : exists tr s t sock, serving_reaches tr s /\
  data_upload_socket (sy_world s) = sock /\ sock <> -1 /\ t ∈ sy_threads s /\ t = PortClient UploadPort sock true.
Proof.
  destruct hearing_run as (tr & e1 & e2 & s & Hr & _ & _ & _ & Hc & _).
  assert (exists s1, serving_reaches (e1 :: tr) s1 /\ sys_step s1 e2 s) as (s1 & Hr1 & Hst).
  { destruct Hr as (h & pps & w & h' & Hf & Hm & Hrun). inversion Hrun as [|tr' s1 e' s' Hr1 Hst]; subst.
    exists s1. split; [exists h, pps, w, h'; split; [exact Hf|]; split; [exact Hm | exact Hr1] | exact Hst]. }
  destruct (sockets_running (fun _ _ => true) (fun _ => []) (e1 :: tr) s1 Hr1) as [Hs _].
  destruct (reaches_inv _ _ _ _ Hr1) as (_ & _ & _ & Hinv & _).
  destruct (step_spec _ e2 s Hinv Hst) as (_ & _ & Hf & _). rewrite Hf in Hc. destruct Hc as [Hne _].
  destruct (Hs (SharedPort UploadPort)) as [Hn|(t & Ht & Hk)]; [exfalso; apply Hne; exact Hn|].
  exists (e1 :: tr), s1, t, (data_upload_socket (sy_world s1)).
  split; [exact Hr1|]. split; [reflexivity|]. split; [exact Hne|]. split; [exact Ht|].
  destruct t as [|? []|p k []| | | | | | | | | |]; try (exfalso; exact Hk). destruct Hk as [<- <-]. reflexivity.
Defined.
End Scenario.
