(* ===== verification/Sched.v ===== *)
(** * Scheduling of the threads
    ([src/main18.c], [can_use_normal_sched], and the start of the threads up to
    their loops: the binding of a thread to a processor).

    Every thread asks for the normal scheduling class and a nice value when it
    starts, and three kinds of thread ask for a processor; nothing depends on
    the answers but messages.  A new thread inherits the attributes of its
    creator.  The shared state of the program is not touched, and the steps of
    [System] leave the order of the turns open, so that its theorems hold for
    every scheduling. *)
From S2P Require Import Prelude Layout World.

(** ** The attributes of a thread, and the calls that change them *)

Inductive policy := SCHED_OTHER | SCHED_FIFO | SCHED_RR.

#[export] Instance policy_eq_dec : EqDecision policy.
Proof. solve_decision. Defined.

Record attrs := mk_attrs { at_policy : policy; at_nice : Z; at_cpus : list Z }.

Inductive sched_call :=
  | SetSchedOther
  | SetPriority (tid nice : Z)
  | CpuCount
  | SetAffinity (cpus : list Z).

(** What the system answers, from the earlier calls of the thread. *)
Class Scheduler := { sched_ret : list sched_call -> sched_call -> Z }.

(** A running thread: its number, its attributes, and the calls it made with
    their answers, the latest first. *)
Record running := mk_running { rn_tid : Z; rn_attrs : attrs; rn_calls : list (sched_call * Z) }.

(** What a call that succeeds changes in the thread with the number [tid]. *)
Definition effect (tid : Z) (c : sched_call) (a : attrs) : attrs :=
  match c with
  | SetSchedOther => mk_attrs SCHED_OTHER (at_nice a) (at_cpus a)
  | SetPriority t nice => if t =? tid then mk_attrs (at_policy a) nice (at_cpus a) else a
  | CpuCount => a
  | SetAffinity cpus => mk_attrs (at_policy a) (at_nice a) cpus
  end.

Section Code.
Context `{Scheduler}.
#[local] Open Scope c_scope.

Definition sched_sys (c : sched_call) : M running Z := fun s =>
  let r := sched_ret (rn_calls s).*1 c in
  Some (r, mk_running (rn_tid s) (if r =? 0 then effect (rn_tid s) c (rn_attrs s) else rn_attrs s)
             ((c, r) :: rn_calls s)).

(** The channel and the name only label the messages. *)
Definition can_use_normal_sched (nice_value : Z) : M running unit :=
  let* tid := gets rn_tid in
  let* rc := sched_sys SetSchedOther in
  if negb (rc =? 0) then ret tt else
  let* rc := sched_sys (SetPriority tid nice_value) in
  ret tt.

Definition bind_cpu (cpu : Z) : M running unit := let* _ := sched_sys (SetAffinity [cpu]) in ret tt.

(** [target_cpu] of a monitor. *)
Definition target_cpu (can_id cpu_count : Z) : Z :=
  Z.rem can_id (if cpu_count <? 1 then 1 else cpu_count).

Definition monitor_bind (can_id : Z) : M running unit :=
  let* cpu_count := sched_sys CpuCount in bind_cpu (target_cpu can_id cpu_count).

(** The start of each thread. *)
Definition thread_scheduling (t : thread) : M running unit :=
  match t with
  | RecvThread _ | DequeueThread1 _ => bind_cpu 1 ;; can_use_normal_sched 0
  | SendThread _ | AlongThread _ | BroadcastThread _ | DequeueThread2 _ => can_use_normal_sched 0
  | MonitorThread id => monitor_bind id ;; can_use_normal_sched (-2)
  | ClientThread _ _ | ListenThread _ | ReportThread | PpsThread => ret tt
  end.

Definition main_scheduling : M running unit := can_use_normal_sched 0.
End Code.

(** A new thread with the attributes of its creator. *)
Definition inherit (tid : Z) (parent : running) : running := mk_running tid (rn_attrs parent) [].

(** ** What the calls leave *)

(** A failed call; the count of the processors cannot fail here, the code takes
    a bad count for one. *)
Definition refused (cr : sched_call * Z) : bool :=
  match cr.1 with CpuCount => false | _ => negb (cr.2 =? 0) end.

(** The nice value and the processor a thread asks for. *)
Definition wanted_nice (t : thread) : option Z :=
  match t with
  | MonitorThread _ => Some (-2)
  | ClientThread _ _ | ListenThread _ | ReportThread | PpsThread => None
  | _ => Some 0
  end.

(** The answers to [sysconf], the latest first. *)
Definition cpu_counts (calls : list (sched_call * Z)) : list Z :=
  omap (fun cr => match cr.1 with CpuCount => Some cr.2 | _ => None end) calls.

Definition wanted_cpu (t : thread) (calls : list (sched_call * Z)) : option Z :=
  match t with
  | RecvThread _ | DequeueThread1 _ => Some 1
  | MonitorThread id => target_cpu id <$> head (cpu_counts calls)
  | _ => None
  end.

Section Outcome.
Context `{Scheduler}.
#[local] Open Scope c_scope.

(** The calls for the normal class, in order: the nice value only after the
    class was set. *)
Lemma normal_sched_eq nice s :
  exists s', can_use_normal_sched nice s = Some (tt, s') /\ rn_tid s' = rn_tid s /\
    cpu_counts (rn_calls s') = cpu_counts (rn_calls s) /\
    (existsb refused (rn_calls s') = false -> existsb refused (rn_calls s) = false /\
       rn_attrs s' = mk_attrs SCHED_OTHER nice (at_cpus (rn_attrs s))) /\
    (at_nice (rn_attrs s') = at_nice (rn_attrs s) \/ at_nice (rn_attrs s') = nice).
Proof.
  unfold can_use_normal_sched, bind, gets, sched_sys, ret.
  set (r1 := sched_ret _ SetSchedOther). destruct (Z.eqb_spec r1 0) as [E1|E1]; cbn [negb].
  - cbn [rn_calls rn_tid rn_attrs]. set (r2 := sched_ret _ (SetPriority _ _)).
    eexists. split; [reflexivity|]. cbn. split_and!; [done | done | |].
    + intros Hr. apply orb_false_iff in Hr as [Hr2 Hr]. apply orb_false_iff in Hr as [_ Hr].
      split; [done|]. unfold refused in Hr2. cbn in Hr2. apply negb_false_iff in Hr2. rewrite Hr2.
      cbn. by rewrite Z.eqb_refl.
    + destruct (r2 =? 0); cbn; [rewrite Z.eqb_refl; by right | by left].
  - eexists. split; [reflexivity|]. cbn. split_and!; [done | done | | by left].
    intros Hr. apply orb_false_iff in Hr as [Hr _]. unfold refused in Hr. cbn in Hr.
    apply negb_false_iff, Z.eqb_eq in Hr. done.
Qed.

Lemma bind_cpu_eq cpu s :
  exists s', bind_cpu cpu s = Some (tt, s') /\ rn_tid s' = rn_tid s /\
    cpu_counts (rn_calls s') = cpu_counts (rn_calls s) /\
    (existsb refused (rn_calls s') = false -> existsb refused (rn_calls s) = false /\
       rn_attrs s' = mk_attrs (at_policy (rn_attrs s)) (at_nice (rn_attrs s)) [cpu]) /\
    at_nice (rn_attrs s') = at_nice (rn_attrs s).
Proof.
  unfold bind_cpu, bind, sched_sys, ret. set (r := sched_ret _ _). eexists. split; [reflexivity|].
  cbn. split_and!; [done | done | |by destruct (r =? 0)].
  intros Hr. apply orb_false_iff in Hr as [Hr Hs]. unfold refused in Hr. cbn in Hr.
  apply negb_false_iff in Hr. by rewrite Hr.
Qed.

(** Binding to a processor, and then the normal class. *)
Lemma bound_sched_eq cpu nice s :
  exists s', (bind_cpu cpu ;; can_use_normal_sched nice) s = Some (tt, s') /\ rn_tid s' = rn_tid s /\
    cpu_counts (rn_calls s') = cpu_counts (rn_calls s) /\
    (existsb refused (rn_calls s') = false -> rn_attrs s' = mk_attrs SCHED_OTHER nice [cpu]) /\
    (at_nice (rn_attrs s') = at_nice (rn_attrs s) \/ at_nice (rn_attrs s') = nice).
Proof.
  destruct (bind_cpu_eq cpu s) as (s1 & H1 & Ht1 & Hc1 & Ha1 & Hn1).
  destruct (normal_sched_eq nice s1) as (s2 & H2 & Ht2 & Hc2 & Ha2 & Hn2).
  exists s2. unfold bind. rewrite H1, H2. split; [done|]. split; [congruence|]. split; [congruence|].
  split; [|by rewrite <- Hn1]. intros Hr. destruct (Ha2 Hr) as [Hr1 ->]. by destruct (Ha1 Hr1) as [_ ->].
Qed.

(** The start of a thread never fails.  When every call succeeds the thread has
    the normal class, the nice value and the processor it asks for, and the
    attributes it does not ask for are those it inherited; whatever fails, its
    nice value is the wanted or the inherited one, and the thread goes on. *)
Theorem thread_scheduling_outcome t tid parent :
  exists s, thread_scheduling t (inherit tid parent) = Some (tt, s) /\ rn_tid s = tid /\
    (existsb refused (rn_calls s) = false ->
       rn_attrs s = mk_attrs
         (match wanted_nice t with Some _ => SCHED_OTHER | None => at_policy (rn_attrs parent) end)
         (default (at_nice (rn_attrs parent)) (wanted_nice t))
         (match wanted_cpu t (rn_calls s) with Some c => [c] | None => at_cpus (rn_attrs parent) end)) /\
    (at_nice (rn_attrs s) = at_nice (rn_attrs parent) \/ Some (at_nice (rn_attrs s)) = wanted_nice t).
Proof.
  destruct t; cbn [thread_scheduling wanted_nice wanted_cpu];
    try (eexists; split; [reflexivity|]; split; [done|]; split; [by destruct parent as [? [] ?] | by left]);
    try (destruct (normal_sched_eq 0 (inherit tid parent)) as (s & Hrun & Ht & _ & Ha & Hn);
         exists s; split; [exact Hrun|]; split; [exact Ht|]; split; [apply Ha|]; destruct Hn; [by left | right; congruence]);
    try (destruct (bound_sched_eq 1 0 (inherit tid parent)) as (s & Hrun & Ht & _ & Ha & Hn);
         exists s; split; [exact Hrun|]; split; [exact Ht|]; split; [exact Ha|]; destruct Hn; [by left | right; congruence]).
  unfold monitor_bind. set (r := sched_ret [] CpuCount).
  set (s0 := mk_running tid (rn_attrs parent) [(CpuCount, r)]).
  destruct (bound_sched_eq (target_cpu id r) (-2) s0) as (s & Hrun & Ht & Hc & Ha & Hn).
  exists s. split.
  { rewrite <- Hrun. unfold bind, sched_sys, inherit. cbn [rn_calls rn_tid rn_attrs effect fmap list_fmap].
    fold r. unfold s0. by destruct (r =? 0). }
  split; [exact Ht|]. split; [|destruct Hn; [by left | right; congruence]].
  intros Hr. rewrite (Ha Hr), Hc. done.
Qed.

(** The program as a whole: when no call is refused, every thread but the
    monitors runs in the normal class with the nice value 0 and every monitor
    with -2, whatever class and nice value the program was started with, also
    the threads that ask for nothing and inherit from [main], directly or
    through their listener. *)
Theorem normal_everywhere t tid tid' (started : running) :
  exists m l s, main_scheduling started = Some (tt, m) /\
    thread_scheduling (ListenThread 0) (inherit tid' m) = Some (tt, l) /\
    thread_scheduling t (inherit tid (match t with ClientThread _ _ => l | _ => m end)) = Some (tt, s) /\
    (existsb refused (rn_calls m) = false -> existsb refused (rn_calls s) = false ->
       at_policy (rn_attrs s) = SCHED_OTHER /\
       at_nice (rn_attrs s) = match t with MonitorThread _ => -2 | _ => 0 end).
Proof.
  destruct (normal_sched_eq 0 started) as (m & Hm & _ & _ & Ha & _).
  exists m, (inherit tid' m). destruct (thread_scheduling_outcome t tid m) as (s & Hs & _ & Hok & _).
  exists s. split; [exact Hm|]. split; [done|].
  split; [by destruct t|]. intros Hrm Hrs. destruct (Ha Hrm) as [_ Hma].
  rewrite (Hok Hrs), Hma. by destruct t.
Qed.
End Outcome.

(** The monitor of a channel gets a processor that exists, and the six monitors
    are spread evenly: on [n] processors each has the whole part of [6 / n] of
    them, or one more. *)
Theorem monitors_spread n cpu :
  let n' := if n <? 1 then 1 else n in
  (forall id, 0 <= id < 6 -> 0 <= target_cpu id n < n') /\
  (0 <= cpu < n' ->
   let share := zlen (List.filter (fun id => target_cpu id n =? cpu) [0; 1; 2; 3; 4; 5]) in
   6 / n' <= share <= 6 / n' + 1).
Proof.
  intros n'. assert (1 <= n') as Hn by (unfold n'; destruct (Z.ltb_spec n 1); lia).
  assert (forall id, target_cpu id n = Z.rem id n') as Ht by done. split.
  - intros id Hid. rewrite Ht. apply Z.rem_bound_pos; lia.
  - intros Hc share. unfold share. clear share.
    assert (List.filter (fun id => target_cpu id n =? cpu) [0; 1; 2; 3; 4; 5] =
            List.filter (fun id => Z.rem id n' =? cpu) [0; 1; 2; 3; 4; 5]) as -> by done.
    clear Ht. clearbody n'. destruct (Z.ltb_spec n' 7) as [Hs|Hs].
    + assert (n' ∈ [1; 2; 3; 4; 5; 6] /\ cpu ∈ [0; 1; 2; 3; 4; 5]) as [H1 H2].
      { rewrite !list.elem_of_cons. lia. }
      assert (forallb (fun n => forallb (fun c => negb (c <? n) ||
        ((6 / n <=? zlen (List.filter (fun id => Z.rem id n =? c) [0; 1; 2; 3; 4; 5])) &&
         (zlen (List.filter (fun id => Z.rem id n =? c) [0; 1; 2; 3; 4; 5]) <=? 6 / n + 1)))
        [0; 1; 2; 3; 4; 5]) [1; 2; 3; 4; 5; 6] = true) as Hall by (vm_compute; reflexivity).
      rewrite forallb_forall in Hall. specialize (Hall n' (proj1 (list_elem_of_In _ _) H1)). cbn beta in Hall.
      rewrite forallb_forall in Hall. specialize (Hall cpu (proj1 (list_elem_of_In _ _) H2)). cbn beta in Hall.
      apply orb_true_iff in Hall as [Hx|Hx]; bool_prop; lia.
    + rewrite (Z.div_small 6 n') by lia. cbn [List.filter]. rewrite !Z.rem_small by lia.
      unfold zlen. repeat (case_match; bool_prop; try lia); simpl; lia.
Qed.

(** ** A run *)

(** Four processors; the real-time class the program was started with is left,
    and raising the priority of the monitor of channel 5 works. *)
#[local] Instance four_cpus : Scheduler :=
  {| sched_ret := fun _ c => match c with CpuCount => 4 | _ => 0 end |}.

Definition started_fifo : running := mk_running 100 (mk_attrs SCHED_FIFO (-10) [0; 1; 2; 3]) [].

Example monitor_attributes :
  match main_scheduling started_fifo with
  | Some (_, m) => option_map (fun r => rn_attrs r.2) (thread_scheduling (MonitorThread 5) (inherit 107 m))
  | None => None
  end = Some (mk_attrs SCHED_OTHER (-2) [1]).
Proof. vm_compute. reflexivity. Qed.
