(* ===== verification/Unused.v ===== *)
(** * Code of the gateway that nothing calls
    ([src/main18.c], [buffer_write_data], [can_buffer_extract],
    [calculate_buffer_remaining], [can_buffer_insert_batch], [diff_timespec],
    [send_received_can_frame_to_pc], [send_can_tx_status] and
    [handle_along_mode];
    [src/axican/axican.c], [axican_poll]).

    An earlier generation of the buffers kept generic frames in the array
    [can_buffers]; nothing allocates or reads it any more.  The functions are
    modelled as they stand, for whoever wants to use them again: the frames of
    a buffer are a bounded queue, but the account of its bytes is not kept, and
    the three functions that send a status read past the end of an array. *)
From S2P Require Import Prelude Words Ring RingSet Layout World Upload Broadcast Commands Download.
From Stdlib Require Import (notations) String.

(** ** The buffers of generic frames *)

(** A type and the bytes of the union, whose largest member is the answer of
    the simulator. *)
Record GenericDataFrame := mk_generic { gd_type : DataType; gd_data : bytes }.

Definition union_size : Z := sizeof PC_ARM_SIMULATOR_DATA.
Definition sizeof_DataType : Z := 4.
Definition sizeof_GenericDataFrame : Z := sizeof_DataType + union_size.

(** [cb_frames] is [None] for a null pointer. *)
Record CanBufferState := mk_can_buffer {
  cb_frames : option (list GenericDataFrame); cb_max_frames : Z; cb_total_size : Z;
  cb_used_size : Z; cb_frame_count : Z; cb_overflow_flag : Z
}.

Definition DataType_Z (t : DataType) : Z :=
  match t with
  | DATA_TYPE_CAN => 0 | DATA_TYPE_SECOND_PULSE => 1 | DATA_TYPE_SIMULATOR => 2 | DATA_TYPE_DMA => 3
  | DATA_TYPE_1553B => 4 | DATA_TYPE_MAX => 5
  end.

(** [can_buffers[MAX_CHANNELS][DATA_TYPE_MAX]] *)
Abbreviation can_buffers := (list (list CanBufferState)).

Definition calculate_buffer_remaining (buf : CanBufferState) : Z :=
  match cb_frames buf with
  | None => 0
  | Some _ => if cb_used_size buf >? cb_total_size buf then 0 else cb_total_size buf - cb_used_size buf
  end.

(** An element of the array; stuck outside of it. *)
Definition buffer_at (ch i : Z) : M can_buffers CanBufferState := fun bs =>
  if (ch <? 0) || (i <? 0) then None else
  row ← bs !! Z.to_nat ch; buf ← row !! Z.to_nat i; Some (buf, bs).

Definition buffer_store (ch i : Z) (buf : CanBufferState) : M can_buffers unit := fun bs =>
  Some (tt, alter (fun row => <[Z.to_nat i := buf]> row) (Z.to_nat ch) bs).

(** The bytes a type copies into the union. *)
Definition member_size (t : DataType) : option Z :=
  match t with
  | DATA_TYPE_CAN => Some (sizeof PC_ARM_DATA_DATA)
  | DATA_TYPE_SECOND_PULSE => Some (sizeof SecondPulseData)
  | DATA_TYPE_SIMULATOR => Some (sizeof PC_ARM_SIMULATOR_DATA)
  | _ => None
  end.

Definition set_frames (frames : list GenericDataFrame) (buf : CanBufferState) : CanBufferState :=
  mk_can_buffer (Some frames) (cb_max_frames buf) (cb_total_size buf) (cb_used_size buf)
    (cb_frame_count buf) (cb_overflow_flag buf).

Section Buffers.
#[local] Open Scope c_scope.

Definition buffer_write_data (ch type : Z) (data_type : DataType) (data_ptr : option bytes)
    : M can_buffers Z :=
  match data_ptr with
  | None => ret (-1)
  | Some data =>
    if (ch >=? AXICAN_MAX) || (type >=? 3) then ret (-1) else
    let* buf := buffer_at ch type in
    if cb_frame_count buf >=? cb_max_frames buf then
      buffer_store ch type (mk_can_buffer (cb_frames buf) (cb_max_frames buf) (cb_total_size buf)
        (cb_used_size buf) (cb_frame_count buf) 1) ;;
      ret (-2)
    else
    let* frames := of_option (cb_frames buf) in
    let i := Z.to_nat (cb_frame_count buf) in
    let* target := of_option (frames !! i) in
    match member_size data_type with
    | None =>
      buffer_store ch type (set_frames (<[i := mk_generic data_type (gd_data target)]> frames) buf) ;;
      ret (-3)
    | Some n =>
      let* member := of_option (mem_read 0 n data) in
      let* union := of_option (mem_write 0 member (gd_data target)) in
      let used := u32 (cb_used_size buf + (sizeof_DataType + n)) in
      buffer_store ch type
        (mk_can_buffer (Some (<[i := mk_generic data_type union]> frames)) (cb_max_frames buf)
           (cb_total_size buf) (if used >? cb_total_size buf then cb_total_size buf else used)
           (u32 (cb_frame_count buf + 1)) (cb_overflow_flag buf)) ;;
      ret 0
    end
  end.

(** [memmove(&frames[0], &frames[1], n * sizeof(frame))] *)
Definition move_down (n : nat) (frames : list GenericDataFrame) : list GenericDataFrame :=
  take n (drop 1 frames) ++ drop n frames.

(** The result, and what is left in [*frame]; [to_frame] tells whether the
    pointer is not null. *)
Definition can_buffer_extract (ch : Z) (data_type : DataType) (to_frame : bool)
    : M can_buffers (Z * option GenericDataFrame) :=
  if ch >=? AXICAN_MAX then ret (-1, None) else
  if negb to_frame then ret (-1, None) else
  let* buf := buffer_at ch (DataType_Z data_type) in
  match cb_frames buf with
  | None => ret (-3, None)
  | Some frames =>
    if cb_frame_count buf =? 0 then ret (-2, None) else
    let* first := of_option (frames !! 0%nat) in
    let move_count := cb_frame_count buf - 1 in
    ensure (cb_frame_count buf <=? zlen frames) ;;
    let frame_count := cb_frame_count buf - 1 in
    buffer_store ch (DataType_Z data_type)
      (mk_can_buffer (Some (if move_count >? 0 then move_down (Z.to_nat move_count) frames else frames))
         (cb_max_frames buf) (cb_total_size buf) (u32 (frame_count * sizeof_GenericDataFrame))
         frame_count 0) ;;
    ret (0, Some first)
  end.
End Buffers.

(** ** Time differences *)

(** [struct timespec] of the 32-bit target; [unsigned long] has 32 bits. *)
Definition s32_wrap (z : Z) : Z := (z + 2 ^ 31) mod 2 ^ 32 - 2 ^ 31.

Definition diff_timespec (end_sec end_nsec start_sec start_nsec : Z) : Z :=
  let sec := s32_wrap (end_sec - start_sec) in
  let '(sec, nsec) :=
    if end_nsec <? start_nsec
    then (s32_wrap (sec - 1), s32_wrap (s32_wrap (end_nsec + 1000000000) - start_nsec))
    else (sec, s32_wrap (end_nsec - start_nsec)) in
  u32 (u32 nsec + u32 (u32 sec * 1000000000)).

(** ** Polling without a limit, and putting a batch *)

Section Calls.
Context `{OS}.
#[local] Open Scope c_scope.

(** [while (1)]: every outcome of [poll] leaves the loop. *)
Definition axican_poll (fd flags : Z) : M world Z :=
  if negb (flags =? 0) && negb (flags =? 1) then ret (-1) else
  let* pollrc := sys (SysPoll fd flags (-1)) in
  if pollrc >? 0 then ret 0 else if pollrc =? 0 then ret (-1) else ret (-1).

Definition can_buffer_insert_batch (can_id : Z) (data_type : DataType) (data : option bytes) (count : Z)
    : M world Z :=
  match data with
  | None => ret (- EINVAL)
  | Some data =>
    if (count =? 0) || (can_id >=? 32) then ret (- EINVAL) else
    match target_buf data_type with
    | None => ret (- EINVAL)
    | Some target =>
      let* put_count := buf_put target can_id data 32 in
      ret (if put_count =? count then s32_wrap count else - ENOMEM)
    end
  end.

(** ** The older status frames *)

(** [recv_frame->data + 4] steps over four words of the two of the array. *)
Definition received_packet (can_id : Z) (frame : axican_frame) (dw1 dw2 : Z) : ARM_PC_STATUS_DATA :=
  let p x := {| st_PC_arm_head := PC_ARM_STATUS_WORD; st_PC_arm_length := sizeof ARM_PC_STATUS_DATA - 16;
    st_PC_arm_conter := 0; st_PC_arm_commond := 0; st_pc_arm_check := 0; st_pc_arm_chind := 0;
    st_head := PC_STATUS_HEAD; st_direction := 1; st_type := 0x81;
    st_length := u8 (sizeof ARM_PC_STATUS_DATA); st_ch_id := can_id; st_total_count := 0;
    st_ch_count := 0; st_idr := fr_can_id frame; st_drcr := fr_can_dlc frame; st_dw1r := dw1;
    st_dw2r := dw2; st_states := 0; st_xor_states := Z.lxor 0 0xFF; st_reserved2 := 0;
    st_timestamp := fr_timestamp frame; st_xor_checksum := x |} in
  p (calculate_xor_checksum (pack (p 0)) (psize (A := ARM_PC_STATUS_DATA) - 4)).

Definition send_received_can_frame_to_pc (can_id : Z) (recv_frame : axican_frame) : M world unit :=
  mutex_lock data_upload_mutex ;;
  let* sock := gets data_upload_socket in
  if sock =? -1 then mutex_unlock data_upload_mutex else
  let* cfg := config_at can_id in
  if negb (bool_decide (cf_state cfg = CAN_STATE_OPENED)) then mutex_unlock data_upload_mutex else
  let data := [fr_data0 recv_frame; fr_data1 recv_frame] in
  let* dw1 := of_option (data !! 0%nat) in
  let* dw2 := of_option (data !! 4%nat) in
  let packet := pack (received_packet can_id recv_frame dw1 dw2) in
  let* sent_len := sys (SysSend sock packet) in
  (if negb (sent_len =? sizeof ARM_PC_STATUS_DATA) then
     let* _ := sys (SysShutdown sock) in
     modify (set_data_upload_socket (-1)) ;;
     error_event (str "Send CAN frame to PC failed (port 9010), close invalid socket")
   else ret tt) ;;
  mutex_unlock data_upload_mutex.

(** The fields of the header are not set; [stack] is what they hold. *)
Definition status_frame (stack : CAN_ARM_PC_DATA) (ch_id type status total ch_count idr drcr dw1 dw2 us : Z)
    : CAN_ARM_PC_DATA :=
  let p x := {| up_PC_ARM_DATE_HEAD := up_PC_ARM_DATE_HEAD stack;
    up_PC_ARM_DATE_LENGTH := up_PC_ARM_DATE_LENGTH stack;
    up_PC_ARM_DATE_COUNTER := up_PC_ARM_DATE_COUNTER stack;
    up_PC_ARM_DATE_COMMAND := up_PC_ARM_DATE_COMMAND stack;
    up_PC_ARM_DATE_CHECKSUM := up_PC_ARM_DATE_CHECKSUM stack; up_PC_ARM_CHIND := up_PC_ARM_CHIND stack;
    up_head := PC_STATUS_HEAD; up_direction := 1; up_type := type; up_length := 0x30;
    up_ch_id := ch_id; up_total_count := total; up_ch_count := ch_count; up_idr := idr;
    up_drcr := drcr; up_dw1r := dw1; up_dw2r := dw2; up_status := status; up_reserved1 := 0;
    up_reserved2 := 0; up_timestamp := us; up_xor_checksum := x |} in
  p (calculate_xor_checksum (pack (p 0)) (psize (A := CAN_ARM_PC_DATA) - 4)).

Definition send_can_tx_status (stack : CAN_ARM_PC_DATA) (ch_id : Z) (data_array : list Z) (status type : Z)
    : M world unit :=
  let* counter := gets data_counter in
  let total := if counter =? 0xFFFFFFFF then 0 else counter + 1 in
  arr_upd w_frame_count set_frame_count ch_id next_count ;;
  let* ch_count := arr_get w_frame_count ch_id in
  let* idr := of_option (data_array !! 0%nat) in
  let* drcr := of_option (data_array !! 1%nat) in
  let* dw1 := of_option (data_array !! 3%nat) in
  let* dw2 := of_option (data_array !! 4%nat) in
  let* us := timestamp_us false in
  mutex_lock data_upload_mutex ;;
  let* sock := gets data_upload_socket in
  if sock =? -1 then mutex_unlock data_upload_mutex else
  upload_send (pack (status_frame stack ch_id type status total ch_count idr drcr dw1 dw2 us)) ;;
  mutex_unlock data_upload_mutex.
End Calls.

(** ** The older stand-alone mode *)

(** The shared state, the buffers, the counter of received frames, and the two
    mutexes of the function. *)
Record along_state := mk_along_state {
  ak_world : world; ak_buffers : can_buffers; along_more_int_couter : Z;
  along_counter_mutex : bool; ak_buffer_mutex : bool
}.

Definition ak_set_counter (c : Z) (s : along_state) : along_state :=
  mk_along_state (ak_world s) (ak_buffers s) c (along_counter_mutex s) (ak_buffer_mutex s).
Definition ak_set_counter_mutex (b : bool) (s : along_state) : along_state :=
  mk_along_state (ak_world s) (ak_buffers s) (along_more_int_couter s) b (ak_buffer_mutex s).
Definition ak_set_buffer_mutex (b : bool) (s : along_state) : along_state :=
  mk_along_state (ak_world s) (ak_buffers s) (along_more_int_couter s) (along_counter_mutex s) b.

(** [uint32_t data[2]] of a frame, as bytes. *)
Definition frame_data (frame : axican_frame) : bytes := le_enc 4 (fr_data0 frame) ++ le_enc 4 (fr_data1 frame).

Definition CAN_FIFO_TWO_FRAME_SIZE : Z := 16.
Definition CAN_FIFO_THR_FRAME_SIZE : nat := 4.
Definition sizeof_CanFourByteStruct : Z := 16.

(** [is_match] *)
Definition along_is_match (sim : PC_ARM_SIMULATOR_DATA) (frame : axican_frame) : bool :=
  (sd_can_id sim =? fr_can_id frame) && bool_decide (le_enc 4 (sd_data_type sim) = take 4 (frame_data frame)).

Section AlongMode.
Context `{OS}.
#[local] Open Scope c_scope.

Definition on_world {A} (m : M world A) : M along_state A := fun s =>
  match m (ak_world s) with
  | Some (a, w) => Some (a, mk_along_state w (ak_buffers s) (along_more_int_couter s)
                              (along_counter_mutex s) (ak_buffer_mutex s))
  | None => None
  end.
Definition on_buffers {A} (m : M can_buffers A) : M along_state A := fun s =>
  match m (ak_buffers s) with
  | Some (a, bs) => Some (a, mk_along_state (ak_world s) bs (along_more_int_couter s)
                               (along_counter_mutex s) (ak_buffer_mutex s))
  | None => None
  end.

(** A mutex of the function; locking it again blocks forever. *)
Definition counter_lock : M along_state unit :=
  let* b := gets along_counter_mutex in ensure (negb b) ;; modify (ak_set_counter_mutex true).
Definition counter_unlock : M along_state unit := modify (ak_set_counter_mutex false).
Definition buffer_lock : M along_state unit :=
  let* b := gets ak_buffer_mutex in ensure (negb b) ;; modify (ak_set_buffer_mutex true).
Definition buffer_unlock : M along_state unit := modify (ak_set_buffer_mutex false).

(** [while (along_more_int_couter < expected_frames)]: [wakes] are the values
    the waits find in the counter when they return; without another wake-up the
    call blocks. *)
Fixpoint wait_for_frames (wakes : list Z) (expected_frames : Z) : M along_state (list Z) :=
  let* c := gets along_more_int_couter in
  if c <? u32 expected_frames then
    match wakes with
    | [] => stuck
    | c' :: wakes' => modify (ak_set_counter c') ;; wait_for_frames wakes' expected_frames
    end
  else ret wakes.

(** [for (j)]: four bytes into the first word of each element of the array. *)
Fixpoint split_frame (j n : nat) (current_frame fourByteFrames : bytes) : M along_state bytes :=
  match n with
  | O => ret fourByteFrames
  | S n' =>
    let* sub := of_option (mem_read (Z.of_nat j * 4) 4 current_frame) in
    let* fourByteFrames' := of_option (mem_write (Z.of_nat j * sizeof_CanFourByteStruct) sub fourByteFrames) in
    split_frame (S j) n' current_frame fourByteFrames'
  end.

(** The words of [fourByteFrames[0].bytes]. *)
Definition first_words (fourByteFrames : bytes) : list Z :=
  (fun i => fld (4 * i) 4 fourByteFrames) <$> seq 0 4.

(** [for (i_frame)], from frame [i]. *)
Fixpoint send_simulated (stack : CAN_ARM_PC_DATA) (can_id : Z) (sim : PC_ARM_SIMULATOR_DATA)
    (fourByteFramesSize : Z) (i n : nat) (fourByteFrames : bytes) : M along_state bytes :=
  match n with
  | O => ret fourByteFrames
  | S n' =>
    let frame_offset := Z.of_nat i * CAN_FIFO_TWO_FRAME_SIZE in
    if frame_offset + CAN_FIFO_TWO_FRAME_SIZE >? sd_send_len sim then ret fourByteFrames else
    let* current := of_option (mem_read frame_offset CAN_FIFO_TWO_FRAME_SIZE (sd_send_data sim)) in
    let* four := split_frame 0 CAN_FIFO_THR_FRAME_SIZE current fourByteFrames in
    let* ax := on_world (arr_get w_axican can_id) in
    (if ax_wr_fd ax <? 0 then ret tt else
     let* data := of_option (mem_read 0 fourByteFramesSize four) in
     let* write_ret := on_world (sys (SysWrite (ax_wr_fd ax) data)) in
     if negb (u32 write_ret =? fourByteFramesSize) then ret tt else
     on_world (send_can_tx_status stack can_id (first_words four) 1 0x82)) ;;
    send_simulated stack can_id sim fourByteFramesSize (S i) n' four
  end.

(** [for (i)] over the frames of the buffer; [wakes] and the array go on. *)
Fixpoint along_frames (stack : CAN_ARM_PC_DATA) (can_id : Z) (rx_frame : axican_frame)
    (fourByteFramesSize : Z) (frames : list GenericDataFrame) (wakes : list Z) (fourByteFrames : bytes)
    : M along_state bytes :=
  match frames with
  | [] => ret fourByteFrames
  | f :: frames' =>
    let sim : PC_ARM_SIMULATOR_DATA := unpack (gd_data f) in
    if negb ((DataType_Z (gd_type f) =? DataType_Z DATA_TYPE_SIMULATOR)) || negb (along_is_match sim rx_frame) then
      along_frames stack can_id rx_frame fourByteFramesSize frames' wakes fourByteFrames
    else
    let* can_frame_data := of_option (mem_read 0 16 (frame_data rx_frame)) in
    on_world (send_can_tx_status stack can_id (first_words can_frame_data) 1 0x82) ;;
    counter_lock ;;
    let* wakes' := wait_for_frames wakes (sd_rcv_len sim / 8) in
    modify (ak_set_counter 0) ;;
    counter_unlock ;;
    let* four :=
      (if sd_send_len sim =? 0 then ret fourByteFrames else
       send_simulated stack can_id sim fourByteFramesSize 0
         (Z.to_nat (sd_send_len sim / CAN_FIFO_TWO_FRAME_SIZE)) fourByteFrames) in
    along_frames stack can_id rx_frame fourByteFramesSize frames' wakes' four
  end.

Definition handle_along_mode (stack : CAN_ARM_PC_DATA) (can_id : Z) (rx_frame : axican_frame)
    (fourByteFrames : bytes) (fourByteFramesSize : Z) (wakes : list Z) : M along_state bytes :=
  counter_lock ;;
  let* c := gets along_more_int_couter in
  modify (ak_set_counter (u32 (c + 1))) ;;
  counter_unlock ;;
  let* sim_buf := on_buffers (buffer_at can_id ALONG_MODE) in
  match cb_frames sim_buf with
  | None => ret fourByteFrames
  | Some frames =>
    if cb_frame_count sim_buf =? 0 then ret fourByteFrames else
    buffer_lock ;;
    ensure (cb_frame_count sim_buf <=? zlen frames) ;;
    let* four := along_frames stack can_id rx_frame fourByteFramesSize
      (take (Z.to_nat (cb_frame_count sim_buf)) frames) wakes fourByteFrames in
    buffer_unlock ;;
    ret four
  end.
End AlongMode.

(** ** The frames of a buffer are a bounded queue *)

(** A buffer with its array; the elements in use come first. *)
Record can_buffer_wf (buf : CanBufferState) (frames : list GenericDataFrame) : Prop := {
  cw_frames : cb_frames buf = Some frames;
  cw_max : cb_max_frames buf = zlen frames;
  cw_count : 0 <= cb_frame_count buf <= zlen frames;
  cw_width : zlen frames < 2 ^ 32;
  cw_union : Forall (fun g => zlen (gd_data g) = union_size) frames
}.

(** What a frame holds: its type and the bytes of its member. *)
Definition frame_content (g : GenericDataFrame) : DataType * bytes :=
  (gd_type g, match member_size (gd_type g) with
              | Some n => take (Z.to_nat n) (gd_data g) | None => [] end).

Definition contents (buf : CanBufferState) (frames : list GenericDataFrame) : list (DataType * bytes) :=
  frame_content <$> take (Z.to_nat (cb_frame_count buf)) frames.

(** The buffer of a channel and an index. *)
Definition holds (ch i : Z) (bs : can_buffers) (cap : Z) (q : list (DataType * bytes)) : Prop :=
  exists row buf frames, bs !! Z.to_nat ch = Some row /\ row !! Z.to_nat i = Some buf /\
    can_buffer_wf buf frames /\ zlen frames = cap /\ contents buf frames = q.

(** Operations on a buffer, and what they answer: the result, and the content of
    the extracted frame. *)
Inductive buffer_op := Write (t : DataType) (data : bytes) | Extract.

Definition op_ok (o : buffer_op) : Prop :=
  match o with
  | Write t data => match member_size t with Some n => n <= zlen data | None => True end
  | Extract => True
  end.

(** The buffer that extraction looks at for the index of a mode. *)
Definition index_type (i : Z) : DataType :=
  if i =? 0 then DATA_TYPE_CAN else if i =? 1 then DATA_TYPE_SECOND_PULSE else DATA_TYPE_SIMULATOR.

Section Queue.
#[local] Open Scope c_scope.

Definition run_op (ch i : Z) (o : buffer_op) : M can_buffers (Z * option (DataType * bytes)) :=
  match o with
  | Write t data => let* r := buffer_write_data ch i t (Some data) in ret (r, None)
  | Extract =>
    let* (r, frame) := can_buffer_extract ch (index_type i) true in ret (r, frame_content <$> frame)
  end.

Fixpoint run_ops (ch i : Z) (ops : list buffer_op) : M can_buffers (list (Z * option (DataType * bytes))) :=
  match ops with
  | [] => ret []
  | o :: ops' => let* r := run_op ch i o in let* rs := run_ops ch i ops' in ret (r :: rs)
  end.
End Queue.

(** The same on a bounded queue. *)
Definition queue_op (cap : Z) (q : list (DataType * bytes)) (o : buffer_op)
    : Z * option (DataType * bytes) * list (DataType * bytes) :=
  match o with
  | Write t data =>
    if zlen q >=? cap then (-2, None, q) else
    match member_size t with
    | None => (-3, None, q)
    | Some n => (0, None, q ++ [(t, take (Z.to_nat n) data)])
    end
  | Extract => match q with [] => (-2, None, []) | x :: q' => (0, Some x, q') end
  end.

Fixpoint queue_ops (cap : Z) (q : list (DataType * bytes)) (ops : list buffer_op)
    : list (Z * option (DataType * bytes)) * list (DataType * bytes) :=
  match ops with
  | [] => ([], q)
  | o :: ops' =>
    let '(r, q1) := queue_op cap q o in let '(rs, q2) := queue_ops cap q1 ops' in (r :: rs, q2)
  end.

Lemma wp_buffer_at ch i row buf (Q : CanBufferState -> can_buffers -> Prop) bs :
  0 <= ch -> 0 <= i -> bs !! Z.to_nat ch = Some row -> row !! Z.to_nat i = Some buf ->
  Q buf bs -> wp (buffer_at ch i) Q bs.
Proof.
  intros Hch Hi Hr Hb HQ. unfold wp, buffer_at. rewrite (proj2 (Z.ltb_ge ch 0)), (proj2 (Z.ltb_ge i 0)) by done.
  simpl. rewrite Hr. simpl. by rewrite Hb.
Qed.

Lemma wp_buffer_store ch i buf (Q : unit -> can_buffers -> Prop) bs :
  Q tt (alter (fun row => <[Z.to_nat i := buf]> row) (Z.to_nat ch) bs) -> wp (buffer_store ch i buf) Q bs.
Proof. done. Qed.

(** The buffer after a store. *)
Lemma holds_store ch i bs row buf0 buf frames cap q :
  bs !! Z.to_nat ch = Some row -> row !! Z.to_nat i = Some buf0 -> can_buffer_wf buf frames ->
  zlen frames = cap -> contents buf frames = q ->
  holds ch i (alter (fun row => <[Z.to_nat i := buf]> row) (Z.to_nat ch) bs) cap q.
Proof.
  intros Hr Hb Hw Hl Hq. exists (<[Z.to_nat i := buf]> row), buf, frames.
  split; [by rewrite list_lookup_alter_eq, Hr|]. split; [|done].
  apply list_lookup_insert_eq. by eapply lookup_lt_Some.
Qed.

(** Replacing an element. *)
Lemma union_insert (frames : list GenericDataFrame) k g :
  Forall (fun g => zlen (gd_data g) = union_size) frames -> zlen (gd_data g) = union_size ->
  Forall (fun g => zlen (gd_data g) = union_size) (<[k := g]> frames).
Proof. intros Hf Hg. by apply Forall_insert. Qed.

Lemma zlen_insert {A} (l : list A) k a : zlen (<[k := a]> l) = zlen l.
Proof. unfold zlen. by rewrite length_insert. Qed.

Lemma member_size_range t n : member_size t = Some n -> 0 <= n <= union_size.
Proof. destruct t; intros [= <-]; by vm_compute. Qed.

Lemma contents_len buf frames : can_buffer_wf buf frames -> zlen (contents buf frames) = cb_frame_count buf.
Proof.
  intros []. unfold contents, zlen in *. rewrite length_fmap, length_take. lia.
Qed.

(** The member is found again in the union. *)
Lemma written_member t n data old union :
  member_size t = Some n -> n <= zlen data -> zlen old = union_size ->
  mem_write 0 (slice 0 (Z.to_nat n) data) old = Some union ->
  zlen union = union_size /\ frame_content (mk_generic t union) = (t, take (Z.to_nat n) data).
Proof.
  intros Hn Hd Ho Hw. pose proof (member_size_range t n Hn) as Hr.
  split; [unfold zlen; by rewrite (mem_write_length _ _ _ _ Hw)|].
  unfold frame_content. cbn [gd_type gd_data]. rewrite Hn. f_equal.
  unfold mem_write in Hw. case_match; [|done]. injection Hw as <-. unfold slice in *. rewrite drop_0 in *.
  rewrite take_app_le by (rewrite length_take; unfold zlen in *; lia). by rewrite take_take, Nat.min_id.
Qed.

(** A write. *)
Lemma write_spec ch i t data cap q bs :
  0 <= ch < 6 -> 0 <= i < 3 -> op_ok (Write t data) -> holds ch i bs cap q ->
  wp (run_op ch i (Write t data)) (fun r bs' => let '(r', q') := queue_op cap q (Write t data) in
    r = r' /\ holds ch i bs' cap q') bs.
Proof.
  intros Hch Hi Hok (row & buf & frames & Hr & Hb & Hw & <- & <-). cbn [run_op queue_op op_ok] in *.
  pose proof Hw as [Hf Hm Hc Hwd Hu]. rewrite (contents_len _ _ Hw).
  unfold buffer_write_data, AXICAN_MAX. rewrite !Z.geb_leb.
  rewrite (proj2 (Z.leb_gt 6 ch)), (proj2 (Z.leb_gt 3 i)) by lia. cbn [orb]. wp_step. wp_step.
  eapply wp_buffer_at; [lia | lia | done..|]. cbv beta. rewrite !Z.geb_leb, Hm.
  destruct (Z.leb_spec (zlen frames) (cb_frame_count buf)) as [Hfull|Hroom].
  { wp_step. apply wp_buffer_store. wp_step. wp_step. split; [done|].
    eapply (holds_store _ _ _ _ _ (mk_can_buffer _ _ _ _ _ _)); [done.. | by split]. }
  rewrite Hf. wp_step. eapply wp_of_option; [done|]. cbv zeta.
  destruct (lookup_lt_is_Some_2 frames (Z.to_nat (cb_frame_count buf))) as [g Hg]; [unfold zlen in *; lia|].
  wp_step. eapply wp_of_option; [exact Hg|].
  pose proof (Forall_lookup_1 _ _ _ _ Hu Hg) as Hgu. cbn beta in Hgu.
  set (k := Z.to_nat (cb_frame_count buf)) in *.
  assert (k < length frames)%nat as Hk by (unfold k, zlen in *; lia).
  destruct (member_size t) as [n|] eqn:Hn.
  - pose proof (member_size_range t n Hn) as Hnr.
    wp_step. eapply wp_of_option; [apply mem_read_ok; lia|].
    destruct (mem_write 0 (slice (Z.to_nat 0) (Z.to_nat n) data) (gd_data g)) as [union|] eqn:Hmw.
    2: { rewrite mem_write_ok in Hmw; [done | lia |]. rewrite Hgu. unfold zlen, slice in *. rewrite length_take. lia. }
    wp_step. eapply wp_of_option; [done|]. cbv zeta. wp_step. apply wp_buffer_store. wp_step. wp_step.
    destruct (written_member t n data (gd_data g) union Hn Hok Hgu Hmw) as [Hul Hfc].
    assert (u32 (cb_frame_count buf + 1) = cb_frame_count buf + 1) as Hcount.
    { apply wrap_small. unfold in_range. lia. }
    rewrite Hcount. split; [done|].
    eapply (holds_store _ _ _ _ _ _ (<[k := mk_generic t union]> frames)); [done | done | | by rewrite zlen_insert |].
    + split; cbn; rewrite ?zlen_insert; [done | done | lia | done | by apply union_insert].
    + unfold contents. cbn [cb_frame_count]. replace (Z.to_nat (cb_frame_count buf + 1)) with (S k) by lia.
      rewrite take_insert_snoc by done. rewrite fmap_app. f_equal. cbn [fmap list_fmap]. by rewrite Hfc.
  - wp_step. apply wp_buffer_store. wp_step. wp_step. split; [done|].
    eapply (holds_store _ _ _ _ _ _ (<[k := mk_generic t (gd_data g)]> frames)); [done | done | | by rewrite zlen_insert |].
    + split; cbn; rewrite ?zlen_insert; [done | done | lia | done | by apply union_insert].
    + unfold contents. cbn [cb_frame_count set_frames]. by rewrite take_insert_ge by lia.
Qed.

(** An extraction. *)
Lemma extract_spec ch i cap q bs :
  0 <= ch < 6 -> 0 <= i < 3 -> holds ch i bs cap q ->
  wp (run_op ch i Extract) (fun r bs' => let '(r', q') := queue_op cap q Extract in
    r = r' /\ holds ch i bs' cap q') bs.
Proof.
  intros Hch Hi Hq. pose proof Hq as (row & buf & frames & Hr & Hb & Hw & <- & <-).
  pose proof Hw as [Hf Hm Hc Hwd Hu]. pose proof (contents_len _ _ Hw) as Hcl.
  assert (DataType_Z (index_type i) = i) as Hidx.
  { assert (i = 0 \/ i = 1 \/ i = 2) as [->|[->| ->]] by lia; done. }
  cbn [run_op]. unfold can_buffer_extract, AXICAN_MAX. rewrite !Z.geb_leb, Hidx.
  rewrite (proj2 (Z.leb_gt 6 ch)) by lia. cbn [negb]. wp_step. wp_step.
  eapply wp_buffer_at; [lia | lia | done..|]. rewrite Hf. cbv beta.
  destruct (Z.eqb_spec (cb_frame_count buf) 0) as [Hz|Hz].
  { wp_step. wp_step. cbn [queue_op]. destruct (contents buf frames) as [|c q] eqn:E; [done|].
    unfold zlen in Hcl. simpl in Hcl. lia. }
  destruct frames as [|f frames]; [unfold zlen in *; simpl in *; lia|].
  wp_step. eapply wp_of_option; [done|]. cbv zeta. wp_step. apply wp_ensure; [lia|].
  wp_step. apply wp_buffer_store. wp_step. wp_step.
  assert (contents buf (f :: frames) =
    frame_content f :: (frame_content <$> take (Z.to_nat (cb_frame_count buf - 1)) frames)) as Hcons.
  { unfold contents. replace (Z.to_nat (cb_frame_count buf)) with (S (Z.to_nat (cb_frame_count buf - 1))) by lia.
    done. }
  rewrite Hcons. cbn [queue_op fmap option_fmap option_map]. split; [done|].
  set (n := Z.to_nat (cb_frame_count buf - 1)).
  assert (n <= length frames)%nat as Hn by (unfold n, zlen in *; simpl in *; lia).
  assert ((if cb_frame_count buf - 1 >? 0 then move_down n (f :: frames) else f :: frames) =
    move_down n (f :: frames)) as ->.
  { rewrite Z.gtb_ltb. destruct (Z.ltb_spec 0 (cb_frame_count buf - 1)) as [|Hle]; [done|].
    assert (n = 0%nat) as -> by lia. done. }
  assert (length (move_down n (f :: frames)) = length (f :: frames)) as Hlen.
  { unfold move_down. rewrite length_app, length_take, !length_drop. simpl. lia. }
  eapply (holds_store _ _ _ _ _ _ (move_down n (f :: frames))); [done | done | | by unfold zlen; rewrite Hlen |].
  - split; cbn; unfold zlen in *; rewrite ?Hlen; [done | done | lia | done |].
    unfold move_down. apply list.Forall_app. split; [|by apply Forall_drop].
    apply Forall_take. simpl. by apply list.Forall_cons in Hu as [_ Hu].
  - unfold contents. cbn [cb_frame_count]. fold n. unfold move_down. change (drop 1 (f :: frames)) with frames.
    rewrite take_app_le by (rewrite length_take; lia). by rewrite take_take, Nat.min_id.
Qed.

Lemma op_spec ch i o cap q bs :
  0 <= ch < 6 -> 0 <= i < 3 -> op_ok o -> holds ch i bs cap q ->
  wp (run_op ch i o) (fun r bs' => let '(r', q') := queue_op cap q o in
    r = r' /\ holds ch i bs' cap q') bs.
Proof. destruct o; [apply write_spec | intros ?? _; by apply extract_spec]. Qed.

(** The buffers of generic frames are bounded queues: on an allocated buffer,
    every sequence of writes of any type and of extractions answers as a queue
    of the capacity of the buffer does: a full buffer refuses with -2, an
    unknown type with -3, an empty one gives -2, and the extracted frames are
    the written ones, in order, with their type and their bytes. *)
Theorem can_buffer_refines_queue ch i ops cap q bs :
  0 <= ch < 6 -> 0 <= i < 3 -> Forall op_ok ops -> holds ch i bs cap q ->
  exists rs bs', run_ops ch i ops bs = Some (rs, bs') /\
    let '(rs', q') := queue_ops cap q ops in rs = rs' /\ holds ch i bs' cap q'.
Proof.
  intros Hch Hi Hops. revert q bs. induction Hops as [|o ops Ho _ IH]; intros q bs Hq; [by exists [], bs|].
  pose proof (op_spec ch i o cap q bs Hch Hi Ho Hq) as Hwp.
  apply wp_exec in Hwp as (r & bs1 & Hrun & Hpost). cbn [queue_ops].
  destruct (queue_op cap q o) as [r1 q1]. destruct Hpost as [-> Hq1].
  destruct (IH q1 bs1 Hq1) as (rs & bs2 & Hrun2 & Hpost). destruct (queue_ops cap q1 ops) as [rs' q2].
  destruct Hpost as [-> Hq2]. exists (r1 :: rs'), bs2. split; [|done].
  cbn [run_ops]. unfold bind. by rewrite Hrun, Hrun2.
Qed.

Definition small_buffer : CanBufferState :=
  mk_can_buffer (Some (replicate 2 (mk_generic DATA_TYPE_MAX (replicate 288 x00)))) 2 584 0 0 0.
Definition small_buffers : can_buffers := replicate 32 (replicate 5 small_buffer).
Definition pulse_bytes (b : byte) : bytes := replicate (psize (A := SecondPulseData)) b.

Lemma can_buffer_refines_queue_witness :
  exists bs', run_ops 2 1 [Write DATA_TYPE_SECOND_PULSE (pulse_bytes x01); Write DATA_TYPE_DMA [];
      Write DATA_TYPE_SECOND_PULSE (pulse_bytes x02); Write DATA_TYPE_CAN (pulse_bytes x03 ++ replicate 48 x00);
      Extract; Extract; Extract] small_buffers =
    Some ([(0, None); (-3, None); (0, None); (-2, None);
           (0, Some (DATA_TYPE_SECOND_PULSE, pulse_bytes x01));
           (0, Some (DATA_TYPE_SECOND_PULSE, pulse_bytes x02)); (-2, None)], bs').
Proof.
  destruct (can_buffer_refines_queue 2 1 [Write DATA_TYPE_SECOND_PULSE (pulse_bytes x01); Write DATA_TYPE_DMA [];
      Write DATA_TYPE_SECOND_PULSE (pulse_bytes x02); Write DATA_TYPE_CAN (pulse_bytes x03 ++ replicate 48 x00);
      Extract; Extract; Extract] 2 [] small_buffers ltac:(lia) ltac:(lia)) as (rs & bs' & Hrun & Hrs & _).
  - repeat constructor; vm_compute; discriminate.
  - exists (replicate 5 small_buffer), small_buffer, (replicate 2 (mk_generic DATA_TYPE_MAX (replicate 288 x00))).
    split_and!; try reflexivity. split; try reflexivity; [vm_compute; by split|]. by repeat constructor.
  - exists bs'. rewrite Hrun, Hrs. reflexivity.
Defined.

(** The account of the bytes is not kept: writing counts the bytes of the
    member, extraction whole frames, so that taking a frame out makes the
    buffer appear fuller. *)
Example extraction_raises_used_size : exists bs',
  (let* _ := buffer_write_data 2 1 DATA_TYPE_SECOND_PULSE (Some (pulse_bytes x01)) in
   let* _ := buffer_write_data 2 1 DATA_TYPE_SECOND_PULSE (Some (pulse_bytes x02)) in
   let* before := buffer_at 2 1 in
   let* _ := can_buffer_extract 2 DATA_TYPE_SECOND_PULSE true in
   let* after := buffer_at 2 1 in
   ret (calculate_buffer_remaining before, calculate_buffer_remaining after))%c small_buffers
  = Some ((584 - 26, 584 - 292), bs').
Proof. eexists. vm_compute. reflexivity. Qed.

(** ** Time differences *)

Lemma s32_wrap_small z : - 2 ^ 31 <= z < 2 ^ 31 -> s32_wrap z = z.
Proof. intros Hz. unfold s32_wrap. rewrite Z.mod_small; lia. Qed.

Lemma s32_wrap_mod z : s32_wrap z mod 2 ^ 32 = z mod 2 ^ 32.
Proof. unfold s32_wrap. rewrite Zminus_mod_idemp_l. f_equal. lia. Qed.

(** For normalised times the result is the difference in nanoseconds in 32
    bits, whatever the seconds are; it is exact below 2 to the 32, about 4.29
    seconds, and wraps around from there on. *)
Theorem diff_timespec_wraps end_sec end_nsec start_sec start_nsec :
  0 <= end_nsec < 1000000000 -> 0 <= start_nsec < 1000000000 ->
  let d := (end_sec * 1000000000 + end_nsec) - (start_sec * 1000000000 + start_nsec) in
  diff_timespec end_sec end_nsec start_sec start_nsec = u32 d /\
  (0 <= d < 2 ^ 32 -> diff_timespec end_sec end_nsec start_sec start_nsec = d) /\
  (2 ^ 32 <= d -> diff_timespec end_sec end_nsec start_sec start_nsec < d).
Proof.
  intros He Hs d.
  enough (diff_timespec end_sec end_nsec start_sec start_nsec = u32 d) as Heq.
  { split; [done|]. rewrite Heq. split; [intros Hd; by apply wrap_small|]. intros Hd.
    pose proof (wrap_range 32 d ltac:(lia)) as Hr. unfold in_range in Hr. lia. }
  assert (forall s n, (u32 (u32 n + u32 (u32 s * 1000000000))) = u32 (n + s * 1000000000)) as Hsum.
  { intros s n. unfold wrap. rewrite Zmult_mod_idemp_l. by rewrite <- Zplus_mod. }
  assert (forall s n, u32 (n + s32_wrap s * 1000000000) = u32 (n + s * 1000000000)) as Hsec.
  { intros s n. unfold wrap. rewrite Zplus_mod, Zmult_mod, s32_wrap_mod, <- Zmult_mod, <- Zplus_mod. done. }
  unfold diff_timespec. destruct (Z.ltb_spec end_nsec start_nsec) as [Hlt|Hge].
  - rewrite (s32_wrap_small (end_nsec + 1000000000)) by lia. rewrite s32_wrap_small by lia.
    rewrite Hsum, Hsec.
    replace (end_nsec + 1000000000 - start_nsec + (s32_wrap (end_sec - start_sec) - 1) * 1000000000)
      with (end_nsec - start_nsec + s32_wrap (end_sec - start_sec) * 1000000000) by lia.
    rewrite Hsec. f_equal. unfold d. lia.
  - rewrite s32_wrap_small by lia. rewrite Hsum, Hsec. f_equal. unfold d. lia.
Qed.

Lemma diff_timespec_wraps_witness :
  diff_timespec 15 100 10 200 = 705032604 /\ diff_timespec 11 100 10 200 = 999999900.
Proof.
  destruct (diff_timespec_wraps 15 100 10 200 ltac:(lia) ltac:(lia)) as (Hw & _ & _).
  destruct (diff_timespec_wraps 11 100 10 200 ltac:(lia) ltac:(lia)) as (_ & Hx & _).
  split; [rewrite Hw; reflexivity | rewrite Hx; [reflexivity | lia]].
Defined.

(** ** Putting a batch *)

Section CallSpecs.
Context `{OS}.
#[local] Open Scope c_scope.

(** A batch is one element, whatever [count] says: with a count of one the
    result tells whether it was queued; with another count it is -ENOMEM
    although the element may have been queued. *)
Theorem insert_batch_outcome can_id t data count target w :
  bufs_wf (w_bufs w) -> 0 <= can_id < 32 -> 0 < count < 2 ^ 31 -> target_buf t = Some target ->
  buf_esize target <= zlen data ->
  exists r w', can_buffer_insert_batch can_id t (Some data) count w = Some (r, w') /\
    bufs_wf (w_bufs w') /\ bufs_only target can_id (w_bufs w) (w_bufs w') /\
    let q := buf_queue target can_id (w_bufs w) in
    let room := buf_chan_ok target can_id 32 && (zlen q <? buf_depth target) in
    buf_queue target can_id (w_bufs w') =
      (if room then q ++ [take (Z.to_nat (buf_esize target)) data] else q) /\
    r = (if room && (count =? 1) then 1 else - ENOMEM).
Proof.
  intros Hb Hid Hcount Ht Hd.
  enough (wp (can_buffer_insert_batch can_id t (Some data) count) (fun r w' =>
    bufs_wf (w_bufs w') /\ bufs_only target can_id (w_bufs w) (w_bufs w') /\
    let q := buf_queue target can_id (w_bufs w) in
    let room := buf_chan_ok target can_id 32 && (zlen q <? buf_depth target) in
    buf_queue target can_id (w_bufs w') =
      (if room then q ++ [take (Z.to_nat (buf_esize target)) data] else q) /\
    r = (if room && (count =? 1) then 1 else - ENOMEM)) w) as Hwp.
  { apply wp_exec in Hwp as (r & w' & Hrun & Hpost). by exists r, w'. }
  unfold can_buffer_insert_batch. rewrite Z.geb_leb, (proj2 (Z.leb_gt 32 can_id)), Ht by lia.
  rewrite (proj2 (Z.eqb_neq count 0)) by lia. cbn [orb]. cbv iota.
  wp_step. apply wp_buf_put; [done | lia | done|]. intros r b Hb' Ho Hput. wp_step.
  split; [done|]. split; [done|]. cbv zeta. simpl w_bufs.
  unfold Fifo.put in Hput. destruct (buf_chan_ok target can_id 32); cbn [andb].
  - destruct (zlen (buf_queue target can_id (w_bufs w)) <? buf_depth target); injection Hput as -> ->; cbn [andb].
    + split; [done|]. rewrite (Z.eqb_sym count). destruct (Z.eqb_spec 1 count) as [<-|]; [|done]. by vm_compute.
    + split; [done|]. by destruct (Z.eqb_spec 0 count); [lia|].
  - injection Hput as -> ->. split; [done|]. by destruct (Z.eqb_spec 0 count); [lia|].
Qed.

(** ** Status frames *)

(** With a client and an open channel the function reads past the two data
    words of the frame; otherwise it does nothing. *)
Theorem received_frame_overread can_id frame c w :
  w_held w = [] -> 0 <= can_id -> w_configs w !! Z.to_nat can_id = Some c ->
  send_received_can_frame_to_pc can_id frame w =
    if (data_upload_socket w =? -1) || negb (bool_decide (cf_state c = CAN_STATE_OPENED))
    then Some (tt, w) else None.
Proof.
  intros Hh Hid Hc. unfold send_received_can_frame_to_pc, bind. rewrite mutex_lock_eq by by rewrite Hh.
  rewrite Hh. unfold gets. cbn [data_upload_socket set_held].
  destruct (data_upload_socket w =? -1); cbn [orb].
  { rewrite (mutex_unlock_eq _ []) by done. by rewrite set_held_restore. }
  unfold config_at, arr_get. rewrite (proj2 (Z.ltb_ge can_id 0)) by done. cbn [w_configs set_held].
  rewrite Hc. cbn. destruct (bool_decide _); cbn [negb]; [done|].
  rewrite (mutex_unlock_eq _ []) by done. by rewrite set_held_restore.
Qed.

(** Called with the four words of its only callers, the function reads past
    their end, client or not. *)
Theorem status_overread stack ch_id a b c d status type w :
  send_can_tx_status stack ch_id [a; b; c; d] status type w = None.
Proof.
  unfold send_can_tx_status, bind, gets. destruct (arr_upd _ _ _ _ _) as [[]|]; [|done].
  by destruct (arr_get _ _ _) as [[]|].
Qed.

(** A frame of the buffer that answers a received frame. *)
Definition replies_to (rx_frame : axican_frame) (f : GenericDataFrame) : bool :=
  (DataType_Z (gd_type f) =? DataType_Z DATA_TYPE_SIMULATOR) && along_is_match (unpack (gd_data f)) rx_frame.

(** No frame of the buffer answers, or the copy of sixteen bytes from the eight
    of the received frame leaves the array. *)
Lemma along_frames_eq stack can_id rx_frame size frames wakes four s :
  along_frames stack can_id rx_frame size frames wakes four s =
    if existsb (replies_to rx_frame) frames then None else Some (four, s).
Proof.
  induction frames as [|f frames IH]; [done|]. cbn [along_frames existsb]. cbv zeta. unfold replies_to at 1.
  destruct ((DataType_Z (gd_type f) =? DataType_Z DATA_TYPE_SIMULATOR)); cbn [negb orb andb]; [|exact IH].
  destruct (along_is_match (unpack (gd_data f)) rx_frame); cbn [negb orb]; [|exact IH].
  by unfold bind, frame_data, le_enc.
Qed.

(** The older stand-alone mode counts the received frame, and does nothing more
    when the channel has no buffer, an empty one, or no frame that answers, the
    mutexes being free again; a frame that answers is never answered, since the
    function first copies the received data from beyond the end of its array. *)
Theorem along_mode_outcome stack can_id rx_frame four size wakes row buf s :
  along_counter_mutex s = false -> ak_buffer_mutex s = false ->
  0 <= can_id -> ak_buffers s !! Z.to_nat can_id = Some row -> row !! Z.to_nat ALONG_MODE = Some buf ->
  (forall frames, cb_frames buf = Some frames -> cb_frame_count buf <= zlen frames) ->
  handle_along_mode stack can_id rx_frame four size wakes s =
    if match cb_frames buf with
       | Some frames => existsb (replies_to rx_frame) (take (Z.to_nat (cb_frame_count buf)) frames)
       | None => false
       end
    then None else Some (four, ak_set_counter (u32 (along_more_int_couter s + 1)) s).
Proof.
  intros Hc Hb Hid Hrow Hbuf Hcount. destruct s as [w bs c cm bm]. cbn in Hc, Hb, Hrow. subst cm bm.
  unfold handle_along_mode, counter_lock, counter_unlock, buffer_lock, buffer_unlock, on_buffers, bind, gets,
    modify, ensure, ret. cbn.
  unfold buffer_at. rewrite (proj2 (Z.ltb_ge can_id 0)) by done. cbn [orb]. change (ALONG_MODE <? 0) with false.
  cbv iota. rewrite Hrow. cbn [mbind option_bind]. rewrite Hbuf. cbn [mbind option_bind].
  destruct (cb_frames buf) as [frames|] eqn:Hf; [|done]. specialize (Hcount frames eq_refl).
  destruct (Z.eqb_spec (cb_frame_count buf) 0) as [->|Hne]; [done|]. cbn.
  rewrite (proj2 (Z.leb_le _ _)) by done. cbn. rewrite along_frames_eq. by destruct (existsb _ _).
Qed.

(** Waiting without a limit is [axican_poll2] with the limit -1. *)
Theorem axican_poll_unlimited fd flags w : axican_poll fd flags w = axican_poll2 fd flags (-1) w.
Proof.
  unfold axican_poll, axican_poll2. destruct (_ && _)%bool; [done|]. unfold bind, sys.
  destruct (_ >? 0); [done|]. by destruct (_ =? 0).
Qed.
End CallSpecs.

Lemma insert_batch_outcome_witness :
  exists w1 w2, can_buffer_insert_batch 3 DATA_TYPE_CAN (Some (pack sample_frame)) 1 boot_world = Some (1, w1) /\
    can_buffer_insert_batch 3 DATA_TYPE_CAN (Some (pack sample_frame)) 2 boot_world = Some (- ENOMEM, w2) /\
    buf_queue Data 3 (w_bufs w2) = [take 48 (pack sample_frame)].
Proof.
  assert (buf_esize Data <= zlen (pack sample_frame)) as Hd by (vm_compute; discriminate).
  destruct (insert_batch_outcome 3 DATA_TYPE_CAN (pack sample_frame) 1 Data boot_world empty_buffers_wf
    ltac:(lia) ltac:(lia) eq_refl Hd) as (r1 & w1 & Hrun1 & _ & _ & _ & Hr1).
  destruct (insert_batch_outcome 3 DATA_TYPE_CAN (pack sample_frame) 2 Data boot_world empty_buffers_wf
    ltac:(lia) ltac:(lia) eq_refl Hd) as (r2 & w2 & Hrun2 & _ & _ & Hq2 & Hr2).
  change (buf_queue Data 3 (w_bufs boot_world)) with (buf_queue Data 3 empty_buffers) in *.
  rewrite empty_buffers_queue in *. subst r1 r2. exists w1, w2.
  split; [exact Hrun1|]. split; [exact Hrun2|]. exact Hq2.
Defined.

Lemma received_frame_overread_witness :
  send_received_can_frame_to_pc (H := quiet_os) 2 zero_frame connected_world = Some (tt, connected_world).
Proof.
  rewrite (received_frame_overread (H := quiet_os) 2 zero_frame (mk_config 2 500000 4 2 1 CAN_STATE_CLOSED)
    connected_world eq_refl ltac:(lia) eq_refl). reflexivity.
Defined.

(** A buffer with an answer to identifier 7 and the data AA BB CC DD. *)
Definition along_answer : GenericDataFrame :=
  mk_generic DATA_TYPE_SIMULATOR (pack (mk_PC_ARM_SIMULATOR_DATA 0 0 0 0 2 0 0 0 7 0xDDCCBBAA 8 16 0 (replicate 256 x00))).
Definition along_buffers : can_buffers := replicate 32 (replicate 5 (mk_can_buffer (Some [along_answer]) 1 292 292 1 0)).
Definition along_idle : along_state := mk_along_state boot_world along_buffers (2 ^ 32 - 1) false false.
Definition no_stack : CAN_ARM_PC_DATA := unpack [].

Lemma along_mode_outcome_witness :
  handle_along_mode (H := quiet_os) no_stack 2 (mk_axican_frame 7 0 0xDDCCBBAB 0 0) [] 0 [] along_idle =
    Some ([], ak_set_counter 0 along_idle) /\
  handle_along_mode (H := quiet_os) no_stack 2 (mk_axican_frame 7 0 0xDDCCBBAA 0 0) [] 0 [] along_idle = None.
Proof.
  assert (forall frames, cb_frames (mk_can_buffer (Some [along_answer]) 1 292 292 1 0) = Some frames ->
    1 <= zlen frames) as Hc by (intros frames [= <-]; vm_compute; discriminate).
  split.
  - rewrite (along_mode_outcome (H := quiet_os) no_stack 2 (mk_axican_frame 7 0 0xDDCCBBAB 0 0) [] 0 []
      (replicate 5 (mk_can_buffer (Some [along_answer]) 1 292 292 1 0)) (mk_can_buffer (Some [along_answer]) 1 292 292 1 0)
      along_idle eq_refl eq_refl ltac:(lia) eq_refl eq_refl Hc).
    assert (existsb (replies_to (mk_axican_frame 7 0 0xDDCCBBAB 0 0)) [along_answer] = false) as He
      by (vm_compute; reflexivity).
    cbn [cb_frames cb_frame_count]. change (take (Z.to_nat 1) [along_answer]) with [along_answer]. rewrite He.
    reflexivity.
  - rewrite (along_mode_outcome (H := quiet_os) no_stack 2 (mk_axican_frame 7 0 0xDDCCBBAA 0 0) [] 0 []
      (replicate 5 (mk_can_buffer (Some [along_answer]) 1 292 292 1 0)) (mk_can_buffer (Some [along_answer]) 1 292 292 1 0)
      along_idle eq_refl eq_refl ltac:(lia) eq_refl eq_refl Hc).
    assert (existsb (replies_to (mk_axican_frame 7 0 0xDDCCBBAA 0 0)) [along_answer] = true) as He
      by (vm_compute; reflexivity).
    cbn [cb_frames cb_frame_count]. change (take (Z.to_nat 1) [along_answer]) with [along_answer]. rewrite He.
    reflexivity.
Defined.
